(** * ShopifyInventoryinator: order allocation and reconciliation engine

    A shallow embedding of the SQLite-backed store of
    [src/main/database.js] and of the IPC handlers of
    [src/main/ipc-handlers.js] that drive it, followed by the properties
    the specification states about them.

    Tables are lists of rows in [id] order: every table has an
    [INTEGER PRIMARY KEY AUTOINCREMENT] column, so a fresh row always gets
    the largest id and an [INSERT] is an append; that column is not stored
    in the rows.  The wall-clock columns ([created_at], [updated_at],
    [last_synced_at]) are left out: no decision of the engine reads them. *)

From Stdlib Require Import ZArith Lia OrdersEx.
From stdpp Require Import base decidable option list sorting strings gmap.

Local Open Scope Z_scope.

(** ** Data model *)

Module TaskStatus.
(** [CHECK(status IN ('pending', 'in_progress', 'completed'))] *)
Inductive t := pending | in_progress | completed.
#[global] Instance eq_dec : EqDecision t.
Proof. solve_decision. Defined.
End TaskStatus.

Module OrderStatus.
(** [CHECK(status IN ('pending', 'in_progress', 'fulfilled', 'archived'))] *)
Inductive t := pending | in_progress | fulfilled | archived.
#[global] Instance eq_dec : EqDecision t.
Proof. solve_decision. Defined.
End OrderStatus.

Module Task.
(** A row of table [tasks]. *)
Record t := mk {
  variant_id : string;
  variant_title : string;
  product_title : string;
  sku : string;
  image_url : option string;
  total_quantity : Z;
  made_quantity : Z;
  status : TaskStatus.t
}.
#[global] Instance eq_dec : EqDecision t.
Proof. solve_decision. Defined.

Definition set_total_quantity (n : Z) (r : t) : t :=
  mk (variant_id r) (variant_title r) (product_title r) (sku r)
     (image_url r) n (made_quantity r) (status r).
Definition set_made_quantity (n : Z) (r : t) : t :=
  mk (variant_id r) (variant_title r) (product_title r) (sku r)
     (image_url r) (total_quantity r) n (status r).
Definition set_status (s : TaskStatus.t) (r : t) : t :=
  mk (variant_id r) (variant_title r) (product_title r) (sku r)
     (image_url r) (total_quantity r) (made_quantity r) s.
End Task.

Module Order.
(** A row of table [orders].  [order_date] holds the ISO-8601 text
    Shopify reports in [createdAt]; SQLite orders such text bytewise. *)
Record t := mk {
  order_id : string;
  order_name : string;
  order_date : string;
  total_items : Z;
  fulfilled_items : Z;
  status : OrderStatus.t
}.
#[global] Instance eq_dec : EqDecision t.
Proof. solve_decision. Defined.

Definition set_fulfilled_items (n : Z) (r : t) : t :=
  mk (order_id r) (order_name r) (order_date r) (total_items r) n (status r).
Definition set_status (s : OrderStatus.t) (r : t) : t :=
  mk (order_id r) (order_name r) (order_date r) (total_items r)
     (fulfilled_items r) s.
End Order.

Module LineItem.
(** A row of table [order_line_items]. *)
Record t := mk {
  order_id : string;
  line_item_id : string;
  variant_id : string;
  variant_title : string;
  product_title : string;
  sku : string;
  image_url : option string;
  quantity : Z;
  fulfilled_quantity : Z
}.
#[global] Instance eq_dec : EqDecision t.
Proof. solve_decision. Defined.

Definition set_quantity (n : Z) (r : t) : t :=
  mk (order_id r) (line_item_id r) (variant_id r) (variant_title r)
     (product_title r) (sku r) (image_url r) n (fulfilled_quantity r).
Definition set_fulfilled_quantity (n : Z) (r : t) : t :=
  mk (order_id r) (line_item_id r) (variant_id r) (variant_title r)
     (product_title r) (sku r) (image_url r) (quantity r) n.
End LineItem.

(** The database handle [db] of [database.js]: the three tables the engine
    works on. *)
Record db := mkDb {
  tasks : list Task.t;
  orders : list Order.t;
  order_line_items : list LineItem.t
}.

#[global] Instance db_eq_dec : EqDecision db.
Proof. solve_decision. Defined.

Definition set_tasks (f : list Task.t → list Task.t) (d : db) : db :=
  mkDb (f (tasks d)) (orders d) (order_line_items d).
Definition set_orders (f : list Order.t → list Order.t) (d : db) : db :=
  mkDb (tasks d) (f (orders d)) (order_line_items d).
Definition set_order_line_items
    (f : list LineItem.t → list LineItem.t) (d : db) : db :=
  mkDb (tasks d) (orders d) (f (order_line_items d)).

Definition emptyDb : db := mkDb [] [] [].

(** ** SQL statements on a table *)

Section Sql.
Context {A : Type} (P : A → Prop) `{!∀ r, Decision (P r)}.

(** [UPDATE tbl SET ... WHERE P] *)
Definition update_where (f : A → A) (tbl : list A) : list A :=
  (λ r, if decide (P r) then f r else r) <$> tbl.

(** [DELETE FROM tbl WHERE P] *)
Definition delete_where (tbl : list A) : list A :=
  filter (λ r, ¬ P r) tbl.

(** [SELECT * FROM tbl WHERE P] read with [.get()]: the first row. *)
Definition select_one (tbl : list A) : option A :=
  head (filter P tbl).

(** [INSERT ... ON CONFLICT(key) DO UPDATE SET ...], with [P] the rows in
    conflict with the new one. *)
Definition insert_or_update (new : A) (f : A → A) (tbl : list A) : list A :=
  if decide (Exists P tbl) then update_where f tbl else tbl ++ [new].
End Sql.

Arguments update_where : simpl never.
Arguments delete_where : simpl never.
Arguments select_one : simpl never.
Arguments insert_or_update : simpl never.

(** What better-sqlite3 returns from [stmt.run]: the number of rows the
    statement changed. *)
Record RunResult := mkRun { changes : nat }.

(** ** Errors and the outcome of a call

    The handlers do not open transactions, so a thrown error leaves the
    writes made before it in place: an outcome carries the database next
    to the value or the error. *)

Inductive error :=
| TaskNotFound (variantId : string)
    (* Error(`Task not found for variant: ${variantId}`) *)
| ExceedsTotal (quantity total : Z)
    (* Error(`Cannot mark ${quantity} - would exceed total (${total})`) *)
| OrderNotFound
    (* Error('Order not found') *)
| VariantIdRequired
| QuantityNotPositive
| OrderIdRequired
| UndefinedRow.
    (* TypeError on reading a column of a row that [.get()] did not find *)

Inductive outcome (A : Type) :=
| Ok (a : A)
| Thrown (e : error).
Arguments Ok {A} a.
Arguments Thrown {A} e.

Definition M (A : Type) : Type := db → outcome A * db.

#[global] Instance M_ret : MRet M := λ A a d, (Ok a, d).
#[global] Instance M_bind : MBind M := λ A B k m d,
  match m d with
  | (Ok a, d') => k a d'
  | (Thrown e, d') => (Thrown e, d')
  end.
Definition throw {A} (e : error) : M A := λ d, (Thrown e, d).
Definition exec (f : db → db) : M unit := λ d, (Ok tt, f d).
Definition query {A} (f : db → A) : M A := λ d, (Ok (f d), d).

(** ** Task store ([database.js]) *)

(** The [CASE] of [updateTaskStatus]. *)
Definition taskStatusCase (made_quantity total_quantity : Z) : TaskStatus.t :=
  if decide (made_quantity = 0) then TaskStatus.pending
  else if decide (total_quantity ≤ made_quantity) then TaskStatus.completed
  else TaskStatus.in_progress.

Definition restatusTask (r : Task.t) : Task.t :=
  Task.set_status
    (taskStatusCase (Task.made_quantity r) (Task.total_quantity r)) r.

Definition updateTaskStatus (variantId : string) (d : db) : db :=
  set_tasks (update_where (λ r, Task.variant_id r = variantId) restatusTask) d.

Definition getTaskByVariantId (variantId : string) (d : db) : option Task.t :=
  select_one (λ r, Task.variant_id r = variantId) (tasks d).

(** The object [upsertTask] receives: an entry of [aggregated]. *)
Record TaskInput := mkTaskInput {
  ti_variantId : string;
  ti_variantTitle : string;
  ti_productTitle : string;
  ti_sku : string;
  ti_imageUrl : option string;
  ti_totalQuantity : Z
}.

(** [imageUrl || null]: the empty string is falsy. *)
Definition or_null (s : option string) : option string :=
  match s with
  | Some EmptyString => None
  | _ => s
  end.

Definition upsertTask (task : TaskInput) (d : db) : db :=
  let new :=
    Task.mk (ti_variantId task) (ti_variantTitle task) (ti_productTitle task)
            (ti_sku task) (or_null (ti_imageUrl task)) (ti_totalQuantity task)
            0 TaskStatus.pending in
  let excluded (r : Task.t) :=
    Task.mk (Task.variant_id r) (ti_variantTitle task) (ti_productTitle task)
            (ti_sku task) (or_null (ti_imageUrl task)) (ti_totalQuantity task)
            (Task.made_quantity r) (Task.status r) in
  updateTaskStatus (ti_variantId task)
    (set_tasks
       (insert_or_update (λ r, Task.variant_id r = ti_variantId task)
          new excluded) d).

Definition updateMadeQuantity (variantId : string) (quantity : Z)
    : M RunResult := λ d,
  match getTaskByVariantId variantId d with
  | None => (Thrown (TaskNotFound variantId), d)
  | Some task =>
      let newMade := Task.made_quantity task + quantity in
      if decide (Task.total_quantity task < newMade) then
        (Thrown (ExceedsTotal quantity (Task.total_quantity task)), d)
      else
        let hit (r : Task.t) := Task.variant_id r = variantId in
        let result := mkRun (length (filter hit (tasks d))) in
        let d1 :=
          set_tasks
            (update_where hit
               (λ r, Task.set_made_quantity (Task.made_quantity r + quantity) r))
            d in
        (Ok result, updateTaskStatus variantId d1)
  end.

Definition markTaskComplete (variantId : string) (d : db) : db :=
  updateTaskStatus variantId
    (set_tasks
       (update_where (λ r, Task.variant_id r = variantId)
          (λ r, Task.set_made_quantity (Task.total_quantity r) r)) d).

Definition resetTask (variantId : string) : M RunResult := λ d,
  let hit (r : Task.t) := Task.variant_id r = variantId in
  let result := mkRun (length (filter hit (tasks d))) in
  let d1 := set_tasks (update_where hit (Task.set_made_quantity 0)) d in
  (Ok result, updateTaskStatus variantId d1).

(** ** Order store ([database.js]) *)

(** The objects [upsertOrderLineItem] and [upsertOrder] receive: the
    entries of [ordersForStorage]. *)
Record LineItemInput := mkLineItemInput {
  lii_orderId : string;
  lii_lineItemId : string;
  lii_variantId : string;
  lii_variantTitle : string;
  lii_productTitle : string;
  lii_sku : string;
  lii_imageUrl : option string;
  lii_quantity : Z
}.

Record OrderInput := mkOrderInput {
  oi_orderId : string;
  oi_orderName : string;
  oi_orderDate : string;
  oi_totalItems : Z;
  oi_lineItems : list LineItemInput
}.

Definition upsertOrder (order : OrderInput) (d : db) : db :=
  let new :=
    Order.mk (oi_orderId order) (oi_orderName order) (oi_orderDate order)
             (oi_totalItems order) 0 OrderStatus.pending in
  let excluded (r : Order.t) :=
    Order.mk (Order.order_id r) (oi_orderName order) (oi_orderDate order)
             (oi_totalItems order) (Order.fulfilled_items r) (Order.status r) in
  set_orders
    (insert_or_update (λ r, Order.order_id r = oi_orderId order) new excluded) d.

Definition upsertOrderLineItem (lineItem : LineItemInput) (d : db) : db :=
  let new :=
    LineItem.mk (lii_orderId lineItem) (lii_lineItemId lineItem)
                (lii_variantId lineItem) (lii_variantTitle lineItem)
                (lii_productTitle lineItem) (lii_sku lineItem)
                (or_null (lii_imageUrl lineItem)) (lii_quantity lineItem) 0 in
  set_order_line_items
    (insert_or_update
       (λ r, LineItem.line_item_id r = lii_lineItemId lineItem)
       new (LineItem.set_quantity (lii_quantity lineItem))) d.

(** [SELECT ... FROM orders WHERE order_id = ?] read with [.get()]. *)
Definition getOrderByOrderId (orderId : string) (d : db) : option Order.t :=
  select_one (λ r, Order.order_id r = orderId) (orders d).

(** [SELECT ... FROM order_line_items WHERE order_id = ?] *)
Definition lineItemsOfOrder (orderId : string) (d : db) : list LineItem.t :=
  filter (λ r, LineItem.order_id r = orderId) (order_line_items d).

Definition sumZ (l : list Z) : Z := foldr Z.add 0 l.
Arguments sumZ : simpl never.

(** The [CASE] of the second statement of [updateAllOrderStatuses]. *)
Definition orderStatusCase (fulfilled_items total_items : Z) : OrderStatus.t :=
  if decide (fulfilled_items = 0) then OrderStatus.pending
  else if decide (total_items ≤ fulfilled_items) then OrderStatus.fulfilled
  else OrderStatus.in_progress.

Definition notArchived (o : Order.t) : Prop :=
  Order.status o ≠ OrderStatus.archived.

Definition updateAllOrderStatuses (d : db) : db :=
  let d1 :=
    set_orders
      (update_where notArchived
         (λ o, Order.set_fulfilled_items
                 (sumZ (LineItem.fulfilled_quantity
                          <$> lineItemsOfOrder (Order.order_id o) d)) o)) d in
  set_orders
    (update_where notArchived
       (λ o, Order.set_status
               (orderStatusCase (Order.fulfilled_items o) (Order.total_items o))
               o)) d1.

(** [order_line_items oli JOIN orders o ON oli.order_id = o.order_id]:
    [orders.order_id] is [UNIQUE], so a line item joins with at most one
    order; one without a parent row drops out. *)
Definition joinOrders (d : db) : list (LineItem.t * Order.t) :=
  omap (λ li, (λ o, (li, o)) <$> getOrderByOrderId (LineItem.order_id li) d)
       (order_line_items d).

(** [ORDER BY key ASC, id ASC]: rows come in [id] order, and a row goes in
    front of the first later row whose key is not smaller. *)
Section OrderBy.
Context {A : Type} (key : A → string).

Fixpoint insertRow (x : A) (l : list A) : list A :=
  match l with
  | [] => [x]
  | y :: l' =>
      if String.leb (key x) (key y) then x :: l else y :: insertRow x l'
  end.

Definition orderBy (l : list A) : list A := foldr insertRow [] l.
End OrderBy.

Record Allocation := mkAllocation {
  alloc_orderId : string;
  alloc_lineItemId : string;
  allocated : Z
}.

(** The variables the [for] loop of [allocateMadeQuantityToOrders] updates,
    with the table its [UPDATE] writes. *)
Record AllocState := mkAllocState {
  remainingToAllocate : Z;
  lineItemTable : list LineItem.t;
  allocations : list Allocation;
  affectedOrderIds : gset string
}.

Fixpoint allocateLoop (lineItems : list (LineItem.t * Order.t))
    (st : AllocState) : AllocState :=
  match lineItems with
  | [] => st
  | (item, _) :: rest =>
      if decide (remainingToAllocate st ≤ 0) then st
      else
        let canFulfill :=
          LineItem.quantity item - LineItem.fulfilled_quantity item in
        let willFulfill := Z.min canFulfill (remainingToAllocate st) in
        if decide (0 < willFulfill) then
          allocateLoop rest
            (mkAllocState
               (remainingToAllocate st - willFulfill)
               (update_where
                  (λ r, LineItem.line_item_id r = LineItem.line_item_id item)
                  (λ r, LineItem.set_fulfilled_quantity
                          (LineItem.fulfilled_quantity r + willFulfill) r)
                  (lineItemTable st))
               (allocations st ++
                  [mkAllocation (LineItem.order_id item)
                     (LineItem.line_item_id item) willFulfill])
               ({[LineItem.order_id item]} ∪ affectedOrderIds st))
        else allocateLoop rest st
  end.

(** The rows the allocation query returns, in the order it returns them. *)
Definition allocationCandidates (variantId : string) (d : db)
    : list (LineItem.t * Order.t) :=
  orderBy (λ p, Order.order_date p.2)
    (filter
       (λ p, LineItem.variant_id p.1 = variantId
             ∧ LineItem.fulfilled_quantity p.1 < LineItem.quantity p.1
             ∧ notArchived p.2)
       (joinOrders d)).

Record AllocationResult := mkAllocationResult {
  res_allocations : list Allocation;
  newlyFulfilledOrders : list Order.t
}.

Definition allocateMadeQuantityToOrders (variantId : string) (quantity : Z)
    (d : db) : AllocationResult * db :=
  let notFulfilledBefore : gset string :=
    list_to_set
      (Order.order_id
         <$> filter (λ o, Order.status o ≠ OrderStatus.fulfilled
                          ∧ Order.status o ≠ OrderStatus.archived)
                    (orders d)) in
  let lineItems := allocationCandidates variantId d in
  let st :=
    allocateLoop lineItems
      (mkAllocState quantity (order_line_items d) [] ∅) in
  let d1 :=
    updateAllOrderStatuses (set_order_line_items (λ _, lineItemTable st) d) in
  let newly :=
    if decide (affectedOrderIds st = ∅) then []
    else
      let fulfilledOrders :=
        filter (λ o, Order.order_id o ∈ affectedOrderIds st
                     ∧ Order.status o = OrderStatus.fulfilled) (orders d1) in
      filter (λ o, Order.order_id o ∈ notFulfilledBefore) fulfilledOrders in
  (mkAllocationResult (allocations st) newly, d1).

Definition resetVariantInOrders (variantId : string) (d : db) : db :=
  updateAllOrderStatuses
    (set_order_line_items
       (update_where (λ r, LineItem.variant_id r = variantId)
          (LineItem.set_fulfilled_quantity 0)) d).

(** ** Reconciliation ([database.js]) *)

Definition withoutProgress (o : Order.t) : Prop :=
  Order.status o ≠ OrderStatus.archived ∧ Order.fulfilled_items o = 0.

Definition clearOrdersWithoutProgress (d : db) : gset string * db :=
  let progressOrderIds : gset string :=
    list_to_set
      (Order.order_id
         <$> filter (λ o, Order.status o ≠ OrderStatus.archived
                          ∧ 0 < Order.fulfilled_items o) (orders d)) in
  let cleared := Order.order_id <$> filter withoutProgress (orders d) in
  let d1 :=
    set_order_line_items
      (delete_where (λ r, LineItem.order_id r ∈ cleared)) d in
  (progressOrderIds, set_orders (delete_where withoutProgress) d1).

Definition getOrderIdsToSkipDuringSync (d : db) : gset string :=
  list_to_set
    (Order.order_id
       <$> filter (λ o, Order.status o = OrderStatus.archived
                        ∨ 0 < Order.fulfilled_items o) (orders d)).

(** The line items of orders that are not archived: the rows of the
    [JOIN ... WHERE o.status != 'archived'] of
    [recalculateTaskTotalsFromOrders]. *)
Definition nonArchivedLineItems (d : db) : list LineItem.t :=
  fst <$> filter (λ p, notArchived p.2) (joinOrders d).

Definition itemsOfVariant (variantId : string) (l : list LineItem.t)
    : list LineItem.t :=
  filter (λ r, LineItem.variant_id r = variantId) l.

(** [SUM(oli.quantity)] and [SUM(oli.fulfilled_quantity)] of one group. *)
Definition sumQuantity (variantId : string) (d : db) : Z :=
  sumZ (LineItem.quantity <$> itemsOfVariant variantId (nonArchivedLineItems d)).
Definition sumFulfilled (variantId : string) (d : db) : Z :=
  sumZ (LineItem.fulfilled_quantity
          <$> itemsOfVariant variantId (nonArchivedLineItems d)).

(** The rows of the [GROUP BY oli.variant_id] query, one per variant that
    has a row, and the [Map] built from them. *)
Definition lineItemTotals (d : db) : list (string * (Z * Z)) :=
  (λ v, (v, (sumQuantity v d, sumFulfilled v d)))
    <$> remove_dups (LineItem.variant_id <$> nonArchivedLineItems d).

Definition variantTotals (d : db) : gmap string (Z * Z) :=
  list_to_map (lineItemTotals d).

(** The prepared statement [updateTask] of
    [recalculateTaskTotalsFromOrders]. *)
Definition updateTask (total made : Z) (variantId : string) (d : db) : db :=
  set_tasks
    (update_where (λ r, Task.variant_id r = variantId)
       (λ r, Task.set_made_quantity made (Task.set_total_quantity total r))) d.

Definition recalculateStep (totals : gmap string (Z * Z)) (d : db)
    (variantId : string) : db :=
  match totals !! variantId with
  | Some (total, fulfilled) =>
      updateTaskStatus variantId (updateTask total fulfilled variantId d)
  | None =>
      updateTaskStatus variantId (updateTask 0 0 variantId d)
  end.

Definition deleteZeroTotalTasks (d : db) : db :=
  set_tasks (delete_where (λ r, Task.total_quantity r = 0)) d.

Definition recalculateTaskTotalsFromOrders (d : db) : db :=
  let totals := variantTotals d in
  let allTasks := Task.variant_id <$> tasks d in
  deleteZeroTotalTasks (foldl (recalculateStep totals) d allTasks).

(** ** Archive and unarchive ([database.js]) *)

Record ArchiveResult := mkArchiveResult {
  success : bool;
  alreadyArchived : bool;
  notArchivedFlag : bool
}.

(** One turn of the [for] loop of [archiveOrder]. *)
Definition archiveItem (d : db) (item : LineItem.t) : db :=
  let hit (r : Task.t) := Task.variant_id r = LineItem.variant_id item in
  let d1 :=
    if decide (0 < LineItem.fulfilled_quantity item) then
      set_tasks
        (update_where hit
           (λ r, Task.set_made_quantity
                   (Z.max 0 (Task.made_quantity r
                             - LineItem.fulfilled_quantity item)) r)) d
    else d in
  let d2 :=
    set_tasks
      (update_where hit
         (λ r, Task.set_total_quantity
                 (Z.max 0 (Task.total_quantity r - LineItem.quantity item)) r))
      d1 in
  updateTaskStatus (LineItem.variant_id item) d2.

Definition setOrderStatus (orderId : string) (s : OrderStatus.t) (d : db) : db :=
  set_orders
    (update_where (λ r, Order.order_id r = orderId) (Order.set_status s)) d.

Definition archiveOrder (orderId : string) : M ArchiveResult := λ d,
  match getOrderByOrderId orderId d with
  | None => (Thrown OrderNotFound, d)
  | Some order =>
      if decide (Order.status order = OrderStatus.archived) then
        (Ok (mkArchiveResult true true false), d)
      else
        let lineItems := lineItemsOfOrder orderId d in
        let d1 := foldl archiveItem d lineItems in
        let d2 := setOrderStatus orderId OrderStatus.archived d1 in
        (Ok (mkArchiveResult true false false), deleteZeroTotalTasks d2)
  end.

(** One turn of the [for] loop of [unarchiveOrder]. *)
Definition unarchiveItem (d : db) (item : LineItem.t) : db :=
  let d1 :=
    match getTaskByVariantId (LineItem.variant_id item) d with
    | Some existingTask =>
        set_tasks
          (update_where
             (λ r, Task.variant_id r = LineItem.variant_id item)
             (λ r, Task.set_made_quantity
                     (Task.made_quantity r + LineItem.fulfilled_quantity item)
                     (Task.set_total_quantity
                        (Task.total_quantity r + LineItem.quantity item) r))) d
    | None =>
        set_tasks
          (λ tbl, tbl ++
             [Task.mk (LineItem.variant_id item) (LineItem.variant_title item)
                (LineItem.product_title item) (LineItem.sku item)
                (LineItem.image_url item) (LineItem.quantity item)
                (LineItem.fulfilled_quantity item) TaskStatus.pending]) d
    end in
  updateTaskStatus (LineItem.variant_id item) d1.

(** The status [unarchiveOrder] restores from the stored counters. *)
Definition restoredStatus (fulfilled_items total_items : Z) : OrderStatus.t :=
  if decide (total_items ≤ fulfilled_items) then OrderStatus.fulfilled
  else if decide (0 < fulfilled_items) then OrderStatus.in_progress
  else OrderStatus.pending.

Definition unarchiveOrder (orderId : string) : M ArchiveResult := λ d,
  match getOrderByOrderId orderId d with
  | None => (Thrown OrderNotFound, d)
  | Some order =>
      if decide (Order.status order ≠ OrderStatus.archived) then
        (Ok (mkArchiveResult true false true), d)
      else
        let lineItems := lineItemsOfOrder orderId d in
        let d1 := foldl unarchiveItem d lineItems in
        match getOrderByOrderId orderId d1 with
        | None => (Thrown UndefinedRow, d1)
        | Some orderData =>
            let newStatus :=
              restoredStatus (Order.fulfilled_items orderData)
                             (Order.total_items orderData) in
            (Ok (mkArchiveResult true false false),
             setOrderStatus orderId newStatus d1)
        end
  end.

(** ** IPC handlers ([ipc-handlers.js])

    Each handler wraps its body in [try]/[catch]: [Ok] is the reply
    [{ success: true, ... }], [Thrown] the reply [{ success: false, error }].
    Quantities arrive as integers from the renderer. *)

Definition mark_made (variantId : string) (quantity : Z)
    : M (option Task.t * list Order.t) :=
  if decide (variantId = EmptyString) then throw VariantIdRequired
  else if decide (quantity < 1) then throw QuantityNotPositive
  else
    _ ← updateMadeQuantity variantId quantity;
    r ← (λ d, let (r, d') := allocateMadeQuantityToOrders variantId quantity d
              in (Ok r, d'));
    updatedTask ← query (getTaskByVariantId variantId);
    mret (updatedTask, newlyFulfilledOrders r).

Definition mark_complete (variantId : string)
    : M (option Task.t * list Order.t) :=
  if decide (variantId = EmptyString) then throw VariantIdRequired
  else
    task ← query (getTaskByVariantId variantId);
    match task with
    | None => throw UndefinedRow
    | Some task =>
        let remainingQty := Task.total_quantity task - Task.made_quantity task in
        _ ← exec (markTaskComplete variantId);
        newly ← (if decide (0 < remainingQty) then
                   λ d, let (r, d') :=
                          allocateMadeQuantityToOrders variantId remainingQty d
                        in (Ok (newlyFulfilledOrders r), d')
                 else mret []);
        updatedTask ← query (getTaskByVariantId variantId);
        mret (updatedTask, newly)
    end.

Definition reset_task (variantId : string) : M (option Task.t) :=
  if decide (variantId = EmptyString) then throw VariantIdRequired
  else
    _ ← resetTask variantId;
    _ ← exec (resetVariantInOrders variantId);
    query (getTaskByVariantId variantId).

Definition archive_order (orderId : string) : M unit :=
  if decide (orderId = EmptyString) then throw OrderIdRequired
  else _ ← archiveOrder orderId; mret tt.

Definition unarchive_order (orderId : string) : M unit :=
  if decide (orderId = EmptyString) then throw OrderIdRequired
  else _ ← unarchiveOrder orderId; mret tt.

(** The storage loop of the [sync-shopify] handler. *)
Definition storeOrder (skipOrderIds : gset string) (d : db)
    (order : OrderInput) : db :=
  if decide (oi_orderId order ∈ skipOrderIds) then d
  else foldl (λ d lineItem, upsertOrderLineItem lineItem d)
             (upsertOrder order d) (oi_lineItems order).

Definition storeOrders (skipOrderIds : gset string)
    (ordersForStorage : list OrderInput) (d : db) : db :=
  foldl (storeOrder skipOrderIds) d ordersForStorage.

(** The [sync-shopify] handler from the point where
    [client.fetchAndAggregate()] has returned [aggregated] and
    [ordersForStorage]; a failed fetch throws before any write. *)
Definition sync_shopify (aggregated : list TaskInput)
    (ordersForStorage : list OrderInput) (d : db) : db :=
  let skipOrderIds := getOrderIdsToSkipDuringSync d in
  let d1 := (clearOrdersWithoutProgress d).2 in
  let d2 := storeOrders skipOrderIds ordersForStorage d1 in
  let d3 := foldl (λ d item, upsertTask item d) d2 aggregated in
  let d4 :=
    if decide (skipOrderIds = ∅) then d3
    else recalculateTaskTotalsFromOrders d3 in
  updateAllOrderStatuses d4.

(** ** The test mirror ([tests/helpers/test-database.js])

    The test helper re-implements the store over sql.js.  Two of its
    functions answer differently from [database.js] and are kept here next
    to the production ones. *)

Module TestDatabase.

(** The status expression the mirror writes out in every function. *)
Definition inlineTaskStatus (newMade total_quantity : Z) : TaskStatus.t :=
  if decide (total_quantity ≤ newMade) then TaskStatus.completed
  else if decide (0 < newMade) then TaskStatus.in_progress
  else TaskStatus.pending.

Record MadeResult := mkMadeResult {
  previousMade : Z;
  newMade : Z;
  actualAdded : Z;
  newStatus : TaskStatus.t
}.

Definition updateMadeQuantity (variantId : string) (quantityToAdd : Z)
    : M MadeResult := λ d,
  match getTaskByVariantId variantId d with
  | None => (Thrown (TaskNotFound variantId), d)
  | Some task =>
      let newMade :=
        Z.min (Task.made_quantity task + quantityToAdd)
              (Task.total_quantity task) in
      let actualAdded := newMade - Task.made_quantity task in
      let newStatus := inlineTaskStatus newMade (Task.total_quantity task) in
      (Ok (mkMadeResult (Task.made_quantity task) newMade actualAdded newStatus),
       set_tasks
         (update_where (λ r, Task.variant_id r = variantId)
            (λ r, Task.set_status newStatus (Task.set_made_quantity newMade r)))
         d)
  end.

Definition resetTask (variantId : string) : M bool := λ d,
  (Ok true,
   set_tasks
     (update_where (λ r, Task.variant_id r = variantId)
        (λ r, Task.set_status TaskStatus.pending (Task.set_made_quantity 0 r)))
     d).

End TestDatabase.

(** ** Row relations, and the databases and inputs used as examples *)




Definition oneTask (made total : Z) : db :=
  mkDb [Task.mk "v1" "Blue" "Shirt" "S-1" None total made TaskStatus.in_progress]
       [] [].

(** Two line-item rows that differ at most in [quantity]. *)
Definition sameProgress (li li' : LineItem.t) : Prop :=
  LineItem.line_item_id li' = LineItem.line_item_id li
  ∧ LineItem.order_id li' = LineItem.order_id li
  ∧ LineItem.variant_id li' = LineItem.variant_id li
  ∧ LineItem.fulfilled_quantity li' = LineItem.fulfilled_quantity li.

Definition shirtLine (orderId lineItemId : string) (quantity fulfilled : Z)
    : LineItem.t :=
  LineItem.mk orderId lineItemId "v1" "Blue" "Shirt" "S-1" None
              quantity fulfilled.

Definition orderRow (orderId date : string) (total fulfilled : Z)
    (status : OrderStatus.t) : Order.t :=
  Order.mk orderId orderId date total fulfilled status.

(** One order with progress, one without, on the same variant. *)
Definition progressDb : db :=
  mkDb [Task.mk "v1" "Blue" "Shirt" "S-1" None 10 3 TaskStatus.in_progress]
       [orderRow "o1" "2025-01-01T10:00:00Z" 5 3 OrderStatus.in_progress;
        orderRow "o2" "2025-01-10T10:00:00Z" 5 0 OrderStatus.pending]
       [shirtLine "o1" "l1" 5 3; shirtLine "o2" "l2" 5 0].

Definition fetchedOrder (orderId lineItemId date : string) (quantity : Z)
    : OrderInput :=
  mkOrderInput orderId "renamed" date quantity
    [mkLineItemInput orderId lineItemId "v1" "Blue" "Shirt" "S-1" None quantity].

(** The row [recalculateTaskTotalsFromOrders] writes for a task, with the
    sums taken in database [d]. *)
Definition recalculatedTask (d : db) (r : Task.t) : Task.t :=
  restatusTask
    (Task.set_made_quantity (sumFulfilled (Task.variant_id r) d)
       (Task.set_total_quantity (sumQuantity (Task.variant_id r) d) r)).

(** Task totals that have drifted from the line items: [v1] counts an
    archived order, [v9] has no line item left. *)
Definition driftedDb : db :=
  mkDb [Task.mk "v1" "Blue" "Shirt" "S-1" None 99 7 TaskStatus.in_progress;
        Task.mk "v9" "Red" "Cap" "C-9" None 4 1 TaskStatus.in_progress]
       [orderRow "o1" "2025-01-01T10:00:00Z" 5 3 OrderStatus.in_progress;
        orderRow "o3" "2025-01-05T10:00:00Z" 2 2 OrderStatus.archived]
       [shirtLine "o1" "l1" 5 3; shirtLine "o3" "l3" 2 2].

(** ** Well-formed and settled databases *)

(** The [UNIQUE] constraints of the schema. *)
Definition uniqueKeys (d : db) : Prop :=
  NoDup (Task.variant_id <$> tasks d)
  ∧ NoDup (Order.order_id <$> orders d)
  ∧ NoDup (LineItem.line_item_id <$> order_line_items d).

(** No order is waiting for a recomputation to become [fulfilled]: one
    that is neither archived nor marked fulfilled would not be marked
    fulfilled by [updateAllOrderStatuses] as the line items stand. *)
Definition statusesSettled (d : db) : Prop :=
  ∀ o, o ∈ orders d →
       Order.status o ≠ OrderStatus.archived →
       Order.status o ≠ OrderStatus.fulfilled →
       orderStatusCase
         (sumZ (LineItem.fulfilled_quantity
                  <$> lineItemsOfOrder (Order.order_id o) d))
         (Order.total_items o)
       ≠ OrderStatus.fulfilled.

(** Every line item is fulfilled between 0 and its quantity. *)
Definition boundedLines (d : db) : Prop :=
  ∀ li, li ∈ order_line_items d →
        0 ≤ LineItem.fulfilled_quantity li ≤ LineItem.quantity li.

(** The core consistency invariant: every task row holds the sums over
    the line items of its variant in orders that are not archived. *)
Definition consistent (d : db) : Prop :=
  ∀ r, r ∈ tasks d →
       Task.total_quantity r = sumQuantity (Task.variant_id r) d
       ∧ Task.made_quantity r = sumFulfilled (Task.variant_id r) d.

(** A variant without a task row has nothing outstanding. *)
Definition missingAreIdle (d : db) : Prop :=
  ∀ v, getTaskByVariantId v d = None →
       sumQuantity v d = 0 ∧ sumFulfilled v d = 0.

(** The invariant the operations keep: the consistency invariant together
    with what it takes to be kept. *)
Definition ledgerInvariant (d : db) : Prop :=
  NoDup (LineItem.line_item_id <$> order_line_items d)
  ∧ boundedLines d ∧ consistent d ∧ missingAreIdle d.

(** A line item whose order is stored and not archived. *)
Definition liveLine (d : db) (li : LineItem.t) : Prop :=
  match getOrderByOrderId (LineItem.order_id li) d with
  | Some o => notArchived o
  | None => False
  end.

#[global] Instance liveLine_dec d li : Decision (liveLine d li).
Proof.
  unfold liveLine, notArchived.
  destruct (getOrderByOrderId (LineItem.order_id li) d); apply _.
Defined.


(** ** The loops of [archiveOrder] and [unarchiveOrder], row by row *)

(** What one turn of the loop of [archiveOrder] writes into a task row of
    the item's variant. *)
Definition archiveRow (item : LineItem.t) (r : Task.t) : Task.t :=
  restatusTask
    (Task.set_total_quantity
       (Z.max 0 (Task.total_quantity r - LineItem.quantity item))
       (if decide (0 < LineItem.fulfilled_quantity item) then
          Task.set_made_quantity
            (Z.max 0 (Task.made_quantity r - LineItem.fulfilled_quantity item)) r
        else r)).

(** The same for [unarchiveOrder], for a row that is there. *)
Definition unarchiveRow (item : LineItem.t) (r : Task.t) : Task.t :=
  restatusTask
    (Task.set_made_quantity
       (Task.made_quantity r + LineItem.fulfilled_quantity item)
       (Task.set_total_quantity
          (Task.total_quantity r + LineItem.quantity item) r)).

(** The row [unarchiveOrder] inserts for a variant without a task. *)
Definition newTask (item : LineItem.t) : Task.t :=
  Task.mk (LineItem.variant_id item) (LineItem.variant_title item)
    (LineItem.product_title item) (LineItem.sku item) (LineItem.image_url item)
    (LineItem.quantity item) (LineItem.fulfilled_quantity item)
    TaskStatus.pending.

(** A whole loop seen from one task row. *)
Definition rowLoop (F : LineItem.t → Task.t → Task.t)
    (items : list LineItem.t) (r : Task.t) : Task.t :=
  foldl (λ r item,
           if decide (Task.variant_id r = LineItem.variant_id item)
           then F item r else r) r items.

(** The rows the loop of [unarchiveOrder] inserts, given the variants
    that have a task already. *)
Fixpoint createdTasks (present : gset string) (items : list LineItem.t)
    : list Task.t :=
  match items with
  | [] => []
  | item :: rest =>
      if decide (LineItem.variant_id item ∈ present) then
        createdTasks present rest
      else
        rowLoop unarchiveRow rest (restatusTask (newTask item))
        :: createdTasks ({[LineItem.variant_id item]} ∪ present) rest
  end.

Definition withQuantities (total made : Z) (r : Task.t) : Task.t :=
  restatusTask (Task.set_made_quantity made (Task.set_total_quantity total r)).

(** What the line items of one order ask and hold for a variant. *)
Definition orderQuantity (v : string) (items : list LineItem.t) : Z :=
  sumZ (LineItem.quantity <$> filter (λ li, LineItem.variant_id li = v) items).
Definition orderFulfilled (v : string) (items : list LineItem.t) : Z :=
  sumZ (LineItem.fulfilled_quantity
          <$> filter (λ li, LineItem.variant_id li = v) items).

Arguments orderQuantity : simpl never.
Arguments orderFulfilled : simpl never.

(** ** The allocation walk as the specification words it

    For each line item in the order given: room is quantity minus
    fulfilled quantity, the item takes the smaller of room and what
    remains, and the walk stops when nothing remains or the list ends. *)

Definition room (item : LineItem.t) : Z :=
  LineItem.quantity item - LineItem.fulfilled_quantity item.

Fixpoint specFifoWalk (items : list LineItem.t) (remaining : Z)
    : list (LineItem.t * Z) :=
  match items with
  | [] => []
  | item :: rest =>
      if decide (remaining ≤ 0) then []
      else
        let take := Z.min (room item) remaining in
        (item, take) :: specFifoWalk rest (remaining - take)
  end.

(** What a walk gives to one line item id, and to one order id. *)
Definition takenFor (lineItemId : string) (walk : list (LineItem.t * Z)) : Z :=
  sumZ (snd <$> filter (λ e, LineItem.line_item_id e.1 = lineItemId) walk).

Definition allocatedToOrder (orderId : string) (walk : list (LineItem.t * Z))
    : Z :=
  sumZ (snd <$> filter (λ e, LineItem.order_id e.1 = orderId) walk).

Arguments takenFor : simpl never.
Arguments allocatedToOrder : simpl never.

Definition toAllocation (e : LineItem.t * Z) : Allocation :=
  mkAllocation (LineItem.order_id e.1) (LineItem.line_item_id e.1) e.2.

(** A line-item table after a walk: every row gains what the walk gave
    to its id. *)
Definition applyWalk (walk : list (LineItem.t * Z)) (tbl : list LineItem.t)
    : list LineItem.t :=
  (λ r, LineItem.set_fulfilled_quantity
          (LineItem.fulfilled_quantity r
           + takenFor (LineItem.line_item_id r) walk) r) <$> tbl.

Arguments applyWalk : simpl never.

Definition dateLe (a b : LineItem.t * Order.t) : Prop :=
  String.leb (Order.order_date a.2) (Order.order_date b.2) = true.

(** Two orders for one variant, the later one stored first. *)
Definition twoOrdersDb : db :=
  mkDb [Task.mk "v1" "Blue" "Shirt" "S-1" None 10 0 TaskStatus.pending]
       [orderRow "o2" "2025-01-10T10:00:00Z" 5 0 OrderStatus.pending;
        orderRow "o1" "2025-01-01T10:00:00Z" 5 0 OrderStatus.pending]
       [shirtLine "o2" "l2" 5 0; shirtLine "o1" "l1" 5 0].

(** The database a merchant reaches by syncing the two orders, marking 3
    made, archiving the first order, resetting the task and unarchiving
    the order: the order row still counts 3 fulfilled items, its line
    item counts none. *)
Definition staleCounterDb : db :=
  let fetched :=
    [fetchedOrder "o1" "l1" "2025-01-01T10:00:00Z" 5;
     fetchedOrder "o2" "l2" "2025-01-10T10:00:00Z" 5] in
  let d0 := sync_shopify [mkTaskInput "v1" "Blue" "Shirt" "S-1" None 10]
              fetched emptyDb in
  let d1 := (mark_made "v1" 3 d0).2 in
  let d2 := (archive_order "o1" d1).2 in
  let d3 := (reset_task "v1" d2).2 in
  (unarchive_order "o1" d3).2.

(** One fulfilled order, the only one of its variant. *)
Definition singleOrderDb : db :=
  mkDb [Task.mk "v1" "Blue" "Shirt" "S-1" None 5 5 TaskStatus.completed]
       [orderRow "o1" "2025-01-01T10:00:00Z" 5 5 OrderStatus.fulfilled]
       [shirtLine "o1" "l1" 5 5].

(** ** Bulk archive, unarchive and cleanup ([database.js]) *)

(** [SELECT order_id FROM orders WHERE status = ?] *)
Definition orderIdsWithStatus (s : OrderStatus.t) (d : db) : list string :=
  Order.order_id <$> filter (λ o, Order.status o = s) (orders d).

Definition getArchivedOrderIds (d : db) : gset string :=
  list_to_set (orderIdsWithStatus OrderStatus.archived d).

(** The [for] loop of [archiveAllFulfilledOrders], with its counter. *)
Fixpoint archiveEach (orderIds : list string) (archivedCount : nat) : M nat :=
  match orderIds with
  | [] => mret archivedCount
  | orderId :: rest =>
      result ← archiveOrder orderId;
      archiveEach rest
        (if success result && negb (alreadyArchived result)
         then S archivedCount else archivedCount)
  end.

Definition archiveAllFulfilledOrders : M nat := λ d,
  archiveEach (orderIdsWithStatus OrderStatus.fulfilled d) 0%nat d.

(** The [for] loop of [unarchiveAllOrders], with its counter. *)
Fixpoint unarchiveEach (orderIds : list string) (unarchivedCount : nat)
    : M nat :=
  match orderIds with
  | [] => mret unarchivedCount
  | orderId :: rest =>
      result ← unarchiveOrder orderId;
      unarchiveEach rest
        (if success result && negb (notArchivedFlag result)
         then S unarchivedCount else unarchivedCount)
  end.

Definition unarchiveAllOrders : M nat := λ d,
  unarchiveEach (orderIdsWithStatus OrderStatus.archived d) 0%nat d.

(** [deleteArchivedOrders]: the line items of archived orders go first,
    then the orders; [deletedCount] is [changes] of the second
    statement. *)
Definition deleteArchivedOrders (d : db) : nat * db :=
  let archivedIds := orderIdsWithStatus OrderStatus.archived d in
  let d1 :=
    set_order_line_items
      (delete_where (λ r, LineItem.order_id r ∈ archivedIds)) d in
  let deleted (o : Order.t) := Order.status o = OrderStatus.archived in
  (length (filter deleted (orders d1)),
   set_orders (delete_where deleted) d1).

(** [clearAllTasks] *)
Definition clearAllTasks (d : db) : RunResult * db :=
  (mkRun (length (tasks d)), set_tasks (λ _, []) d).

(** ** Deallocation ([database.js]) *)

(** The rows the query of [deallocateQuantityFromOrders] returns:
    [ORDER BY o.order_date DESC, oli.id DESC] is the ascending order read
    backwards.  The query has no condition on the status of the order. *)
Definition deallocationCandidates (variantId : string) (d : db)
    : list (LineItem.t * Order.t) :=
  reverse
    (orderBy (λ p, Order.order_date p.2)
       (filter
          (λ p, LineItem.variant_id p.1 = variantId
                ∧ 0 < LineItem.fulfilled_quantity p.1)
          (joinOrders d))).

(** The [for] loop of [deallocateQuantityFromOrders] on the line-item
    table. *)
Fixpoint deallocateLoop (lineItems : list (LineItem.t * Order.t))
    (remainingToDeallocate : Z) (tbl : list LineItem.t) : list LineItem.t :=
  match lineItems with
  | [] => tbl
  | (item, _) :: rest =>
      if decide (remainingToDeallocate ≤ 0) then tbl
      else
        let canDeallocate := LineItem.fulfilled_quantity item in
        let willDeallocate := Z.min canDeallocate remainingToDeallocate in
        if decide (0 < willDeallocate) then
          deallocateLoop rest (remainingToDeallocate - willDeallocate)
            (update_where
               (λ r, LineItem.line_item_id r = LineItem.line_item_id item)
               (λ r, LineItem.set_fulfilled_quantity
                       (LineItem.fulfilled_quantity r - willDeallocate) r)
               tbl)
        else deallocateLoop rest remainingToDeallocate tbl
  end.

Definition deallocateQuantityFromOrders (variantId : string) (quantity : Z)
    (d : db) : db :=
  updateAllOrderStatuses
    (set_order_line_items
       (λ _, deallocateLoop (deallocationCandidates variantId d) quantity
               (order_line_items d)) d).

(** The deallocation walk in words: each line item in the order given
    gives back the smaller of what it holds and what remains. *)
Fixpoint specLifoWalk (items : list LineItem.t) (remaining : Z)
    : list (LineItem.t * Z) :=
  match items with
  | [] => []
  | item :: rest =>
      if decide (remaining ≤ 0) then []
      else
        let take := Z.min (LineItem.fulfilled_quantity item) remaining in
        (item, take) :: specLifoWalk rest (remaining - take)
  end.

Definition dateGe (a b : LineItem.t * Order.t) : Prop :=
  String.leb (Order.order_date b.2) (Order.order_date a.2) = true.

(** An entry of the deallocation walk as a change of the fulfilled
    quantity. *)
Definition givenBack (e : LineItem.t * Z) : LineItem.t * Z := (e.1, - e.2).

(** ** The Shopify client ([shopify-api.js])

    The nodes of the GraphQL reply as [aggregateByVariant] and
    [extractOrdersForStorage] read them.  A field the code guards with
    [?.], [!x] or [||] is an [option]; [fulfillableQuantity] is [Int!]
    in the schema. *)

Record ImageNode := mkImageNode { img_url : option string }.

Record ProductNode := mkProductNode {
  prod_title : option string;
  prod_featuredImage : option ImageNode
}.

Record VariantNode := mkVariantNode {
  var_id : string;
  var_title : option string;
  var_sku : option string;
  var_image : option ImageNode;
  var_product : option ProductNode
}.

Record LineItemNode := mkLineItemNode {
  node_id : string;
  node_title : option string;
  node_fulfillableQuantity : Z;
  node_variant : option VariantNode
}.

(** [order_lineItems] is [None] when [order.lineItems] or its [edges] is
    missing. *)
Record OrderNode := mkOrderNode {
  order_gid : string;
  order_name : string;
  order_createdAt : string;
  order_lineItems : option (list LineItemNode)
}.

(** [a || b] on values that are strings or missing: the empty string is
    falsy. *)
Definition js_or (a b : option string) : option string :=
  match or_null a with
  | Some s => Some s
  | None => b
  end.

(** [a || 'literal'] *)
Definition js_or_str (a : option string) (b : string) : string :=
  match or_null a with
  | Some s => s
  | None => b
  end.

(** [variant.image?.url || variant.product?.featuredImage?.url || null] *)
Definition variantImage (variant : VariantNode) : option string :=
  js_or (image ← var_image variant; img_url image)
    (or_null (product ← var_product variant;
              image ← prod_featuredImage product;
              img_url image)).

(** [(variantTitle && variantTitle !== 'Default Title') ? variantTitle : ''] *)
Definition displayVariantTitle (variant : VariantNode) : string :=
  match or_null (var_title variant) with
  | Some variantTitle =>
      if decide (variantTitle = "Default Title") then EmptyString
      else variantTitle
  | None => EmptyString
  end.

(** [variant.product?.title || lineItem.title || 'Unknown product'] *)
Definition productTitleOf (lineItem : LineItemNode) (variant : VariantNode)
    : string :=
  js_or_str (js_or (product ← var_product variant; prod_title product)
               (node_title lineItem))
    "Unknown product".

(** One turn of the inner loop of [aggregateByVariant]; the [Map] keeps
    its entries in insertion order. *)
Definition aggregateLineItem (variantMap : list TaskInput)
    (lineItem : LineItemNode) : list TaskInput :=
  match node_variant lineItem with
  | None => variantMap
  | Some variant =>
      if decide (node_fulfillableQuantity lineItem ≤ 0) then variantMap
      else
        insert_or_update (λ e, ti_variantId e = var_id variant)
          (mkTaskInput (var_id variant) (displayVariantTitle variant)
             (productTitleOf lineItem variant)
             (js_or_str (var_sku variant) EmptyString)
             (variantImage variant) (node_fulfillableQuantity lineItem))
          (λ existing,
             mkTaskInput (ti_variantId existing) (ti_variantTitle existing)
               (ti_productTitle existing) (ti_sku existing)
               (ti_imageUrl existing)
               (ti_totalQuantity existing
                + node_fulfillableQuantity lineItem))
          variantMap
  end.

Definition aggregateOrder (variantMap : list TaskInput) (order : OrderNode)
    : list TaskInput :=
  match order_lineItems order with
  | None => variantMap
  | Some edges => foldl aggregateLineItem variantMap edges
  end.

Definition aggregateByVariant (orders : list OrderNode) : list TaskInput :=
  foldl aggregateOrder [] orders.

(** One turn of the inner loop of [extractOrdersForStorage]: the array
    [lineItems] and the counter [totalItems]. *)
Definition extractLineItem (order : OrderNode)
    (acc : list LineItemInput * Z) (lineItem : LineItemNode)
    : list LineItemInput * Z :=
  match node_variant lineItem with
  | None => acc
  | Some variant =>
      if decide (node_fulfillableQuantity lineItem ≤ 0) then acc
      else
        (acc.1 ++
           [mkLineItemInput (order_gid order) (node_id lineItem)
              (var_id variant) (displayVariantTitle variant)
              (productTitleOf lineItem variant)
              (js_or_str (var_sku variant) EmptyString)
              (variantImage variant) (node_fulfillableQuantity lineItem)],
         acc.2 + node_fulfillableQuantity lineItem)
  end.

Definition extractOrder (ordersData : list OrderInput) (order : OrderNode)
    : list OrderInput :=
  match order_lineItems order with
  | None => ordersData
  | Some edges =>
      let acc := foldl (extractLineItem order) ([], 0) edges in
      if decide (0 < length acc.1)%nat then
        ordersData ++
          [mkOrderInput (order_gid order) (order_name order)
             (order_createdAt order) acc.2 acc.1]
      else ordersData
  end.

Definition extractOrdersForStorage (orders : list OrderNode)
    : list OrderInput :=
  foldl extractOrder [] orders.

(** The line items of all the orders handed to the storage loop. *)
Definition storedLineItems (ordersForStorage : list OrderInput)
    : list LineItemInput :=
  ordersForStorage ≫= oi_lineItems.

(** The [sync-shopify] handler on the orders [fetchAllUnfulfilledOrders]
    returned. *)
Definition sync_fetched (fetched : list OrderNode) (d : db) : db :=
  sync_shopify (aggregateByVariant fetched) (extractOrdersForStorage fetched) d.

(** The line items both loops keep: those with a variant and a positive
    fulfillable quantity. *)
Definition keptLine (lineItem : LineItemNode)
    : option (LineItemNode * VariantNode) :=
  match node_variant lineItem with
  | None => None
  | Some variant =>
      if decide (node_fulfillableQuantity lineItem ≤ 0) then None
      else Some (lineItem, variant)
  end.

Definition keptOf (order : OrderNode) : list (LineItemNode * VariantNode) :=
  match order_lineItems order with
  | None => []
  | Some edges => omap keptLine edges
  end.

(** The entry [extractOrdersForStorage] pushes for a kept line item. *)
Definition toLineItemInput (order : OrderNode)
    (p : LineItemNode * VariantNode) : LineItemInput :=
  mkLineItemInput (order_gid order) (node_id p.1) (var_id p.2)
    (displayVariantTitle p.2) (productTitleOf p.1 p.2)
    (js_or_str (var_sku p.2) EmptyString) (variantImage p.2)
    (node_fulfillableQuantity p.1).

(** What [aggregateByVariant] does with a kept line item. *)
Definition addToVariantMap (variantMap : list TaskInput)
    (p : LineItemNode * VariantNode) : list TaskInput :=
  insert_or_update (λ e, ti_variantId e = var_id p.2)
    (mkTaskInput (var_id p.2) (displayVariantTitle p.2)
       (productTitleOf p.1 p.2) (js_or_str (var_sku p.2) EmptyString)
       (variantImage p.2) (node_fulfillableQuantity p.1))
    (λ existing,
       mkTaskInput (ti_variantId existing) (ti_variantTitle existing)
         (ti_productTitle existing) (ti_sku existing) (ti_imageUrl existing)
         (ti_totalQuantity existing + node_fulfillableQuantity p.1))
    variantMap.

(** The total a variant map holds for a variant id. *)
Definition totalFor (v : string) (variantMap : list TaskInput) : Z :=
  sumZ (ti_totalQuantity <$> filter (λ e, ti_variantId e = v) variantMap).

(** The order [extractOrdersForStorage] pushes for a fetched order. *)
Definition toOrderInput (order : OrderNode) : OrderInput :=
  mkOrderInput (order_gid order) (order_name order) (order_createdAt order)
    (sumZ ((λ p, node_fulfillableQuantity p.1) <$> keptOf order))
    (toLineItemInput order <$> keptOf order).

(** The rows the upserts insert for an id that is not stored yet. *)
Definition lineItemRow (lineItem : LineItemInput) : LineItem.t :=
  LineItem.mk (lii_orderId lineItem) (lii_lineItemId lineItem)
    (lii_variantId lineItem) (lii_variantTitle lineItem)
    (lii_productTitle lineItem) (lii_sku lineItem)
    (or_null (lii_imageUrl lineItem)) (lii_quantity lineItem) 0.

Definition taskRow (task : TaskInput) : Task.t :=
  Task.mk (ti_variantId task) (ti_variantTitle task) (ti_productTitle task)
    (ti_sku task) (or_null (ti_imageUrl task)) (ti_totalQuantity task) 0
    TaskStatus.pending.

(** Three fetched orders: two ask for the same shirt, one of them also
    lists a line without variant; the third has no line items. *)
Definition shirtVariant : VariantNode :=
  mkVariantNode "v1" (Some "Default Title") None None
    (Some (mkProductNode (Some "Shirt")
             (Some (mkImageNode (Some "https://cdn/shirt.png"))))).

Definition fetchedShirts : list OrderNode :=
  [mkOrderNode "gid://shopify/Order/1" "#1001" "2025-01-01T10:00:00Z"
     (Some [mkLineItemNode "l1" (Some "Shirt") 5 (Some shirtVariant);
            mkLineItemNode "l0" (Some "Gift card") 1 None]);
   mkOrderNode "gid://shopify/Order/2" "#1002" "2025-01-10T10:00:00Z"
     (Some [mkLineItemNode "l2" None 3 (Some shirtVariant);
            mkLineItemNode "l3" None 0 (Some shirtVariant)]);
   mkOrderNode "gid://shopify/Order/3" "#1003" "2025-01-11T10:00:00Z" None].

(** ** Inventory ([database.js])

    The inventory functions work on table [inventory] alone; it is kept
    apart from the three tables of the order engine. *)

Module Inventory.
(** A row of table [inventory]. *)
Record t := mk {
  variant_id : string;
  product_id : string;
  product_title : string;
  variant_title : string;
  sku : string;
  image_url : option string;
  inventory_quantity : Z
}.
#[global] Instance eq_dec : EqDecision t.
Proof. solve_decision. Defined.
End Inventory.

(** The object [upsertInventory] receives; [sku], [imageUrl] and
    [inventoryQuantity] are read through [||]. *)
Record InventoryInput := mkInventoryInput {
  inv_variantId : string;
  inv_productId : string;
  inv_productTitle : string;
  inv_variantTitle : string;
  inv_sku : option string;
  inv_imageUrl : option string;
  inv_inventoryQuantity : option Z
}.

(** The values bound to the statement of [upsertInventory]. *)
Definition inventoryRow (data : InventoryInput) : Inventory.t :=
  Inventory.mk (inv_variantId data) (inv_productId data)
    (inv_productTitle data) (inv_variantTitle data)
    (js_or_str (inv_sku data) EmptyString) (or_null (inv_imageUrl data))
    (default 0 (inv_inventoryQuantity data)).

Definition upsertInventory (data : InventoryInput) (tbl : list Inventory.t)
    : list Inventory.t :=
  insert_or_update (λ r, Inventory.variant_id r = inv_variantId data)
    (inventoryRow data) (λ _, inventoryRow data) tbl.

Definition bulkUpsertInventory (inventoryItems : list InventoryInput)
    (tbl : list Inventory.t) : list Inventory.t :=
  foldl (λ tbl item, upsertInventory item tbl) tbl inventoryItems.

(** [getInventoryByVariantId] of the test mirror. *)
Definition getInventoryByVariantId (variantId : string)
    (tbl : list Inventory.t) : option Inventory.t :=
  select_one (λ r, Inventory.variant_id r = variantId) tbl.

(** The row of [getInventoryStats]: [COUNT( * )] is a number, a [SUM] over
    no rows is [NULL]. *)
Record InventoryStats := mkInventoryStats {
  total_variants : Z;
  out_of_stock_count : option Z;
  in_stock_count : option Z;
  total_inventory : option Z
}.

Definition sqlSum {A : Type} (g : A → Z) (rows : list A) : option Z :=
  match rows with
  | [] => None
  | _ => Some (sumZ (g <$> rows))
  end.

Definition getInventoryStats (tbl : list Inventory.t) : InventoryStats :=
  mkInventoryStats (Z.of_nat (length tbl))
    (sqlSum (λ r, if decide (Inventory.inventory_quantity r ≤ 0) then 1 else 0)
       tbl)
    (sqlSum (λ r, if decide (0 < Inventory.inventory_quantity r) then 1 else 0)
       tbl)
    (sqlSum Inventory.inventory_quantity tbl).

Definition clearAllInventory (tbl : list Inventory.t) : list Inventory.t := [].

(** ** The views the renderer reads ([database.js])

    [ORDER BY] with several keys: rows come in [id] order, and a row goes
    in front of the first later row it sorts before or equal to.  SQLite
    leaves the order of rows with equal keys open; here they keep their
    [id] order. *)

Section SortRows.
Context {A : Type} (before : A → A → bool).

Fixpoint insertBy (x : A) (l : list A) : list A :=
  match l with
  | [] => [x]
  | y :: l' => if before x y then x :: l else y :: insertBy x l'
  end.

Definition sortRows (l : list A) : list A := foldr insertBy [] l.
End SortRows.

(** [CASE status WHEN 'in_progress' THEN 1 WHEN 'pending' THEN 2
    WHEN 'completed' THEN 3 END] *)
Definition taskRank (s : TaskStatus.t) : Z :=
  match s with
  | TaskStatus.in_progress => 1
  | TaskStatus.pending => 2
  | TaskStatus.completed => 3
  end.

Definition remaining_quantity (r : Task.t) : Z :=
  Task.total_quantity r - Task.made_quantity r.

(** [ORDER BY CASE status ... END, remaining_quantity DESC,
    product_title ASC] *)
Definition taskBefore (a b : Task.t) : bool :=
  if decide (taskRank (Task.status a) < taskRank (Task.status b)) then true
  else if decide (taskRank (Task.status b) < taskRank (Task.status a))
  then false
  else if decide (remaining_quantity b < remaining_quantity a) then true
  else if decide (remaining_quantity a < remaining_quantity b) then false
  else String.leb (Task.product_title a) (Task.product_title b).

(** [getAllTasks]: every row with its [remaining_quantity]. *)
Definition getAllTasks (d : db) : list (Task.t * Z) :=
  (λ r, (r, remaining_quantity r)) <$> sortRows taskBefore (tasks d).

(** [CASE o.status WHEN 'in_progress' THEN 1 WHEN 'pending' THEN 2
    WHEN 'fulfilled' THEN 3 WHEN 'archived' THEN 4 END] *)
Definition orderRank (s : OrderStatus.t) : Z :=
  match s with
  | OrderStatus.in_progress => 1
  | OrderStatus.pending => 2
  | OrderStatus.fulfilled => 3
  | OrderStatus.archived => 4
  end.

(** [ORDER BY CASE o.status ... END, o.order_date ASC] *)
Definition orderBefore (a b : Order.t) : bool :=
  if decide (orderRank (Order.status a) < orderRank (Order.status b)) then true
  else if decide (orderRank (Order.status b) < orderRank (Order.status a))
  then false
  else String.leb (Order.order_date a) (Order.order_date b).

Definition remaining_items (o : Order.t) : Z :=
  Order.total_items o - Order.fulfilled_items o.

Definition getAllOrders (includeArchived : bool) (d : db)
    : list (Order.t * Z) :=
  (λ o, (o, remaining_items o))
    <$> sortRows orderBefore
          (if includeArchived then orders d
           else filter (λ o, Order.status o ≠ OrderStatus.archived) (orders d)).

Definition getArchivedOrders (d : db) : list (Order.t * Z) :=
  (λ o, (o, remaining_items o))
    <$> sortRows (λ a b, String.leb (Order.order_date a) (Order.order_date b))
          (filter (λ o, Order.status o = OrderStatus.archived) (orders d)).

(** [ORDER BY product_title ASC, variant_title ASC] *)
Definition lineItemBefore (a b : LineItem.t) : bool :=
  if decide (LineItem.product_title a = LineItem.product_title b) then
    String.leb (LineItem.variant_title a) (LineItem.variant_title b)
  else String.leb (LineItem.product_title a) (LineItem.product_title b).

Definition getOrderLineItems (orderId : string) (d : db)
    : list (LineItem.t * Z) :=
  (λ r, (r, LineItem.quantity r - LineItem.fulfilled_quantity r))
    <$> sortRows lineItemBefore (lineItemsOfOrder orderId d).

(** An order as the renderer gets it: the row, [remaining_items] and
    [lineItems]. *)
Record OrderView := mkOrderView {
  view_order : Order.t;
  view_remaining_items : Z;
  view_lineItems : list (LineItem.t * Z)
}.

Definition withLineItems (d : db) (p : Order.t * Z) : OrderView :=
  mkOrderView p.1 p.2 (getOrderLineItems (Order.order_id p.1) d).

Definition getOrdersWithLineItems (includeArchived : bool) (d : db)
    : list OrderView :=
  withLineItems d <$> getAllOrders includeArchived d.

Definition getArchivedOrdersWithLineItems (d : db) : list OrderView :=
  withLineItems d <$> getArchivedOrders d.

(** ** Strings the main process rewrites

    A JavaScript string is a sequence of UTF-16 code units; the two
    functions below look at single code units only. *)

Definition units (s : string) : list N :=
  Ascii.N_of_ascii <$> String.list_ascii_of_string s.

(** [Some rest] when [l] is [p] followed by [rest]. *)
Fixpoint stripPrefix (p l : list N) : option (list N) :=
  match p, l with
  | [], _ => Some l
  | a :: p', b :: l' => if decide (a = b) then stripPrefix p' l' else None
  | _ :: _, [] => None
  end.

Definition stripSuffix (p l : list N) : option (list N) :=
  reverse <$> stripPrefix (reverse p) (reverse l).

Definition isDigit (u : N) : bool := bool_decide (48 ≤ u ≤ 57)%N.
Definition isUpper (u : N) : bool := bool_decide (65 ≤ u ≤ 90)%N.
Definition isLower (u : N) : bool := bool_decide (97 ≤ u ≤ 122)%N.

(** The class [[a-zA-Z0-9-]]. *)
Definition isNameUnit (u : N) : bool :=
  isLower u || isUpper u || isDigit u || bool_decide (u = 45%N).

(** [toLowerCase] on the code units that reach it in
    [sanitizeStoreUrl]: letters, digits, [-] and [_]. *)
Definition toLowerUnit (u : N) : N :=
  if isUpper u then (u + 32)%N else u.

(** [sanitizeStoreUrl] of [database.js]; [None] is a missing argument. *)
Definition sanitizeStoreUrl (storeUrl : option (list N)) : list N :=
  match storeUrl with
  | None | Some [] => units "default"
  | Some storeUrl =>
      (* .replace(/^https?:\/\//, '') *)
      let s1 :=
        match stripPrefix (units "https://") storeUrl with
        | Some rest => rest
        | None => default storeUrl (stripPrefix (units "http://") storeUrl)
        end in
      (* .replace(/\.myshopify\.com$/, '') *)
      let s2 := default s1 (stripSuffix (units ".myshopify.com") s1) in
      (* .replace(/[^a-zA-Z0-9-]/g, '_') *)
      let s3 := (λ u, if isNameUnit u then u else 95%N) <$> s2 in
      toLowerUnit <$> s3
  end.

(** The longest run of digits at the head of [l]. *)
Fixpoint takeDigits (l : list N) : list N :=
  match l with
  | u :: rest => if isDigit u then u :: takeDigits rest else []
  | [] => []
  end.

(** [gid.match(/Order\/(\d+)/)]: the capture of the leftmost match. *)
Fixpoint matchOrderDigits (l : list N) : option (list N) :=
  match l with
  | [] => None
  | _ :: rest =>
      match stripPrefix (units "Order/") l with
      | Some after =>
          match takeDigits after with
          | [] => matchOrderDigits rest
          | digits => Some digits
          end
      | None => matchOrderDigits rest
      end
  end.

(** [extractOrderId] of [ipc-handlers.js]. *)
Definition extractOrderId (gid : option (list N)) : list N :=
  match gid with
  | None | Some [] => []
  | Some gid => default gid (matchOrderDigits gid)
  end.

(** ** More of the test mirror ([tests/helpers/test-database.js]) *)

Module Mirror.

(** The status expression the mirror writes out for an order. *)
Definition inlineOrderStatus (fulfilled_items total_items : Z)
    : OrderStatus.t :=
  if decide (total_items ≤ fulfilled_items) then OrderStatus.fulfilled
  else if decide (0 < fulfilled_items) then OrderStatus.in_progress
  else OrderStatus.pending.

(** [recalculateTaskTotalsFromOrders] of the mirror: one [UPDATE] per row
    of the [GROUP BY] query, nothing for a task without such a row and no
    [DELETE]. *)
Definition recalculateTaskTotalsFromOrders (d : db) : db :=
  foldl
    (λ d vt,
       let '(variant_id, (total_quantity, made_quantity)) := vt in
       let newStatus :=
         TestDatabase.inlineTaskStatus made_quantity total_quantity in
       set_tasks
         (update_where (λ r, Task.variant_id r = variant_id)
            (λ r, Task.set_status newStatus
                    (Task.set_made_quantity made_quantity
                       (Task.set_total_quantity total_quantity r)))) d)
    d (lineItemTotals d).

(** The rows of the allocation query of the mirror:
    [WHERE li.variant_id = ? AND o.status != 'archived'
     ORDER BY o.order_date ASC]. *)
Definition allocationCandidates (variantId : string) (d : db)
    : list (LineItem.t * Order.t) :=
  orderBy (λ p, Order.order_date p.2)
    (filter (λ p, LineItem.variant_id p.1 = variantId ∧ notArchived p.2)
       (joinOrders d)).

Record FulfilledOrder := mkFulfilledOrder {
  orderId : string;
  orderName : string
}.

(** The [for] loop of the mirror's [allocateMadeQuantityToOrders]: the
    line item is written from the values the query returned, the order
    from the row read back inside the loop. *)
Fixpoint allocateLoop (lineItems : list (LineItem.t * Order.t))
    (remainingToAllocate : Z) (fulfilledOrders : list FulfilledOrder)
    : M (list FulfilledOrder) := λ d,
  match lineItems with
  | [] => (Ok fulfilledOrders, d)
  | (item, _) :: rest =>
      if decide (remainingToAllocate ≤ 0) then (Ok fulfilledOrders, d)
      else
        let canFulfill :=
          LineItem.quantity item - LineItem.fulfilled_quantity item in
        if decide (canFulfill ≤ 0) then
          allocateLoop rest remainingToAllocate fulfilledOrders d
        else
          let toFulfill := Z.min canFulfill remainingToAllocate in
          let newFulfilled := LineItem.fulfilled_quantity item + toFulfill in
          let d1 :=
            set_order_line_items
              (update_where
                 (λ r, LineItem.line_item_id r = LineItem.line_item_id item)
                 (LineItem.set_fulfilled_quantity newFulfilled)) d in
          match getOrderByOrderId (LineItem.order_id item) d1 with
          | None => (Thrown UndefinedRow, d1)
          | Some order =>
              let newOrderFulfilled := Order.fulfilled_items order + toFulfill in
              let newOrderStatus :=
                inlineOrderStatus newOrderFulfilled (Order.total_items order) in
              let d2 :=
                set_orders
                  (update_where
                     (λ r, Order.order_id r = LineItem.order_id item)
                     (λ r, Order.set_status newOrderStatus
                             (Order.set_fulfilled_items newOrderFulfilled r)))
                  d1 in
              allocateLoop rest (remainingToAllocate - toFulfill)
                (if decide (newOrderStatus = OrderStatus.fulfilled
                            ∧ Order.status order ≠ OrderStatus.fulfilled)
                 then fulfilledOrders ++
                        [mkFulfilledOrder (Order.order_id order)
                           (Order.order_name order)]
                 else fulfilledOrders)
                d2
          end
  end.

Definition allocateMadeQuantityToOrders (variantId : string)
    (quantityToAllocate : Z) : M (list FulfilledOrder) := λ d,
  allocateLoop (allocationCandidates variantId d) quantityToAllocate [] d.

(** What the mirror's [archiveOrder] answers: [{ alreadyArchived: true }],
    [{ archived: true }], or the thrown
    [Error(`Order not found: ${orderId}`)]. *)
Inductive ArchiveOutcome :=
| NotFound (orderId : string)
| AlreadyArchived
| Archived.

(** One turn of the [for] loop of the mirror's [archiveOrder]: the new
    values come from the row [getTaskByVariantId] returned. *)
Definition archiveItem (d : db) (item : LineItem.t) : db :=
  match getTaskByVariantId (LineItem.variant_id item) d with
  | None => d
  | Some task =>
      let newMade :=
        Z.max 0 (Task.made_quantity task - LineItem.fulfilled_quantity item) in
      let newTotal :=
        Z.max 0 (Task.total_quantity task - LineItem.quantity item) in
      if decide (newTotal = 0) then
        set_tasks
          (delete_where (λ r, Task.variant_id r = LineItem.variant_id item)) d
      else
        let newStatus := TestDatabase.inlineTaskStatus newMade newTotal in
        set_tasks
          (update_where (λ r, Task.variant_id r = LineItem.variant_id item)
             (λ r, Task.set_status newStatus
                     (Task.set_total_quantity newTotal
                        (Task.set_made_quantity newMade r)))) d
  end.

Definition archiveOrder (orderId : string) (d : db) : ArchiveOutcome * db :=
  match getOrderByOrderId orderId d with
  | None => (NotFound orderId, d)
  | Some order =>
      if decide (Order.status order = OrderStatus.archived) then
        (AlreadyArchived, d)
      else
        let lineItems := lineItemsOfOrder orderId d in
        let d1 := foldl archiveItem d lineItems in
        (Archived, setOrderStatus orderId OrderStatus.archived d1)
  end.

(** The object the mirror's [upsertTask] receives; [madeQuantity] and
    [status] may be left out. *)
Record TaskArg := mkTaskArg {
  variantId : string;
  variantTitle : string;
  productTitle : string;
  sku : string;
  imageUrl : option string;
  totalQuantity : Z;
  madeQuantity : option Z;
  status : option TaskStatus.t
}.

(** The mirror's [upsertTask]: a conflict keeps [made_quantity] and
    [status]; no status is recomputed. *)
Definition upsertTask (task : TaskArg) (d : db) : db :=
  let new :=
    Task.mk (variantId task) (variantTitle task) (productTitle task)
      (sku task) (or_null (imageUrl task)) (totalQuantity task)
      (default 0 (madeQuantity task))
      (default TaskStatus.pending (status task)) in
  let excluded (r : Task.t) :=
    Task.mk (Task.variant_id r) (variantTitle task) (productTitle task)
      (sku task) (or_null (imageUrl task)) (totalQuantity task)
      (Task.made_quantity r) (Task.status r) in
  set_tasks
    (insert_or_update (λ r, Task.variant_id r = variantId task) new excluded)
    d.

(** What the mirror's [unarchiveOrder] answers: [{ notArchived: true }],
    [{ unarchived: true, newStatus }], or the thrown error. *)
Inductive UnarchiveOutcome :=
| UnarchiveNotFound (orderId : string)
| NotArchived
| Unarchived (newStatus : OrderStatus.t).

(** One turn of the [for] loop of the mirror's [unarchiveOrder]. *)
Definition unarchiveItem (d : db) (item : LineItem.t) : db :=
  match getTaskByVariantId (LineItem.variant_id item) d with
  | Some task =>
      let newTotal := Task.total_quantity task + LineItem.quantity item in
      let newMade :=
        Task.made_quantity task + LineItem.fulfilled_quantity item in
      let newStatus := TestDatabase.inlineTaskStatus newMade newTotal in
      set_tasks
        (update_where (λ r, Task.variant_id r = LineItem.variant_id item)
           (λ r, Task.set_status newStatus
                   (Task.set_total_quantity newTotal
                      (Task.set_made_quantity newMade r)))) d
  | None =>
      upsertTask
        (mkTaskArg (LineItem.variant_id item) (LineItem.variant_title item)
           (LineItem.product_title item) (LineItem.sku item)
           (LineItem.image_url item) (LineItem.quantity item)
           (Some (LineItem.fulfilled_quantity item))
           (Some (TestDatabase.inlineTaskStatus
                    (LineItem.fulfilled_quantity item)
                    (LineItem.quantity item)))) d
  end.

Definition unarchiveOrder (orderId : string) (d : db)
    : UnarchiveOutcome * db :=
  match getOrderByOrderId orderId d with
  | None => (UnarchiveNotFound orderId, d)
  | Some order =>
      if decide (Order.status order ≠ OrderStatus.archived) then
        (NotArchived, d)
      else
        let lineItems := lineItemsOfOrder orderId d in
        let d1 := foldl unarchiveItem d lineItems in
        let newStatus :=
          restoredStatus (Order.fulfilled_items order)
            (Order.total_items order) in
        (Unarchived newStatus, setOrderStatus orderId newStatus d1)
  end.

End Mirror.

(** What one entry of the allocation walk does to the row of its order in
    the mirror. *)
Definition bumpOrder (taken : Z) (o : Order.t) : Order.t :=
  Order.set_status
    (Mirror.inlineOrderStatus (Order.fulfilled_items o + taken)
       (Order.total_items o))
    (Order.set_fulfilled_items (Order.fulfilled_items o + taken) o).

(** The row the mirror's recalculation writes for a task. *)
Definition mirrorRecalculatedTask (d : db) (r : Task.t) : Task.t :=
  Task.set_status
    (TestDatabase.inlineTaskStatus (sumFulfilled (Task.variant_id r) d)
       (sumQuantity (Task.variant_id r) d))
    (Task.set_made_quantity (sumFulfilled (Task.variant_id r) d)
       (Task.set_total_quantity (sumQuantity (Task.variant_id r) d) r)).

(** The orders after the mirror's allocation walk: the counter of an
    order rises by what the walk gave to its line items, and its status
    is written from the new counter if it was given anything. *)
Definition ordersAfterWalk (walk : list (LineItem.t * Z))
    (tbl : list Order.t) : list Order.t :=
  (λ o, let given := allocatedToOrder (Order.order_id o) walk in
        if decide (given = 0) then o else bumpOrder given o) <$> tbl.

(** ** The summaries of the renderer ([renderer/app.js])

    [tasks.value], [orders.value] and [archivedOrders.value] hold what
    [get-tasks], [get-orders] and [get-archived-orders] returned. *)

Record TaskSummary := mkTaskSummary {
  ts_total : nat;
  ts_active : nat;
  ts_completed : nat
}.

Definition summary (tasks : list (Task.t * Z)) : TaskSummary :=
  mkTaskSummary
    (length tasks)
    (length (filter (λ t, Task.status t.1 = TaskStatus.pending
                          ∨ Task.status t.1 = TaskStatus.in_progress) tasks))
    (length (filter (λ t, Task.status t.1 = TaskStatus.completed) tasks)).

Record OrderSummary := mkOrderSummary {
  os_total : nat;
  os_active : nat;
  os_fulfilled : nat;
  os_archived : nat
}.

Definition orderSummary (orders archivedOrders : list OrderView)
    : OrderSummary :=
  mkOrderSummary
    (length orders)
    (length (filter (λ o, Order.status (view_order o) = OrderStatus.pending
                          ∨ Order.status (view_order o)
                            = OrderStatus.in_progress) orders))
    (length (filter (λ o, Order.status (view_order o) = OrderStatus.fulfilled)
               orders))
    (length archivedOrders).

(** The summaries after [loadAll]. *)
Definition loadedSummary (d : db) : TaskSummary :=
  summary (getAllTasks d).

Definition loadedOrderSummary (d : db) : OrderSummary :=
  orderSummary (getOrdersWithLineItems false d)
    (getArchivedOrdersWithLineItems d).

(** * Properties *)

(** ** Facts about the SQL statements *)

Section SqlFacts.
Context {A : Type} (P : A → Prop) `{!∀ r, Decision (P r)}.

Lemma update_where_none (f : A → A) (tbl : list A) :
  Forall (λ r, ¬ P r) tbl → update_where P f tbl = tbl.
Proof.
  induction 1 as [|r tbl Hr _ IH]; [done|].
  unfold update_where in *. cbn. rewrite IH. by rewrite decide_False.
Qed.

Lemma update_where_length (f : A → A) (tbl : list A) :
  length (update_where P f tbl) = length tbl.
Proof. unfold update_where. by rewrite length_fmap. Qed.

Lemma select_one_None (tbl : list A) :
  select_one P tbl = None ↔ Forall (λ r, ¬ P r) tbl.
Proof.
  unfold select_one. induction tbl as [|r tbl IH]; [by split; [constructor|]|].
  rewrite filter_cons. destruct (decide (P r)) as [Hr|Hr]; cbn.
  - split; [done|]. intros Hall. by inversion Hall.
  - rewrite IH. split; [by constructor|]. intros Hall. by inversion Hall.
Qed.

Lemma select_one_Some (tbl : list A) (r : A) :
  select_one P tbl = Some r → r ∈ tbl ∧ P r.
Proof.
  unfold select_one. intros Hsel.
  assert (r ∈ filter P tbl) as Hin.
  { destruct (filter P tbl); [done|]. cbn in Hsel. injection Hsel as ->. left. }
  by apply list_elem_of_filter in Hin as [? ?].
Qed.

Lemma select_one_is_Some (tbl : list A) :
  is_Some (select_one P tbl) ↔ Exists P tbl.
Proof.
  rewrite <- not_eq_None_Some, select_one_None.
  rewrite Forall_Exists_neg.
  destruct (decide (Exists P tbl)); tauto.
Qed.

(** An update that does not move rows in or out of [Q] commutes with
    reading the first row of [Q]. *)
Lemma select_one_fmap (Q : A → Prop) `{!∀ r, Decision (Q r)}
    (g : A → A) (tbl : list A) :
  (∀ r, Q (g r) ↔ Q r) →
  select_one Q (g <$> tbl) = g <$> select_one Q tbl.
Proof.
  intros Hg. unfold select_one. induction tbl as [|r tbl IH]; [done|].
  rewrite fmap_cons, !filter_cons.
  destruct (decide (Q r)) as [Hr|Hr].
  - by rewrite decide_True by by apply Hg.
  - rewrite decide_False by by rewrite Hg. done.
Qed.

Lemma select_one_update_where (Q : A → Prop) `{!∀ r, Decision (Q r)}
    (f : A → A) (tbl : list A) :
  (∀ r, Q (f r) ↔ Q r) →
  select_one Q (update_where P f tbl)
  = (λ r, if decide (P r) then f r else r) <$> select_one Q tbl.
Proof.
  intros Hf. unfold update_where. apply select_one_fmap.
  intros r. by destruct (decide (P r)).
Qed.
End SqlFacts.

(** ** Task store *)

Lemma getTaskByVariantId_None (variantId : string) (d : db) :
  getTaskByVariantId variantId d = None ↔
  Forall (λ r, Task.variant_id r ≠ variantId) (tasks d).
Proof. apply select_one_None. Qed.

Lemma getTaskByVariantId_Some (variantId : string) (d : db) (task : Task.t) :
  getTaskByVariantId variantId d = Some task →
  task ∈ tasks d ∧ Task.variant_id task = variantId.
Proof. apply (select_one_Some (λ r, Task.variant_id r = variantId)). Qed.

Lemma filter_absent_variant (variantId : string) (d : db) :
  getTaskByVariantId variantId d = None →
  filter (λ r, Task.variant_id r = variantId) (tasks d) = [].
Proof. unfold getTaskByVariantId, select_one. by rewrite head_None. Qed.

Lemma absent_variant_update (variantId : string) (f : Task.t → Task.t) (d : db) :
  getTaskByVariantId variantId d = None →
  set_tasks (update_where (λ r, Task.variant_id r = variantId) f) d = d.
Proof.
  intros Hnone. destruct d as [ts os ls]. unfold set_tasks; cbn. f_equal.
  apply update_where_none. by apply getTaskByVariantId_None in Hnone.
Qed.

Lemma updateTaskStatus_absent (variantId : string) (d : db) :
  getTaskByVariantId variantId d = None → updateTaskStatus variantId d = d.
Proof. apply absent_variant_update. Qed.

(** Reading a task back after an [UPDATE tasks ... WHERE variant_id = ?]
    that leaves [variant_id] alone. *)
Lemma getTaskByVariantId_update (v w : string) (f : Task.t → Task.t) (d : db) :
  (∀ r, Task.variant_id (f r) = Task.variant_id r) →
  getTaskByVariantId v
    (set_tasks (update_where (λ r, Task.variant_id r = w) f) d)
  = (λ r, if decide (Task.variant_id r = w) then f r else r)
      <$> getTaskByVariantId v d.
Proof.
  intros Hf. unfold getTaskByVariantId, set_tasks; cbn.
  apply select_one_update_where. intros r. by rewrite Hf.
Qed.

Lemma getTaskByVariantId_updateTaskStatus (v w : string) (d : db) :
  getTaskByVariantId v (updateTaskStatus w d)
  = (λ r, if decide (Task.variant_id r = w) then restatusTask r else r)
      <$> getTaskByVariantId v d.
Proof. by apply getTaskByVariantId_update. Qed.

(** C7. The status [updateTaskStatus] writes is [pending] exactly when
    nothing is made (also when the total is 0), [completed] exactly when
    something is made and made reaches the total, and [in_progress] in the
    remaining case; every row the statement touches carries that status
    afterwards. *)
Theorem task_status_three_way (made total : Z) :
  0 ≤ made → 0 ≤ total →
  (taskStatusCase made total = TaskStatus.pending ↔ made = 0)
  ∧ (taskStatusCase made total = TaskStatus.completed
     ↔ total ≤ made ∧ 0 < made)
  ∧ (taskStatusCase made total = TaskStatus.in_progress
     ↔ 0 < made ∧ made < total)
  ∧ taskStatusCase 0 total = TaskStatus.pending
  ∧ (∀ (variantId : string) (d : db) (r : Task.t),
       r ∈ tasks (updateTaskStatus variantId d) →
       Task.variant_id r = variantId →
       Task.status r
       = taskStatusCase (Task.made_quantity r) (Task.total_quantity r)).
Proof.
  intros Hmade Htotal. unfold taskStatusCase.
  repeat split; try (repeat case_decide; first [done | lia]).
  intros variantId d r Hr Hv.
  unfold updateTaskStatus, set_tasks, update_where in Hr; cbn in Hr.
  apply list_elem_of_fmap in Hr as (r0 & -> & _).
  destruct (decide (Task.variant_id r0 = variantId)) as [|Hne]; [done|].
  by destruct Hne.
Qed.

Lemma task_status_three_way_witness :
  taskStatusCase 0 0 = TaskStatus.pending
  ∧ taskStatusCase 3 3 = TaskStatus.completed
  ∧ taskStatusCase 2 3 = TaskStatus.in_progress.
Proof.
  pose proof (task_status_three_way 0 0 ltac:(lia) ltac:(lia)) as (_ & _ & _ & H0 & _).
  pose proof (task_status_three_way 3 3 ltac:(lia) ltac:(lia)) as (_ & H3 & _).
  pose proof (task_status_three_way 2 3 ltac:(lia) ltac:(lia)) as (_ & _ & H2 & _).
  split; [exact H0|]. split; [apply H3; lia | apply H2; lia].
Defined.

(** The mirror's inline expression tests [made >= total] first, so it
    answers [completed] where the production [CASE] answers [pending]. *)
Lemma mirror_status_zero_total :
  TestDatabase.inlineTaskStatus 0 0 = TaskStatus.completed
  ∧ taskStatusCase 0 0 = TaskStatus.pending.
Proof. done. Qed.

Lemma mirror_status_agrees (made total : Z) :
  0 ≤ made → 0 < total →
  TestDatabase.inlineTaskStatus made total = taskStatusCase made total.
Proof.
  intros ? ?. unfold TestDatabase.inlineTaskStatus, taskStatusCase.
  repeat case_decide; first [done | lia].
Qed.

(** C2. [updateMadeQuantity] throws the not-found error when the variant
    has no task; throws the would-exceed-total error, with the database
    untouched, whenever made + quantity is above the total; and when
    made + quantity is exactly the total it returns, and the task then
    holds made = total with status [completed]. *)
Theorem updateMadeQuantity_strict (variantId : string) (quantity : Z) (d : db) :
  0 < quantity →
  (getTaskByVariantId variantId d = None →
   updateMadeQuantity variantId quantity d
   = (Thrown (TaskNotFound variantId), d))
  ∧ (∀ task, getTaskByVariantId variantId d = Some task →
       (Task.total_quantity task < Task.made_quantity task + quantity →
        updateMadeQuantity variantId quantity d
        = (Thrown (ExceedsTotal quantity (Task.total_quantity task)), d))
       ∧ (0 ≤ Task.made_quantity task →
          Task.made_quantity task + quantity = Task.total_quantity task →
          ∃ result d' task',
            updateMadeQuantity variantId quantity d = (Ok result, d')
            ∧ getTaskByVariantId variantId d' = Some task'
            ∧ Task.made_quantity task' = Task.total_quantity task
            ∧ Task.total_quantity task' = Task.total_quantity task
            ∧ Task.status task' = TaskStatus.completed)).
Proof.
  intros Hq. split.
  - intros Hnone. unfold updateMadeQuantity. by rewrite Hnone.
  - intros task Hsome. split.
    + intros Hexceeds. unfold updateMadeQuantity. rewrite Hsome.
      by rewrite decide_True.
    + intros Hmade Hexact. unfold updateMadeQuantity. rewrite Hsome.
      rewrite decide_False by lia.
      eexists _, _, _. split; [reflexivity|].
      rewrite getTaskByVariantId_updateTaskStatus.
      rewrite getTaskByVariantId_update by done. rewrite Hsome. cbn.
      apply getTaskByVariantId_Some in Hsome as [_ Hv].
      destruct (decide (Task.variant_id task = variantId)) as [_|]; [|done].
      cbn. rewrite decide_True by done.
      split; [reflexivity|]. cbn. repeat split; [lia|].
      unfold taskStatusCase. repeat case_decide; first [done | lia].
Qed.

Lemma updateMadeQuantity_strict_witness :
  updateMadeQuantity "v2" 1 (oneTask 2 5)
  = (Thrown (TaskNotFound "v2"), oneTask 2 5)
  ∧ updateMadeQuantity "v1" 4 (oneTask 2 5)
    = (Thrown (ExceedsTotal 4 5), oneTask 2 5)
  ∧ ∃ result d' task',
      updateMadeQuantity "v1" 3 (oneTask 2 5) = (Ok result, d')
      ∧ getTaskByVariantId "v1" d' = Some task'
      ∧ Task.made_quantity task' = 5
      ∧ Task.total_quantity task' = 5
      ∧ Task.status task' = TaskStatus.completed.
Proof.
  split; [|split].
  - apply (updateMadeQuantity_strict "v2" 1 (oneTask 2 5)); [lia | reflexivity].
  - refine (proj1 (proj2 (updateMadeQuantity_strict "v1" 4 (oneTask 2 5) _)
                     _ eq_refl) _); cbn; lia.
  - refine (proj2 (proj2 (updateMadeQuantity_strict "v1" 3 (oneTask 2 5) _)
                     _ eq_refl) _ _); cbn; lia.
Defined.

(** The clamped variant of the test mirror stores the total instead of
    throwing. *)
Lemma mirror_updateMadeQuantity_clamps :
  (TestDatabase.updateMadeQuantity "v1" 4 (oneTask 2 5)).1
  = Ok (TestDatabase.mkMadeResult 2 5 3 TaskStatus.completed).
Proof. reflexivity. Qed.

(** C10. For a variant without a task row [resetTask] returns without an
    error (the production statement reports 0 changed rows, the test
    mirror returns [true]) and leaves the database as it was, where
    [updateMadeQuantity] throws the not-found error; for a variant with a
    task row the row holds made = 0 and status [pending] afterwards,
    whatever it held before. *)
Theorem resetTask_total (variantId : string) (d : db) :
  (getTaskByVariantId variantId d = None →
     resetTask variantId d = (Ok (mkRun 0), d)
     ∧ TestDatabase.resetTask variantId d = (Ok true, d)
     ∧ (∀ quantity,
          updateMadeQuantity variantId quantity d
          = (Thrown (TaskNotFound variantId), d)
          ∧ TestDatabase.updateMadeQuantity variantId quantity d
            = (Thrown (TaskNotFound variantId), d)))
  ∧ (∀ task, getTaskByVariantId variantId d = Some task →
       (∃ result task',
          (resetTask variantId d).1 = Ok result
          ∧ getTaskByVariantId variantId (resetTask variantId d).2 = Some task'
          ∧ Task.made_quantity task' = 0
          ∧ Task.status task' = TaskStatus.pending)
       ∧ (∃ task',
            (TestDatabase.resetTask variantId d).1 = Ok true
            ∧ getTaskByVariantId variantId (TestDatabase.resetTask variantId d).2
              = Some task'
            ∧ Task.made_quantity task' = 0
            ∧ Task.status task' = TaskStatus.pending)).
Proof.
  split.
  - intros Hnone. repeat split.
    + unfold resetTask. rewrite filter_absent_variant by done.
      rewrite (absent_variant_update _ _ _ Hnone).
      by rewrite updateTaskStatus_absent.
    + unfold TestDatabase.resetTask.
      by rewrite (absent_variant_update _ _ _ Hnone).
    + unfold updateMadeQuantity. by rewrite Hnone.
    + unfold TestDatabase.updateMadeQuantity. by rewrite Hnone.
  - intros task Hsome.
    pose proof (getTaskByVariantId_Some _ _ _ Hsome) as [_ Hv]. split.
    + eexists _, _. split; [reflexivity|]. cbn.
      rewrite getTaskByVariantId_updateTaskStatus.
      rewrite getTaskByVariantId_update by done. rewrite Hsome. cbn.
      destruct (decide (Task.variant_id task = variantId)) as [_|]; [|done].
      cbn. rewrite decide_True by done. done.
    + eexists. split; [reflexivity|]. cbn.
      rewrite getTaskByVariantId_update by done. rewrite Hsome. cbn.
      destruct (decide (Task.variant_id task = variantId)) as [_|]; [|done].
      done.
Qed.

Lemma resetTask_total_witness :
  resetTask "v2" (oneTask 5 5) = (Ok (mkRun 0), oneTask 5 5)
  ∧ TestDatabase.resetTask "v2" (oneTask 5 5) = (Ok true, oneTask 5 5)
  ∧ ∃ result task',
      (resetTask "v1" (oneTask 5 5)).1 = Ok result
      ∧ getTaskByVariantId "v1" (resetTask "v1" (oneTask 5 5)).2 = Some task'
      ∧ Task.made_quantity task' = 0
      ∧ Task.status task' = TaskStatus.pending.
Proof.
  pose proof (resetTask_total "v2" (oneTask 5 5)) as [Habsent _].
  pose proof (resetTask_total "v1" (oneTask 5 5)) as [_ Hpresent].
  destruct (Habsent eq_refl) as (H1 & H2 & _).
  destruct (Hpresent _ eq_refl) as [H3 _].
  exact (conj H1 (conj H2 H3)).
Defined.

(** ** Upserts *)

Lemma Forall2_fmap_rows {A : Type} (R : A → A → Prop) (g : A → A) (l : list A) :
  (∀ r, R r (g r)) → Forall2 R l (g <$> l).
Proof. intros Hg. induction l; cbn; by constructor. Qed.

Section UpsertFacts.
Context {A : Type} (P : A → Prop) `{!∀ r, Decision (P r)}.


Lemma insert_or_update_fresh (new : A) (f : A → A) (tbl : list A) :
  ¬ Exists P tbl → insert_or_update P new f tbl = tbl ++ [new].
Proof. intros Hex. unfold insert_or_update. by rewrite decide_False. Qed.

Lemma update_where_rows (R : A → A → Prop) (f : A → A) (tbl : list A) :
  (∀ r, P r → R r (f r)) → (∀ r, ¬ P r → R r r) →
  Forall2 R tbl (update_where P f tbl).
Proof.
  intros Hhit Hmiss. apply Forall2_fmap_rows. intros r.
  destruct (decide (P r)); auto.
Qed.
End UpsertFacts.


Lemma upsertTask_fresh (task : TaskInput) (d : db) :
  getTaskByVariantId (ti_variantId task) d = None →
  tasks (upsertTask task d)
  = tasks d ++
    [Task.mk (ti_variantId task) (ti_variantTitle task) (ti_productTitle task)
       (ti_sku task) (or_null (ti_imageUrl task)) (ti_totalQuantity task) 0
       TaskStatus.pending].
Proof.
  intros Hnone. pose proof Hnone as Hall.
  apply getTaskByVariantId_None in Hall.
  unfold upsertTask, updateTaskStatus, set_tasks; cbn.
  rewrite insert_or_update_fresh.
  2:{ rewrite <- Forall_Exists_neg. exact Hall. }
  unfold update_where. rewrite fmap_app. cbn. rewrite decide_True by done.
  f_equal. apply (update_where_none _ restatusTask). exact Hall.
Qed.




Lemma upsertOrderLineItem_fresh (lineItem : LineItemInput) (d : db) :
  ¬ Exists (λ r, LineItem.line_item_id r = lii_lineItemId lineItem)
           (order_line_items d) →
  order_line_items (upsertOrderLineItem lineItem d)
  = order_line_items d ++
    [LineItem.mk (lii_orderId lineItem) (lii_lineItemId lineItem)
       (lii_variantId lineItem) (lii_variantTitle lineItem)
       (lii_productTitle lineItem) (lii_sku lineItem)
       (or_null (lii_imageUrl lineItem)) (lii_quantity lineItem) 0].
Proof.
  intros Hex. unfold upsertOrderLineItem, set_order_line_items; cbn.
  by rewrite insert_or_update_fresh.
Qed.



(** ** What each statement leaves alone *)

Lemma foldl_frame {S X B : Type} (g : S → B) (f : S → X → S) (l : list X) (s : S) :
  (∀ s x, g (f s x) = g s) → g (foldl f s l) = g s.
Proof.
  intros Hf. revert s. induction l as [|x l IH]; intros s; [done|].
  cbn. by rewrite IH.
Qed.


Lemma orders_updateTaskStatus v d : orders (updateTaskStatus v d) = orders d.
Proof. done. Qed.
Lemma lines_updateTaskStatus v d :
  order_line_items (updateTaskStatus v d) = order_line_items d.
Proof. done. Qed.
Lemma orders_upsertTask task d : orders (upsertTask task d) = orders d.
Proof. done. Qed.
Lemma lines_upsertTask task d :
  order_line_items (upsertTask task d) = order_line_items d.
Proof. done. Qed.
Lemma orders_upsertOrderLineItem li d :
  orders (upsertOrderLineItem li d) = orders d.
Proof. done. Qed.
Lemma tasks_upsertOrder o d : tasks (upsertOrder o d) = tasks d.
Proof. done. Qed.
Lemma tasks_upsertOrderLineItem li d :
  tasks (upsertOrderLineItem li d) = tasks d.
Proof. done. Qed.
Lemma lines_upsertOrder o d :
  order_line_items (upsertOrder o d) = order_line_items d.
Proof. done. Qed.
Lemma tasks_updateAllOrderStatuses d : tasks (updateAllOrderStatuses d) = tasks d.
Proof. done. Qed.
Lemma lines_updateAllOrderStatuses d :
  order_line_items (updateAllOrderStatuses d) = order_line_items d.
Proof. done. Qed.

Lemma orders_recalculateStep totals d v :
  orders (recalculateStep totals d v) = orders d.
Proof. unfold recalculateStep. by destruct (totals !! v) as [[? ?]|]. Qed.
Lemma lines_recalculateStep totals d v :
  order_line_items (recalculateStep totals d v) = order_line_items d.
Proof. unfold recalculateStep. by destruct (totals !! v) as [[? ?]|]. Qed.

Lemma orders_recalculate d :
  orders (recalculateTaskTotalsFromOrders d) = orders d.
Proof.
  unfold recalculateTaskTotalsFromOrders, deleteZeroTotalTasks; cbn.
  apply (foldl_frame orders). apply orders_recalculateStep.
Qed.
Lemma lines_recalculate d :
  order_line_items (recalculateTaskTotalsFromOrders d) = order_line_items d.
Proof.
  unfold recalculateTaskTotalsFromOrders, deleteZeroTotalTasks; cbn.
  apply (foldl_frame order_line_items). apply lines_recalculateStep.
Qed.

Lemma orders_upsertTasks (aggregated : list TaskInput) d :
  orders (foldl (λ d item, upsertTask item d) d aggregated) = orders d.
Proof. by apply (foldl_frame orders). Qed.
Lemma lines_upsertTasks (aggregated : list TaskInput) d :
  order_line_items (foldl (λ d item, upsertTask item d) d aggregated)
  = order_line_items d.
Proof. by apply (foldl_frame order_line_items). Qed.

(** What [updateAllOrderStatuses] may change in an order row: the counter
    and the status of an order that is not archived. *)
Lemma updateAllOrderStatuses_rows d :
  Forall2
    (λ o o', Order.order_id o' = Order.order_id o
             ∧ Order.order_name o' = Order.order_name o
             ∧ Order.order_date o' = Order.order_date o
             ∧ Order.total_items o' = Order.total_items o
             ∧ (Order.status o = OrderStatus.archived → o' = o)
             ∧ (Order.status o ≠ OrderStatus.archived →
                Order.fulfilled_items o'
                = sumZ (LineItem.fulfilled_quantity
                          <$> lineItemsOfOrder (Order.order_id o) d)
                ∧ Order.status o'
                  = orderStatusCase (Order.fulfilled_items o')
                                    (Order.total_items o)))
    (orders d) (orders (updateAllOrderStatuses d)).
Proof.
  unfold updateAllOrderStatuses, set_orders, update_where; cbn.
  rewrite <- list_fmap_compose. apply Forall2_fmap_rows. intros o. cbn.
  unfold notArchived.
  destruct (decide (Order.status o ≠ OrderStatus.archived)) as [Hs|Hs]; cbn.
  - rewrite decide_True by done. cbn. repeat split; done.
  - rewrite decide_False by done. repeat split; done.
Qed.

(** ** Reconciliation: the skip set, the safe clear and the storage loop *)


Lemma clear_orders_spec (d : db) (o : Order.t) :
  o ∈ orders (clearOrdersWithoutProgress d).2 ↔
  o ∈ orders d ∧ ¬ withoutProgress o.
Proof.
  unfold clearOrdersWithoutProgress, set_orders, delete_where; cbn.
  rewrite list_elem_of_filter. tauto.
Qed.


Lemma tasks_clear (d : db) : tasks (clearOrdersWithoutProgress d).2 = tasks d.
Proof. done. Qed.

Section TableFacts.
Context {A : Type} (P : A → Prop) `{!∀ r, Decision (P r)}.






End TableFacts.

Lemma orders_storeLineItems (items : list LineItemInput) (d : db) :
  orders (foldl (λ d lineItem, upsertOrderLineItem lineItem d) d items)
  = orders d.
Proof. by apply (foldl_frame orders). Qed.

Lemma tasks_storeOrders skip (ofs : list OrderInput) (d : db) :
  tasks (storeOrders skip ofs d) = tasks d.
Proof.
  unfold storeOrders. apply (foldl_frame tasks). intros s x.
  unfold storeOrder. case_decide; [done|].
  by rewrite (foldl_frame tasks).
Qed.


Lemma sameProgress_refl li : sameProgress li li.
Proof. done. Qed.




Lemma NoDup_fmap_eq {A B : Type} (f : A → B) (l : list A) (x y : A) :
  NoDup (f <$> l) → x ∈ l → y ∈ l → f x = f y → x = y.
Proof.
  induction l as [|a l IH]; intros Hnd Hx Hy Hf; [by apply elem_of_nil in Hx|].
  rewrite fmap_cons in Hnd. apply NoDup_cons in Hnd as [Ha Hnd].
  apply elem_of_cons in Hx as [->|Hx]; apply elem_of_cons in Hy as [->|Hy].
  - done.
  - destruct Ha. rewrite Hf. by apply list_elem_of_fmap_2.
  - destruct Ha. rewrite <- Hf. by apply list_elem_of_fmap_2.
  - by apply IH.
Qed.











(** ** Recalculation of the task totals *)

Section UpdateByKey.
Context {A : Type} (key : A → string).

Lemma update_where_compose (v : string) (f g : A → A) (tbl : list A) :
  (∀ r, key (f r) = key r) →
  update_where (λ r, key r = v) g (update_where (λ r, key r = v) f tbl)
  = update_where (λ r, key r = v) (g ∘ f) tbl.
Proof.
  intros Hf. unfold update_where. rewrite <- list_fmap_compose.
  apply Forall_fmap_ext_1, Forall_forall. intros r _. cbn.
  destruct (decide (key r = v)) as [Hr|Hr].
  - by rewrite decide_True by by rewrite Hf.
  - by rewrite decide_False.
Qed.

(** A loop of keyed updates, each with a row function that is fixed,
    idempotent and keeps the key, is one pass over the table. *)
Lemma foldl_update_by_key (F : A → A) (vs : list string) (tbl : list A) :
  (∀ r, key (F r) = key r) → (∀ r, F (F r) = F r) →
  foldl (λ tbl v, update_where (λ r, key r = v) F tbl) tbl vs
  = (λ r, if decide (key r ∈ vs) then F r else r) <$> tbl.
Proof.
  intros Hkey Hidem. revert tbl.
  induction vs as [|v vs IH]; intros tbl; cbn.
  - rewrite <- (list_fmap_id tbl) at 1.
    apply Forall_fmap_ext_1, Forall_forall. intros r _.
    rewrite decide_False; [done|]. apply not_elem_of_nil.
  - rewrite IH. unfold update_where. rewrite <- list_fmap_compose.
    apply Forall_fmap_ext_1, Forall_forall. intros r _. cbn.
    destruct (decide (key r = v)) as [Hr|Hr].
    + rewrite (decide_True (P := key r ∈ v :: vs))
        by (rewrite elem_of_cons; by left).
      rewrite Hkey. case_decide; by rewrite ?Hidem.
    + destruct (decide (key r ∈ vs)) as [Hin|Hin].
      * rewrite decide_True; [done|]. rewrite elem_of_cons. by right.
      * rewrite decide_False; [done|]. rewrite elem_of_cons. tauto.
Qed.
End UpdateByKey.

Lemma variantTotals_Some (d : db) (v : string) :
  v ∈ (LineItem.variant_id <$> nonArchivedLineItems d) →
  variantTotals d !! v = Some (sumQuantity v d, sumFulfilled v d).
Proof.
  intros Hv. unfold variantTotals. apply elem_of_list_to_map_1.
  - unfold lineItemTotals. rewrite <- list_fmap_compose.
    rewrite (list_fmap_ext _ id); [|done].
    rewrite list_fmap_id. apply NoDup_remove_dups.
  - unfold lineItemTotals. apply list_elem_of_fmap. exists v.
    split; [done|]. by apply elem_of_remove_dups.
Qed.

Lemma variantTotals_None (d : db) (v : string) :
  v ∉ (LineItem.variant_id <$> nonArchivedLineItems d) →
  variantTotals d !! v = None ∧ sumQuantity v d = 0 ∧ sumFulfilled v d = 0.
Proof.
  intros Hv. split.
  - unfold variantTotals. apply not_elem_of_list_to_map_1.
    unfold lineItemTotals. rewrite <- list_fmap_compose.
    rewrite (list_fmap_ext _ id); [|done].
    rewrite list_fmap_id. by rewrite elem_of_remove_dups.
  - assert (itemsOfVariant v (nonArchivedLineItems d) = []) as Hnil.
    { unfold itemsOfVariant.
      destruct (filter _ _) as [|li l] eqn:Hf; [done|].
      assert (li ∈ filter (λ r, LineItem.variant_id r = v)
                     (nonArchivedLineItems d)) as Hli
        by (rewrite Hf; by left).
      apply list_elem_of_filter in Hli as [<- Hli].
      destruct Hv. by apply list_elem_of_fmap_2. }
    unfold sumQuantity, sumFulfilled. by rewrite Hnil.
Qed.

(** One turn of the loop writes the recalculated row, whether the [Map]
    has the variant or not. *)
Lemma recalculateStep_tasks (d0 d : db) (v : string) :
  tasks (recalculateStep (variantTotals d0) d v)
  = update_where (λ r, Task.variant_id r = v) (recalculatedTask d0) (tasks d).
Proof.
  assert (∀ total made,
    total = sumQuantity v d0 → made = sumFulfilled v d0 →
    tasks (updateTaskStatus v (updateTask total made v d))
    = update_where (λ r, Task.variant_id r = v) (recalculatedTask d0) (tasks d))
    as Hrow.
  { intros total made -> ->.
    unfold updateTaskStatus, updateTask, set_tasks; cbn.
    rewrite (update_where_compose Task.variant_id) by done.
    unfold update_where. apply Forall_fmap_ext_1, Forall_forall.
    intros r _. case_decide as Hr; [|done].
    unfold recalculatedTask. cbn. by rewrite Hr. }
  unfold recalculateStep.
  destruct (decide (v ∈ (LineItem.variant_id <$> nonArchivedLineItems d0)))
    as [Hv|Hv].
  - rewrite variantTotals_Some by done. by apply Hrow.
  - destruct (variantTotals_None _ _ Hv) as (-> & Hq & Hf). by apply Hrow.
Qed.

Lemma recalculate_loop_tasks (d0 : db) (vs : list string) (d : db) :
  tasks (foldl (recalculateStep (variantTotals d0)) d vs)
  = foldl (λ tbl v,
             update_where (λ r, Task.variant_id r = v) (recalculatedTask d0) tbl)
          (tasks d) vs.
Proof.
  revert d. induction vs as [|v vs IH]; intros d; [done|].
  cbn. by rewrite IH, recalculateStep_tasks.
Qed.

Lemma recalculatedTask_idem (d : db) (r : Task.t) :
  recalculatedTask d (recalculatedTask d r) = recalculatedTask d r.
Proof. done. Qed.

(** The task table after the recalculation: every row rewritten from the
    sums, then the rows with total 0 removed. *)
Lemma recalculate_tasks (d : db) :
  tasks (recalculateTaskTotalsFromOrders d)
  = filter (λ r, Task.total_quantity r ≠ 0) (recalculatedTask d <$> tasks d).
Proof.
  unfold recalculateTaskTotalsFromOrders, deleteZeroTotalTasks, set_tasks,
    delete_where; cbn.
  f_equal. rewrite recalculate_loop_tasks.
  rewrite (foldl_update_by_key Task.variant_id) by done.
  apply Forall_fmap_ext_1, Forall_forall. intros r Hr.
  rewrite decide_True; [done|]. by apply list_elem_of_fmap_2.
Qed.

Lemma joinOrders_ext (d d' : db) :
  orders d = orders d' → order_line_items d = order_line_items d' →
  joinOrders d = joinOrders d'.
Proof.
  intros Ho Hl. unfold joinOrders, getOrderByOrderId. by rewrite Ho, Hl.
Qed.

Lemma sums_ext (d d' : db) (v : string) :
  orders d = orders d' → order_line_items d = order_line_items d' →
  sumQuantity v d = sumQuantity v d' ∧ sumFulfilled v d = sumFulfilled v d'.
Proof.
  intros Ho Hl. unfold sumQuantity, sumFulfilled, nonArchivedLineItems.
  by rewrite (joinOrders_ext d d').
Qed.

(** C8. After [recalculateTaskTotalsFromOrders] every task row left holds
    as total and made the sums of [quantity] and [fulfilled_quantity] over
    the line items of its variant in orders that are not archived; a task
    whose sum of quantities is 0, as it is for a variant without such a
    line item, has been deleted, and every other task is still there.
    Orders and line items are not written. *)
Theorem recalculate_totals_from_orders (d : db) :
  orders (recalculateTaskTotalsFromOrders d) = orders d
  ∧ order_line_items (recalculateTaskTotalsFromOrders d) = order_line_items d
  ∧ (∀ r', r' ∈ tasks (recalculateTaskTotalsFromOrders d) →
       Task.total_quantity r'
       = sumQuantity (Task.variant_id r') (recalculateTaskTotalsFromOrders d)
       ∧ Task.made_quantity r'
         = sumFulfilled (Task.variant_id r')
             (recalculateTaskTotalsFromOrders d)
       ∧ Task.total_quantity r' ≠ 0
       ∧ Task.status r'
         = taskStatusCase (Task.made_quantity r') (Task.total_quantity r'))
  ∧ (∀ r, r ∈ tasks d →
       (sumQuantity (Task.variant_id r) d ≠ 0 →
        recalculatedTask d r ∈ tasks (recalculateTaskTotalsFromOrders d))
       ∧ (sumQuantity (Task.variant_id r) d = 0 →
          ∀ r', r' ∈ tasks (recalculateTaskTotalsFromOrders d) →
                Task.variant_id r' ≠ Task.variant_id r)
       ∧ (Task.variant_id r ∉ (LineItem.variant_id <$> nonArchivedLineItems d) →
          sumQuantity (Task.variant_id r) d = 0)).
Proof.
  split; [apply orders_recalculate|].
  split; [apply lines_recalculate|].
  assert (∀ r', r' ∈ tasks (recalculateTaskTotalsFromOrders d) →
            ∃ r, r ∈ tasks d ∧ r' = recalculatedTask d r
                 ∧ Task.total_quantity r' ≠ 0) as Hrows.
  { intros r' Hr'. rewrite recalculate_tasks in Hr'.
    apply list_elem_of_filter in Hr' as [Hnz Hr'].
    apply list_elem_of_fmap in Hr' as (r & -> & Hr). by exists r. }
  assert (∀ v, sumQuantity v (recalculateTaskTotalsFromOrders d)
               = sumQuantity v d
               ∧ sumFulfilled v (recalculateTaskTotalsFromOrders d)
                 = sumFulfilled v d) as Hsums.
  { intros v. apply sums_ext;
      [apply orders_recalculate | apply lines_recalculate]. }
  split.
  - intros r' Hr'. destruct (Hrows r' Hr') as (r & Hr & -> & Hnz).
    destruct (Hsums (Task.variant_id (recalculatedTask d r))) as [-> ->].
    done.
  - intros r Hr. split; [|split].
    + intros Hnz. rewrite recalculate_tasks. apply list_elem_of_filter.
      split; [done|]. by apply list_elem_of_fmap_2.
    + intros Hz r' Hr' Hv. destruct (Hrows r' Hr') as (r0 & Hr0 & -> & Hnz).
      apply Hnz. cbn in *. by rewrite Hv.
    + intros Hv. by apply variantTotals_None.
Qed.

Lemma recalculate_totals_from_orders_witness :
  tasks (recalculateTaskTotalsFromOrders driftedDb)
  = [Task.mk "v1" "Blue" "Shirt" "S-1" None 5 3 TaskStatus.in_progress]
  ∧ ∀ r', r' ∈ tasks (recalculateTaskTotalsFromOrders driftedDb) →
          Task.variant_id r' ≠ "v9".
Proof.
  split; [reflexivity|].
  destruct (recalculate_totals_from_orders driftedDb) as (_ & _ & _ & Hdel).
  destruct (Hdel (Task.mk "v9" "Red" "Cap" "C-9" None 4 1 TaskStatus.in_progress))
    as (_ & Hgone & _).
  { apply elem_of_cons. right. apply elem_of_cons. by left. }
  apply Hgone. reflexivity.
Defined.

(** ** Ordering by date *)

Lemma compare_OT (a b : string) :
  String_as_OT.compare a b = String.compare a b.
Proof.
  revert b. induction a as [|x a IH]; intros [|y b]; cbn; [done..|].
  by rewrite IH.
Qed.

Lemma leb_iff (a b : string) :
  String.leb a b = true ↔ a = b ∨ String_as_OT.lt a b.
Proof.
  unfold String.leb. rewrite <- compare_OT.
  destruct (String_as_OT.compare_spec a b) as [H|H|H]; split; try done; auto.
  intros [->|H2].
  - by destruct (irreflexivity String_as_OT.lt b).
  - destruct (irreflexivity String_as_OT.lt a). by etransitivity.
Qed.

Lemma leb_refl (a : string) : String.leb a a = true.
Proof. apply leb_iff. by left. Qed.

Lemma leb_trans (a b c : string) :
  String.leb a b = true → String.leb b c = true → String.leb a c = true.
Proof.
  rewrite !leb_iff. intros [->|H1] [->|H2]; auto.
  right. by etransitivity.
Qed.

Section OrderByFacts.
Context {A : Type} (key : A → string).
Let le (a b : A) : Prop := String.leb (key a) (key b) = true.

Lemma insertRow_perm (x : A) (l : list A) : insertRow key x l ≡ₚ x :: l.
Proof.
  induction l as [|y l IH]; [done|]. cbn.
  destruct (String.leb (key x) (key y)); [done|].
  rewrite IH. apply Permutation_swap.
Qed.

Lemma orderBy_perm (l : list A) : orderBy key l ≡ₚ l.
Proof.
  induction l as [|x l IH]; [done|]. cbn.
  by rewrite insertRow_perm, IH.
Qed.

Lemma insertRow_sorted (x : A) (l : list A) :
  StronglySorted le l → StronglySorted le (insertRow key x l).
Proof.
  induction 1 as [|y l Hl IH Hy]; cbn.
  - repeat constructor.
  - destruct (String.leb (key x) (key y)) eqn:Hxy.
    + constructor; [by constructor|]. constructor; [done|].
      eapply Forall_impl; [exact Hy|]. intros z Hz.
      unfold le in *. by eapply leb_trans.
    + constructor; [done|]. rewrite insertRow_perm. constructor; [|done].
      unfold le. destruct (String.leb_total (key x) (key y)); congruence.
Qed.

Lemma orderBy_sorted (l : list A) : StronglySorted le (orderBy key l).
Proof.
  induction l as [|x l IH]; cbn; [constructor|]. by apply insertRow_sorted.
Qed.

(** Rows with the same key keep the order they came in. *)
Lemma insertRow_stable (k : string) (x : A) (l : list A) :
  filter (λ a, key a = k) (insertRow key x l)
  = filter (λ a, key a = k) (x :: l).
Proof.
  induction l as [|y l IH]; [done|]. cbn.
  destruct (String.leb (key x) (key y)) eqn:Hxy; [done|].
  rewrite filter_cons, IH, !filter_cons.
  destruct (decide (key y = k)) as [Hy|Hy]; [|done].
  destruct (decide (key x = k)) as [Hx|Hx]; [|done].
  rewrite Hx, Hy, leb_refl in Hxy. done.
Qed.

Lemma orderBy_stable (k : string) (l : list A) :
  filter (λ a, key a = k) (orderBy key l) = filter (λ a, key a = k) l.
Proof.
  induction l as [|x l IH]; [done|].
  change (orderBy key (x :: l)) with (insertRow key x (orderBy key l)).
  by rewrite insertRow_stable, !filter_cons, IH.
Qed.
End OrderByFacts.

Lemma allocationCandidates_spec (v : string) (d : db) (p : LineItem.t * Order.t) :
  p ∈ allocationCandidates v d ↔
  p ∈ joinOrders d ∧ LineItem.variant_id p.1 = v
  ∧ LineItem.fulfilled_quantity p.1 < LineItem.quantity p.1
  ∧ Order.status p.2 ≠ OrderStatus.archived.
Proof.
  unfold allocationCandidates. rewrite orderBy_perm, list_elem_of_filter.
  unfold notArchived. tauto.
Qed.

Lemma allocationCandidates_sorted (v : string) (d : db) :
  StronglySorted dateLe (allocationCandidates v d).
Proof. apply (orderBy_sorted (λ p, Order.order_date p.2)). Qed.

Lemma allocationCandidates_room (v : string) (d : db) :
  Forall (λ p, 0 < room p.1) (allocationCandidates v d).
Proof.
  apply Forall_forall. intros p Hp.
  apply allocationCandidates_spec in Hp as (_ & _ & Hlt & _).
  unfold room. lia.
Qed.

(** ** Sums *)

Lemma sumZ_nil : sumZ [] = 0.
Proof. done. Qed.

Lemma sumZ_cons (x : Z) (l : list Z) : sumZ (x :: l) = x + sumZ l.
Proof. done. Qed.

Lemma sumZ_app (l k : list Z) : sumZ (l ++ k) = sumZ l + sumZ k.
Proof.
  induction l as [|x l IH]; [done|].
  rewrite <- app_comm_cons, !sumZ_cons, IH. lia.
Qed.

(** ** The allocation loop *)

Lemma set_fulfilled_quantity_add0 (r : LineItem.t) :
  LineItem.set_fulfilled_quantity (LineItem.fulfilled_quantity r + 0) r = r.
Proof. destruct r. unfold LineItem.set_fulfilled_quantity; cbn. f_equal. lia. Qed.

Lemma takenFor_cons (id : string) (e : LineItem.t * Z) (walk : list (LineItem.t * Z)) :
  takenFor id (e :: walk)
  = (if decide (LineItem.line_item_id e.1 = id) then e.2 else 0)
    + takenFor id walk.
Proof.
  unfold takenFor. rewrite filter_cons.
  destruct (decide (LineItem.line_item_id e.1 = id)); [done|lia].
Qed.

Lemma allocatedToOrder_cons (id : string) (e : LineItem.t * Z)
    (walk : list (LineItem.t * Z)) :
  allocatedToOrder id (e :: walk)
  = (if decide (LineItem.order_id e.1 = id) then e.2 else 0)
    + allocatedToOrder id walk.
Proof.
  unfold allocatedToOrder. rewrite filter_cons.
  destruct (decide (LineItem.order_id e.1 = id)); [done|lia].
Qed.

(** The [UPDATE]s of the loop, one per entry of the walk, add up to
    [applyWalk]. *)
Lemma foldl_walk_table (walk : list (LineItem.t * Z)) (tbl : list LineItem.t) :
  foldl (λ tbl e,
           update_where
             (λ r, LineItem.line_item_id r = LineItem.line_item_id e.1)
             (λ r, LineItem.set_fulfilled_quantity
                     (LineItem.fulfilled_quantity r + e.2) r) tbl)
        tbl walk
  = applyWalk walk tbl.
Proof.
  revert tbl. induction walk as [|e walk IH]; intros tbl; cbn.
  - unfold applyWalk. rewrite <- (list_fmap_id tbl) at 1.
    apply Forall_fmap_ext_1, Forall_forall. intros r _. cbn.
    by rewrite set_fulfilled_quantity_add0.
  - rewrite IH. unfold applyWalk, update_where. rewrite <- list_fmap_compose.
    apply Forall_fmap_ext_1, Forall_forall. intros r _. cbn.
    rewrite takenFor_cons.
    destruct (decide (LineItem.line_item_id r = LineItem.line_item_id e.1))
      as [Hr|Hr].
    + rewrite decide_True by done. destruct r.
      unfold LineItem.set_fulfilled_quantity; cbn. f_equal. lia.
    + rewrite decide_False by done. destruct r.
      unfold LineItem.set_fulfilled_quantity; cbn. f_equal.
Qed.

(** The loop of [allocateMadeQuantityToOrders] performs the walk of the
    specification over the rows it was given. *)
Lemma allocateLoop_walk (items : list (LineItem.t * Order.t)) (st : AllocState) :
  Forall (λ p, 0 < room p.1) items →
  allocateLoop items st
  = mkAllocState
      (remainingToAllocate st
       - sumZ (snd <$> specFifoWalk (fst <$> items) (remainingToAllocate st)))
      (applyWalk (specFifoWalk (fst <$> items) (remainingToAllocate st))
         (lineItemTable st))
      (allocations st
       ++ (toAllocation
             <$> specFifoWalk (fst <$> items) (remainingToAllocate st)))
      (list_to_set
         ((λ e, LineItem.order_id e.1)
            <$> specFifoWalk (fst <$> items) (remainingToAllocate st))
       ∪ affectedOrderIds st).
Proof.
  intros Hroom. revert st.
  assert (∀ st : AllocState,
    st = mkAllocState
           (remainingToAllocate st
            - sumZ (snd <$> (@nil (LineItem.t * Z))))
           (applyWalk [] (lineItemTable st))
           (allocations st ++ (toAllocation <$> []))
           (list_to_set
              ((λ e : LineItem.t * Z, LineItem.order_id e.1) <$> [])
            ∪ affectedOrderIds st)) as Hstop.
  { intros [rem tbl al aff]; cbn. f_equal.
    - rewrite sumZ_nil. lia.
    - by rewrite <- foldl_walk_table.
    - by rewrite app_nil_r.
    - by rewrite (left_id_L ∅ (∪)). }
  induction Hroom as [|[item o] items Hitem _ IH]; intros st; [apply Hstop|].
  cbn [allocateLoop fmap list_fmap specFifoWalk fst].
  destruct (decide (remainingToAllocate st ≤ 0)) as [Hrem|Hrem]; [apply Hstop|].
  fold (room item). cbn in Hitem.
  rewrite decide_True by lia. rewrite IH. cbn. f_equal.
  - rewrite sumZ_cons. lia.
  - rewrite <- !foldl_walk_table. done.
  - by rewrite <- app_assoc.
  - rewrite !(assoc_L (∪)). f_equal. apply (comm_L (∪)).
Qed.

Lemma sumZ_room_nonneg (items : list LineItem.t) :
  Forall (λ item, 0 < room item) items → 0 ≤ sumZ (room <$> items).
Proof.
  induction 1; rewrite ?fmap_cons, ?sumZ_cons; [done|lia].
Qed.

(** What the walk hands out in all: the requested quantity, or the
    whole outstanding demand when that is less. *)
Lemma specFifoWalk_total (items : list LineItem.t) (quantity : Z) :
  Forall (λ item, 0 < room item) items → 0 ≤ quantity →
  sumZ (snd <$> specFifoWalk items quantity)
  = Z.min quantity (sumZ (room <$> items)).
Proof.
  intros Hroom. revert quantity.
  induction Hroom as [|item items Hitem Hitems IH]; intros quantity Hq; cbn.
  - rewrite sumZ_nil. lia.
  - pose proof (sumZ_room_nonneg _ Hitems). rewrite sumZ_cons.
    case_decide; cbn; rewrite ?sumZ_nil, ?sumZ_cons; [lia|].
    rewrite IH by lia. lia.
Qed.

Lemma specFifoWalk_items (items : list LineItem.t) (quantity : Z)
    (e : LineItem.t * Z) :
  e ∈ specFifoWalk items quantity → e.1 ∈ items.
Proof.
  revert quantity. induction items as [|item items IH]; intros quantity; cbn.
  - by intros ?%elem_of_nil.
  - case_decide; [by intros ?%elem_of_nil|].
    intros [->|He]%elem_of_cons; [by left|]. right. by eapply IH.
Qed.

Lemma sumZ_fmap_add {A : Type} (a b : A → Z) (l : list A) :
  sumZ ((λ r, a r + b r) <$> l) = sumZ (a <$> l) + sumZ (b <$> l).
Proof.
  induction l as [|x l IH]; [done|].
  rewrite !fmap_cons, !sumZ_cons, IH. lia.
Qed.

Lemma sumZ_fmap_zero {A : Type} (a : A → Z) (l : list A) :
  Forall (λ r, a r = 0) l → sumZ (a <$> l) = 0.
Proof.
  induction 1 as [|x l Hx _ IH]; [done|].
  rewrite fmap_cons, sumZ_cons, IH, Hx. done.
Qed.

Lemma sumZ_fmap_ext {A : Type} (a b : A → Z) (l : list A) :
  Forall (λ r, a r = b r) l → sumZ (a <$> l) = sumZ (b <$> l).
Proof. intros Hab. f_equal. by apply Forall_fmap_ext_1. Qed.

Lemma filter_fmap_commute {A : Type} (P : A → Prop) `{!∀ r, Decision (P r)}
    (g : A → A) (l : list A) :
  (∀ r, P (g r) ↔ P r) → filter P (g <$> l) = g <$> filter P l.
Proof.
  intros Hg. induction l as [|x l IH]; [done|].
  rewrite fmap_cons, !filter_cons.
  destruct (decide (P x)) as [Hx|Hx].
  - rewrite decide_True by by apply Hg. by rewrite fmap_cons, IH.
  - rewrite decide_False by by rewrite Hg. done.
Qed.

(** With unique ids, one row of the table answers to a given id. *)
Lemma sumZ_indicator (P : LineItem.t → Prop) `{!∀ r, Decision (P r)}
    (tbl : list LineItem.t) (x : LineItem.t) (c : Z) :
  NoDup (LineItem.line_item_id <$> tbl) → x ∈ tbl →
  sumZ ((λ r, if decide (LineItem.line_item_id x = LineItem.line_item_id r)
              then c else 0) <$> filter P tbl)
  = if decide (P x) then c else 0.
Proof.
  induction tbl as [|a tbl IH]; intros Hnd Hx; [by apply elem_of_nil in Hx|].
  rewrite fmap_cons in Hnd. apply NoDup_cons in Hnd as [Ha Hnd].
  assert (Forall (λ r, LineItem.line_item_id a ≠ LineItem.line_item_id r)
                 (filter P tbl)) as Hfresh.
  { apply Forall_forall. intros r Hr Heq.
    apply list_elem_of_filter in Hr as [_ Hr].
    apply Ha. rewrite Heq. by apply list_elem_of_fmap_2. }
  apply elem_of_cons in Hx as [->|Hx]; rewrite filter_cons.
  - destruct (decide (P a)) as [Hp|Hp].
    + rewrite fmap_cons, sumZ_cons, decide_True by done.
      rewrite sumZ_fmap_zero; [lia|].
      eapply Forall_impl; [exact Hfresh|]. intros r Hr. cbn.
      by rewrite decide_False.
    + apply sumZ_fmap_zero.
      eapply Forall_impl; [exact Hfresh|]. intros r Hr. cbn.
      by rewrite decide_False.
  - assert (LineItem.line_item_id x ≠ LineItem.line_item_id a) as Hne.
    { intros Heq. apply Ha. rewrite <- Heq. by apply list_elem_of_fmap_2. }
    destruct (decide (P a)) as [Hp|Hp]; [|by apply IH].
    rewrite fmap_cons, sumZ_cons, decide_False by done.
    rewrite IH by done. lia.
Qed.

Lemma sumZ_takenFor (tbl : list LineItem.t) (orderId : string)
    (walk : list (LineItem.t * Z)) :
  NoDup (LineItem.line_item_id <$> tbl) →
  (∀ e, e ∈ walk → e.1 ∈ tbl) →
  sumZ ((λ r, takenFor (LineItem.line_item_id r) walk)
          <$> filter (λ r, LineItem.order_id r = orderId) tbl)
  = allocatedToOrder orderId walk.
Proof.
  intros Hnd. induction walk as [|e walk IH]; intros Hin.
  - by apply sumZ_fmap_zero, Forall_forall.
  - rewrite allocatedToOrder_cons, <- IH.
    2:{ intros e' He'. apply Hin. by right. }
    pose proof (sumZ_indicator (λ r, LineItem.order_id r = orderId) tbl e.1 e.2
                  Hnd (Hin e ltac:(by left))) as Hind.
    cbn beta in Hind. rewrite <- Hind.
    rewrite <- sumZ_fmap_add. apply sumZ_fmap_ext, Forall_forall.
    intros r _. cbn. apply takenFor_cons.
Qed.

(** The sum [updateAllOrderStatuses] takes for an order after a walk is
    the sum before the walk plus what the walk gave to that order. *)
Lemma order_sum_after_walk (d : db) (orderId : string)
    (walk : list (LineItem.t * Z)) :
  NoDup (LineItem.line_item_id <$> order_line_items d) →
  (∀ e, e ∈ walk → e.1 ∈ order_line_items d) →
  sumZ (LineItem.fulfilled_quantity
          <$> lineItemsOfOrder orderId
                (set_order_line_items
                   (λ _, applyWalk walk (order_line_items d)) d))
  = sumZ (LineItem.fulfilled_quantity <$> lineItemsOfOrder orderId d)
    + allocatedToOrder orderId walk.
Proof.
  intros Hnd Hin. unfold lineItemsOfOrder, set_order_line_items; cbn.
  unfold applyWalk. rewrite filter_fmap_commute by done.
  rewrite <- list_fmap_compose.
  rewrite <- (sumZ_takenFor (order_line_items d)) by done.
  rewrite <- sumZ_fmap_add. by apply sumZ_fmap_ext, Forall_forall.
Qed.

Lemma joinOrders_line (d : db) (p : LineItem.t * Order.t) :
  p ∈ joinOrders d →
  p.1 ∈ order_line_items d ∧ p.2 ∈ orders d
  ∧ Order.order_id p.2 = LineItem.order_id p.1
  ∧ getOrderByOrderId (LineItem.order_id p.1) d = Some p.2.
Proof.
  unfold joinOrders. intros (li & Hli & Hp)%list_elem_of_omap.
  destruct (getOrderByOrderId (LineItem.order_id li) d) as [o|] eqn:Ho; [|done].
  cbn in Hp. injection Hp as <-. cbn.
  pose proof Ho as [? ?]%(select_one_Some (λ r, Order.order_id r = LineItem.order_id li)).
  done.
Qed.

(** The tables after [allocateMadeQuantityToOrders]. *)
Lemma allocate_tables (v : string) (quantity : Z) (d : db) :
  res_allocations (allocateMadeQuantityToOrders v quantity d).1
  = toAllocation <$> specFifoWalk (allocationCandidates v d).*1 quantity
  ∧ order_line_items (allocateMadeQuantityToOrders v quantity d).2
    = applyWalk (specFifoWalk (allocationCandidates v d).*1 quantity)
        (order_line_items d)
  ∧ tasks (allocateMadeQuantityToOrders v quantity d).2 = tasks d
  ∧ orders (allocateMadeQuantityToOrders v quantity d).2
    = orders
        (updateAllOrderStatuses
           (set_order_line_items
              (λ _, applyWalk
                      (specFifoWalk (allocationCandidates v d).*1 quantity)
                      (order_line_items d)) d)).
Proof.
  unfold allocateMadeQuantityToOrders.
  rewrite allocateLoop_walk by apply allocationCandidates_room.
  cbn. done.
Qed.

(** What [allocateMadeQuantityToOrders] does to an order row. *)
Lemma allocate_order_rows (v : string) (quantity : Z) (d : db) :
  Forall2
    (λ o o',
       Order.order_id o' = Order.order_id o
       ∧ Order.order_name o' = Order.order_name o
       ∧ Order.order_date o' = Order.order_date o
       ∧ Order.total_items o' = Order.total_items o
       ∧ (Order.status o = OrderStatus.archived → o' = o)
       ∧ (Order.status o ≠ OrderStatus.archived →
          Order.fulfilled_items o'
          = sumZ (LineItem.fulfilled_quantity
                    <$> lineItemsOfOrder (Order.order_id o)
                          (allocateMadeQuantityToOrders v quantity d).2)
          ∧ Order.status o'
            = orderStatusCase (Order.fulfilled_items o') (Order.total_items o)
          ∧ (NoDup (LineItem.line_item_id <$> order_line_items d) →
             Order.fulfilled_items o
             = sumZ (LineItem.fulfilled_quantity
                       <$> lineItemsOfOrder (Order.order_id o) d) →
             Order.fulfilled_items o'
             = Order.fulfilled_items o
               + allocatedToOrder (Order.order_id o)
                   (specFifoWalk (allocationCandidates v d).*1 quantity))))
    (orders d) (orders (allocateMadeQuantityToOrders v quantity d).2).
Proof.
  destruct (allocate_tables v quantity d) as (_ & Hlines & _ & Horders).
  rewrite Horders.
  match goal with
  | |- context [updateAllOrderStatuses ?dL] =>
      pose proof (updateAllOrderStatuses_rows dL) as Hrows
  end.
  eapply Forall2_impl; [exact Hrows|]. clear Hrows. cbn beta.
  intros o o' (? & ? & ? & ? & ? & Hlive). repeat split; try done.
  - destruct (Hlive ltac:(done)) as [-> _].
    unfold lineItemsOfOrder. by rewrite Hlines.
  - by destruct (Hlive ltac:(done)) as [_ ->].
  - intros Hnd Hsum. destruct (Hlive ltac:(done)) as [-> _].
    rewrite order_sum_after_walk; [by rewrite <- Hsum|done|].
    intros e He. apply specFifoWalk_items in He.
    apply list_elem_of_fmap in He as (p & -> & Hp).
    apply allocationCandidates_spec in Hp as [Hp _].
    by apply joinOrders_line in Hp as [? _].
Qed.

(** C3 (amended). [allocateMadeQuantityToOrders] visits the line items of
    the variant that still have room and whose order is not archived, by
    ascending order date and in insertion order within one date; it gives
    each the smaller of its room and what remains and stops when nothing
    remains or the rows end, so that in all it hands out the requested
    quantity or, when that is less, the whole outstanding demand, and never
    fails.  Each line item gains what it was given.  The counter of every
    order that is not archived is then recomputed as the sum of the
    fulfilled quantities of its line items, so it rises by what the order
    was given whenever it equalled that sum before the call.  With orders
    of 2025-01-01 and 2025-01-10, 5 units each: allocating 3 brings the
    first line item to 3 and leaves the second at 0; 8 in all bring them
    to 5 and 3. *)
Theorem allocation_is_fifo :
  (∀ (v : string) (quantity : Z) (d : db),
     (∀ p, p ∈ allocationCandidates v d ↔
           p ∈ joinOrders d ∧ LineItem.variant_id p.1 = v
           ∧ LineItem.fulfilled_quantity p.1 < LineItem.quantity p.1
           ∧ Order.status p.2 ≠ OrderStatus.archived)
     ∧ StronglySorted dateLe (allocationCandidates v d)
     ∧ (∀ date,
          filter (λ p, Order.order_date p.2 = date) (allocationCandidates v d)
          = filter (λ p, Order.order_date p.2 = date)
              (filter
                 (λ p, LineItem.variant_id p.1 = v
                       ∧ LineItem.fulfilled_quantity p.1 < LineItem.quantity p.1
                       ∧ notArchived p.2) (joinOrders d)))
     ∧ res_allocations (allocateMadeQuantityToOrders v quantity d).1
       = toAllocation <$> specFifoWalk (allocationCandidates v d).*1 quantity
     ∧ order_line_items (allocateMadeQuantityToOrders v quantity d).2
       = applyWalk (specFifoWalk (allocationCandidates v d).*1 quantity)
           (order_line_items d)
     ∧ tasks (allocateMadeQuantityToOrders v quantity d).2 = tasks d
     ∧ (0 ≤ quantity →
        sumZ (specFifoWalk (allocationCandidates v d).*1 quantity).*2
        = Z.min quantity (sumZ (room <$> (allocationCandidates v d).*1)))
     ∧ Forall2
         (λ o o',
            Order.order_id o' = Order.order_id o
            ∧ (Order.status o = OrderStatus.archived → o' = o)
            ∧ (Order.status o ≠ OrderStatus.archived →
               Order.fulfilled_items o'
               = sumZ (LineItem.fulfilled_quantity
                         <$> lineItemsOfOrder (Order.order_id o)
                               (allocateMadeQuantityToOrders v quantity d).2)
               ∧ (NoDup (LineItem.line_item_id <$> order_line_items d) →
                  Order.fulfilled_items o
                  = sumZ (LineItem.fulfilled_quantity
                            <$> lineItemsOfOrder (Order.order_id o) d) →
                  Order.fulfilled_items o'
                  = Order.fulfilled_items o
                    + allocatedToOrder (Order.order_id o)
                        (specFifoWalk (allocationCandidates v d).*1 quantity))))
         (orders d) (orders (allocateMadeQuantityToOrders v quantity d).2))
  ∧ order_line_items (allocateMadeQuantityToOrders "v1" 3 twoOrdersDb).2
    = [shirtLine "o2" "l2" 5 0; shirtLine "o1" "l1" 5 3]
  ∧ order_line_items
      (allocateMadeQuantityToOrders "v1" 5
         (allocateMadeQuantityToOrders "v1" 3 twoOrdersDb).2).2
    = [shirtLine "o2" "l2" 5 3; shirtLine "o1" "l1" 5 5]
  ∧ order_line_items (allocateMadeQuantityToOrders "v1" 8 twoOrdersDb).2
    = [shirtLine "o2" "l2" 5 3; shirtLine "o1" "l1" 5 5].
Proof.
  split; [|by vm_compute].
  intros v quantity d.
  destruct (allocate_tables v quantity d) as (Hres & Hlines & Htasks & _).
  split; [apply allocationCandidates_spec|].
  split; [apply allocationCandidates_sorted|].
  split; [intros date; apply (orderBy_stable (λ p, Order.order_date p.2))|].
  split; [done|]. split; [done|]. split; [done|].
  split.
  - intros Hq. apply specFifoWalk_total; [|done].
    apply Forall_fmap. apply allocationCandidates_room.
  - eapply Forall2_impl; [apply allocate_order_rows|].
    intros o o' (? & _ & _ & _ & ? & Hlive). repeat split; try done.
    + by destruct (Hlive ltac:(done)) as (? & _).
    + by destruct (Hlive ltac:(done)) as (_ & _ & ?).
Qed.

Lemma allocation_is_fifo_witness :
  sumZ (specFifoWalk (allocationCandidates "v1" twoOrdersDb).*1 12).*2
  = Z.min 12 (sumZ (room <$> (allocationCandidates "v1" twoOrdersDb).*1)).
Proof.
  destruct allocation_is_fifo as [Hgeneral _].
  destruct (Hgeneral "v1" 12 twoOrdersDb) as (_ & _ & _ & _ & _ & _ & Hsum & _).
  apply Hsum. lia.
Defined.

(** The counter of the owning order is not always raised by what its line
    item was given: in [staleCounterDb] the line item of order [o1] gains
    1 and the counter of [o1] goes from 3 to 1. *)
Lemma allocation_order_counter_counterexample :
  ¬ (∀ (v : string) (quantity : Z) (d : db) (o o' : Order.t),
       o ∈ orders d → Order.status o ≠ OrderStatus.archived →
       o' ∈ orders (allocateMadeQuantityToOrders v quantity d).2 →
       Order.order_id o' = Order.order_id o →
       Order.fulfilled_items o'
       = Order.fulfilled_items o
         + allocatedToOrder (Order.order_id o)
             (specFifoWalk (allocationCandidates v d).*1 quantity)).
Proof.
  intros Hclaim.
  specialize (Hclaim "v1" 1 staleCounterDb
    (Order.mk "o1" "renamed" "2025-01-01T10:00:00Z" 5 3 OrderStatus.in_progress)
    (Order.mk "o1" "renamed" "2025-01-01T10:00:00Z" 5 1 OrderStatus.in_progress)).
  assert (staleCounterDb
          = mkDb [Task.mk "v1" "Blue" "Shirt" "S-1" None 10 0 TaskStatus.pending]
              [Order.mk "o1" "renamed" "2025-01-01T10:00:00Z" 5 3
                 OrderStatus.in_progress;
               Order.mk "o2" "renamed" "2025-01-10T10:00:00Z" 5 0
                 OrderStatus.pending]
              [shirtLine "o1" "l1" 5 0; shirtLine "o2" "l2" 5 0]) as Hdb
    by (by vm_compute).
  rewrite Hdb in Hclaim.
  assert (1 = 3 + 1) as Habs; [|lia].
  apply Hclaim.
  - apply elem_of_cons. by left.
  - done.
  - vm_compute. apply elem_of_cons. by left.
  - done.
Qed.

(** ** Newly fulfilled orders *)

Lemma Forall2_fmap_eq {A B : Type} (f : A → B) (l k : list A) :
  Forall2 (λ a b, f b = f a) l k → f <$> k = f <$> l.
Proof. induction 1; cbn; congruence. Qed.

Lemma Forall2_elem_of_r {A B : Type} (R : A → B → Prop) (l : list A)
    (k : list B) (y : B) :
  Forall2 R l k → y ∈ k → ∃ x, x ∈ l ∧ R x y.
Proof.
  intros HR Hy. apply list_elem_of_lookup in Hy as [i Hi].
  destruct (Forall2_lookup_r _ _ _ _ _ HR Hi) as (x & Hx & Hxy).
  exists x. split; [|done]. apply list_elem_of_lookup. by exists i.
Qed.

Lemma allocate_order_ids (v : string) (quantity : Z) (d : db) :
  Order.order_id <$> orders (allocateMadeQuantityToOrders v quantity d).2
  = Order.order_id <$> orders d.
Proof.
  apply Forall2_fmap_eq.
  eapply Forall2_impl; [apply allocate_order_rows|]. by intros o o' [? _].
Qed.

Lemma allocatedToOrder_unaffected (orderId : string)
    (walk : list (LineItem.t * Z)) :
  orderId ∉ ((λ e : LineItem.t * Z, LineItem.order_id e.1) <$> walk) →
  allocatedToOrder orderId walk = 0.
Proof.
  intros Hno. unfold allocatedToOrder.
  induction walk as [|e walk IH]; [done|].
  rewrite fmap_cons, not_elem_of_cons in Hno. destruct Hno as [Hne Hno].
  rewrite filter_cons, decide_False by done. by apply IH.
Qed.

(** The list [allocateMadeQuantityToOrders] reports. *)
Lemma newlyFulfilledOrders_spec (v : string) (quantity : Z) (d : db)
    (o' : Order.t) :
  o' ∈ newlyFulfilledOrders (allocateMadeQuantityToOrders v quantity d).1 ↔
  o' ∈ orders (allocateMadeQuantityToOrders v quantity d).2
  ∧ Order.status o' = OrderStatus.fulfilled
  ∧ Order.order_id o'
    ∈ ((λ e : LineItem.t * Z, LineItem.order_id e.1)
         <$> specFifoWalk (allocationCandidates v d).*1 quantity)
  ∧ ∃ o, o ∈ orders d ∧ Order.order_id o = Order.order_id o'
         ∧ Order.status o ≠ OrderStatus.fulfilled
         ∧ Order.status o ≠ OrderStatus.archived.
Proof.
  unfold allocateMadeQuantityToOrders.
  rewrite allocateLoop_walk by apply allocationCandidates_room. cbn.
  rewrite (right_id_L ∅ (∪)).
  set (walk := specFifoWalk (allocationCandidates v d).*1 quantity).
  assert (Order.order_id o'
            ∈ list_to_set (C := gset string)
                ((λ e : LineItem.t * Z, LineItem.order_id e.1) <$> walk)
          ↔ Order.order_id o'
              ∈ ((λ e : LineItem.t * Z, LineItem.order_id e.1) <$> walk))
    as Haff by apply elem_of_list_to_set.
  assert (Order.order_id o'
            ∈ list_to_set (C := gset string)
                (Order.order_id
                   <$> filter (λ o, Order.status o ≠ OrderStatus.fulfilled
                                    ∧ Order.status o ≠ OrderStatus.archived)
                              (orders d))
          ↔ ∃ o, o ∈ orders d ∧ Order.order_id o = Order.order_id o'
                 ∧ Order.status o ≠ OrderStatus.fulfilled
                 ∧ Order.status o ≠ OrderStatus.archived) as Hbefore.
  { rewrite elem_of_list_to_set, list_elem_of_fmap. split.
    - intros (o & Hid & Ho). apply list_elem_of_filter in Ho as [[? ?] ?].
      by exists o.
    - intros (o & Ho & Hid & ? & ?). exists o. split; [done|].
      by apply list_elem_of_filter. }
  case_decide as Hempty.
  - split; [by intros ?%elem_of_nil|].
    intros (_ & _ & Hin & _). apply Haff in Hin. rewrite Hempty in Hin.
    by apply not_elem_of_empty in Hin.
  - rewrite !list_elem_of_filter, Haff, Hbefore. tauto.
Qed.

(** C9. In a database with unique keys whose order statuses are settled,
    the list [allocateMadeQuantityToOrders] returns holds exactly the
    orders that are [fulfilled] after the call and were not before it,
    each once; an order that was [fulfilled] before the call is never in
    the list, settled or not. *)
Theorem newly_fulfilled_reporting (v : string) (quantity : Z) (d : db) :
  uniqueKeys d → statusesSettled d →
  NoDup (Order.order_id
           <$> newlyFulfilledOrders (allocateMadeQuantityToOrders v quantity d).1)
  ∧ (∀ o',
       o' ∈ newlyFulfilledOrders (allocateMadeQuantityToOrders v quantity d).1 ↔
       o' ∈ orders (allocateMadeQuantityToOrders v quantity d).2
       ∧ Order.status o' = OrderStatus.fulfilled
       ∧ ∃ o, o ∈ orders d ∧ Order.order_id o = Order.order_id o'
              ∧ Order.status o ≠ OrderStatus.fulfilled)
  ∧ (∀ o o',
       o ∈ orders d → Order.status o = OrderStatus.fulfilled →
       o' ∈ newlyFulfilledOrders (allocateMadeQuantityToOrders v quantity d).1 →
       Order.order_id o' ≠ Order.order_id o).
Proof.
  intros (_ & Hids & Hlines) Hsettled.
  pose proof (allocate_order_rows v quantity d) as Hrows.
  split; [|split].
  - assert (NoDup (Order.order_id
                     <$> orders (allocateMadeQuantityToOrders v quantity d).2))
      as Hnd by by rewrite allocate_order_ids.
    refine (sublist_NoDup _ _ Hnd _). apply fmap_sublist.
    unfold allocateMadeQuantityToOrders. cbn. case_decide.
    + apply sublist_nil_l.
    + etransitivity; apply sublist_filter.
  - intros o'. rewrite newlyFulfilledOrders_spec. split.
    + intros (? & ? & _ & o & ? & ? & ? & _). repeat split; try done.
      by exists o.
    + intros (Ho' & Hful & o & Ho & Hid & Hnot).
      destruct (Forall2_elem_of_r _ _ _ _ Hrows Ho')
        as (o0 & Ho0 & Hid0 & _ & _ & _ & Harch & Hlive).
      assert (o0 = o) as -> by (eapply NoDup_fmap_eq; [done..|congruence]).
      assert (Order.status o ≠ OrderStatus.archived) as Hna.
      { intros Ha. rewrite (Harch Ha), Ha in Hful. done. }
      repeat split; try done; [|by exists o].
      destruct (decide (Order.order_id o'
        ∈ ((λ e : LineItem.t * Z, LineItem.order_id e.1)
             <$> specFifoWalk (allocationCandidates v d).*1 quantity)))
        as [|Hno]; [done|]. exfalso.
      destruct (Hlive Hna) as (Hsum & Hst & _).
      destruct (allocate_tables v quantity d) as (_ & Hl & _ & _).
      unfold lineItemsOfOrder in Hsum. rewrite Hl in Hsum.
      pose proof (order_sum_after_walk d (Order.order_id o)
                    (specFifoWalk (allocationCandidates v d).*1 quantity) Hlines)
        as Hwalk.
      unfold lineItemsOfOrder, set_order_line_items in Hwalk. cbn in Hwalk.
      rewrite Hwalk in Hsum.
      2:{ intros e He. apply specFifoWalk_items in He.
          apply list_elem_of_fmap in He as (p & -> & Hp).
          apply allocationCandidates_spec in Hp as [Hp _].
          by apply joinOrders_line in Hp as [? _]. }
      rewrite allocatedToOrder_unaffected in Hsum by by rewrite Hid.
      apply (Hsettled o Ho Hna Hnot).
      unfold lineItemsOfOrder. rewrite <- Hful, Hst, Hsum. f_equal. lia.
  - intros o o' Ho Hful Ho' Hid.
    apply newlyFulfilledOrders_spec in Ho' as (_ & _ & _ & o0 & Ho0 & Hid0 & Hn & _).
    assert (o0 = o) as -> by (eapply NoDup_fmap_eq; [done..|congruence]).
    done.
Qed.

(** ** Line items of orders that are not archived *)

Lemma liveLine_join (d : db) (l : list LineItem.t) :
  (filter (λ p, notArchived p.2)
     (omap (λ li, (λ o, (li, o)) <$> getOrderByOrderId (LineItem.order_id li) d)
           l)).*1
  = filter (liveLine d) l.
Proof.
  induction l as [|li l IH]; [done|].
  rewrite (filter_cons (liveLine d)).
  change (omap ?f (li :: l)) with
    (match f li with Some y => y :: omap f l | None => omap f l end).
  destruct (decide (liveLine d li)) as [Hl|Hl]; unfold liveLine in Hl;
    destruct (getOrderByOrderId (LineItem.order_id li) d) as [o|];
    cbn [fmap option_fmap option_map]; rewrite ?filter_cons;
    cbn [snd].
  - rewrite decide_True by done. by rewrite fmap_cons, IH.
  - done.
  - by rewrite decide_False by done.
  - done.
Qed.

Lemma nonArchivedLineItems_filter (d : db) :
  nonArchivedLineItems d = filter (liveLine d) (order_line_items d).
Proof. apply liveLine_join. Qed.

Lemma sumQuantity_filter (v : string) (d : db) :
  sumQuantity v d
  = sumZ (LineItem.quantity
            <$> filter (λ li, LineItem.variant_id li = v)
                  (filter (liveLine d) (order_line_items d))).
Proof. unfold sumQuantity, itemsOfVariant. by rewrite nonArchivedLineItems_filter. Qed.

Lemma sumFulfilled_filter (v : string) (d : db) :
  sumFulfilled v d
  = sumZ (LineItem.fulfilled_quantity
            <$> filter (λ li, LineItem.variant_id li = v)
                  (filter (liveLine d) (order_line_items d))).
Proof. unfold sumFulfilled, itemsOfVariant. by rewrite nonArchivedLineItems_filter. Qed.

Lemma sumZ_filter_split {A : Type} (g : A → Z) (P : A → Prop)
    `{!∀ x, Decision (P x)} (l : list A) :
  sumZ (g <$> l)
  = sumZ (g <$> filter P l) + sumZ (g <$> filter (λ x, ¬ P x) l).
Proof.
  induction l as [|x l IH]; [done|].
  rewrite !filter_cons, fmap_cons, sumZ_cons, IH.
  destruct (decide (P x)).
  - rewrite decide_False by tauto. rewrite fmap_cons, sumZ_cons. lia.
  - rewrite decide_True by done. rewrite fmap_cons, sumZ_cons. lia.
Qed.

Lemma sumZ_nonneg {A : Type} (g : A → Z) (l : list A) :
  Forall (λ x, 0 ≤ g x) l → 0 ≤ sumZ (g <$> l).
Proof.
  induction 1; rewrite ?fmap_cons, ?sumZ_cons; [done|lia].
Qed.

Lemma sumZ_le {A : Type} (g h : A → Z) (l : list A) :
  Forall (λ x, g x ≤ h x) l → sumZ (g <$> l) ≤ sumZ (h <$> l).
Proof.
  induction 1; rewrite ?fmap_cons, ?sumZ_cons; [done|lia].
Qed.

Lemma sumZ_zero_all {A : Type} (g : A → Z) (l : list A) :
  Forall (λ x, 0 ≤ g x) l → sumZ (g <$> l) = 0 → Forall (λ x, g x = 0) l.
Proof.
  induction 1 as [|x l Hx Hl IH]; [done|].
  rewrite fmap_cons, sumZ_cons. intros Hsum.
  pose proof (sumZ_nonneg g l Hl).
  constructor; [lia|]. apply IH. lia.
Qed.

(** ** The task table under archive and unarchive *)

Section UpdateRows.
Context {A X : Type} (key : A → string) (k : X → string) (F : X → A → A).
Hypothesis F_key : ∀ x r, key (F x r) = key r.

Lemma foldl_update_rows (items : list X) (tbl : list A) :
  foldl (λ tbl x, update_where (λ r, key r = k x) (F x) tbl) tbl items
  = (λ r, foldl (λ r x, if decide (key r = k x) then F x r else r) r items)
      <$> tbl.
Proof.
  revert tbl. induction items as [|x items IH]; intros tbl; cbn.
  - by rewrite list_fmap_id.
  - rewrite IH. unfold update_where. by rewrite <- list_fmap_compose.
Qed.

Lemma foldl_rows_key (items : list X) (r : A) :
  key (foldl (λ r x, if decide (key r = k x) then F x r else r) r items)
  = key r.
Proof.
  revert r. induction items as [|x items IH]; intros r; cbn; [done|].
  rewrite IH. case_decide; by rewrite ?F_key.
Qed.
End UpdateRows.

Lemma archiveItem_tasks (d : db) (item : LineItem.t) :
  tasks (archiveItem d item)
  = update_where (λ r, Task.variant_id r = LineItem.variant_id item)
      (archiveRow item) (tasks d).
Proof.
  unfold archiveItem, updateTaskStatus, set_tasks. cbn [tasks].
  rewrite (update_where_compose Task.variant_id) by done.
  destruct (decide (0 < LineItem.fulfilled_quantity item)) as [Hf|Hf];
    cbn [tasks].
  - rewrite (update_where_compose Task.variant_id) by done.
    unfold update_where. apply Forall_fmap_ext_1, Forall_forall.
    intros r _. case_decide; [|done]. unfold archiveRow; cbn.
    by rewrite decide_True.
  - unfold update_where. apply Forall_fmap_ext_1, Forall_forall.
    intros r _. case_decide; [|done]. unfold archiveRow; cbn.
    by rewrite decide_False.
Qed.

Lemma archiveItem_frame (d : db) (item : LineItem.t) :
  orders (archiveItem d item) = orders d
  ∧ order_line_items (archiveItem d item) = order_line_items d.
Proof. unfold archiveItem. by case_decide. Qed.

Lemma archive_loop (items : list LineItem.t) (d : db) :
  tasks (foldl archiveItem d items) = rowLoop archiveRow items <$> tasks d
  ∧ orders (foldl archiveItem d items) = orders d
  ∧ order_line_items (foldl archiveItem d items) = order_line_items d.
Proof.
  split; [|split].
  - transitivity
      (foldl (λ tbl item,
                update_where
                  (λ r, Task.variant_id r = LineItem.variant_id item)
                  (archiveRow item) tbl) (tasks d) items).
    + revert d. induction items as [|item items IH]; intros d; [done|].
      cbn. by rewrite IH, archiveItem_tasks.
    + by apply (foldl_update_rows Task.variant_id LineItem.variant_id).
  - apply (foldl_frame orders). intros. apply archiveItem_frame.
  - apply (foldl_frame order_line_items). intros. apply archiveItem_frame.
Qed.

Lemma variant_present (v : string) (d : db) :
  is_Some (getTaskByVariantId v d) ↔ v ∈ (Task.variant_id <$> tasks d).
Proof.
  unfold getTaskByVariantId. rewrite select_one_is_Some, Exists_exists.
  rewrite list_elem_of_fmap. split.
  - intros (r & ? & ?). by exists r.
  - intros (r & ? & ?). by exists r.
Qed.

Lemma unarchiveItem_tasks (d : db) (item : LineItem.t) :
  tasks (unarchiveItem d item)
  = if decide (LineItem.variant_id item ∈ (Task.variant_id <$> tasks d)) then
      update_where (λ r, Task.variant_id r = LineItem.variant_id item)
        (unarchiveRow item) (tasks d)
    else tasks d ++ [restatusTask (newTask item)].
Proof.
  unfold unarchiveItem, updateTaskStatus, set_tasks.
  destruct (getTaskByVariantId (LineItem.variant_id item) d) as [t|] eqn:Ht;
    cbn [tasks].
  - rewrite decide_True by (apply variant_present; by rewrite Ht).
    by rewrite (update_where_compose Task.variant_id).
  - rewrite decide_False.
    2:{ rewrite <- variant_present, Ht. by intros [? ?]. }
    unfold update_where. rewrite fmap_app. cbn.
    rewrite decide_True by done. f_equal.
    apply (update_where_none _ restatusTask).
    by apply getTaskByVariantId_None.
Qed.

Lemma unarchiveItem_frame (d : db) (item : LineItem.t) :
  orders (unarchiveItem d item) = orders d
  ∧ order_line_items (unarchiveItem d item) = order_line_items d.
Proof. unfold unarchiveItem. by destruct (getTaskByVariantId _ d). Qed.

Lemma rowLoop_variant (F : LineItem.t → Task.t → Task.t)
    (items : list LineItem.t) (r : Task.t) :
  (∀ x r, Task.variant_id (F x r) = Task.variant_id r) →
  Task.variant_id (rowLoop F items r) = Task.variant_id r.
Proof.
  intros HF. by apply (foldl_rows_key Task.variant_id LineItem.variant_id).
Qed.


Lemma unarchive_loop (items : list LineItem.t) (d : db) :
  tasks (foldl unarchiveItem d items)
  = (rowLoop unarchiveRow items <$> tasks d)
    ++ createdTasks (list_to_set (Task.variant_id <$> tasks d)) items
  ∧ orders (foldl unarchiveItem d items) = orders d
  ∧ order_line_items (foldl unarchiveItem d items) = order_line_items d.
Proof.
  split; [|split].
  - revert d. induction items as [|item items IH]; intros d; cbn.
    + by rewrite list_fmap_id, app_nil_r.
    + rewrite IH, unarchiveItem_tasks.
      destruct (decide (LineItem.variant_id item
                        ∈ (Task.variant_id <$> tasks d))) as [Hin|Hin].
      * rewrite decide_True by by apply elem_of_list_to_set.
        unfold update_where. rewrite <- !list_fmap_compose.
        f_equal. f_equal. f_equal.
        apply Forall_fmap_ext_1, Forall_forall. intros r _. cbn.
        by case_decide.
      * rewrite decide_False by by rewrite elem_of_list_to_set.
        rewrite !fmap_app. cbn [fmap list_fmap].
        rewrite <- app_assoc. cbn [app]. f_equal.
        -- apply Forall_fmap_ext_1, Forall_forall. intros r Hr. cbn.
           rewrite decide_False; [done|].
           intros Heq. apply Hin. rewrite <- Heq.
           by apply list_elem_of_fmap_2.
        -- f_equal. f_equal.
           rewrite list_to_set_app_L. cbn.
           rewrite (right_id_L ∅ (∪)). apply (comm_L (∪)).
  - apply (foldl_frame orders). intros. apply unarchiveItem_frame.
  - apply (foldl_frame order_line_items). intros. apply unarchiveItem_frame.
Qed.

Lemma orderQuantity_cons (v : string) (item : LineItem.t) (items : list LineItem.t) :
  orderQuantity v (item :: items)
  = (if decide (LineItem.variant_id item = v) then LineItem.quantity item else 0)
    + orderQuantity v items.
Proof.
  unfold orderQuantity. rewrite filter_cons.
  case_decide; [by rewrite fmap_cons, sumZ_cons|lia].
Qed.

Lemma orderFulfilled_cons (v : string) (item : LineItem.t)
    (items : list LineItem.t) :
  orderFulfilled v (item :: items)
  = (if decide (LineItem.variant_id item = v)
     then LineItem.fulfilled_quantity item else 0)
    + orderFulfilled v items.
Proof.
  unfold orderFulfilled. rewrite filter_cons.
  case_decide; [by rewrite fmap_cons, sumZ_cons|lia].
Qed.

Lemma orderQuantity_nonneg (v : string) (items : list LineItem.t) :
  Forall (λ li, 0 ≤ LineItem.fulfilled_quantity li ≤ LineItem.quantity li) items →
  0 ≤ orderFulfilled v items ≤ orderQuantity v items.
Proof.
  induction 1 as [|item items Hitem _ IH].
  - by unfold orderFulfilled, orderQuantity.
  - rewrite orderQuantity_cons, orderFulfilled_cons. case_decide; lia.
Qed.

Lemma withQuantities_again (a b c e : Z) (r : Task.t) :
  withQuantities a b (withQuantities c e r) = withQuantities a b r.
Proof. done. Qed.

Lemma withQuantities_variant (a b : Z) (r : Task.t) :
  Task.variant_id (withQuantities a b r) = Task.variant_id r.
Proof. done. Qed.

Lemma withQuantities_ext (a b a' b' : Z) (r : Task.t) :
  a = a' → b = b' → withQuantities a b r = withQuantities a' b' r.
Proof. by intros -> ->. Qed.

(** The loop of [unarchiveOrder] adds to a row what the items of its
    variant ask and hold. *)
Lemma rowLoop_unarchive_from (items : list LineItem.t) (t m : Z) (r : Task.t) :
  rowLoop unarchiveRow items (withQuantities t m r)
  = withQuantities (t + orderQuantity (Task.variant_id r) items)
      (m + orderFulfilled (Task.variant_id r) items) r.
Proof.
  revert t m. induction items as [|item items IH]; intros t m.
  - apply withQuantities_ext; unfold orderQuantity, orderFulfilled;
      rewrite filter_nil, fmap_nil, sumZ_nil; lia.
  - cbn [rowLoop foldl]. rewrite withQuantities_variant.
    rewrite orderQuantity_cons, orderFulfilled_cons.
    destruct (decide (Task.variant_id r = LineItem.variant_id item)) as [Hv|Hv].
    + rewrite !decide_True by congruence.
      change (unarchiveRow item (withQuantities t m r))
        with (withQuantities (t + LineItem.quantity item)
                (m + LineItem.fulfilled_quantity item) r).
      fold (rowLoop unarchiveRow items
              (withQuantities (t + LineItem.quantity item)
                 (m + LineItem.fulfilled_quantity item) r)).
      rewrite IH. apply withQuantities_ext; lia.
    + rewrite !decide_False by congruence.
      fold (rowLoop unarchiveRow items (withQuantities t m r)).
      rewrite IH. apply withQuantities_ext; lia.
Qed.

Lemma rowLoop_unarchive (items : list LineItem.t) (r : Task.t) :
  rowLoop unarchiveRow items r
  = if decide (Exists (λ item, LineItem.variant_id item = Task.variant_id r) items)
    then withQuantities
           (Task.total_quantity r + orderQuantity (Task.variant_id r) items)
           (Task.made_quantity r + orderFulfilled (Task.variant_id r) items) r
    else r.
Proof.
  induction items as [|item items IH].
  - rewrite decide_False; [done|]. by intros ?%Exists_nil.
  - cbn [rowLoop foldl].
    destruct (decide (Task.variant_id r = LineItem.variant_id item)) as [Hv|Hv].
    + rewrite decide_True by (by left).
      change (unarchiveRow item r)
        with (withQuantities (Task.total_quantity r + LineItem.quantity item)
                (Task.made_quantity r + LineItem.fulfilled_quantity item) r).
      fold (rowLoop unarchiveRow items
              (withQuantities (Task.total_quantity r + LineItem.quantity item)
                 (Task.made_quantity r + LineItem.fulfilled_quantity item) r)).
      rewrite rowLoop_unarchive_from.
      rewrite orderQuantity_cons, orderFulfilled_cons.
      destruct (decide (LineItem.variant_id item = Task.variant_id r))
        as [_|?]; [|congruence].
      apply withQuantities_ext; lia.
    + fold (rowLoop unarchiveRow items r). rewrite IH.
      rewrite orderQuantity_cons, orderFulfilled_cons.
      destruct (decide (LineItem.variant_id item = Task.variant_id r))
        as [?|_]; [congruence|].
      destruct (decide (Exists _ items)) as [Hex|Hex].
      * rewrite decide_True by (by right). apply withQuantities_ext; lia.
      * rewrite decide_False; [done|].
        intros [?|?]%Exists_cons; [congruence|done].
Qed.

(** The loop of [archiveOrder] takes them away again, as long as the row
    holds at least as much. *)
Lemma rowLoop_archive_from (items : list LineItem.t) (t m : Z) (r : Task.t) :
  Forall (λ li, 0 ≤ LineItem.fulfilled_quantity li ≤ LineItem.quantity li) items →
  orderQuantity (Task.variant_id r) items ≤ t →
  orderFulfilled (Task.variant_id r) items ≤ m →
  rowLoop archiveRow items (withQuantities t m r)
  = withQuantities (t - orderQuantity (Task.variant_id r) items)
      (m - orderFulfilled (Task.variant_id r) items) r.
Proof.
  intros Hitems. revert t m.
  induction Hitems as [|item items Hitem Hitems IH]; intros t m Ht Hm.
  - apply withQuantities_ext; unfold orderQuantity, orderFulfilled;
      rewrite filter_nil, fmap_nil, sumZ_nil; lia.
  - cbn [rowLoop foldl]. rewrite withQuantities_variant.
    rewrite orderQuantity_cons, orderFulfilled_cons in *.
    pose proof (orderQuantity_nonneg (Task.variant_id r) items Hitems).
    destruct (decide (Task.variant_id r = LineItem.variant_id item)) as [Hv|Hv].
    + rewrite !decide_True in * by congruence.
      assert (archiveRow item (withQuantities t m r)
              = withQuantities (t - LineItem.quantity item)
                  (m - LineItem.fulfilled_quantity item) r) as ->.
      { unfold archiveRow.
        destruct (decide (0 < LineItem.fulfilled_quantity item)).
        - transitivity
            (withQuantities (Z.max 0 (t - LineItem.quantity item))
               (Z.max 0 (m - LineItem.fulfilled_quantity item)) r);
            [done|apply withQuantities_ext; lia].
        - transitivity
            (withQuantities (Z.max 0 (t - LineItem.quantity item)) m r);
            [done|apply withQuantities_ext; lia]. }
      fold (rowLoop archiveRow items
              (withQuantities (t - LineItem.quantity item)
                 (m - LineItem.fulfilled_quantity item) r)).
      rewrite IH by lia. apply withQuantities_ext; lia.
    + rewrite !decide_False in * by congruence.
      fold (rowLoop archiveRow items (withQuantities t m r)).
      rewrite IH by lia. apply withQuantities_ext; lia.
Qed.

Lemma rowLoop_archive (items : list LineItem.t) (r : Task.t) :
  Forall (λ li, 0 ≤ LineItem.fulfilled_quantity li ≤ LineItem.quantity li) items →
  orderQuantity (Task.variant_id r) items ≤ Task.total_quantity r →
  orderFulfilled (Task.variant_id r) items ≤ Task.made_quantity r →
  rowLoop archiveRow items r
  = if decide (Exists (λ item, LineItem.variant_id item = Task.variant_id r) items)
    then withQuantities
           (Task.total_quantity r - orderQuantity (Task.variant_id r) items)
           (Task.made_quantity r - orderFulfilled (Task.variant_id r) items) r
    else r.
Proof.
  intros Hitems.
  induction Hitems as [|item items Hitem Hitems IH]; intros Ht Hm.
  - rewrite decide_False; [done|]. by intros ?%Exists_nil.
  - cbn [rowLoop foldl].
    rewrite orderQuantity_cons, orderFulfilled_cons in *.
    pose proof (orderQuantity_nonneg (Task.variant_id r) items Hitems).
    destruct (decide (Task.variant_id r = LineItem.variant_id item)) as [Hv|Hv].
    + destruct (decide (LineItem.variant_id item = Task.variant_id r))
        as [_|?]; [|congruence].
      rewrite decide_True by (by left).
      assert (archiveRow item r
              = withQuantities (Task.total_quantity r - LineItem.quantity item)
                  (Task.made_quantity r - LineItem.fulfilled_quantity item) r)
        as ->.
      { unfold archiveRow.
        destruct (decide (0 < LineItem.fulfilled_quantity item)).
        - transitivity
            (withQuantities
               (Z.max 0 (Task.total_quantity r - LineItem.quantity item))
               (Z.max 0 (Task.made_quantity r
                         - LineItem.fulfilled_quantity item)) r);
            [done|apply withQuantities_ext; lia].
        - transitivity
            (withQuantities
               (Z.max 0 (Task.total_quantity r - LineItem.quantity item))
               (Task.made_quantity r) r);
            [done|apply withQuantities_ext; lia]. }
      fold (rowLoop archiveRow items
              (withQuantities (Task.total_quantity r - LineItem.quantity item)
                 (Task.made_quantity r - LineItem.fulfilled_quantity item) r)).
      rewrite rowLoop_archive_from by (try done; lia).
      apply withQuantities_ext; lia.
    + destruct (decide (LineItem.variant_id item = Task.variant_id r))
        as [?|_]; [congruence|].
      fold (rowLoop archiveRow items r). rewrite IH by lia.
      destruct (decide (Exists _ items)) as [Hex|Hex].
      * rewrite decide_True by (by right). apply withQuantities_ext; lia.
      * rewrite decide_False; [done|].
        intros [?|?]%Exists_cons; [congruence|done].
Qed.

(** ** Archiving and unarchiving as table transformations *)

Lemma archiveOrder_db (orderId : string) (d : db) (o : Order.t) :
  getOrderByOrderId orderId d = Some o →
  Order.status o ≠ OrderStatus.archived →
  archiveOrder orderId d
  = (Ok (mkArchiveResult true false false),
     mkDb (filter (λ r, Task.total_quantity r ≠ 0)
             (rowLoop archiveRow (lineItemsOfOrder orderId d) <$> tasks d))
          (update_where (λ r, Order.order_id r = orderId)
             (Order.set_status OrderStatus.archived) (orders d))
          (order_line_items d)).
Proof.
  intros Ho Hs. unfold archiveOrder. rewrite Ho, decide_False by done.
  f_equal.
  destruct (archive_loop (lineItemsOfOrder orderId d) d) as (Ht & Hor & Hl).
  unfold deleteZeroTotalTasks, setOrderStatus, set_tasks, set_orders,
    delete_where; cbn [tasks orders order_line_items].
  by rewrite Ht, Hor, Hl.
Qed.

Lemma unarchiveOrder_db (orderId : string) (d : db) (o : Order.t) :
  getOrderByOrderId orderId d = Some o →
  Order.status o = OrderStatus.archived →
  unarchiveOrder orderId d
  = (Ok (mkArchiveResult true false false),
     mkDb ((rowLoop unarchiveRow (lineItemsOfOrder orderId d) <$> tasks d)
           ++ createdTasks (list_to_set (Task.variant_id <$> tasks d))
                (lineItemsOfOrder orderId d))
          (update_where (λ r, Order.order_id r = orderId)
             (Order.set_status
                (restoredStatus (Order.fulfilled_items o) (Order.total_items o)))
             (orders d))
          (order_line_items d)).
Proof.
  intros Ho Hs. unfold unarchiveOrder. rewrite Ho, decide_False by tauto.
  destruct (unarchive_loop (lineItemsOfOrder orderId d) d) as (Ht & Hor & Hl).
  assert (getOrderByOrderId orderId
            (foldl unarchiveItem d (lineItemsOfOrder orderId d)) = Some o)
    as -> by (unfold getOrderByOrderId; by rewrite Hor).
  f_equal.
  unfold setOrderStatus, set_orders; cbn [tasks orders order_line_items].
  by rewrite Ht, Hor, Hl.
Qed.

Lemma getOrderByOrderId_status (id orderId : string) (s : OrderStatus.t)
    (ts : list Task.t) (d : db) :
  getOrderByOrderId id
    (mkDb ts
       (update_where (λ r, Order.order_id r = orderId) (Order.set_status s)
          (orders d))
       (order_line_items d))
  = (λ r, if decide (Order.order_id r = orderId) then Order.set_status s r else r)
      <$> getOrderByOrderId id d.
Proof.
  unfold getOrderByOrderId; cbn [orders].
  by apply select_one_update_where.
Qed.

(** Changing the status of the orders of one id changes which line items
    are live only for the line items of that id. *)
Lemma liveLine_status (orderId : string) (s : OrderStatus.t)
    (ts : list Task.t) (d : db) (li : LineItem.t) :
  liveLine
    (mkDb ts
       (update_where (λ r, Order.order_id r = orderId) (Order.set_status s)
          (orders d))
       (order_line_items d)) li
  ↔ if decide (LineItem.order_id li = orderId)
    then is_Some (getOrderByOrderId orderId d) ∧ s ≠ OrderStatus.archived
    else liveLine d li.
Proof.
  unfold liveLine. rewrite getOrderByOrderId_status.
  destruct (decide (LineItem.order_id li = orderId)) as [Hid|Hid].
  - rewrite Hid.
    destruct (getOrderByOrderId orderId d) as [o|] eqn:Ho; cbn.
    + apply (select_one_Some (λ r, Order.order_id r = orderId)) in Ho as [_ Ho].
      rewrite decide_True by done. unfold notArchived. cbn.
      split; [by split|tauto].
    + split; [done|]. by intros [[? ?] _].
  - destruct (getOrderByOrderId (LineItem.order_id li) d) as [o|] eqn:Ho;
      cbn; [|done].
    apply (select_one_Some (λ r, Order.order_id r = LineItem.order_id li))
      in Ho as [_ Ho].
    rewrite decide_False by congruence. done.
Qed.

Lemma filter_False {A : Type} (P : A → Prop) `{!∀ x, Decision (P x)}
    (l : list A) :
  (∀ x, ¬ P x) → filter P l = [].
Proof.
  intros HP. induction l as [|x l IH]; [done|].
  rewrite filter_cons, decide_False by apply HP. done.
Qed.

(** The sum over the live line items of a variant, split into the part of
    one order id and the rest. *)
Lemma live_sum_split (g : LineItem.t → Z) (v orderId : string) (d : db) :
  sumZ (g <$> filter (λ li, LineItem.variant_id li = v)
                (filter (liveLine d) (order_line_items d)))
  = sumZ (g <$> filter (λ li, LineItem.order_id li = orderId
                             ∧ LineItem.variant_id li = v ∧ liveLine d li)
                  (order_line_items d))
    + sumZ (g <$> filter (λ li, LineItem.order_id li ≠ orderId
                               ∧ LineItem.variant_id li = v ∧ liveLine d li)
                    (order_line_items d)).
Proof.
  rewrite (sumZ_filter_split g (λ li, LineItem.order_id li = orderId)).
  rewrite !list_filter_filter.
  f_equal; f_equal; f_equal; apply list_filter_iff; intros li; tauto.
Qed.

Lemma live_sum_of_order (g : LineItem.t → Z) (v orderId : string) (d : db) :
  (∀ li, LineItem.order_id li = orderId → liveLine d li) →
  sumZ (g <$> filter (λ li, LineItem.order_id li = orderId
                             ∧ LineItem.variant_id li = v ∧ liveLine d li)
                  (order_line_items d))
  = sumZ (g <$> filter (λ li, LineItem.variant_id li = v)
                  (lineItemsOfOrder orderId d)).
Proof.
  intros Hlive. unfold lineItemsOfOrder. rewrite list_filter_filter.
  f_equal. f_equal. apply list_filter_iff. intros li. split.
  - intros (? & ? & ?). done.
  - intros (? & ?). repeat split; try done. by apply Hlive.
Qed.

Lemma live_sum_of_dead_order (g : LineItem.t → Z) (v orderId : string) (d : db) :
  (∀ li, LineItem.order_id li = orderId → ¬ liveLine d li) →
  sumZ (g <$> filter (λ li, LineItem.order_id li = orderId
                             ∧ LineItem.variant_id li = v ∧ liveLine d li)
                  (order_line_items d))
  = 0.
Proof.
  intros Hdead. rewrite filter_False; [done|].
  intros li (Hid & _ & Hl). by apply (Hdead li).
Qed.

Lemma live_sum_rest (g : LineItem.t → Z) (v orderId : string) (d d' : db) :
  order_line_items d' = order_line_items d →
  (∀ li, LineItem.order_id li ≠ orderId → liveLine d' li ↔ liveLine d li) →
  sumZ (g <$> filter (λ li, LineItem.order_id li ≠ orderId
                             ∧ LineItem.variant_id li = v ∧ liveLine d' li)
                  (order_line_items d'))
  = sumZ (g <$> filter (λ li, LineItem.order_id li ≠ orderId
                               ∧ LineItem.variant_id li = v ∧ liveLine d li)
                    (order_line_items d)).
Proof.
  intros -> Hlive. f_equal. f_equal. apply list_filter_iff. intros li.
  split; intros (? & ? & ?); repeat split; try done; by apply Hlive.
Qed.

(** ** The ledger invariant under archive and unarchive *)

Lemma orderQuantity_unmatched (v : string) (items : list LineItem.t) :
  ¬ Exists (λ item, LineItem.variant_id item = v) items →
  orderQuantity v items = 0 ∧ orderFulfilled v items = 0.
Proof.
  intros Hno. apply Forall_Exists_neg in Hno.
  induction Hno as [|item items Hitem _ IH]; [done|].
  rewrite orderQuantity_cons, orderFulfilled_cons, !decide_False by done.
  lia.
Qed.

Lemma rowLoop_archive_fields (items : list LineItem.t) (r : Task.t) :
  Forall (λ li, 0 ≤ LineItem.fulfilled_quantity li ≤ LineItem.quantity li) items →
  orderQuantity (Task.variant_id r) items ≤ Task.total_quantity r →
  orderFulfilled (Task.variant_id r) items ≤ Task.made_quantity r →
  Task.variant_id (rowLoop archiveRow items r) = Task.variant_id r
  ∧ Task.total_quantity (rowLoop archiveRow items r)
    = Task.total_quantity r - orderQuantity (Task.variant_id r) items
  ∧ Task.made_quantity (rowLoop archiveRow items r)
    = Task.made_quantity r - orderFulfilled (Task.variant_id r) items.
Proof.
  intros Hitems Ht Hm. rewrite rowLoop_archive by done.
  case_decide as Hex; [done|].
  destruct (orderQuantity_unmatched _ _ Hex) as [-> ->]. repeat split; lia.
Qed.

Lemma rowLoop_unarchive_fields (items : list LineItem.t) (r : Task.t) :
  Task.variant_id (rowLoop unarchiveRow items r) = Task.variant_id r
  ∧ Task.total_quantity (rowLoop unarchiveRow items r)
    = Task.total_quantity r + orderQuantity (Task.variant_id r) items
  ∧ Task.made_quantity (rowLoop unarchiveRow items r)
    = Task.made_quantity r + orderFulfilled (Task.variant_id r) items.
Proof.
  rewrite rowLoop_unarchive.
  case_decide as Hex; [done|].
  destruct (orderQuantity_unmatched _ _ Hex) as [-> ->]. repeat split; lia.
Qed.

Lemma lineItemsOfOrder_bounded (orderId : string) (d : db) :
  boundedLines d →
  Forall (λ li, 0 ≤ LineItem.fulfilled_quantity li ≤ LineItem.quantity li)
         (lineItemsOfOrder orderId d).
Proof.
  intros Hb. apply Forall_forall. intros li Hli.
  apply list_elem_of_filter in Hli as [_ Hli]. by apply Hb.
Qed.

(** With bounded line items the sums are ordered. *)
Lemma sums_bounded (v : string) (d : db) :
  boundedLines d → 0 ≤ sumFulfilled v d ≤ sumQuantity v d.
Proof.
  intros Hb. rewrite sumQuantity_filter, sumFulfilled_filter.
  assert (Forall (λ li, 0 ≤ LineItem.fulfilled_quantity li ≤ LineItem.quantity li)
            (filter (λ li, LineItem.variant_id li = v)
               (filter (liveLine d) (order_line_items d)))) as Hall.
  { apply Forall_forall. intros li Hli.
    apply list_elem_of_filter in Hli as [_ Hli].
    apply list_elem_of_filter in Hli as [_ Hli]. by apply Hb. }
  split.
  - apply sumZ_nonneg. eapply Forall_impl; [exact Hall|]. cbn. lia.
  - apply sumZ_le. eapply Forall_impl; [exact Hall|]. cbn. lia.
Qed.

Lemma boundedLines_ext (d d' : db) :
  order_line_items d' = order_line_items d → boundedLines d → boundedLines d'.
Proof. unfold boundedLines. by intros ->. Qed.

(** The sums before and after the orders of one id change status. *)
Lemma sums_status (orderId : string) (s : OrderStatus.t) (ts : list Task.t)
    (d : db) (o : Order.t) (v : string) :
  getOrderByOrderId orderId d = Some o →
  let d' :=
    mkDb ts
      (update_where (λ r, Order.order_id r = orderId) (Order.set_status s)
         (orders d))
      (order_line_items d) in
  let gain (b : bool) (n : Z) := if b then n else 0 in
  sumQuantity v d'
  - gain (bool_decide (s ≠ OrderStatus.archived))
      (orderQuantity v (lineItemsOfOrder orderId d))
  = sumQuantity v d
    - gain (bool_decide (Order.status o ≠ OrderStatus.archived))
        (orderQuantity v (lineItemsOfOrder orderId d))
  ∧ sumFulfilled v d'
    - gain (bool_decide (s ≠ OrderStatus.archived))
        (orderFulfilled v (lineItemsOfOrder orderId d))
    = sumFulfilled v d
      - gain (bool_decide (Order.status o ≠ OrderStatus.archived))
          (orderFulfilled v (lineItemsOfOrder orderId d)).
Proof.
  intros Ho d' gain.
  assert (∀ g : LineItem.t → Z,
    sumZ (g <$> filter (λ li, LineItem.variant_id li = v)
                  (filter (liveLine d') (order_line_items d')))
    - gain (bool_decide (s ≠ OrderStatus.archived))
        (sumZ (g <$> filter (λ li, LineItem.variant_id li = v)
                       (lineItemsOfOrder orderId d)))
    = sumZ (g <$> filter (λ li, LineItem.variant_id li = v)
                    (filter (liveLine d) (order_line_items d)))
      - gain (bool_decide (Order.status o ≠ OrderStatus.archived))
          (sumZ (g <$> filter (λ li, LineItem.variant_id li = v)
                         (lineItemsOfOrder orderId d)))) as Hg.
  { intros g.
    rewrite (live_sum_split g v orderId d), (live_sum_split g v orderId d').
    rewrite (live_sum_rest g v orderId d d'); [|done|].
    2:{ intros li Hne. unfold d'. rewrite liveLine_status.
        by rewrite decide_False. }
    assert (∀ li, LineItem.order_id li = orderId →
                  liveLine d li ↔ Order.status o ≠ OrderStatus.archived)
      as Hlive.
    { intros li Hid. unfold liveLine. by rewrite Hid, Ho. }
    assert (∀ li, LineItem.order_id li = orderId →
                  liveLine d' li ↔ s ≠ OrderStatus.archived) as Hlive'.
    { intros li Hid. unfold d'. rewrite liveLine_status.
      rewrite decide_True by done. rewrite Ho. split; [tauto|].
      intros ?. split; [by eexists|done]. }
    assert (lineItemsOfOrder orderId d' = lineItemsOfOrder orderId d)
      as Hitems by done.
    destruct (decide (s ≠ OrderStatus.archived)) as [Hs|Hs];
      destruct (decide (Order.status o ≠ OrderStatus.archived)) as [Hso|Hso];
      rewrite ?(bool_decide_eq_true_2 _ Hs), ?(bool_decide_eq_false_2 _ Hs),
        ?(bool_decide_eq_true_2 _ Hso), ?(bool_decide_eq_false_2 _ Hso);
      unfold gain.
    - rewrite (live_sum_of_order g v orderId d) by (intros; by apply Hlive).
      rewrite (live_sum_of_order g v orderId d') by (intros; by apply Hlive').
      rewrite Hitems. lia.
    - rewrite (live_sum_of_dead_order g v orderId d)
        by (intros li Hid; by rewrite Hlive).
      rewrite (live_sum_of_order g v orderId d') by (intros; by apply Hlive').
      rewrite Hitems. lia.
    - rewrite (live_sum_of_order g v orderId d) by (intros; by apply Hlive).
      rewrite (live_sum_of_dead_order g v orderId d')
        by (intros li Hid; by rewrite Hlive').
      lia.
    - rewrite (live_sum_of_dead_order g v orderId d)
        by (intros li Hid; by rewrite Hlive).
      rewrite (live_sum_of_dead_order g v orderId d')
        by (intros li Hid; by rewrite Hlive').
      lia. }
  rewrite !sumQuantity_filter, !sumFulfilled_filter.
  split; apply Hg.
Qed.

Lemma archive_sums (orderId : string) (d : db) (o : Order.t) (v : string) :
  getOrderByOrderId orderId d = Some o →
  Order.status o ≠ OrderStatus.archived →
  sumQuantity v d
  = sumQuantity v (archiveOrder orderId d).2
    + orderQuantity v (lineItemsOfOrder orderId d)
  ∧ sumFulfilled v d
    = sumFulfilled v (archiveOrder orderId d).2
      + orderFulfilled v (lineItemsOfOrder orderId d).
Proof.
  intros Ho Hs. rewrite (archiveOrder_db _ _ _ Ho Hs). cbn [snd].
  match goal with
  | |- context [mkDb ?ts _ _] =>
      pose proof (sums_status orderId OrderStatus.archived ts d o v Ho) as Hsum
  end.
  cbn zeta in Hsum. rewrite bool_decide_eq_false_2 in Hsum by tauto.
  rewrite bool_decide_eq_true_2 in Hsum by done.
  unfold orderQuantity, orderFulfilled in *. lia.
Qed.

Lemma unarchive_sums (orderId : string) (d : db) (o : Order.t) (v : string) :
  getOrderByOrderId orderId d = Some o →
  Order.status o = OrderStatus.archived →
  sumQuantity v (unarchiveOrder orderId d).2
  = sumQuantity v d + orderQuantity v (lineItemsOfOrder orderId d)
  ∧ sumFulfilled v (unarchiveOrder orderId d).2
    = sumFulfilled v d + orderFulfilled v (lineItemsOfOrder orderId d).
Proof.
  intros Ho Hs. rewrite (unarchiveOrder_db _ _ _ Ho Hs). cbn [snd].
  match goal with
  | |- context [mkDb ?ts (update_where _ (Order.set_status ?s) _) _] =>
      pose proof (sums_status orderId s ts d o v Ho) as Hsum
  end.
  cbn zeta in Hsum. rewrite bool_decide_eq_true_2 in Hsum.
  2:{ unfold restoredStatus. by repeat case_decide. }
  rewrite bool_decide_eq_false_2 in Hsum by (rewrite Hs; tauto).
  unfold orderQuantity, orderFulfilled in *. lia.
Qed.

(** Archiving an order keeps the ledger invariant. *)
Lemma archiveOrder_invariant (orderId : string) (d : db) :
  ledgerInvariant d → ledgerInvariant (archiveOrder orderId d).2.
Proof.
  intros Hinv.
  destruct (getOrderByOrderId orderId d) as [o|] eqn:Ho.
  2:{ unfold archiveOrder. by rewrite Ho. }
  destruct (decide (Order.status o = OrderStatus.archived)) as [Hs|Hs].
  { unfold archiveOrder. by rewrite Ho, decide_True. }
  destruct Hinv as (Hnd & Hb & Hc & Hm).
  pose proof (archive_sums orderId d o) as Hsums.
  assert (order_line_items (archiveOrder orderId d).2 = order_line_items d)
    as Hlines by by rewrite (archiveOrder_db _ _ _ Ho Hs).
  assert (boundedLines (archiveOrder orderId d).2) as Hb'
    by by eapply boundedLines_ext.
  assert (∀ r, r ∈ tasks d →
    Task.variant_id (rowLoop archiveRow (lineItemsOfOrder orderId d) r)
    = Task.variant_id r
    ∧ Task.total_quantity (rowLoop archiveRow (lineItemsOfOrder orderId d) r)
      = sumQuantity (Task.variant_id r) (archiveOrder orderId d).2
    ∧ Task.made_quantity (rowLoop archiveRow (lineItemsOfOrder orderId d) r)
      = sumFulfilled (Task.variant_id r) (archiveOrder orderId d).2) as Hrow.
  { intros r Hr. destruct (Hc r Hr) as [Ht Hmade].
    destruct (Hsums (Task.variant_id r) Ho Hs) as [Hq Hf].
    pose proof (sums_bounded (Task.variant_id r) _ Hb').
    pose proof (orderQuantity_nonneg (Task.variant_id r) _
                  (lineItemsOfOrder_bounded orderId d Hb)).
    destruct (rowLoop_archive_fields (lineItemsOfOrder orderId d) r)
      as (Hv & Ht' & Hm'); [by apply lineItemsOfOrder_bounded|lia|lia|].
    repeat split; [done|lia|lia]. }
  split; [by rewrite Hlines|]. split; [done|]. split.
  - intros r' Hr'. rewrite (archiveOrder_db _ _ _ Ho Hs) in Hr'. cbn in Hr'.
    apply list_elem_of_filter in Hr' as [_ Hr'].
    apply list_elem_of_fmap in Hr' as (r & -> & Hr).
    destruct (Hrow r Hr) as (-> & -> & ->). done.
  - intros v Hnone.
    pose proof (sums_bounded v _ Hb') as Hv'.
    destruct (Hsums v Ho Hs) as [Hq Hf].
    pose proof (orderQuantity_nonneg v _ (lineItemsOfOrder_bounded orderId d Hb)).
    destruct (getTaskByVariantId v d) as [r|] eqn:Hr.
    + apply getTaskByVariantId_Some in Hr as [Hr Hvr].
      destruct (Hrow r Hr) as (Hv & Ht & _). rewrite Hvr in *.
      destruct (decide (Task.total_quantity
                          (rowLoop archiveRow (lineItemsOfOrder orderId d) r)
                        = 0)) as [Hz|Hnz]; [lia|].
      exfalso. apply getTaskByVariantId_None in Hnone.
      rewrite Forall_forall in Hnone.
      apply (Hnone (rowLoop archiveRow (lineItemsOfOrder orderId d) r));
        [|done].
      rewrite (archiveOrder_db _ _ _ Ho Hs). cbn.
      apply list_elem_of_filter. split; [done|]. by apply list_elem_of_fmap_2.
    + destruct (Hm v Hr). lia.
Qed.

Lemma orderQuantity_other (v : string) (item : LineItem.t)
    (items : list LineItem.t) :
  LineItem.variant_id item ≠ v →
  orderQuantity v (item :: items) = orderQuantity v items
  ∧ orderFulfilled v (item :: items) = orderFulfilled v items.
Proof.
  intros Hne.
  rewrite orderQuantity_cons, orderFulfilled_cons, !decide_False by done.
  lia.
Qed.

(** The rows [unarchiveOrder] inserts: one for a variant that had no
    task, holding what the items of that variant ask and hold. *)
Lemma createdTasks_fields (present : gset string) (items : list LineItem.t)
    (c : Task.t) :
  c ∈ createdTasks present items →
  (Task.variant_id c ∉ present)
  ∧ Exists (λ item, LineItem.variant_id item = Task.variant_id c) items
  ∧ Task.total_quantity c = orderQuantity (Task.variant_id c) items
  ∧ Task.made_quantity c = orderFulfilled (Task.variant_id c) items
  ∧ Task.status c
    = taskStatusCase (Task.made_quantity c) (Task.total_quantity c).
Proof.
  revert present. induction items as [|item items IH]; intros present Hc.
  - by apply elem_of_nil in Hc.
  - cbn [createdTasks] in Hc.
    destruct (decide (LineItem.variant_id item ∈ present)) as [Hin|Hin].
    + destruct (IH _ Hc) as (Hv & Hex & Ht & Hm & Hs).
      destruct (orderQuantity_other (Task.variant_id c) item items)
        as [-> ->]; [intros Heq; apply Hv; by rewrite <- Heq|].
      repeat split; try done. by right.
    + apply elem_of_cons in Hc as [->|Hc].
      * change (restatusTask (newTask item))
          with (withQuantities (LineItem.quantity item)
                  (LineItem.fulfilled_quantity item) (newTask item)).
        rewrite rowLoop_unarchive_from.
        rewrite orderQuantity_cons, orderFulfilled_cons. cbn.
        rewrite !decide_True by done. repeat split; try done. by left.
      * destruct (IH _ Hc) as (Hv & Hex & Ht & Hm & Hs).
        apply not_elem_of_union in Hv as [Hv1 Hv2].
        apply not_elem_of_singleton in Hv1.
        destruct (orderQuantity_other (Task.variant_id c) item items)
          as [-> ->]; [congruence|].
        repeat split; try done. by right.
Qed.

Lemma createdTasks_cover (present : gset string) (items : list LineItem.t)
    (item : LineItem.t) :
  item ∈ items →
  (LineItem.variant_id item ∈ present)
  ∨ (LineItem.variant_id item
     ∈ (Task.variant_id <$> createdTasks present items)).
Proof.
  revert present. induction items as [|x items IH]; intros present Hitem.
  - by apply elem_of_nil in Hitem.
  - cbn [createdTasks].
    destruct (decide (LineItem.variant_id x ∈ present)) as [Hin|Hin].
    + apply elem_of_cons in Hitem as [->|Hitem]; [by left|]. by apply IH.
    + rewrite fmap_cons, elem_of_cons.
      rewrite rowLoop_variant by done. cbn.
      apply elem_of_cons in Hitem as [->|Hitem]; [right; by left|].
      destruct (IH ({[LineItem.variant_id x]} ∪ present) Hitem) as [Hp|Hc].
      * apply elem_of_union in Hp as [Hp|Hp]; [|by left].
        apply elem_of_singleton in Hp. right. by left.
      * right. by right.
Qed.

(** Unarchiving an order keeps the ledger invariant. *)
Lemma unarchiveOrder_invariant (orderId : string) (d : db) :
  ledgerInvariant d → ledgerInvariant (unarchiveOrder orderId d).2.
Proof.
  intros Hinv.
  destruct (getOrderByOrderId orderId d) as [o|] eqn:Ho.
  2:{ unfold unarchiveOrder. by rewrite Ho. }
  destruct (decide (Order.status o = OrderStatus.archived)) as [Hs|Hs].
  2:{ unfold unarchiveOrder. by rewrite Ho, decide_True. }
  destruct Hinv as (Hnd & Hb & Hc & Hm).
  pose proof (unarchive_sums orderId d o) as Hsums.
  assert (order_line_items (unarchiveOrder orderId d).2 = order_line_items d)
    as Hlines by by rewrite (unarchiveOrder_db _ _ _ Ho Hs).
  split; [by rewrite Hlines|]. split; [by eapply boundedLines_ext|]. split.
  - intros r' Hr'. rewrite (unarchiveOrder_db _ _ _ Ho Hs) in Hr'. cbn in Hr'.
    apply elem_of_app in Hr' as [Hr'|Hr'].
    + apply list_elem_of_fmap in Hr' as (r & -> & Hr).
      destruct (rowLoop_unarchive_fields (lineItemsOfOrder orderId d) r)
        as (-> & -> & ->).
      destruct (Hc r Hr) as [-> ->].
      destruct (Hsums (Task.variant_id r) Ho Hs) as [-> ->]. done.
    + apply createdTasks_fields in Hr' as (Hv & _ & -> & -> & _).
      rewrite elem_of_list_to_set, <- variant_present in Hv.
      destruct (getTaskByVariantId (Task.variant_id r') d) eqn:Hnone;
        [by destruct Hv|].
      destruct (Hm _ Hnone) as [Hq Hf].
      destruct (Hsums (Task.variant_id r') Ho Hs) as [-> ->]. lia.
  - intros v Hnone.
    apply getTaskByVariantId_None in Hnone. rewrite Forall_forall in Hnone.
    rewrite (unarchiveOrder_db _ _ _ Ho Hs) in Hnone. cbn in Hnone.
    assert (getTaskByVariantId v d = None) as Hnone0.
    { apply getTaskByVariantId_None, Forall_forall. intros r Hr Hvr.
      apply (Hnone (rowLoop unarchiveRow (lineItemsOfOrder orderId d) r)).
      - apply elem_of_app. left. by apply list_elem_of_fmap_2.
      - by rewrite rowLoop_variant. }
    destruct (Hm v Hnone0) as [Hq Hf].
    destruct (Hsums v Ho Hs) as [-> ->].
    destruct (orderQuantity_unmatched v (lineItemsOfOrder orderId d))
      as [-> ->]; [|lia].
    intros Hex. apply Exists_exists in Hex as (item & Hitem & Hv).
    destruct (createdTasks_cover
                (list_to_set (Task.variant_id <$> tasks d)) _ _ Hitem)
      as [Hp|Hcr].
    + rewrite elem_of_list_to_set, <- variant_present, Hv, Hnone0 in Hp.
      by destruct Hp.
    + apply list_elem_of_fmap in Hcr as (c & Hvc & Hcin).
      apply (Hnone c); [|congruence].
      apply elem_of_app. by right.
Qed.

(** ** The ledger invariant under reset and allocation *)

Lemma liveLine_ext (d d' : db) (li : LineItem.t) :
  orders d' = orders d → liveLine d' li ↔ liveLine d li.
Proof. intros Ho. unfold liveLine, getOrderByOrderId. by rewrite Ho. Qed.

(** [updateAllOrderStatuses] neither archives an order nor brings one
    back. *)
Lemma liveLine_updateAllOrderStatuses (d : db) (li : LineItem.t) :
  liveLine (updateAllOrderStatuses d) li ↔ liveLine d li.
Proof.
  unfold liveLine, getOrderByOrderId, updateAllOrderStatuses, set_orders.
  cbn [orders].
  rewrite !select_one_update_where by done.
  destruct (select_one _ (orders d)) as [o|]; [|done]. cbn.
  unfold notArchived.
  destruct (decide (Order.status o ≠ OrderStatus.archived)) as [Hs|Hs]; cbn.
  - rewrite decide_True by done. cbn.
    split; [done|]. intros _. unfold orderStatusCase. by repeat case_decide.
  - by rewrite decide_False.
Qed.

(** The sums after the line items were rewritten row by row, keeping
    order, variant and quantity, with the same orders live. *)
Lemma sums_after_lines (u : LineItem.t → LineItem.t) (d d' : db) (v : string) :
  order_line_items d' = u <$> order_line_items d →
  (∀ li, LineItem.order_id (u li) = LineItem.order_id li
         ∧ LineItem.variant_id (u li) = LineItem.variant_id li
         ∧ LineItem.quantity (u li) = LineItem.quantity li) →
  (∀ li, liveLine d' li ↔ liveLine d li) →
  sumQuantity v d' = sumQuantity v d
  ∧ sumFulfilled v d'
    = sumZ ((λ li, LineItem.fulfilled_quantity (u li))
              <$> filter (λ li, LineItem.variant_id li = v)
                    (filter (liveLine d) (order_line_items d))).
Proof.
  intros Hl Hu Hlive.
  assert (filter (λ li, LineItem.variant_id li = v)
            (filter (liveLine d') (order_line_items d'))
          = u <$> filter (λ li, LineItem.variant_id li = v)
                    (filter (liveLine d) (order_line_items d))) as Hrows.
  { rewrite Hl.
    rewrite (list_filter_iff (liveLine d') (liveLine d)) by done.
    rewrite (filter_fmap_commute (liveLine d)).
    2:{ intros li. unfold liveLine. by destruct (Hu li) as (-> & _). }
    rewrite filter_fmap_commute; [done|].
    intros li. by destruct (Hu li) as (_ & -> & _). }
  rewrite sumQuantity_filter, sumFulfilled_filter, Hrows.
  rewrite <- !list_fmap_compose. split; [|done].
  rewrite sumQuantity_filter. apply sumZ_fmap_ext, Forall_forall.
  intros li _. cbn. by destruct (Hu li) as (_ & _ & ->).
Qed.

Lemma resetVariantInOrders_tables (v : string) (d : db) :
  tasks (resetVariantInOrders v d) = tasks d
  ∧ order_line_items (resetVariantInOrders v d)
    = (λ li, if decide (LineItem.variant_id li = v)
             then LineItem.set_fulfilled_quantity 0 li else li)
        <$> order_line_items d
  ∧ ∀ li, liveLine (resetVariantInOrders v d) li ↔ liveLine d li.
Proof.
  split; [done|]. split; [done|].
  intros li. unfold resetVariantInOrders.
  rewrite liveLine_updateAllOrderStatuses. by apply liveLine_ext.
Qed.

Lemma reset_task_db (v : string) (d : db) :
  v ≠ EmptyString →
  (reset_task v d).2
  = resetVariantInOrders v
      (set_tasks
         (update_where (λ r, Task.variant_id r = v)
            (λ r, restatusTask (Task.set_made_quantity 0 r))) d).
Proof.
  intros Hv. unfold reset_task. rewrite decide_False by done.
  unfold mbind, M_bind, resetTask, exec, query, updateTaskStatus, set_tasks.
  cbn. by rewrite (update_where_compose Task.variant_id).
Qed.

(** Resetting a task keeps the ledger invariant. *)
Lemma reset_task_invariant (v : string) (d : db) :
  ledgerInvariant d → ledgerInvariant (reset_task v d).2.
Proof.
  intros Hinv.
  destruct (decide (v = EmptyString)) as [Hv|Hv].
  { unfold reset_task. by rewrite decide_True. }
  rewrite reset_task_db by done.
  destruct Hinv as (Hnd & Hb & Hc & Hm).
  set (u := λ li, if decide (LineItem.variant_id li = v)
                  then LineItem.set_fulfilled_quantity 0 li else li).
  set (d1 := set_tasks _ d).
  destruct (resetVariantInOrders_tables v d1) as (Ht & Hl & Hlive).
  fold u in Hl.
  assert (∀ w,
    sumQuantity w (resetVariantInOrders v d1) = sumQuantity w d
    ∧ sumFulfilled w (resetVariantInOrders v d1)
      = if decide (w = v) then 0 else sumFulfilled w d) as Hsums.
  { intros w.
    destruct (sums_after_lines u d (resetVariantInOrders v d1) w)
      as [Hq Hf].
    - done.
    - intros li. unfold u. by case_decide.
    - intros li. rewrite Hlive. by apply liveLine_ext.
    - split; [done|]. rewrite Hf. case_decide as Hw.
      + apply sumZ_fmap_zero, Forall_forall. intros li Hli.
        apply list_elem_of_filter in Hli as [Hli _].
        unfold u. rewrite decide_True by congruence. done.
      + rewrite sumFulfilled_filter. apply sumZ_fmap_ext, Forall_forall.
        intros li Hli. apply list_elem_of_filter in Hli as [Hli _].
        unfold u. rewrite decide_False by congruence. done. }
  split; [|split; [|split]].
  - rewrite Hl, <- list_fmap_compose.
    rewrite (list_fmap_ext _ LineItem.line_item_id); [done|].
    intros i li _. unfold u. cbn. by case_decide.
  - intros li' Hli'. rewrite Hl in Hli'.
    apply list_elem_of_fmap in Hli' as (li & -> & Hli).
    specialize (Hb li Hli). unfold u. case_decide; cbn; lia.
  - intros r' Hr'. rewrite Ht in Hr'. unfold d1, set_tasks in Hr'.
    cbn in Hr'. unfold update_where in Hr'.
    apply list_elem_of_fmap in Hr' as (r & -> & Hr).
    destruct (Hc r Hr) as [Hq Hf].
    destruct (decide (Task.variant_id r = v)) as [Hvr|Hvr]; cbn.
    + destruct (Hsums (Task.variant_id r)) as [-> ->].
      by rewrite decide_True.
    + destruct (Hsums (Task.variant_id r)) as [-> ->].
      by rewrite decide_False.
  - intros w Hnone.
    assert (getTaskByVariantId w d = None) as Hnone0.
    { unfold getTaskByVariantId in *. rewrite Ht in Hnone.
      unfold d1, set_tasks in Hnone. cbn in Hnone.
      rewrite select_one_update_where in Hnone by done.
      by destruct (select_one _ (tasks d)). }
    destruct (Hm w Hnone0) as [Hq Hf].
    destruct (Hsums w) as [-> ->]. by case_decide.
Qed.

Lemma join_filter (Q : LineItem.t → Prop) `{!∀ li, Decision (Q li)}
    (d : db) (l : list LineItem.t) :
  (filter (λ p, Q p.1 ∧ notArchived p.2)
     (omap (λ li, (λ o, (li, o)) <$> getOrderByOrderId (LineItem.order_id li) d)
           l)).*1
  = filter (λ li, Q li ∧ liveLine d li) l.
Proof.
  induction l as [|li l IH]; [done|].
  rewrite (filter_cons (λ li, Q li ∧ liveLine d li)).
  change (omap ?f (li :: l)) with
    (match f li with Some y => y :: omap f l | None => omap f l end).
  destruct (decide (Q li ∧ liveLine d li)) as [Hl|Hl]; unfold liveLine in Hl;
    destruct (getOrderByOrderId (LineItem.order_id li) d) as [o|];
    cbn [fmap option_fmap option_map]; rewrite ?filter_cons;
    cbn [fst snd].
  - rewrite decide_True by done. by rewrite fmap_cons, IH.
  - by destruct Hl.
  - by rewrite decide_False by done.
  - done.
Qed.

(** The line items the allocation query returns, as a selection from the
    line-item table. *)
Lemma allocationCandidates_lines (v : string) (d : db) :
  (allocationCandidates v d).*1
  ≡ₚ filter (λ li, (LineItem.variant_id li = v
                    ∧ LineItem.fulfilled_quantity li < LineItem.quantity li)
                   ∧ liveLine d li) (order_line_items d).
Proof.
  unfold allocationCandidates. rewrite orderBy_perm.
  rewrite <- (join_filter
    (λ li, LineItem.variant_id li = v
           ∧ LineItem.fulfilled_quantity li < LineItem.quantity li)).
  unfold joinOrders.
  rewrite (list_filter_iff _
    (λ p, (LineItem.variant_id p.1 = v
           ∧ LineItem.fulfilled_quantity p.1 < LineItem.quantity p.1)
          ∧ notArchived p.2)); [done|].
  intros p. tauto.
Qed.

Lemma allocationCandidates_ext (v : string) (d d' : db) :
  orders d' = orders d → order_line_items d' = order_line_items d →
  allocationCandidates v d' = allocationCandidates v d.
Proof.
  intros Ho Hl. unfold allocationCandidates. by rewrite (joinOrders_ext d' d).
Qed.

Lemma sumZ_perm (l k : list Z) : l ≡ₚ k → sumZ l = sumZ k.
Proof.
  induction 1; rewrite ?sumZ_cons; [done|lia|lia|congruence].
Qed.

(** What a walk gives to the rows of a table that satisfy [P], when ids
    are unique and the walk is over rows of the table. *)
Lemma sumZ_takenFor_where (P : LineItem.t → Prop) `{!∀ r, Decision (P r)}
    (tbl : list LineItem.t) (walk : list (LineItem.t * Z)) :
  NoDup (LineItem.line_item_id <$> tbl) →
  (∀ e, e ∈ walk → e.1 ∈ tbl) →
  sumZ ((λ r, takenFor (LineItem.line_item_id r) walk) <$> filter P tbl)
  = sumZ (snd <$> filter (λ e, P e.1) walk).
Proof.
  intros Hnd. induction walk as [|e walk IH]; intros Hin.
  - by apply sumZ_fmap_zero, Forall_forall.
  - assert (sumZ (snd <$> filter (λ e, P e.1) (e :: walk))
            = (if decide (P e.1) then e.2 else 0)
              + sumZ (snd <$> filter (λ e, P e.1) walk)) as ->.
    { rewrite filter_cons. case_decide; [by rewrite fmap_cons, sumZ_cons|lia]. }
    rewrite <- IH.
    2:{ intros e' He'. apply Hin. by right. }
    pose proof (sumZ_indicator P tbl e.1 e.2 Hnd (Hin e ltac:(by left)))
      as Hind.
    rewrite <- Hind, <- sumZ_fmap_add. apply sumZ_fmap_ext, Forall_forall.
    intros r _. cbn. apply takenFor_cons.
Qed.

Lemma takenFor_absent (id : string) (walk : list (LineItem.t * Z)) :
  (∀ e, e ∈ walk → LineItem.line_item_id e.1 ≠ id) → takenFor id walk = 0.
Proof.
  induction walk as [|e walk IH]; intros Hno; [done|].
  rewrite takenFor_cons, decide_False by (apply Hno; by left).
  rewrite IH; [done|]. intros e' He'. apply Hno. by right.
Qed.

(** With unique ids a line item is given at most its room. *)
Lemma takenFor_bound (items : list LineItem.t) (quantity : Z) (li : LineItem.t) :
  NoDup (LineItem.line_item_id <$> items) →
  Forall (λ item, 0 < room item) items →
  (∀ x, x ∈ items → LineItem.line_item_id x = LineItem.line_item_id li → x = li) →
  0 ≤ room li →
  0 ≤ takenFor (LineItem.line_item_id li) (specFifoWalk items quantity)
    ≤ room li.
Proof.
  intros Hnd Hroom. revert quantity Hnd.
  induction Hroom as [|item items Hitem Hitems IH];
    intros quantity Hnd Hsame Hli; cbn [specFifoWalk].
  - unfold takenFor. rewrite filter_nil, fmap_nil, sumZ_nil. lia.
  - rewrite fmap_cons in Hnd. apply NoDup_cons in Hnd as [Hfresh Hnd].
    case_decide as Hq.
    { unfold takenFor. rewrite filter_nil, fmap_nil, sumZ_nil. lia. }
    rewrite takenFor_cons. cbn [fst snd].
    destruct (decide (LineItem.line_item_id item = LineItem.line_item_id li))
      as [Hid|Hid].
    + assert (item = li) as -> by (apply Hsame; [by left|done]).
      rewrite takenFor_absent; [lia|].
      intros e He Heq. apply specFifoWalk_items in He.
      apply Hfresh. rewrite <- Heq. by apply list_elem_of_fmap_2.
    + specialize (IH (quantity - Z.min (room item) quantity) Hnd).
      assert (∀ x, x ∈ items →
                LineItem.line_item_id x = LineItem.line_item_id li → x = li)
        as Hsame' by (intros x Hx; apply Hsame; by right).
      specialize (IH Hsame' Hli). lia.
Qed.

Lemma filter_all {A : Type} (P : A → Prop) `{!∀ x, Decision (P x)} (l : list A) :
  Forall P l → filter P l = l.
Proof.
  induction 1 as [|x l Hx _ IH]; [done|].
  by rewrite filter_cons, decide_True, IH.
Qed.

Lemma filter_none {A : Type} (P : A → Prop) `{!∀ x, Decision (P x)} (l : list A) :
  Forall (λ x, ¬ P x) l → filter P l = [].
Proof.
  induction 1 as [|x l Hx _ IH]; [done|].
  by rewrite filter_cons, decide_False.
Qed.

Lemma sumZ_room (l : list LineItem.t) :
  sumZ (room <$> l)
  = sumZ (LineItem.quantity <$> l) - sumZ (LineItem.fulfilled_quantity <$> l).
Proof.
  induction l as [|li l IH]; [done|].
  rewrite !fmap_cons, !sumZ_cons, IH. unfold room. lia.
Qed.

Lemma applyWalk_ids (walk : list (LineItem.t * Z)) (tbl : list LineItem.t) :
  LineItem.line_item_id <$> applyWalk walk tbl = LineItem.line_item_id <$> tbl.
Proof. unfold applyWalk. by rewrite <- list_fmap_compose. Qed.

Lemma NoDup_ids_filter (P : LineItem.t → Prop) `{!∀ x, Decision (P x)}
    (tbl : list LineItem.t) :
  NoDup (LineItem.line_item_id <$> tbl) →
  NoDup (LineItem.line_item_id <$> filter P tbl).
Proof.
  intros Hnd. refine (sublist_NoDup _ _ Hnd _).
  apply fmap_sublist, sublist_filter.
Qed.

(** The outstanding demand the allocation query sees is at least the
    total minus the made quantity of a consistent task. *)
Lemma outstanding_demand (v : string) (d : db) :
  sumQuantity v d - sumFulfilled v d
  ≤ sumZ (room <$> (allocationCandidates v d).*1).
Proof.
  rewrite (sumZ_perm _ _ (fmap_Permutation room _ _
                            (allocationCandidates_lines v d))).
  rewrite sumQuantity_filter, sumFulfilled_filter, <- sumZ_room.
  rewrite (sumZ_filter_split room
    (λ li, LineItem.fulfilled_quantity li < LineItem.quantity li)).
  rewrite !list_filter_filter.
  assert (sumZ (room <$> filter
            (λ a, (¬ LineItem.fulfilled_quantity a < LineItem.quantity a)
                  ∧ LineItem.variant_id a = v ∧ liveLine d a)
            (order_line_items d)) ≤ 0) as Hrest.
  { etransitivity; [apply (sumZ_le room (λ _, 0))|].
    - apply Forall_forall. intros li Hli.
      apply list_elem_of_filter in Hli as [[Hnot _] _]. unfold room. lia.
    - rewrite sumZ_fmap_zero; [done|]. by apply Forall_forall. }
  rewrite (list_filter_iff
    (λ a, (LineItem.fulfilled_quantity a < LineItem.quantity a
           ∧ LineItem.variant_id a = v) ∧ liveLine d a)
    (λ li, (LineItem.variant_id li = v
            ∧ LineItem.fulfilled_quantity li < LineItem.quantity li)
           ∧ liveLine d li)) by (intros; tauto).
  rewrite (list_filter_iff
    (λ a, ((¬ LineItem.fulfilled_quantity a < LineItem.quantity a)
           ∧ LineItem.variant_id a = v) ∧ liveLine d a)
    (λ a, (¬ LineItem.fulfilled_quantity a < LineItem.quantity a)
          ∧ LineItem.variant_id a = v ∧ liveLine d a)) by (intros; tauto).
  lia.
Qed.

(** The ledger after an allocation that the task still had room for. *)
Lemma allocate_ledger (v : string) (quantity : Z) (d : db) :
  NoDup (LineItem.line_item_id <$> order_line_items d) →
  boundedLines d → 0 ≤ quantity →
  quantity ≤ sumQuantity v d - sumFulfilled v d →
  NoDup (LineItem.line_item_id
           <$> order_line_items (allocateMadeQuantityToOrders v quantity d).2)
  ∧ boundedLines (allocateMadeQuantityToOrders v quantity d).2
  ∧ tasks (allocateMadeQuantityToOrders v quantity d).2 = tasks d
  ∧ ∀ w,
      sumQuantity w (allocateMadeQuantityToOrders v quantity d).2
      = sumQuantity w d
      ∧ sumFulfilled w (allocateMadeQuantityToOrders v quantity d).2
        = sumFulfilled w d + (if decide (w = v) then quantity else 0).
Proof.
  intros Hnd Hb Hq Hroom.
  destruct (allocate_tables v quantity d) as (_ & Hl & Ht & Ho).
  set (items := (allocationCandidates v d).*1) in *.
  set (walk := specFifoWalk items quantity) in *.
  assert (∀ x, x ∈ items →
            x ∈ order_line_items d ∧ liveLine d x
            ∧ LineItem.variant_id x = v) as Hitems.
  { intros x Hx. unfold items in Hx.
    rewrite allocationCandidates_lines in Hx.
    apply list_elem_of_filter in Hx as [[[? ?] ?] ?]. done. }
  assert (NoDup (LineItem.line_item_id <$> items)) as Hnd_items.
  { unfold items. rewrite allocationCandidates_lines.
    by apply NoDup_ids_filter. }
  assert (Forall (λ item, 0 < room item) items) as Hrooms.
  { unfold items. apply Forall_fmap. apply allocationCandidates_room. }
  assert (sumZ walk.*2 = quantity) as Htotal.
  { unfold walk. rewrite specFifoWalk_total by done.
    pose proof (outstanding_demand v d). fold items in H. lia. }
  assert (∀ li, liveLine (allocateMadeQuantityToOrders v quantity d).2 li
                ↔ liveLine d li) as Hlive.
  { intros li.
    rewrite (liveLine_ext
      (updateAllOrderStatuses
         (set_order_line_items (λ _, applyWalk walk (order_line_items d)) d)))
      by done.
    rewrite liveLine_updateAllOrderStatuses. by apply liveLine_ext. }
  split; [by rewrite Hl, applyWalk_ids|]. split; [|split; [done|]].
  - intros li' Hli'. rewrite Hl in Hli'. unfold applyWalk in Hli'.
    apply list_elem_of_fmap in Hli' as (li & -> & Hli). cbn.
    specialize (Hb li Hli).
    pose proof (takenFor_bound items quantity li Hnd_items Hrooms) as Hbound.
    unfold room in Hbound. fold walk in Hbound.
    destruct Hbound; [|lia|lia].
    intros x Hx Hid. apply Hitems in Hx as (Hx & _).
    by apply (NoDup_fmap_eq LineItem.line_item_id (order_line_items d)).
  - intros w.
    destruct (sums_after_lines
      (λ r, LineItem.set_fulfilled_quantity
              (LineItem.fulfilled_quantity r
               + takenFor (LineItem.line_item_id r) walk) r)
      d (allocateMadeQuantityToOrders v quantity d).2 w) as [Hsq Hsf];
      [done|done|done|].
    split; [done|]. rewrite Hsf. cbn.
    rewrite sumZ_fmap_add, <- sumFulfilled_filter. f_equal.
    rewrite (sumZ_takenFor_where (λ li, LineItem.variant_id li = w)).
    + case_decide as Hw.
      * rewrite filter_all; [done|]. apply Forall_forall. intros e He.
        apply specFifoWalk_items, Hitems in He as (_ & _ & ->). done.
      * rewrite filter_none; [done|]. apply Forall_forall. intros e He.
        apply specFifoWalk_items, Hitems in He as (_ & _ & ->). congruence.
    + by apply NoDup_ids_filter.
    + intros e He. apply specFifoWalk_items, Hitems in He as (? & ? & _).
      by apply list_elem_of_filter.
Qed.

(** The database [mark-made] leaves: the one it was given when it replies
    with an error, and otherwise the allocation run on the task table
    with the made quantity raised. *)
Lemma mark_made_db (v : string) (quantity : Z) (d : db) :
  (mark_made v quantity d).2 = d
  ∨ ∃ task,
      getTaskByVariantId v d = Some task ∧ 1 ≤ quantity
      ∧ Task.made_quantity task + quantity ≤ Task.total_quantity task
      ∧ (mark_made v quantity d).2
        = (allocateMadeQuantityToOrders v quantity
             (set_tasks
                (update_where (λ r, Task.variant_id r = v)
                   (λ r, restatusTask
                           (Task.set_made_quantity
                              (Task.made_quantity r + quantity) r))) d)).2.
Proof.
  unfold mark_made.
  destruct (decide (v = EmptyString)); [by left|].
  destruct (decide (quantity < 1)); [by left|].
  unfold mbind, M_bind, updateMadeQuantity.
  destruct (getTaskByVariantId v d) as [task|] eqn:Htask; [|by left].
  destruct (decide (Task.total_quantity task
                    < Task.made_quantity task + quantity)); [by left|].
  right. exists task. split; [done|]. split; [lia|]. split; [lia|].
  unfold updateTaskStatus, set_tasks. cbn [tasks orders order_line_items].
  rewrite (update_where_compose Task.variant_id) by done.
  by destruct (allocateMadeQuantityToOrders v quantity _).
Qed.

(** Marking units as made keeps the ledger invariant. *)
Lemma mark_made_invariant (v : string) (quantity : Z) (d : db) :
  ledgerInvariant d → ledgerInvariant (mark_made v quantity d).2.
Proof.
  intros Hinv.
  destruct (mark_made_db v quantity d)
    as [->|(task & Htask & Hq & Hfits & ->)]; [done|].
  destruct Hinv as (Hnd & Hb & Hc & Hm).
  set (d1 := set_tasks _ d).
  assert (∀ w, sumQuantity w d1 = sumQuantity w d
               ∧ sumFulfilled w d1 = sumFulfilled w d) as Hsame
    by (intros w; by apply sums_ext).
  pose proof (getTaskByVariantId_Some _ _ _ Htask) as [Hin Hv].
  destruct (Hc task Hin) as [Htot Hmade]. rewrite Hv in *.
  destruct (allocate_ledger v quantity d1) as (Hnd' & Hb' & Ht' & Hsums);
    [done|done|lia|destruct (Hsame v) as [-> ->]; lia|].
  remember (allocateMadeQuantityToOrders v quantity d1).2 as d2 eqn:Hd2.
  clear Hd2.
  split; [done|]. split; [done|]. split.
  - intros r' Hr'. rewrite Ht' in Hr'. unfold d1, set_tasks in Hr'.
    cbn in Hr'. unfold update_where in Hr'.
    apply list_elem_of_fmap in Hr' as (r & -> & Hr).
    destruct (Hc r Hr) as [Hrq Hrf].
    destruct (decide (Task.variant_id r = v)) as [Hvr|Hvr]; cbn.
    + destruct (Hsums (Task.variant_id r)) as [-> ->].
      destruct (Hsame (Task.variant_id r)) as [-> ->].
      rewrite decide_True by done. lia.
    + destruct (Hsums (Task.variant_id r)) as [-> ->].
      destruct (Hsame (Task.variant_id r)) as [-> ->].
      rewrite decide_False by done. lia.
  - intros w Hnone.
    assert (getTaskByVariantId w d = None) as Hnone0.
    { unfold getTaskByVariantId in *. rewrite Ht' in Hnone.
      unfold d1, set_tasks in Hnone. cbn in Hnone.
      rewrite select_one_update_where in Hnone by done.
      by apply fmap_None in Hnone. }
    destruct (Hm w Hnone0) as [Hwq Hwf].
    destruct (Hsums w) as [-> ->]. destruct (Hsame w) as [-> ->].
    rewrite decide_False; [lia|]. intros ->. by rewrite Htask in Hnone0.
Qed.

Lemma ledgerInvariant_consistent (d : db) : ledgerInvariant d → consistent d.
Proof. by intros (_ & _ & ? & _). Qed.

(** A sync that skipped an order ends with consistent task rows, from
    any database. *)
Lemma sync_shopify_consistent (aggregated : list TaskInput)
    (ordersForStorage : list OrderInput) (d : db) :
  getOrderIdsToSkipDuringSync d ≠ ∅ →
  consistent (sync_shopify aggregated ordersForStorage d).
Proof.
  intros Hskip. unfold sync_shopify. rewrite decide_False by done.
  set (d3 := foldl _ _ aggregated).
  intros r Hr. rewrite tasks_updateAllOrderStatuses in Hr.
  assert (∀ v,
    sumQuantity v (updateAllOrderStatuses (recalculateTaskTotalsFromOrders d3))
    = sumQuantity v (recalculateTaskTotalsFromOrders d3)
    ∧ sumFulfilled v
        (updateAllOrderStatuses (recalculateTaskTotalsFromOrders d3))
      = sumFulfilled v (recalculateTaskTotalsFromOrders d3)) as Hsame.
  { intros v.
    destruct (sums_after_lines id (recalculateTaskTotalsFromOrders d3)
                (updateAllOrderStatuses (recalculateTaskTotalsFromOrders d3)) v)
      as [Hq Hf].
    - by rewrite list_fmap_id.
    - done.
    - apply liveLine_updateAllOrderStatuses.
    - split; [done|]. by rewrite Hf, sumFulfilled_filter. }
  destruct (Hsame (Task.variant_id r)) as [-> ->].
  rewrite recalculate_tasks in Hr.
  apply list_elem_of_filter in Hr as [_ Hr].
  apply list_elem_of_fmap in Hr as (r0 & -> & Hr0).
  destruct (sums_ext (recalculateTaskTotalsFromOrders d3) d3
              (Task.variant_id (recalculatedTask d3 r0)))
    as [-> ->]; [apply orders_recalculate|apply lines_recalculate|].
  done.
Qed.

Lemma recalculate_consistent (d : db) :
  consistent (recalculateTaskTotalsFromOrders d).
Proof.
  intros r Hr. rewrite recalculate_tasks in Hr.
  apply list_elem_of_filter in Hr as [_ Hr].
  apply list_elem_of_fmap in Hr as (r0 & -> & Hr0).
  destruct (sums_ext (recalculateTaskTotalsFromOrders d) d
              (Task.variant_id (recalculatedTask d r0)))
    as [-> ->]; [apply orders_recalculate|apply lines_recalculate|].
  done.
Qed.

Lemma archive_order_invariant (orderId : string) (d : db) :
  ledgerInvariant d → ledgerInvariant (archive_order orderId d).2.
Proof.
  intros Hinv. unfold archive_order. case_decide; [done|].
  pose proof (archiveOrder_invariant orderId d Hinv) as Ha.
  unfold mbind, M_bind. by destruct (archiveOrder orderId d) as [[?|?] ?].
Qed.

Lemma unarchive_order_invariant (orderId : string) (d : db) :
  ledgerInvariant d → ledgerInvariant (unarchive_order orderId d).2.
Proof.
  intros Hinv. unfold unarchive_order. case_decide; [done|].
  pose proof (unarchiveOrder_invariant orderId d Hinv) as Ha.
  unfold mbind, M_bind. by destruct (unarchiveOrder orderId d) as [[?|?] ?].
Qed.

(** Marking a task complete keeps the ledger invariant. *)
Lemma mark_complete_invariant (v : string) (d : db) :
  ledgerInvariant d → ledgerInvariant (mark_complete v d).2.
Proof.
  intros Hinv. unfold mark_complete. case_decide; [done|].
  unfold mbind, M_bind, query, exec.
  destruct (getTaskByVariantId v d) as [task|] eqn:Htask; [|done].
  destruct Hinv as (Hnd & Hb & Hc & Hm).
  pose proof (getTaskByVariantId_Some _ _ _ Htask) as [Hin Hv].
  destruct (Hc task Hin) as [Htot Hmade]. rewrite Hv in *.
  pose proof (sums_bounded v d Hb) as Hvb.
  set (d1 := markTaskComplete v d).
  assert (tasks d1
          = update_where (λ r, Task.variant_id r = v)
              (λ r, restatusTask
                      (Task.set_made_quantity (Task.total_quantity r) r))
              (tasks d)) as Ht1.
  { unfold d1, markTaskComplete, updateTaskStatus, set_tasks. cbn [tasks].
    by rewrite (update_where_compose Task.variant_id). }
  assert (∀ w, sumQuantity w d1 = sumQuantity w d
               ∧ sumFulfilled w d1 = sumFulfilled w d) as Hsame
    by (intros w; by apply sums_ext).
  assert (∀ w, getTaskByVariantId w d1 = None → getTaskByVariantId w d = None)
    as Hnone1.
  { intros w Hnone. unfold getTaskByVariantId in *. rewrite Ht1 in Hnone.
    rewrite select_one_update_where in Hnone by done.
    by apply fmap_None in Hnone. }
  assert (∀ d2 : db,
    tasks d2 = tasks d1 →
    NoDup (LineItem.line_item_id <$> order_line_items d2) →
    boundedLines d2 →
    (∀ w, sumQuantity w d2 = sumQuantity w d
          ∧ sumFulfilled w d2
            = sumFulfilled w d
              + (if decide (w = v)
                 then Task.total_quantity task - Task.made_quantity task
                 else 0)) →
    ledgerInvariant d2) as Hfinish.
  { intros d2 Ht2 Hnd2 Hb2 Hsums. split; [done|]. split; [done|]. split.
    - intros r' Hr'. rewrite Ht2, Ht1 in Hr'. unfold update_where in Hr'.
      apply list_elem_of_fmap in Hr' as (r & -> & Hr).
      destruct (Hc r Hr) as [Hrq Hrf].
      destruct (decide (Task.variant_id r = v)) as [Hvr|Hvr];
        destruct (Hsums (Task.variant_id r)) as [Hq2 Hf2].
      + rewrite decide_True in Hf2 by done.
        change (Task.variant_id (restatusTask _)) with (Task.variant_id r).
        rewrite Hq2, Hf2. cbn. rewrite Hvr in *. lia.
      + rewrite decide_False in Hf2 by done. rewrite Hq2, Hf2. lia.
    - intros w Hnone.
      assert (getTaskByVariantId w d = None) as Hnone0.
      { apply Hnone1. unfold getTaskByVariantId in *. by rewrite <- Ht2. }
      destruct (Hm w Hnone0) as [Hwq Hwf].
      destruct (Hsums w) as [-> ->].
      rewrite decide_False; [lia|]. intros ->. by rewrite Htask in Hnone0. }
  destruct (decide (0 < Task.total_quantity task - Task.made_quantity task))
    as [Hrem|Hrem].
  - destruct (allocate_ledger v
                (Task.total_quantity task - Task.made_quantity task) d1)
      as (Hnd' & Hb' & Ht' & Hsums);
      [done|done|lia|destruct (Hsame v) as [-> ->]; lia|].
    destruct (allocateMadeQuantityToOrders v _ d1) as [res d2] eqn:Halloc.
    cbn [snd] in *. apply (Hfinish d2); [done..|].
    intros w. destruct (Hsums w) as [-> ->].
    by destruct (Hsame w) as [-> ->].
  - apply (Hfinish d1); [done..|].
    intros w. destruct (Hsame w) as [-> ->]. split; [done|].
    case_decide; lia.
Qed.

(** ** The consistency invariant across the public operations *)

Lemma twoOrdersDb_ledger : ledgerInvariant twoOrdersDb.
Proof.
  assert (nonArchivedLineItems twoOrdersDb
          = [shirtLine "o2" "l2" 5 0; shirtLine "o1" "l1" 5 0]) as Hlive
    by (by vm_compute).
  split; [|split; [|split]].
  - cbn. apply (bool_decide_unpack _). by vm_compute.
  - intros li Hli. cbn in Hli.
    apply elem_of_cons in Hli as [->|Hli]; [cbn; lia|].
    apply list_elem_of_singleton in Hli as ->. cbn; lia.
  - intros r Hr. apply list_elem_of_singleton in Hr as ->.
    by vm_compute.
  - intros v Hnone.
    assert (v ≠ "v1") as Hv by (intros ->; by vm_compute in Hnone).
    unfold sumQuantity, sumFulfilled, itemsOfVariant. rewrite Hlive.
    rewrite !filter_cons, filter_nil.
    rewrite !decide_False by (cbn; congruence). done.
Qed.

(** C1 (amended). From a database in which every task row holds the sums
    over the line items of its variant in non-archived orders, line items
    have distinct ids and are fulfilled between 0 and their quantity, and
    variants without a task row have no such line items outstanding: the
    task rows hold those sums, and they still do, with the rest of the
    invariant, after marking made (which allocates), marking complete,
    resetting a task, archiving and unarchiving an order, whether the
    operation succeeds or throws; recalculating from the orders makes the
    task rows hold the sums from any database, and so does a
    reconciliation that found an order to skip. *)
Theorem consistency_invariant_kept (d : db) :
  ledgerInvariant d →
  consistent d
  ∧ (∀ v quantity, ledgerInvariant (mark_made v quantity d).2)
  ∧ (∀ v, ledgerInvariant (mark_complete v d).2)
  ∧ (∀ v, ledgerInvariant (reset_task v d).2)
  ∧ (∀ orderId, ledgerInvariant (archive_order orderId d).2)
  ∧ (∀ orderId, ledgerInvariant (unarchive_order orderId d).2)
  ∧ consistent (recalculateTaskTotalsFromOrders d)
  ∧ (∀ aggregated ordersForStorage,
       getOrderIdsToSkipDuringSync d ≠ ∅ →
       consistent (sync_shopify aggregated ordersForStorage d)).
Proof.
  intros Hinv. repeat split_and.
  - by apply ledgerInvariant_consistent.
  - intros. by apply mark_made_invariant.
  - intros. by apply mark_complete_invariant.
  - intros. by apply reset_task_invariant.
  - intros. by apply archive_order_invariant.
  - intros. by apply unarchive_order_invariant.
  - apply recalculate_consistent.
  - intros. by apply sync_shopify_consistent.
Qed.

Lemma consistency_invariant_kept_witness :
  ledgerInvariant twoOrdersDb
  ∧ ledgerInvariant (mark_made "v1" 8 twoOrdersDb).2
  ∧ ledgerInvariant (archive_order "o1" twoOrdersDb).2.
Proof.
  split; [exact twoOrdersDb_ledger|].
  destruct (consistency_invariant_kept twoOrdersDb twoOrdersDb_ledger)
    as (_ & Hmade & _ & _ & Harchive & _).
  split; [apply Hmade|apply Harchive].
Defined.

(** A reconciliation that finds no order to skip does not recalculate:
    when Shopify no longer returns the orders of a task, its row keeps the
    total of orders that are no longer stored. *)
Lemma reconciliation_counterexample :
  ¬ (∀ d aggregated ordersForStorage,
       consistent d → consistent (sync_shopify aggregated ordersForStorage d)).
Proof.
  intros Hall.
  pose proof (Hall twoOrdersDb [] []
                (ledgerInvariant_consistent _ twoOrdersDb_ledger)) as Hc.
  assert (Task.mk "v1" "Blue" "Shirt" "S-1" None 10 0 TaskStatus.pending
          ∈ tasks (sync_shopify [] [] twoOrdersDb)) as Hin
    by (vm_compute; left).
  destruct (Hc _ Hin) as [Hq _]. by vm_compute in Hq.
Qed.

Lemma twoOrdersDb_unique : uniqueKeys twoOrdersDb.
Proof.
  repeat split; cbn; apply (bool_decide_unpack _); by vm_compute.
Qed.

Lemma twoOrdersDb_settled : statusesSettled twoOrdersDb.
Proof.
  intros o Ho _ _. cbn in Ho.
  apply elem_of_cons in Ho as [->|Ho]; [by vm_compute|].
  apply list_elem_of_singleton in Ho as ->. by vm_compute.
Qed.

Lemma newly_fulfilled_reporting_witness :
  uniqueKeys twoOrdersDb ∧ statusesSettled twoOrdersDb
  ∧ Order.order_id
      <$> newlyFulfilledOrders
            (allocateMadeQuantityToOrders "v1" 5 twoOrdersDb).1 = ["o1"]
  ∧ NoDup (Order.order_id
             <$> newlyFulfilledOrders
                   (allocateMadeQuantityToOrders "v1" 5 twoOrdersDb).1).
Proof.
  split; [exact twoOrdersDb_unique|]. split; [exact twoOrdersDb_settled|].
  split; [by vm_compute|].
  apply (newly_fulfilled_reporting "v1" 5 twoOrdersDb
           twoOrdersDb_unique twoOrdersDb_settled).
Defined.

(** ** Archiving and unarchiving an order in turn *)


Lemma getOrderByOrderId_id (orderId : string) (d : db) (o : Order.t) :
  getOrderByOrderId orderId d = Some o → Order.order_id o = orderId.
Proof.
  intros Ho.
  by apply (select_one_Some (λ r, Order.order_id r = orderId)) in Ho as [_ ?].
Qed.

Lemma restoredStatus_not_archived (fulfilled_items total_items : Z) :
  restoredStatus fulfilled_items total_items ≠ OrderStatus.archived.
Proof. unfold restoredStatus. by repeat case_decide. Qed.






Lemma singleOrderDb_ledger : ledgerInvariant singleOrderDb.
Proof.
  assert (nonArchivedLineItems singleOrderDb = [shirtLine "o1" "l1" 5 5])
    as Hlive by (by vm_compute).
  split; [|split; [|split]].
  - cbn. apply (bool_decide_unpack _). by vm_compute.
  - intros li Hli. cbn in Hli.
    apply list_elem_of_singleton in Hli as ->. cbn; lia.
  - intros r Hr. apply list_elem_of_singleton in Hr as ->.
    by vm_compute.
  - intros v Hnone.
    assert (v ≠ "v1") as Hv by (intros ->; by vm_compute in Hnone).
    unfold sumQuantity, sumFulfilled, itemsOfVariant. rewrite Hlive.
    rewrite !filter_cons, filter_nil.
    rewrite !decide_False by (cbn; congruence). done.
Qed.



(** * Further properties of the store and the handlers *)

(** ** Recomputing the order statuses *)

Lemma orderStatusCase_not_archived (fulfilled_items total_items : Z) :
  orderStatusCase fulfilled_items total_items ≠ OrderStatus.archived.
Proof. unfold orderStatusCase. by repeat case_decide. Qed.

(** The two statements of [updateAllOrderStatuses] as one pass over the
    orders. *)
Lemma orders_updateAllOrderStatuses (d : db) :
  orders (updateAllOrderStatuses d)
  = (λ o, if decide (Order.status o = OrderStatus.archived) then o
          else
            let s := sumZ (LineItem.fulfilled_quantity
                             <$> lineItemsOfOrder (Order.order_id o) d) in
            Order.set_status (orderStatusCase s (Order.total_items o))
              (Order.set_fulfilled_items s o))
      <$> orders d.
Proof.
  unfold updateAllOrderStatuses, set_orders, update_where. cbn [orders].
  rewrite <- list_fmap_compose. apply list_fmap_ext. intros _ o _. cbn.
  unfold notArchived.
  destruct (decide (Order.status o = OrderStatus.archived)) as [Hs|Hs].
  - rewrite (decide_False (P := Order.status o ≠ OrderStatus.archived))
      by tauto.
    by rewrite decide_False by tauto.
  - rewrite (decide_True (P := Order.status o ≠ OrderStatus.archived)) by done.
    by rewrite decide_True by done.
Qed.

Lemma updateAllOrderStatuses_twice (d : db) :
  updateAllOrderStatuses (updateAllOrderStatuses d) = updateAllOrderStatuses d.
Proof.
  set (d' := updateAllOrderStatuses d).
  assert (orders (updateAllOrderStatuses d') = orders d') as Ho.
  { rewrite orders_updateAllOrderStatuses. unfold lineItemsOfOrder, d'.
    rewrite lines_updateAllOrderStatuses, orders_updateAllOrderStatuses.
    rewrite <- list_fmap_compose. apply list_fmap_ext. intros _ o _. cbn.
    destruct (decide (Order.status o = OrderStatus.archived)) as [Hs|Hs].
    + by rewrite decide_True.
    + cbn. by rewrite decide_False by apply orderStatusCase_not_archived. }
  pose proof (tasks_updateAllOrderStatuses d') as Ht.
  pose proof (lines_updateAllOrderStatuses d') as Hl.
  destruct (updateAllOrderStatuses d') as [ts os ls].
  destruct d' as [ts' os' ls']. cbn in *. by subst.
Qed.

Lemma updateAllOrderStatuses_archived (d : db) :
  filter (λ o, Order.status o = OrderStatus.archived)
    (orders (updateAllOrderStatuses d))
  = filter (λ o, Order.status o = OrderStatus.archived) (orders d).
Proof.
  rewrite orders_updateAllOrderStatuses.
  induction (orders d) as [|o os IH]; [done|].
  rewrite fmap_cons, !filter_cons, IH.
  destruct (decide (Order.status o = OrderStatus.archived)) as [Hs|Hs].
  - by rewrite decide_True.
  - cbn. by rewrite decide_False by apply orderStatusCase_not_archived.
Qed.

Lemma updateAllOrderStatuses_settled (d : db) :
  statusesSettled (updateAllOrderStatuses d).
Proof.
  intros o' Ho' Hna Hnf.
  destruct (Forall2_elem_of_r _ _ _ _ (updateAllOrderStatuses_rows d) Ho')
    as (o & Ho & Hid & _ & _ & Htot & Harch & Hlive).
  destruct (decide (Order.status o = OrderStatus.archived)) as [Hs|Hs].
  { rewrite (Harch Hs) in Hna. done. }
  destruct (Hlive Hs) as [Hf Hst].
  unfold lineItemsOfOrder. rewrite lines_updateAllOrderStatuses.
  fold (lineItemsOfOrder (Order.order_id o') d).
  rewrite Hid, <- Hf, Htot, <- Hst. done.
Qed.

(** X1. [updateAllOrderStatuses] is idempotent, leaves archived orders, tasks
    and line items as they are, and leaves no order waiting to be marked
    fulfilled. *)
Theorem updateAllOrderStatuses_idempotent (d : db) :
  updateAllOrderStatuses (updateAllOrderStatuses d) = updateAllOrderStatuses d
  ∧ tasks (updateAllOrderStatuses d) = tasks d
  ∧ order_line_items (updateAllOrderStatuses d) = order_line_items d
  ∧ filter (λ o, Order.status o = OrderStatus.archived)
      (orders (updateAllOrderStatuses d))
    = filter (λ o, Order.status o = OrderStatus.archived) (orders d)
  ∧ statusesSettled (updateAllOrderStatuses d).
Proof.
  split; [apply updateAllOrderStatuses_twice|].
  split; [done|]. split; [done|].
  split; [apply updateAllOrderStatuses_archived|].
  apply updateAllOrderStatuses_settled.
Qed.

(** ** Clearing and recalculating twice *)

(** X2. A second [clearOrdersWithoutProgress] deletes nothing and returns the
    same set; the tasks are never written. *)
Theorem clearOrdersWithoutProgress_idempotent (d : db) :
  clearOrdersWithoutProgress (clearOrdersWithoutProgress d).2
  = clearOrdersWithoutProgress d
  ∧ tasks (clearOrdersWithoutProgress d).2 = tasks d
  ∧ Forall (λ o, ¬ withoutProgress o) (orders (clearOrdersWithoutProgress d).2).
Proof.
  assert (Forall (λ o, ¬ withoutProgress o)
            (orders (clearOrdersWithoutProgress d).2)) as Hleft.
  { apply Forall_forall. intros o Ho. by apply clear_orders_spec in Ho as [_ ?]. }
  split; [|done].
  unfold clearOrdersWithoutProgress in *.
  cbn [snd tasks orders order_line_items set_orders set_order_line_items] in *.
  unfold delete_where in *.
  assert (filter withoutProgress
            (filter (λ r, ¬ withoutProgress r) (orders d)) = []) as Hnone.
  { apply filter_none. exact Hleft. }
  rewrite Hnone. f_equal.
  - f_equal. f_equal. rewrite list_filter_filter. apply list_filter_iff.
    intros o. unfold withoutProgress. split; [|intros []; split; [done|lia]].
    intros ([Hs Hp] & _). split; [done|lia].
  - unfold set_orders, set_order_line_items.
    cbn [tasks orders order_line_items]. f_equal.
    + rewrite list_filter_filter. apply list_filter_iff. tauto.
    + rewrite fmap_nil. apply filter_all.
      apply Forall_forall. intros li _. apply not_elem_of_nil.
Qed.

(** X3. Recalculating the task totals twice is recalculating them once. *)
Theorem recalculateTaskTotalsFromOrders_idempotent (d : db) :
  recalculateTaskTotalsFromOrders (recalculateTaskTotalsFromOrders d)
  = recalculateTaskTotalsFromOrders d.
Proof.
  set (d' := recalculateTaskTotalsFromOrders d).
  assert (tasks (recalculateTaskTotalsFromOrders d') = tasks d') as Ht.
  { rewrite recalculate_tasks.
    assert (Forall (λ r, recalculatedTask d' r = r
                         ∧ Task.total_quantity r ≠ 0) (tasks d')) as Hall.
    { apply Forall_forall. intros r Hr. unfold d' in Hr.
      rewrite recalculate_tasks in Hr.
      apply list_elem_of_filter in Hr as [Hnz Hr].
      apply list_elem_of_fmap in Hr as (r0 & -> & Hr0). split; [|done].
      unfold recalculatedTask at 1.
      destruct (sums_ext d' d (Task.variant_id (recalculatedTask d r0)))
        as [-> ->]; [apply orders_recalculate|apply lines_recalculate|].
      apply recalculatedTask_idem. }
    rewrite (Forall_fmap_ext_1 _ id (tasks d')), list_fmap_id.
    - apply filter_all. eapply Forall_impl; [exact Hall|]. by intros ? [_ ?].
    - eapply Forall_impl; [exact Hall|]. by intros ? [? _]. }
  pose proof (orders_recalculate d') as Ho.
  pose proof (lines_recalculate d') as Hl.
  destruct (recalculateTaskTotalsFromOrders d') as [ts os ls].
  destruct d' as [ts' os' ls']. cbn in *. by subst.
Qed.

(** ** The [mark-made], [mark-complete] and [reset-task] handlers *)

Lemma getTaskByVariantId_allocate (w v : string) (quantity : Z) (d : db) :
  getTaskByVariantId w (allocateMadeQuantityToOrders v quantity d).2
  = getTaskByVariantId w d.
Proof.
  destruct (allocate_tables v quantity d) as (_ & _ & Ht & _).
  unfold getTaskByVariantId. by rewrite Ht.
Qed.

(** X4. A [mark-made] that fails has written nothing; it fails exactly on an
    empty variant id, a quantity below 1, a variant without a task, or a
    quantity that would take the made quantity over the total; when it
    succeeds it returns the task with the quantity added and the status
    of the [CASE]. *)
Theorem mark_made_outcomes (v : string) (quantity : Z) (d : db) :
  (∀ e, (mark_made v quantity d).1 = Thrown e → (mark_made v quantity d).2 = d)
  ∧ ((∃ e, (mark_made v quantity d).1 = Thrown e) ↔
     v = EmptyString ∨ quantity < 1
     ∨ match getTaskByVariantId v d with
       | None => True
       | Some task =>
           Task.total_quantity task < Task.made_quantity task + quantity
       end)
  ∧ (∀ task r,
       (mark_made v quantity d).1 = Ok r →
       getTaskByVariantId v d = Some task →
       r.1 = Some (restatusTask
                     (Task.set_made_quantity
                        (Task.made_quantity task + quantity) task))).
Proof.
  unfold mark_made.
  destruct (decide (v = EmptyString)) as [Hv|Hv].
  { split; [done|]. split; [|done]. split; [by left|by eexists]. }
  destruct (decide (quantity < 1)) as [Hq|Hq].
  { split; [done|]. split; [|done]. split; [by right; left|by eexists]. }
  unfold mbind, M_bind, updateMadeQuantity, query, mret, M_ret.
  destruct (getTaskByVariantId v d) as [task|] eqn:Htask.
  2:{ split; [done|]. split; [|done]. split; [by right; right|by eexists]. }
  destruct (decide (Task.total_quantity task < Task.made_quantity task + quantity))
    as [Hover|Hfits].
  { split; [done|]. split; [|done]. split; [by right; right|by eexists]. }
  match goal with
  | |- context [allocateMadeQuantityToOrders v quantity ?d1] =>
      pose proof (getTaskByVariantId_allocate v v quantity d1) as Hget;
      destruct (allocateMadeQuantityToOrders v quantity d1) as [res d2] eqn:Hal
  end.
  cbn [fst snd] in *. split; [done|]. split.
  - split; [by intros [? ?]|]. intros [?|[?|?]]; done.
  - intros task' r [= <-] [= <-]. cbn [fst]. rewrite Hget.
    rewrite getTaskByVariantId_updateTaskStatus.
    rewrite getTaskByVariantId_update by done. rewrite Htask. cbn.
    pose proof (getTaskByVariantId_Some _ _ _ Htask) as [_ Hid].
    rewrite (decide_True (P := Task.variant_id task = v)) by done.
    by rewrite decide_True by done.
Qed.

(** The reply and the database of [mark-complete] for a variant that has
    a task. *)
Lemma mark_complete_db (v : string) (d : db) (task : Task.t) :
  v ≠ EmptyString → getTaskByVariantId v d = Some task →
  ∃ newly,
    (mark_complete v d).1
    = Ok (Some (restatusTask
                  (Task.set_made_quantity (Task.total_quantity task) task)),
          newly)
    ∧ tasks (mark_complete v d).2
      = update_where (λ r, Task.variant_id r = v)
          (λ r, restatusTask
                  (Task.set_made_quantity (Task.total_quantity r) r))
          (tasks d).
Proof.
  intros Hv Htask. unfold mark_complete. rewrite decide_False by done.
  unfold mbind, M_bind, query, exec, mret, M_ret. rewrite Htask.
  pose proof (getTaskByVariantId_Some _ _ _ Htask) as [_ Hid].
  assert (tasks (markTaskComplete v d)
          = update_where (λ r, Task.variant_id r = v)
              (λ r, restatusTask
                      (Task.set_made_quantity (Task.total_quantity r) r))
              (tasks d)) as Ht1.
  { unfold markTaskComplete, updateTaskStatus, set_tasks. cbn [tasks].
    by rewrite (update_where_compose Task.variant_id). }
  assert (getTaskByVariantId v (markTaskComplete v d)
          = Some (restatusTask
                    (Task.set_made_quantity (Task.total_quantity task) task)))
    as Hget1.
  { unfold getTaskByVariantId. rewrite Ht1.
    rewrite select_one_update_where by done.
    fold (getTaskByVariantId v d). rewrite Htask. cbn.
    by rewrite decide_True. }
  destruct (decide (0 < Task.total_quantity task - Task.made_quantity task)).
  - pose proof (getTaskByVariantId_allocate v v
                  (Task.total_quantity task - Task.made_quantity task)
                  (markTaskComplete v d)) as Hget.
    destruct (allocate_tables v
                (Task.total_quantity task - Task.made_quantity task)
                (markTaskComplete v d)) as (_ & _ & Ht & _).
    destruct (allocateMadeQuantityToOrders v _ (markTaskComplete v d))
      as [res d2].
    cbn [fst snd] in *. exists (newlyFulfilledOrders res).
    by rewrite Hget, Hget1, Ht.
  - cbn [fst snd]. exists []. by rewrite Hget1.
Qed.

(** X5. [mark-complete] refuses an empty variant id and fails on a variant
    without a task, writing nothing either way.  For a task in a database
    that satisfies the ledger invariant it returns the task with made
    equal to total, and leaves every line item of the variant in an order
    that is not archived fulfilled in full. *)
Theorem mark_complete_fills_orders (v : string) (d : db) :
  (v = EmptyString → mark_complete v d = (Thrown VariantIdRequired, d))
  ∧ (v ≠ EmptyString → getTaskByVariantId v d = None →
     mark_complete v d = (Thrown UndefinedRow, d))
  ∧ (∀ task,
       ledgerInvariant d → v ≠ EmptyString →
       getTaskByVariantId v d = Some task →
       (∃ newly,
          (mark_complete v d).1
          = Ok (Some (restatusTask
                        (Task.set_made_quantity (Task.total_quantity task)
                           task)), newly))
       ∧ ∀ li, li ∈ order_line_items (mark_complete v d).2 →
               LineItem.variant_id li = v →
               liveLine (mark_complete v d).2 li →
               LineItem.fulfilled_quantity li = LineItem.quantity li).
Proof.
  split; [|split].
  - intros Hv. unfold mark_complete. by rewrite decide_True.
  - intros Hv Hnone. unfold mark_complete. rewrite decide_False by done.
    unfold mbind, M_bind, query. by rewrite Hnone.
  - intros task Hinv Hv Htask.
    destruct (mark_complete_db v d task Hv Htask) as (newly & Hout & Ht).
    split; [by exists newly|].
    pose proof (mark_complete_invariant v d Hinv) as (_ & Hb' & Hc' & _).
    set (d' := (mark_complete v d).2) in *.
    pose proof (getTaskByVariantId_Some _ _ _ Htask) as [Hin Hid].
    set (r' := restatusTask
                 (Task.set_made_quantity (Task.total_quantity task) task)).
    assert (r' ∈ tasks d') as Hr'.
    { rewrite Ht. unfold update_where. apply list_elem_of_fmap.
      exists task. by rewrite decide_True. }
    destruct (Hc' r' Hr') as [Hq Hf]. cbn in Hq, Hf. rewrite Hid in Hq, Hf.
    rewrite sumQuantity_filter in Hq. rewrite sumFulfilled_filter in Hf.
    set (live := filter (λ li, LineItem.variant_id li = v)
                   (filter (liveLine d') (order_line_items d'))) in *.
    assert (Forall (λ li, room li = 0) live) as Hfull.
    { apply sumZ_zero_all.
      - apply Forall_forall. intros li Hli. unfold live in Hli.
        apply list_elem_of_filter in Hli as [_ Hli].
        apply list_elem_of_filter in Hli as [_ Hli].
        pose proof (Hb' li Hli). unfold room. lia.
      - rewrite sumZ_room. lia. }
    intros li Hli Hvar Hlive. rewrite Forall_forall in Hfull.
    assert (room li = 0) as Hroom.
    { apply Hfull. unfold live. apply list_elem_of_filter. split; [done|].
      by apply list_elem_of_filter. }
    unfold room in Hroom. lia.
Qed.

Lemma mark_complete_fills_orders_witness :
  ledgerInvariant twoOrdersDb
  ∧ ∀ li, li ∈ order_line_items (mark_complete "v1" twoOrdersDb).2 →
          LineItem.variant_id li = "v1" →
          liveLine (mark_complete "v1" twoOrdersDb).2 li →
          LineItem.fulfilled_quantity li = LineItem.quantity li.
Proof.
  split; [exact twoOrdersDb_ledger|].
  assert ("v1" ≠ EmptyString) as Hv by done.
  destruct (mark_complete_fills_orders "v1" twoOrdersDb) as (_ & _ & Hfill).
  destruct (Hfill _ twoOrdersDb_ledger Hv eq_refl) as [_ Hall].
  exact Hall.
Defined.

Lemma mark_made_outcomes_witness :
  (mark_made "v1" 11 twoOrdersDb).1 = Thrown (ExceedsTotal 11 10)
  ∧ (mark_made "v1" 11 twoOrdersDb).2 = twoOrdersDb.
Proof.
  assert ((mark_made "v1" 11 twoOrdersDb).1 = Thrown (ExceedsTotal 11 10))
    as Hthrown by (by vm_compute).
  split; [exact Hthrown|].
  destruct (mark_made_outcomes "v1" 11 twoOrdersDb) as (Hsame & _).
  exact (Hsame _ Hthrown).
Defined.

(** X6. [reset-task] refuses an empty variant id.  Otherwise it does not
    fail: the task, if there is one, is left with made 0 and status
    [pending] and is returned; every line item of the variant is left
    with fulfilled quantity 0, also in an archived order; the other line
    items are as they were, and so are the rows of archived orders. *)
Theorem reset_task_outcome (v : string) (d : db) :
  (v = EmptyString → reset_task v d = (Thrown VariantIdRequired, d))
  ∧ (v ≠ EmptyString →
     (reset_task v d).1
     = Ok ((λ r, Task.set_status TaskStatus.pending
                   (Task.set_made_quantity 0 r))
             <$> getTaskByVariantId v d)
     ∧ tasks (reset_task v d).2
       = update_where (λ r, Task.variant_id r = v)
           (λ r, Task.set_status TaskStatus.pending
                   (Task.set_made_quantity 0 r)) (tasks d)
     ∧ order_line_items (reset_task v d).2
       = (λ li, if decide (LineItem.variant_id li = v)
                then LineItem.set_fulfilled_quantity 0 li else li)
           <$> order_line_items d
     ∧ filter (λ o, Order.status o = OrderStatus.archived)
         (orders (reset_task v d).2)
       = filter (λ o, Order.status o = OrderStatus.archived) (orders d)).
Proof.
  split.
  { intros Hv. unfold reset_task. by rewrite decide_True. }
  intros Hv.
  assert (tasks (reset_task v d).2
          = update_where (λ r, Task.variant_id r = v)
              (λ r, Task.set_status TaskStatus.pending
                      (Task.set_made_quantity 0 r)) (tasks d)) as Ht.
  { rewrite reset_task_db by done. done. }
  split; [|split; [exact Ht|split]].
  - pose proof Ht as Hget. unfold reset_task in *.
    rewrite decide_False in * by done.
    unfold mbind, M_bind, resetTask, exec, query in *. cbn [fst snd] in *.
    f_equal. unfold getTaskByVariantId at 1. rewrite Hget.
    rewrite select_one_update_where by done.
    fold (getTaskByVariantId v d).
    destruct (getTaskByVariantId v d) as [task|] eqn:Htask; [|done]. cbn.
    pose proof (getTaskByVariantId_Some _ _ _ Htask) as [_ Hid].
    by rewrite decide_True.
  - rewrite reset_task_db by done.
    by destruct (resetVariantInOrders_tables v
                   (set_tasks
                      (update_where (λ r, Task.variant_id r = v)
                         (λ r, restatusTask (Task.set_made_quantity 0 r))) d))
      as (_ & -> & _).
  - rewrite reset_task_db by done. unfold resetVariantInOrders.
    by rewrite updateAllOrderStatuses_archived.
Qed.

Lemma reset_task_outcome_witness :
  order_line_items (reset_task "v1" progressDb).2
  = (λ li, if decide (LineItem.variant_id li = "v1")
           then LineItem.set_fulfilled_quantity 0 li else li)
      <$> order_line_items progressDb.
Proof.
  assert ("v1" ≠ EmptyString) as Hv by done.
  destruct (reset_task_outcome "v1" progressDb) as [_ Hreset].
  by destruct (Hreset Hv) as (_ & _ & -> & _).
Defined.

(** ** Archiving every fulfilled order, unarchiving every archived one *)

Lemma getOrderByOrderId_elem (d : db) (o : Order.t) :
  NoDup (Order.order_id <$> orders d) → o ∈ orders d →
  getOrderByOrderId (Order.order_id o) d = Some o.
Proof.
  intros Hnd Ho.
  destruct (getOrderByOrderId (Order.order_id o) d) as [o'|] eqn:Hget.
  - apply (select_one_Some (λ r, Order.order_id r = Order.order_id o)) in Hget
      as [Ho' Hid].
    f_equal. by apply (NoDup_fmap_eq Order.order_id (orders d)).
  - apply (select_one_None (λ r, Order.order_id r = Order.order_id o)) in Hget.
    rewrite Forall_forall in Hget. by destruct (Hget o Ho).
Qed.

Lemma getOrderByOrderId_other (id orderId : string) (s : OrderStatus.t)
    (ts : list Task.t) (d : db) :
  id ≠ orderId →
  getOrderByOrderId id
    (mkDb ts
       (update_where (λ r, Order.order_id r = orderId) (Order.set_status s)
          (orders d))
       (order_line_items d))
  = getOrderByOrderId id d.
Proof.
  intros Hne. rewrite getOrderByOrderId_status.
  destruct (getOrderByOrderId id d) as [o|] eqn:Ho; [|done]. cbn.
  apply getOrderByOrderId_id in Ho. rewrite decide_False by congruence. done.
Qed.

(** One status written to the orders of some ids, one id after the
    other, is one pass over the table. *)
Lemma set_status_each (s : Order.t → OrderStatus.t) (id : string)
    (rest : list string) (tbl : list Order.t) :
  (∀ o st, s (Order.set_status st o) = s o) →
  (λ o, if decide (Order.order_id o ∈ rest) then Order.set_status (s o) o
        else o)
    <$> update_where (λ r, Order.order_id r = id)
          (λ o, Order.set_status (s o) o) tbl
  = (λ o, if decide (Order.order_id o ∈ id :: rest)
          then Order.set_status (s o) o else o) <$> tbl.
Proof.
  intros Hs. unfold update_where. rewrite <- list_fmap_compose.
  apply list_fmap_ext. intros _ o _. cbn.
  destruct (decide (Order.order_id o = id)) as [Hid|Hid].
  - rewrite (decide_True (P := Order.order_id o ∈ id :: rest))
      by (rewrite Hid; by left).
    cbn. case_decide; [|done]. by rewrite Hs.
  - destruct (decide (Order.order_id o ∈ rest)) as [Hin|Hin].
    + by rewrite decide_True by by right.
    + rewrite decide_False; [done|].
      intros [?|?]%elem_of_cons; done.
Qed.

Lemma archiveEach_spec (orderIds : list string) (n : nat) (d : db) :
  NoDup orderIds →
  (∀ id, id ∈ orderIds →
         ∃ o, getOrderByOrderId id d = Some o
              ∧ Order.status o ≠ OrderStatus.archived) →
  (archiveEach orderIds n d).1 = Ok (n + length orderIds)%nat
  ∧ orders (archiveEach orderIds n d).2
    = (λ o, if decide (Order.order_id o ∈ orderIds)
            then Order.set_status OrderStatus.archived o else o) <$> orders d
  ∧ order_line_items (archiveEach orderIds n d).2 = order_line_items d
  ∧ (ledgerInvariant d → ledgerInvariant (archiveEach orderIds n d).2).
Proof.
  revert n d. induction orderIds as [|id rest IH]; intros n d Hnd Hall.
  - cbn. split; [f_equal; lia|]. split; [|done].
    rewrite <- (list_fmap_id (orders d)) at 1.
    apply list_fmap_ext. intros _ o _. cbn.
    rewrite decide_False; [done|]. apply not_elem_of_nil.
  - apply NoDup_cons in Hnd as [Hfresh Hnd].
    destruct (Hall id ltac:(by left)) as (o & Ho & Hs).
    pose proof (archiveOrder_invariant id d) as Hinv1.
    cbn [archiveEach]. unfold mbind, M_bind.
    rewrite (archiveOrder_db _ _ _ Ho Hs) in *. cbn [snd] in Hinv1.
    cbn [success alreadyArchived andb negb].
    set (d1 := mkDb _ _ _) in *.
    destruct (IH (S n) d1 Hnd) as (Hout & Hord & Hl & Hinv).
    { intros id' Hid'. destruct (Hall id' ltac:(by right)) as (o' & Ho' & Hs').
      exists o'. split; [|done]. unfold d1.
      rewrite getOrderByOrderId_other; [done|]. by intros ->. }
    split; [rewrite Hout; f_equal; cbn; lia|].
    split; [|split; [by rewrite Hl|by intros ?; apply Hinv, Hinv1]].
    rewrite Hord. unfold d1. cbn [orders].
    by apply (set_status_each (λ _, OrderStatus.archived)).
Qed.

Lemma order_ids_set_status (P : Order.t → Prop) `{!∀ o, Decision (P o)}
    (s : Order.t → OrderStatus.t) (tbl : list Order.t) :
  Order.order_id <$> update_where P (λ o, Order.set_status (s o) o) tbl
  = Order.order_id <$> tbl.
Proof.
  unfold update_where. rewrite <- list_fmap_compose.
  apply list_fmap_ext. intros _ o _. cbn. by case_decide.
Qed.

Lemma unarchiveEach_spec (orderIds : list string) (n : nat) (d : db) :
  NoDup (Order.order_id <$> orders d) →
  NoDup orderIds →
  (∀ id, id ∈ orderIds →
         ∃ o, getOrderByOrderId id d = Some o
              ∧ Order.status o = OrderStatus.archived) →
  (unarchiveEach orderIds n d).1 = Ok (n + length orderIds)%nat
  ∧ orders (unarchiveEach orderIds n d).2
    = (λ o, if decide (Order.order_id o ∈ orderIds)
            then Order.set_status
                   (restoredStatus (Order.fulfilled_items o)
                      (Order.total_items o)) o
            else o) <$> orders d
  ∧ order_line_items (unarchiveEach orderIds n d).2 = order_line_items d
  ∧ (ledgerInvariant d → ledgerInvariant (unarchiveEach orderIds n d).2).
Proof.
  revert n d. induction orderIds as [|id rest IH]; intros n d Hids Hnd Hall.
  - cbn. split; [f_equal; lia|]. split; [|done].
    rewrite <- (list_fmap_id (orders d)) at 1.
    apply list_fmap_ext. intros _ o _. cbn.
    rewrite decide_False; [done|]. apply not_elem_of_nil.
  - apply NoDup_cons in Hnd as [Hfresh Hnd].
    destruct (Hall id ltac:(by left)) as (o & Ho & Hs).
    pose proof (unarchiveOrder_invariant id d) as Hinv1.
    cbn [unarchiveEach]. unfold mbind, M_bind.
    rewrite (unarchiveOrder_db _ _ _ Ho Hs) in *. cbn [snd] in Hinv1.
    cbn [success notArchivedFlag andb negb].
    set (d1 := mkDb _ _ _) in *.
    assert (orders d1
            = update_where (λ r, Order.order_id r = id)
                (λ o, Order.set_status
                        (restoredStatus (Order.fulfilled_items o)
                           (Order.total_items o)) o) (orders d)) as Hd1.
    { unfold d1, update_where. cbn [orders].
      apply list_fmap_ext. intros i o' Hi. cbn.
      case_decide as Hid; [|done].
      assert (o' = o) as ->; [|done].
      apply (select_one_Some (λ r, Order.order_id r = id)) in Ho as [Hin Hido].
      apply (NoDup_fmap_eq Order.order_id (orders d)); [done| |done|congruence].
      by eapply list_elem_of_lookup_2. }
    destruct (IH (S n) d1) as (Hout & Hord & Hl & Hinv); [|done|..].
    { rewrite Hd1. by rewrite (order_ids_set_status _ _). }
    { intros id' Hid'. destruct (Hall id' ltac:(by right)) as (o' & Ho' & Hs').
      exists o'. split; [|done]. unfold d1.
      rewrite getOrderByOrderId_other; [done|]. by intros ->. }
    split; [rewrite Hout; f_equal; cbn; lia|].
    split; [|split; [by rewrite Hl|by intros ?; apply Hinv, Hinv1]].
    rewrite Hord, Hd1.
    by apply (set_status_each
      (λ o, restoredStatus (Order.fulfilled_items o) (Order.total_items o))).
Qed.

Lemma orderIdsWithStatus_NoDup (s : OrderStatus.t) (d : db) :
  NoDup (Order.order_id <$> orders d) → NoDup (orderIdsWithStatus s d).
Proof.
  intros Hnd. refine (sublist_NoDup _ _ Hnd _).
  apply fmap_sublist, sublist_filter.
Qed.

Lemma orderIdsWithStatus_elem (s : OrderStatus.t) (d : db) (o : Order.t) :
  NoDup (Order.order_id <$> orders d) → o ∈ orders d →
  Order.order_id o ∈ orderIdsWithStatus s d ↔ Order.status o = s.
Proof.
  intros Hnd Ho. unfold orderIdsWithStatus. rewrite list_elem_of_fmap. split.
  - intros (o' & Hid & Ho'). apply list_elem_of_filter in Ho' as [Hs Ho'].
    by rewrite (NoDup_fmap_eq Order.order_id (orders d) o o' Hnd Ho Ho' Hid).
  - intros Hs. exists o. split; [done|]. by apply list_elem_of_filter.
Qed.

Lemma orderIdsWithStatus_get (s : OrderStatus.t) (d : db) (id : string) :
  NoDup (Order.order_id <$> orders d) → id ∈ orderIdsWithStatus s d →
  ∃ o, getOrderByOrderId id d = Some o ∧ Order.status o = s.
Proof.
  intros Hnd Hid. unfold orderIdsWithStatus in Hid.
  apply list_elem_of_fmap in Hid as (o & -> & Ho).
  apply list_elem_of_filter in Ho as [Hs Ho].
  exists o. split; [|done]. by apply getOrderByOrderId_elem.
Qed.

(** X7. With the order ids unique as the schema has them,
    [archiveAllFulfilledOrders] does not fail, counts the fulfilled
    orders, leaves each of them archived and every other order and all
    line items as they were, and keeps the ledger invariant. *)
Theorem archiveAllFulfilledOrders_spec (d : db) :
  NoDup (Order.order_id <$> orders d) →
  (archiveAllFulfilledOrders d).1
  = Ok (length (filter (λ o, Order.status o = OrderStatus.fulfilled)
                  (orders d)))
  ∧ orders (archiveAllFulfilledOrders d).2
    = (λ o, if decide (Order.status o = OrderStatus.fulfilled)
            then Order.set_status OrderStatus.archived o else o) <$> orders d
  ∧ order_line_items (archiveAllFulfilledOrders d).2 = order_line_items d
  ∧ (ledgerInvariant d → ledgerInvariant (archiveAllFulfilledOrders d).2).
Proof.
  intros Hnd. unfold archiveAllFulfilledOrders.
  destruct (archiveEach_spec (orderIdsWithStatus OrderStatus.fulfilled d)
              0%nat d) as (Hout & Hord & Hl & Hinv).
  { by apply orderIdsWithStatus_NoDup. }
  { intros id Hid.
    destruct (orderIdsWithStatus_get _ _ _ Hnd Hid) as (o & Ho & Hs).
    exists o. split; [done|]. by rewrite Hs. }
  split; [|split; [|done]].
  - rewrite Hout. unfold orderIdsWithStatus. by rewrite length_fmap.
  - rewrite Hord. apply Forall_fmap_ext_1, Forall_forall. intros o Ho.
    destruct (decide (Order.status o = OrderStatus.fulfilled)) as [Hs|Hs].
    + by rewrite decide_True by by apply orderIdsWithStatus_elem.
    + by rewrite decide_False by by rewrite orderIdsWithStatus_elem.
Qed.

Lemma archiveAllFulfilledOrders_spec_witness :
  (archiveAllFulfilledOrders singleOrderDb).1 = Ok 1%nat
  ∧ ledgerInvariant (archiveAllFulfilledOrders singleOrderDb).2.
Proof.
  assert (NoDup (Order.order_id <$> orders singleOrderDb)) as Hnd
    by (cbn; apply (bool_decide_unpack _); by vm_compute).
  destruct (archiveAllFulfilledOrders_spec singleOrderDb Hnd)
    as (Hout & _ & _ & Hinv).
  split; [exact Hout|exact (Hinv singleOrderDb_ledger)].
Defined.

(** X8. With the order ids unique, [unarchiveAllOrders] does not fail, counts
    the archived orders, gives each of them the status its stored
    counters ask for, leaves every other order and all line items as they
    were, and keeps the ledger invariant. *)
Theorem unarchiveAllOrders_spec (d : db) :
  NoDup (Order.order_id <$> orders d) →
  (unarchiveAllOrders d).1
  = Ok (length (filter (λ o, Order.status o = OrderStatus.archived)
                  (orders d)))
  ∧ orders (unarchiveAllOrders d).2
    = (λ o, if decide (Order.status o = OrderStatus.archived)
            then Order.set_status
                   (restoredStatus (Order.fulfilled_items o)
                      (Order.total_items o)) o
            else o) <$> orders d
  ∧ Forall (λ o, Order.status o ≠ OrderStatus.archived)
      (orders (unarchiveAllOrders d).2)
  ∧ order_line_items (unarchiveAllOrders d).2 = order_line_items d
  ∧ (ledgerInvariant d → ledgerInvariant (unarchiveAllOrders d).2).
Proof.
  intros Hnd. unfold unarchiveAllOrders.
  destruct (unarchiveEach_spec (orderIdsWithStatus OrderStatus.archived d)
              0%nat d Hnd) as (Hout & Hord & Hl & Hinv).
  { by apply orderIdsWithStatus_NoDup. }
  { intros id Hid. by apply orderIdsWithStatus_get. }
  assert (orders (unarchiveEach (orderIdsWithStatus OrderStatus.archived d)
                    0%nat d).2
          = (λ o, if decide (Order.status o = OrderStatus.archived)
                  then Order.set_status
                         (restoredStatus (Order.fulfilled_items o)
                            (Order.total_items o)) o
                  else o) <$> orders d) as Hord'.
  { rewrite Hord. apply Forall_fmap_ext_1, Forall_forall. intros o Ho.
    destruct (decide (Order.status o = OrderStatus.archived)) as [Hs|Hs].
    + by rewrite decide_True by by apply orderIdsWithStatus_elem.
    + by rewrite decide_False by by rewrite orderIdsWithStatus_elem. }
  split; [|split; [done|split; [|done]]].
  - rewrite Hout. unfold orderIdsWithStatus. by rewrite length_fmap.
  - rewrite Hord'. apply Forall_fmap, Forall_forall. intros o _. cbn.
    case_decide; [|done]. apply restoredStatus_not_archived.
Qed.

Lemma unarchiveAllOrders_spec_witness :
  (unarchiveAllOrders driftedDb).1 = Ok 1%nat
  ∧ Forall (λ o, Order.status o ≠ OrderStatus.archived)
      (orders (unarchiveAllOrders driftedDb).2).
Proof.
  assert (NoDup (Order.order_id <$> orders driftedDb)) as Hnd
    by (cbn; apply (bool_decide_unpack _); by vm_compute).
  destruct (unarchiveAllOrders_spec driftedDb Hnd) as (Hout & _ & Hall & _).
  split; [exact Hout|exact Hall].
Defined.

(** ** Deleting the archived orders *)

Lemma deleteArchivedOrders_tables (d : db) :
  tasks (deleteArchivedOrders d).2 = tasks d
  ∧ orders (deleteArchivedOrders d).2
    = filter (λ o, Order.status o ≠ OrderStatus.archived) (orders d)
  ∧ order_line_items (deleteArchivedOrders d).2
    = filter (λ li, LineItem.order_id li
                    ∉ orderIdsWithStatus OrderStatus.archived d)
        (order_line_items d).
Proof. done. Qed.

Lemma liveLine_deleteArchivedOrders (d : db) (li : LineItem.t) :
  NoDup (Order.order_id <$> orders d) →
  liveLine (deleteArchivedOrders d).2 li
  ∧ LineItem.order_id li ∉ orderIdsWithStatus OrderStatus.archived d
  ↔ liveLine d li.
Proof.
  intros Hnd.
  destruct (deleteArchivedOrders_tables d) as (_ & Ho & _).
  assert (NoDup (Order.order_id <$> orders (deleteArchivedOrders d).2)) as Hnd'.
  { rewrite Ho. refine (sublist_NoDup _ _ Hnd _).
    apply fmap_sublist, sublist_filter. }
  unfold liveLine, notArchived. split.
  - intros [Hlive _].
    destruct (getOrderByOrderId (LineItem.order_id li) (deleteArchivedOrders d).2)
      as [o|] eqn:Hget; [|done].
    pose proof (getOrderByOrderId_id _ _ _ Hget) as Hid.
    apply (select_one_Some (λ r, Order.order_id r = LineItem.order_id li))
      in Hget as [Hin _].
    rewrite Ho in Hin. apply list_elem_of_filter in Hin as [_ Hin].
    rewrite <- Hid, (getOrderByOrderId_elem d o Hnd Hin). done.
  - intros Hlive.
    destruct (getOrderByOrderId (LineItem.order_id li) d) as [o|] eqn:Hget;
      [|done].
    pose proof (getOrderByOrderId_id _ _ _ Hget) as Hid.
    apply (select_one_Some (λ r, Order.order_id r = LineItem.order_id li))
      in Hget as [Hin _].
    assert (o ∈ orders (deleteArchivedOrders d).2) as Hin'
      by (rewrite Ho; by apply list_elem_of_filter).
    split.
    + rewrite <- Hid, (getOrderByOrderId_elem _ o Hnd' Hin'). done.
    + rewrite <- Hid. by rewrite orderIdsWithStatus_elem.
Qed.

Lemma deleteArchivedOrders_sums (d : db) (v : string) :
  NoDup (Order.order_id <$> orders d) →
  sumQuantity v (deleteArchivedOrders d).2 = sumQuantity v d
  ∧ sumFulfilled v (deleteArchivedOrders d).2 = sumFulfilled v d.
Proof.
  intros Hnd. rewrite !sumQuantity_filter, !sumFulfilled_filter.
  destruct (deleteArchivedOrders_tables d) as (_ & _ & ->).
  assert (filter (liveLine (deleteArchivedOrders d).2)
            (filter (λ li, LineItem.order_id li
                           ∉ orderIdsWithStatus OrderStatus.archived d)
               (order_line_items d))
          = filter (liveLine d) (order_line_items d)) as ->; [|done].
  rewrite list_filter_filter. apply list_filter_iff. intros li.
  by apply liveLine_deleteArchivedOrders.
Qed.

(** X9. [deleteArchivedOrders] reports how many orders were archived, removes
    them and the line items that carry their ids, and writes no task.
    With the order ids unique it leaves the sums over the line items of
    orders that are not archived as they were, hence keeps the ledger
    invariant; a second call deletes nothing. *)
Theorem deleteArchivedOrders_spec (d : db) :
  NoDup (Order.order_id <$> orders d) →
  (deleteArchivedOrders d).1
  = length (filter (λ o, Order.status o = OrderStatus.archived) (orders d))
  ∧ tasks (deleteArchivedOrders d).2 = tasks d
  ∧ orders (deleteArchivedOrders d).2
    = filter (λ o, Order.status o ≠ OrderStatus.archived) (orders d)
  ∧ (∀ li, li ∈ order_line_items (deleteArchivedOrders d).2 ↔
           li ∈ order_line_items d
           ∧ ¬ ∃ o, o ∈ orders d ∧ Order.status o = OrderStatus.archived
                    ∧ Order.order_id o = LineItem.order_id li)
  ∧ (∀ v, sumQuantity v (deleteArchivedOrders d).2 = sumQuantity v d
          ∧ sumFulfilled v (deleteArchivedOrders d).2 = sumFulfilled v d)
  ∧ (ledgerInvariant d → ledgerInvariant (deleteArchivedOrders d).2)
  ∧ deleteArchivedOrders (deleteArchivedOrders d).2
    = (0%nat, (deleteArchivedOrders d).2).
Proof.
  intros Hnd.
  destruct (deleteArchivedOrders_tables d) as (Ht & Ho & Hl).
  split; [done|]. split; [done|]. split; [done|]. split; [|split; [|split]].
  - intros li. rewrite Hl, list_elem_of_filter.
    unfold orderIdsWithStatus. rewrite list_elem_of_fmap. split.
    + intros [Hno Hli]. split; [done|]. intros (o & Hin & Hs & Hid).
      apply Hno. exists o. split; [done|]. by apply list_elem_of_filter.
    + intros [Hli Hno]. split; [|done]. intros (o & Hid & Hin).
      apply list_elem_of_filter in Hin as [Hs Hin]. apply Hno. by exists o.
  - intros v. by apply deleteArchivedOrders_sums.
  - intros (Hndl & Hb & Hc & Hm).
    split; [rewrite Hl; by apply NoDup_ids_filter|]. split; [|split].
    + intros li Hli. rewrite Hl in Hli.
      apply list_elem_of_filter in Hli as [_ Hli]. by apply Hb.
    + intros r Hr. rewrite Ht in Hr.
      destruct (deleteArchivedOrders_sums d (Task.variant_id r) Hnd)
        as [-> ->].
      by apply Hc.
    + intros v Hnone.
      destruct (deleteArchivedOrders_sums d v Hnd) as [-> ->].
      apply Hm. unfold getTaskByVariantId in *. by rewrite <- Ht.
  - unfold deleteArchivedOrders at 1.
    assert (orderIdsWithStatus OrderStatus.archived (deleteArchivedOrders d).2
            = []) as Hids.
    { unfold orderIdsWithStatus. rewrite Ho, list_filter_filter.
      rewrite filter_False; [done|]. tauto. }
    rewrite Hids.
    unfold set_order_line_items, set_orders, delete_where.
    cbn [tasks orders order_line_items].
    rewrite Ho, !list_filter_filter.
    rewrite (filter_False (λ o, Order.status o = OrderStatus.archived ∧ _))
      by tauto.
    rewrite (filter_all _ (order_line_items _)).
    2:{ apply Forall_forall. intros li _. apply not_elem_of_nil. }
    f_equal.
    destruct (deleteArchivedOrders d).2 as [ts os ls] eqn:Hd.
    cbn [tasks orders order_line_items] in *. f_equal.
    rewrite Ho. apply list_filter_iff. tauto.
Qed.

Lemma deleteArchivedOrders_spec_witness :
  (deleteArchivedOrders driftedDb).1 = 1%nat
  ∧ sumQuantity "v1" (deleteArchivedOrders driftedDb).2
    = sumQuantity "v1" driftedDb.
Proof.
  assert (NoDup (Order.order_id <$> orders driftedDb)) as Hnd
    by (cbn; apply (bool_decide_unpack _); by vm_compute).
  destruct (deleteArchivedOrders_spec driftedDb Hnd)
    as (Hcount & _ & _ & _ & Hsums & _).
  split; [exact Hcount|]. by destruct (Hsums "v1") as [-> _].
Defined.

(** X10. The ids [sync-shopify] skips are the archived ids together with the
    ids [clearOrdersWithoutProgress] reports as having progress. *)
Theorem skip_set_is_archived_or_progress (d : db) :
  getOrderIdsToSkipDuringSync d
  = getArchivedOrderIds d ∪ (clearOrdersWithoutProgress d).1.
Proof.
  apply set_eq. intros id.
  rewrite elem_of_union. unfold getOrderIdsToSkipDuringSync,
    getArchivedOrderIds, orderIdsWithStatus, clearOrdersWithoutProgress.
  cbn [fst]. rewrite !elem_of_list_to_set, !list_elem_of_fmap. split.
  - intros (o & -> & Ho). apply list_elem_of_filter in Ho as [Hp Ho].
    destruct (decide (Order.status o = OrderStatus.archived)) as [Hs|Hs].
    + left. exists o. split; [done|]. by apply list_elem_of_filter.
    + right. exists o. split; [done|]. apply list_elem_of_filter.
      split; [|done]. destruct Hp; done.
  - intros [(o & -> & Ho)|(o & -> & Ho)];
      apply list_elem_of_filter in Ho as [Hp Ho]; exists o;
      (split; [done|]); apply list_elem_of_filter; split; try done.
    + by left.
    + right. by destruct Hp.
Qed.

(** ** Deallocation, newest order first *)

Lemma StronglySorted_reverse {A : Type} (R : relation A) (l : list A) :
  StronglySorted R l → StronglySorted (flip R) (reverse l).
Proof.
  induction 1 as [|x l Hl IH Hx]; [constructor|].
  rewrite reverse_cons. apply StronglySorted_app_2.
  - intros a b Ha Hb. apply list_elem_of_singleton in Hb as ->.
    rewrite elem_of_reverse in Ha. rewrite Forall_forall in Hx.
    unfold flip. by apply Hx.
  - done.
  - repeat constructor.
Qed.

Lemma join_filter_any (Q : LineItem.t → Prop) `{!∀ li, Decision (Q li)}
    (d : db) (l : list LineItem.t) :
  (filter (λ p, Q p.1)
     (omap (λ li, (λ o, (li, o)) <$> getOrderByOrderId (LineItem.order_id li) d)
           l)).*1
  = filter (λ li, Q li ∧ is_Some (getOrderByOrderId (LineItem.order_id li) d)) l.
Proof.
  induction l as [|li l IH]; [done|].
  rewrite (filter_cons (λ li, Q li ∧ is_Some _)).
  change (omap ?f (li :: l)) with
    (match f li with Some y => y :: omap f l | None => omap f l end).
  destruct (getOrderByOrderId (LineItem.order_id li) d) as [o|] eqn:Ho;
    rewrite ?Ho; cbn [fmap option_fmap option_map].
  - rewrite filter_cons. cbn [fst].
    destruct (decide (Q li)) as [Hq|Hq].
    + rewrite decide_True by (split; [done|by eexists]).
      by rewrite fmap_cons, IH.
    + rewrite decide_False by tauto. done.
  - rewrite decide_False; [done|]. intros [_ [? ?]]. done.
Qed.

Lemma deallocationCandidates_lines (v : string) (d : db) :
  (deallocationCandidates v d).*1
  ≡ₚ filter (λ li, (LineItem.variant_id li = v
                    ∧ 0 < LineItem.fulfilled_quantity li)
                   ∧ is_Some (getOrderByOrderId (LineItem.order_id li) d))
       (order_line_items d).
Proof.
  unfold deallocationCandidates. rewrite reverse_Permutation, orderBy_perm.
  by rewrite <- (join_filter_any
    (λ li, LineItem.variant_id li = v ∧ 0 < LineItem.fulfilled_quantity li)).
Qed.

Lemma applyWalk_cons (e : LineItem.t * Z) (walk : list (LineItem.t * Z))
    (tbl : list LineItem.t) :
  applyWalk (e :: walk) tbl
  = applyWalk walk
      (update_where (λ r, LineItem.line_item_id r = LineItem.line_item_id e.1)
         (λ r, LineItem.set_fulfilled_quantity
                 (LineItem.fulfilled_quantity r + e.2) r) tbl).
Proof. by rewrite <- !foldl_walk_table. Qed.

Lemma applyWalk_nil (tbl : list LineItem.t) : applyWalk [] tbl = tbl.
Proof. by rewrite <- foldl_walk_table. Qed.

Lemma deallocateLoop_walk (items : list (LineItem.t * Order.t)) (quantity : Z)
    (tbl : list LineItem.t) :
  Forall (λ p, 0 < LineItem.fulfilled_quantity p.1) items →
  deallocateLoop items quantity tbl
  = applyWalk (givenBack <$> specLifoWalk items.*1 quantity) tbl.
Proof.
  intros Hall. revert quantity tbl.
  induction Hall as [|[item o] items Hitem _ IH]; intros quantity tbl.
  - by rewrite applyWalk_nil.
  - cbn [deallocateLoop fmap list_fmap fst specLifoWalk]. cbn [fst] in Hitem.
    destruct (decide (quantity ≤ 0)) as [Hq|Hq]; [by rewrite applyWalk_nil|].
    rewrite decide_True by lia.
    by rewrite fmap_cons, applyWalk_cons, IH.
Qed.

Lemma specLifoWalk_items (items : list LineItem.t) (quantity : Z)
    (e : LineItem.t * Z) :
  e ∈ specLifoWalk items quantity → e.1 ∈ items.
Proof.
  revert quantity. induction items as [|item items IH]; intros quantity; cbn.
  - by intros ?%elem_of_nil.
  - case_decide; [by intros ?%elem_of_nil|].
    intros [->|He]%elem_of_cons; [by left|]. right. by eapply IH.
Qed.

Lemma specLifoWalk_total (items : list LineItem.t) (quantity : Z) :
  Forall (λ item, 0 < LineItem.fulfilled_quantity item) items → 0 ≤ quantity →
  sumZ (snd <$> specLifoWalk items quantity)
  = Z.min quantity (sumZ (LineItem.fulfilled_quantity <$> items)).
Proof.
  intros Hall. revert quantity.
  induction Hall as [|item items Hitem Hitems IH]; intros quantity Hq; cbn.
  - rewrite sumZ_nil. lia.
  - assert (0 ≤ sumZ (LineItem.fulfilled_quantity <$> items)).
    { apply sumZ_nonneg. eapply Forall_impl; [exact Hitems|]. cbn. lia. }
    rewrite sumZ_cons.
    case_decide; cbn; rewrite ?sumZ_nil, ?sumZ_cons; [lia|].
    rewrite IH by lia. lia.
Qed.

Lemma takenFor_givenBack (id : string) (walk : list (LineItem.t * Z)) :
  takenFor id (givenBack <$> walk) = - takenFor id walk.
Proof.
  induction walk as [|e walk IH]; [done|].
  rewrite fmap_cons, !takenFor_cons, IH. cbn. case_decide; lia.
Qed.

(** With unique ids a line item gives back at most what it holds. *)
Lemma takenFor_lifo_bound (items : list LineItem.t) (quantity : Z)
    (li : LineItem.t) :
  NoDup (LineItem.line_item_id <$> items) →
  Forall (λ item, 0 < LineItem.fulfilled_quantity item) items →
  (∀ x, x ∈ items → LineItem.line_item_id x = LineItem.line_item_id li → x = li) →
  0 ≤ takenFor (LineItem.line_item_id li) (specLifoWalk items quantity)
    ≤ Z.max 0 (LineItem.fulfilled_quantity li).
Proof.
  intros Hnd Hall. revert quantity Hnd.
  induction Hall as [|item items Hitem Hitems IH];
    intros quantity Hnd Hsame; cbn [specLifoWalk].
  - unfold takenFor. rewrite filter_nil, fmap_nil, sumZ_nil. lia.
  - rewrite fmap_cons in Hnd. apply NoDup_cons in Hnd as [Hfresh Hnd].
    case_decide as Hq.
    { unfold takenFor. rewrite filter_nil, fmap_nil, sumZ_nil. lia. }
    rewrite takenFor_cons. cbn [fst snd].
    destruct (decide (LineItem.line_item_id item = LineItem.line_item_id li))
      as [Hid|Hid].
    + assert (item = li) as -> by (apply Hsame; [by left|done]).
      rewrite takenFor_absent; [lia|].
      intros e He Heq. apply specLifoWalk_items in He.
      apply Hfresh. rewrite <- Heq. by apply list_elem_of_fmap_2.
    + specialize (IH (quantity
                      - Z.min (LineItem.fulfilled_quantity item) quantity) Hnd).
      lapply IH; [lia|]. intros x Hx. apply Hsame. by right.
Qed.

(** X11. [deallocateQuantityFromOrders] takes from the line items of the
    variant that hold something and have an order row, newest order
    first; each gives back the smaller of what it holds and what remains.
    With unique line-item ids and a quantity that is not negative, no
    line item goes below 0 or gives back more than it held, the line items
    of other variants and the tasks are not written, and in all the
    requested quantity is given back, or everything held when that is
    less. *)
Theorem deallocate_newest_first (v : string) (quantity : Z) (d : db) :
  NoDup (LineItem.line_item_id <$> order_line_items d) → 0 ≤ quantity →
  let walk := specLifoWalk (deallocationCandidates v d).*1 quantity in
  let d' := deallocateQuantityFromOrders v quantity d in
  StronglySorted dateGe (deallocationCandidates v d)
  ∧ (deallocationCandidates v d).*1
    ≡ₚ filter (λ li, (LineItem.variant_id li = v
                      ∧ 0 < LineItem.fulfilled_quantity li)
                     ∧ is_Some (getOrderByOrderId (LineItem.order_id li) d))
         (order_line_items d)
  ∧ tasks d' = tasks d
  ∧ order_line_items d'
    = (λ r, LineItem.set_fulfilled_quantity
              (LineItem.fulfilled_quantity r
               - takenFor (LineItem.line_item_id r) walk) r)
        <$> order_line_items d
  ∧ (∀ li, li ∈ order_line_items d →
           0 ≤ takenFor (LineItem.line_item_id li) walk
             ≤ Z.max 0 (LineItem.fulfilled_quantity li)
           ∧ (LineItem.variant_id li ≠ v →
              takenFor (LineItem.line_item_id li) walk = 0))
  ∧ sumZ walk.*2
    = Z.min quantity
        (sumZ (LineItem.fulfilled_quantity <$> (deallocationCandidates v d).*1))
  ∧ sumZ (LineItem.fulfilled_quantity <$> order_line_items d')
    = sumZ (LineItem.fulfilled_quantity <$> order_line_items d)
      - Z.min quantity
          (sumZ (LineItem.fulfilled_quantity
                   <$> (deallocationCandidates v d).*1)).
Proof.
  intros Hnd Hq walk d'.
  pose proof (deallocationCandidates_lines v d) as Hperm.
  set (items := (deallocationCandidates v d).*1) in *.
  assert (∀ x, x ∈ items →
            x ∈ order_line_items d ∧ LineItem.variant_id x = v
            ∧ 0 < LineItem.fulfilled_quantity x) as Hitems.
  { intros x Hx. rewrite Hperm in Hx.
    apply list_elem_of_filter in Hx as [[[? ?] _] ?]. done. }
  assert (Forall (λ item, 0 < LineItem.fulfilled_quantity item) items) as Hpos.
  { apply Forall_forall. intros x Hx. by apply Hitems. }
  assert (Forall (λ p, 0 < LineItem.fulfilled_quantity p.1)
            (deallocationCandidates v d)) as Hpos'.
  { unfold items in Hpos. by rewrite Forall_fmap in Hpos. }
  assert (NoDup (LineItem.line_item_id <$> items)) as Hnd'.
  { rewrite Hperm. by apply NoDup_ids_filter. }
  assert (order_line_items d'
          = applyWalk (givenBack <$> walk) (order_line_items d)) as Hl.
  { unfold d', deallocateQuantityFromOrders.
    rewrite lines_updateAllOrderStatuses. cbn [set_order_line_items
      order_line_items]. by rewrite deallocateLoop_walk. }
  pose proof (specLifoWalk_total items quantity Hpos Hq) as Htotal.
  fold walk in Htotal.
  split; [|split; [done|split; [done|split; [|split; [|split; [done|]]]]]].
  - unfold deallocationCandidates.
    apply (StronglySorted_reverse _ _
             (orderBy_sorted (λ p : LineItem.t * Order.t, Order.order_date p.2) _)).
  - rewrite Hl. unfold applyWalk. apply list_fmap_ext. intros _ r _. cbn.
    rewrite takenFor_givenBack. f_equal.
  - intros li Hli. split.
    + apply takenFor_lifo_bound; [done..|].
      intros x Hx Hid. destruct (Hitems x Hx) as (Hin & _).
      by apply (NoDup_fmap_eq LineItem.line_item_id (order_line_items d)).
    + intros Hv. apply takenFor_absent. intros e He Hid.
      apply specLifoWalk_items in He. destruct (Hitems _ He) as (Hin & Hve & _).
      assert (e.1 = li) as Heq
        by by apply (NoDup_fmap_eq LineItem.line_item_id (order_line_items d)).
      congruence.
  - rewrite Hl. unfold applyWalk. rewrite <- list_fmap_compose.
    change (LineItem.fulfilled_quantity ∘ _)
      with (λ r, LineItem.fulfilled_quantity r
                 + takenFor (LineItem.line_item_id r) (givenBack <$> walk)).
    rewrite sumZ_fmap_add.
    rewrite <- (filter_all (λ _, True) (order_line_items d)) at 2
      by (by apply Forall_forall).
    rewrite (sumZ_takenFor_where (λ _, True)).
    + rewrite (filter_all (λ _, True)) by (by apply Forall_forall).
      rewrite <- Htotal.
      assert (sumZ (givenBack <$> walk).*2 = - sumZ walk.*2) as ->; [|lia].
      clear. induction walk as [|e w IH]; [done|].
      rewrite !fmap_cons, !sumZ_cons, IH. cbn. lia.
    + done.
    + intros e He. apply list_elem_of_fmap in He as (e' & -> & He').
      apply specLifoWalk_items in He'. by apply Hitems.
Qed.

Lemma deallocate_newest_first_witness :
  sumZ (LineItem.fulfilled_quantity
          <$> order_line_items (deallocateQuantityFromOrders "v1" 2 progressDb))
  = sumZ (LineItem.fulfilled_quantity <$> order_line_items progressDb)
    - Z.min 2
        (sumZ (LineItem.fulfilled_quantity
                 <$> (deallocationCandidates "v1" progressDb).*1)).
Proof.
  apply deallocate_newest_first; [|lia].
  cbn. apply (bool_decide_unpack _). by vm_compute.
Defined.

(** * The Shopify client *)

(** ** What the two passes over the fetched orders keep *)

Lemma keptLine_positive (lineItem : LineItemNode)
    (p : LineItemNode * VariantNode) :
  keptLine lineItem = Some p →
  p.1 = lineItem ∧ node_variant lineItem = Some p.2
  ∧ 0 < node_fulfillableQuantity lineItem.
Proof.
  unfold keptLine. destruct (node_variant lineItem) as [variant|]; [|done].
  case_decide; [done|]. intros [= <-]. cbn. repeat split. lia.
Qed.

Lemma keptOf_positive (order : OrderNode) (p : LineItemNode * VariantNode) :
  p ∈ keptOf order → 0 < node_fulfillableQuantity p.1.
Proof.
  unfold keptOf. destruct (order_lineItems order) as [edges|];
    [|by intros ?%elem_of_nil].
  intros (lineItem & _ & Hk)%list_elem_of_omap.
  by destruct (keptLine_positive _ _ Hk) as (-> & _ & ?).
Qed.

Lemma extractLineItem_kept (order : OrderNode) (edges : list LineItemNode)
    (acc : list LineItemInput * Z) :
  foldl (extractLineItem order) acc edges
  = (acc.1 ++ (toLineItemInput order <$> omap keptLine edges),
     acc.2 + sumZ ((λ p, node_fulfillableQuantity p.1) <$> omap keptLine edges)).
Proof.
  revert acc. induction edges as [|lineItem edges IH]; intros [items total].
  - cbn. rewrite app_nil_r, sumZ_nil. f_equal. lia.
  - cbn [foldl]. rewrite IH.
    change (omap ?f (lineItem :: edges)) with
      (match f lineItem with Some y => y :: omap f edges | None => omap f edges
       end).
    unfold extractLineItem, keptLine.
    destruct (node_variant lineItem) as [variant|]; [|done].
    case_decide; [done|]. cbn [fst snd].
    rewrite !fmap_cons, sumZ_cons, <- app_assoc. cbn. f_equal. lia.
Qed.

Lemma extractOrder_kept (ordersData : list OrderInput) (order : OrderNode) :
  extractOrder ordersData order
  = ordersData ++ (if decide (keptOf order = []) then []
                   else [toOrderInput order]).
Proof.
  unfold extractOrder, keptOf, toOrderInput, keptOf.
  destruct (order_lineItems order) as [edges|].
  2:{ rewrite decide_True by done. by rewrite app_nil_r. }
  rewrite extractLineItem_kept. cbn [fst snd].
  destruct (omap keptLine edges) as [|p ps] eqn:Hk.
  - rewrite decide_False by (cbn; lia). rewrite decide_True by done.
    by rewrite app_nil_r.
  - rewrite decide_True by (cbn; lia). by rewrite decide_False by done.
Qed.

Lemma extractOrdersForStorage_kept (orders : list OrderNode) :
  extractOrdersForStorage orders
  = toOrderInput <$> filter (λ order, keptOf order ≠ []) orders.
Proof.
  unfold extractOrdersForStorage.
  assert (∀ acc, foldl extractOrder acc orders
                 = acc ++ (toOrderInput
                             <$> filter (λ order, keptOf order ≠ []) orders))
    as Hgen; [|by rewrite Hgen].
  induction orders as [|order orders IH]; intros acc.
  - by rewrite app_nil_r.
  - cbn [foldl]. rewrite IH, extractOrder_kept, filter_cons, <- app_assoc.
    f_equal. destruct (decide (keptOf order = [])) as [Hk|Hk].
    + by rewrite decide_False by tauto.
    + by rewrite decide_True by done.
Qed.

Lemma aggregateLineItem_kept (edges : list LineItemNode)
    (variantMap : list TaskInput) :
  foldl aggregateLineItem variantMap edges
  = foldl addToVariantMap variantMap (omap keptLine edges).
Proof.
  revert variantMap. induction edges as [|lineItem edges IH];
    intros variantMap; [done|].
  cbn [foldl]. rewrite IH.
  change (omap ?f (lineItem :: edges)) with
    (match f lineItem with Some y => y :: omap f edges | None => omap f edges
     end).
  unfold aggregateLineItem, keptLine.
  destruct (node_variant lineItem) as [variant|]; [|done].
  by case_decide.
Qed.

Lemma aggregateByVariant_kept (orders : list OrderNode) :
  aggregateByVariant orders = foldl addToVariantMap [] (orders ≫= keptOf).
Proof.
  unfold aggregateByVariant. generalize (@nil TaskInput).
  induction orders as [|order orders IH]; intros variantMap; [done|].
  cbn [foldl mbind list_bind]. rewrite foldl_app, <- IH. f_equal.
  unfold aggregateOrder, keptOf.
  destruct (order_lineItems order) as [edges|]; [|done].
  apply aggregateLineItem_kept.
Qed.

(** ** The variant map *)

Lemma filter_key_NoDup {A : Type} (key : A → string) (l : list A) (v : string) :
  NoDup (key <$> l) →
  filter (λ e, key e = v) l = [] ∨ ∃ t, filter (λ e, key e = v) l = [t].
Proof.
  induction l as [|x l IH]; intros Hnd; [by left|].
  rewrite fmap_cons in Hnd. apply NoDup_cons in Hnd as [Hx Hnd].
  rewrite filter_cons. destruct (decide (key x = v)) as [Hv|Hv]; [|by apply IH].
  right. exists x. f_equal. apply filter_none, Forall_forall.
  intros y Hy Hyv. apply Hx. rewrite Hv, <- Hyv. by apply list_elem_of_fmap_2.
Qed.

Lemma addToVariantMap_keys (variantMap : list TaskInput)
    (p : LineItemNode * VariantNode) :
  ti_variantId <$> addToVariantMap variantMap p
  = if decide (var_id p.2 ∈ ti_variantId <$> variantMap)
    then ti_variantId <$> variantMap
    else (ti_variantId <$> variantMap) ++ [var_id p.2].
Proof.
  unfold addToVariantMap, insert_or_update.
  destruct (decide (Exists (λ e, ti_variantId e = var_id p.2) variantMap))
    as [Hex|Hex].
  - rewrite decide_True.
    + unfold update_where. rewrite <- list_fmap_compose.
      apply list_fmap_ext. intros _ e _. cbn. by case_decide.
    + apply Exists_exists in Hex as (e & He & <-). by apply list_elem_of_fmap_2.
  - rewrite decide_False.
    + by rewrite fmap_app.
    + intros (e & Hid & He)%list_elem_of_fmap. apply Hex, Exists_exists.
      by exists e.
Qed.

Lemma addToVariantMap_NoDup (variantMap : list TaskInput)
    (ps : list (LineItemNode * VariantNode)) :
  NoDup (ti_variantId <$> variantMap) →
  NoDup (ti_variantId <$> foldl addToVariantMap variantMap ps).
Proof.
  revert variantMap. induction ps as [|p ps IH]; intros variantMap Hnd; [done|].
  cbn [foldl]. apply IH. rewrite addToVariantMap_keys. case_decide; [done|].
  apply NoDup_app. split; [done|]. split; [|apply NoDup_singleton].
  intros v Hv ->%list_elem_of_singleton. done.
Qed.

Lemma addToVariantMap_elem (variantMap : list TaskInput)
    (ps : list (LineItemNode * VariantNode)) (v : string) :
  v ∈ ti_variantId <$> foldl addToVariantMap variantMap ps ↔
  v ∈ ti_variantId <$> variantMap ∨ v ∈ (λ p, var_id p.2) <$> ps.
Proof.
  revert variantMap. induction ps as [|p ps IH]; intros variantMap.
  - cbn. rewrite elem_of_nil. tauto.
  - cbn [foldl]. rewrite IH, addToVariantMap_keys, fmap_cons, elem_of_cons.
    case_decide as Hin.
    + split; [tauto|]. intros [?|[->|?]]; tauto.
    + rewrite elem_of_app, list_elem_of_singleton. tauto.
Qed.

Lemma totalFor_addToVariantMap (v : string) (variantMap : list TaskInput)
    (p : LineItemNode * VariantNode) :
  NoDup (ti_variantId <$> variantMap) →
  totalFor v (addToVariantMap variantMap p)
  = totalFor v variantMap
    + (if decide (var_id p.2 = v) then node_fulfillableQuantity p.1 else 0).
Proof.
  intros Hnd. unfold totalFor, addToVariantMap, insert_or_update.
  destruct (decide (Exists (λ e, ti_variantId e = var_id p.2) variantMap))
    as [Hex|Hex].
  - unfold update_where. rewrite filter_fmap_commute.
    2:{ intros e. cbn. by case_decide. }
    rewrite <- list_fmap_compose.
    destruct (decide (var_id p.2 = v)) as [Hv|Hv].
    + destruct (filter_key_NoDup ti_variantId variantMap v Hnd)
        as [Hnone|[t Ht]].
      * apply Exists_exists in Hex as (e & He & Hid).
        assert (e ∈ filter (λ e, ti_variantId e = v) variantMap) as Hin
          by (apply list_elem_of_filter; split; [congruence|done]).
        rewrite Hnone in Hin. by apply elem_of_nil in Hin.
      * rewrite Ht. cbn.
        assert (t ∈ filter (λ e, ti_variantId e = v) variantMap) as Hin
          by (rewrite Ht; by left).
        apply list_elem_of_filter in Hin as [Hid _].
        rewrite decide_True by congruence. cbn. rewrite !sumZ_cons, sumZ_nil.
        lia.
    + rewrite Z.add_0_r. f_equal. apply Forall_fmap_ext_1, Forall_forall.
      intros e He. apply list_elem_of_filter in He as [Hid _]. cbn.
      by rewrite decide_False by congruence.
  - rewrite filter_app, fmap_app, sumZ_app. f_equal.
    rewrite filter_cons, filter_nil. cbn [ti_variantId].
    case_decide; [|done]. cbn. rewrite sumZ_cons, sumZ_nil. lia.
Qed.

Lemma totalFor_foldl (v : string) (variantMap : list TaskInput)
    (ps : list (LineItemNode * VariantNode)) :
  NoDup (ti_variantId <$> variantMap) →
  totalFor v (foldl addToVariantMap variantMap ps)
  = totalFor v variantMap
    + sumZ ((λ p, node_fulfillableQuantity p.1)
              <$> filter (λ p, var_id p.2 = v) ps).
Proof.
  revert variantMap. induction ps as [|p ps IH]; intros variantMap Hnd.
  - cbn. rewrite sumZ_nil. lia.
  - cbn [foldl]. rewrite IH by (by apply (addToVariantMap_NoDup _ [p])).
    rewrite totalFor_addToVariantMap by done. rewrite filter_cons.
    case_decide; [rewrite fmap_cons, sumZ_cons|]; lia.
Qed.

Lemma storedLineItems_kept (fetched : list OrderNode) :
  storedLineItems (extractOrdersForStorage fetched)
  = fetched ≫= (λ order, toLineItemInput order <$> keptOf order).
Proof.
  rewrite extractOrdersForStorage_kept. unfold storedLineItems.
  induction fetched as [|order fetched IH]; [done|].
  rewrite filter_cons. cbn [mbind list_bind]. rewrite <- IH.
  destruct (decide (keptOf order ≠ [])) as [Hk|Hk]; [done|].
  destruct (keptOf order) as [|p ps]; [done|]. by destruct Hk.
Qed.

Lemma kept_quantities (v : string) (fetched : list OrderNode) :
  sumZ ((λ p, node_fulfillableQuantity p.1)
          <$> filter (λ p, var_id p.2 = v) (fetched ≫= keptOf))
  = sumZ (lii_quantity
            <$> filter (λ li, lii_variantId li = v)
                  (fetched ≫= (λ order, toLineItemInput order <$> keptOf order))).
Proof.
  induction fetched as [|order fetched IH]; [done|].
  cbn [mbind list_bind]. rewrite !filter_app, !fmap_app, !sumZ_app, IH.
  f_equal. induction (keptOf order) as [|p ps IHp]; [done|].
  rewrite fmap_cons, !filter_cons. cbn [lii_variantId toLineItemInput].
  case_decide; [|done]. by rewrite !fmap_cons, !sumZ_cons, IHp.
Qed.

Lemma kept_variant_ids (fetched : list OrderNode) :
  (λ p : LineItemNode * VariantNode, var_id p.2) <$> (fetched ≫= keptOf)
  = lii_variantId
      <$> (fetched ≫= (λ order, toLineItemInput order <$> keptOf order)).
Proof.
  induction fetched as [|order os IH]; [done|].
  cbn [mbind list_bind]. rewrite !fmap_app, IH. f_equal.
  by rewrite <- list_fmap_compose.
Qed.

(** The aggregated variants against the line items kept for storage. *)
Lemma aggregate_storage_fit (fetched : list OrderNode) :
  let aggregated := aggregateByVariant fetched in
  let ordersForStorage := extractOrdersForStorage fetched in
  NoDup (ti_variantId <$> aggregated)
  ∧ (∀ task, task ∈ aggregated →
       ti_totalQuantity task
       = sumZ (lii_quantity
                 <$> filter (λ li, lii_variantId li = ti_variantId task)
                       (storedLineItems ordersForStorage))
       ∧ ∃ li, li ∈ storedLineItems ordersForStorage
               ∧ lii_variantId li = ti_variantId task)
  ∧ (∀ li, li ∈ storedLineItems ordersForStorage →
       0 < lii_quantity li
       ∧ lii_variantId li ∈ ti_variantId <$> aggregated).
Proof.
  intros aggregated ordersForStorage.
  assert (NoDup (ti_variantId <$> aggregated)) as Hnd.
  { unfold aggregated. rewrite aggregateByVariant_kept.
    apply addToVariantMap_NoDup. constructor. }
  assert (∀ v, v ∈ ti_variantId <$> aggregated ↔
               v ∈ lii_variantId <$> storedLineItems ordersForStorage) as Hkeys.
  { intros v. unfold aggregated, ordersForStorage.
    rewrite aggregateByVariant_kept, addToVariantMap_elem, storedLineItems_kept.
    rewrite fmap_nil, elem_of_nil.
    rewrite kept_variant_ids. tauto. }
  split; [done|]. split.
  - intros task Htask. split.
    + unfold ordersForStorage. rewrite storedLineItems_kept, <- kept_quantities.
      pose proof (totalFor_foldl (ti_variantId task) [] (fetched ≫= keptOf))
        as Htot.
      rewrite <- aggregateByVariant_kept in Htot. fold aggregated in Htot.
      change (totalFor (ti_variantId task) []) with 0 in Htot.
      rewrite <- Z.add_0_l, <- Htot by constructor.
      unfold totalFor.
      destruct (filter_key_NoDup ti_variantId aggregated (ti_variantId task) Hnd)
        as [Hnone|[t Ht]].
      * assert (task ∈ filter (λ e, ti_variantId e = ti_variantId task)
                         aggregated) as Hin by (by apply list_elem_of_filter).
        rewrite Hnone in Hin. by apply elem_of_nil in Hin.
      * assert (task ∈ filter (λ e, ti_variantId e = ti_variantId task)
                         aggregated) as Hin by (by apply list_elem_of_filter).
        rewrite Ht in Hin. apply list_elem_of_singleton in Hin as <-.
        rewrite Ht. cbn. rewrite sumZ_cons, sumZ_nil. lia.
    + assert (ti_variantId task ∈ ti_variantId <$> aggregated) as Hin
        by by apply list_elem_of_fmap_2.
      apply Hkeys in Hin. apply list_elem_of_fmap in Hin as (li & Hid & Hli).
      by exists li.
  - intros li Hli. split.
    + unfold ordersForStorage in Hli. rewrite storedLineItems_kept in Hli.
      apply list_elem_of_bind in Hli as (order & Hli & _).
      apply list_elem_of_fmap in Hli as (p & -> & Hp). cbn.
      by eapply keptOf_positive.
    + apply Hkeys. by apply list_elem_of_fmap_2.
Qed.

(** An order kept for storage has line items, all with its id, and their
    quantities as its total. *)
Lemma stored_order_shape (fetched : list OrderNode) (order : OrderInput) :
  order ∈ extractOrdersForStorage fetched →
  oi_lineItems order ≠ []
  ∧ oi_totalItems order = sumZ (lii_quantity <$> oi_lineItems order)
  ∧ ∀ li, li ∈ oi_lineItems order → lii_orderId li = oi_orderId order.
Proof.
  intros Horder. rewrite extractOrdersForStorage_kept in Horder.
  apply list_elem_of_fmap in Horder as (o & -> & Ho).
  apply list_elem_of_filter in Ho as [Hk _]. cbn. split; [|split].
  - intros Hnil. apply Hk. by apply fmap_nil_inv in Hnil.
  - by rewrite <- list_fmap_compose.
  - intros li Hli. by apply list_elem_of_fmap in Hli as (p & -> & _).
Qed.


(** X12. What [aggregateByVariant] and [extractOrdersForStorage] make of the
    same fetched orders fits together: the aggregated variants are
    distinct, each total is the sum of the quantities of the stored line
    items of that variant, every stored line item has a positive quantity
    and an aggregated variant, every aggregated variant has a stored line
    item, and every stored order has line items, all carrying its id, and
    their quantities as its total. *)
Theorem fetched_orders_coherent (fetched : list OrderNode) :
  let aggregated := aggregateByVariant fetched in
  let ordersForStorage := extractOrdersForStorage fetched in
  NoDup (ti_variantId <$> aggregated)
  ∧ (∀ task, task ∈ aggregated →
       ti_totalQuantity task
       = sumZ (lii_quantity
                 <$> filter (λ li, lii_variantId li = ti_variantId task)
                       (storedLineItems ordersForStorage))
       ∧ ∃ li, li ∈ storedLineItems ordersForStorage
               ∧ lii_variantId li = ti_variantId task)
  ∧ (∀ li, li ∈ storedLineItems ordersForStorage →
       0 < lii_quantity li
       ∧ lii_variantId li ∈ ti_variantId <$> aggregated)
  ∧ (∀ order, order ∈ ordersForStorage →
       oi_lineItems order ≠ []
       ∧ oi_totalItems order = sumZ (lii_quantity <$> oi_lineItems order)
       ∧ ∀ li, li ∈ oi_lineItems order → lii_orderId li = oi_orderId order).
Proof.
  intros aggregated ordersForStorage.
  destruct (aggregate_storage_fit fetched) as (Hdistinct & Htotals & Hstored).
  split; [exact Hdistinct|]. split; [exact Htotals|]. split; [exact Hstored|].
  intros order Horder. by apply (stored_order_shape fetched).
Qed.

(** ** The first sync *)

Lemma NoDup_app_cons_middle {A : Type} (l : list A) (x : A) (k : list A) :
  NoDup (l ++ x :: k) → NoDup ((l ++ [x]) ++ k) ∧ x ∉ l.
Proof.
  intros Hnd. rewrite <- app_assoc. split; [done|].
  apply NoDup_app in Hnd as (_ & Hdisj & _). intros Hx.
  apply (Hdisj x Hx). by left.
Qed.

Lemma storeLineItems_fresh (items : list LineItemInput) (d : db) :
  NoDup ((LineItem.line_item_id <$> order_line_items d)
         ++ (lii_lineItemId <$> items)) →
  order_line_items (foldl (λ d lineItem, upsertOrderLineItem lineItem d) d items)
  = order_line_items d ++ (lineItemRow <$> items).
Proof.
  revert d. induction items as [|item items IH]; intros d Hnd.
  - by rewrite app_nil_r.
  - cbn [foldl]. rewrite fmap_cons in Hnd.
    apply NoDup_app_cons_middle in Hnd as [Hnd Hfresh].
    assert (order_line_items (upsertOrderLineItem item d)
            = order_line_items d ++ [lineItemRow item]) as Hone.
    { apply upsertOrderLineItem_fresh. intros Hex.
      apply Exists_exists in Hex as (r & Hr & Hid). apply Hfresh.
      rewrite <- Hid. by apply list_elem_of_fmap_2. }
    rewrite IH; rewrite Hone.
    + by rewrite <- app_assoc.
    + by rewrite fmap_app.
Qed.

Lemma storeOrders_fresh (ordersForStorage : list OrderInput) (d : db) :
  NoDup ((LineItem.line_item_id <$> order_line_items d)
         ++ (lii_lineItemId <$> storedLineItems ordersForStorage)) →
  order_line_items (storeOrders ∅ ordersForStorage d)
  = order_line_items d ++ (lineItemRow <$> storedLineItems ordersForStorage).
Proof.
  revert d. unfold storeOrders, storedLineItems.
  induction ordersForStorage as [|order rest IH]; intros d Hnd.
  - by rewrite app_nil_r.
  - cbn [foldl mbind list_bind] in *.
    unfold storeOrder at 2. rewrite decide_False by set_solver.
    rewrite fmap_app, app_assoc in Hnd.
    assert (order_line_items
              (foldl (λ d lineItem, upsertOrderLineItem lineItem d)
                 (upsertOrder order d) (oi_lineItems order))
            = order_line_items d ++ (lineItemRow <$> oi_lineItems order))
      as Hone.
    { rewrite storeLineItems_fresh; [done|].
      rewrite lines_upsertOrder. by apply NoDup_app in Hnd as (? & _). }
    rewrite IH; rewrite Hone.
    + by rewrite fmap_app, app_assoc.
    + rewrite fmap_app, <- list_fmap_compose. exact Hnd.
Qed.

Lemma upsertOrder_live (order : OrderInput) (d : db) :
  Forall notArchived (orders d) →
  Forall notArchived (orders (upsertOrder order d))
  ∧ ∀ id, id ∈ Order.order_id <$> orders d ∨ id = oi_orderId order →
          id ∈ Order.order_id <$> orders (upsertOrder order d).
Proof.
  intros Hlive. unfold upsertOrder, set_orders, insert_or_update.
  cbn [orders]. case_decide as Hex.
  - split.
    + unfold update_where. apply Forall_fmap.
      eapply Forall_impl; [exact Hlive|]. intros o Ho. cbn. by case_decide.
    + intros id Hid.
      assert (Order.order_id <$> update_where
                (λ r, Order.order_id r = oi_orderId order)
                (λ r, Order.mk (Order.order_id r) (oi_orderName order)
                        (oi_orderDate order) (oi_totalItems order)
                        (Order.fulfilled_items r) (Order.status r)) (orders d)
              = Order.order_id <$> orders d) as ->.
      { unfold update_where. rewrite <- list_fmap_compose.
        apply list_fmap_ext. intros _ o _. cbn. by case_decide. }
      destruct Hid as [?| ->]; [done|].
      apply Exists_exists in Hex as (o & Ho & <-). by apply list_elem_of_fmap_2.
  - split.
    + apply Forall_app. split; [done|]. by repeat constructor.
    + intros id Hid. rewrite fmap_app, elem_of_app. cbn.
      destruct Hid as [?| ->]; [by left|right; by left].
Qed.

Lemma storeOrders_live (ordersForStorage : list OrderInput) (d : db) :
  Forall notArchived (orders d) →
  Forall notArchived (orders (storeOrders ∅ ordersForStorage d))
  ∧ ∀ id, id ∈ Order.order_id <$> orders d
          ∨ id ∈ oi_orderId <$> ordersForStorage →
          id ∈ Order.order_id <$> orders (storeOrders ∅ ordersForStorage d).
Proof.
  revert d. unfold storeOrders.
  induction ordersForStorage as [|order rest IH]; intros d Hlive.
  - split; [done|]. intros id [?|Hid]; [done|]. by apply elem_of_nil in Hid.
  - cbn [foldl]. unfold storeOrder at 2 4. rewrite decide_False by set_solver.
    destruct (upsertOrder_live order d Hlive) as [Hlive1 Hids1].
    set (d1 := foldl _ (upsertOrder order d) (oi_lineItems order)).
    assert (orders d1 = orders (upsertOrder order d)) as Ho1
      by apply orders_storeLineItems.
    destruct (IH d1) as [Hlive2 Hids2]; [by rewrite Ho1|].
    split; [done|]. intros id Hid. apply Hids2. rewrite Ho1.
    rewrite fmap_cons, elem_of_cons in Hid.
    destruct Hid as [?|[->|?]]; [left|left|by right]; apply Hids1; tauto.
Qed.

Lemma upsertTasks_fresh (aggregated : list TaskInput) (d : db) :
  NoDup ((Task.variant_id <$> tasks d) ++ (ti_variantId <$> aggregated)) →
  tasks (foldl (λ d item, upsertTask item d) d aggregated)
  = tasks d ++ (taskRow <$> aggregated).
Proof.
  revert d. induction aggregated as [|task rest IH]; intros d Hnd.
  - by rewrite app_nil_r.
  - cbn [foldl]. rewrite fmap_cons in Hnd.
    apply NoDup_app_cons_middle in Hnd as [Hnd Hfresh].
    assert (tasks (upsertTask task d) = tasks d ++ [taskRow task]) as Hone.
    { apply upsertTask_fresh. apply getTaskByVariantId_None, Forall_forall.
      intros r Hr Hid. apply Hfresh. rewrite <- Hid.
      by apply list_elem_of_fmap_2. }
    rewrite IH; rewrite Hone.
    + by rewrite <- app_assoc.
    + by rewrite fmap_app.
Qed.

Lemma sum_rows_of_variant (g : LineItem.t → Z) (h : LineItemInput → Z)
    (v : string) (items : list LineItemInput) :
  (∀ li, g (lineItemRow li) = h li) →
  sumZ (g <$> filter (λ r, LineItem.variant_id r = v) (lineItemRow <$> items))
  = sumZ (h <$> filter (λ li, lii_variantId li = v) items).
Proof.
  intros Hgh. induction items as [|li items IH]; [done|].
  rewrite fmap_cons, !filter_cons. cbn [LineItem.variant_id lineItemRow].
  case_decide; [|done]. by rewrite !fmap_cons, !sumZ_cons, IH, Hgh.
Qed.

(** X13. The first sync, into an empty database, of fetched orders whose kept
    line items have distinct ids: the tasks are the aggregated variants
    with nothing made, the line items are the stored ones with nothing
    fulfilled, and the ledger invariant holds. *)
Theorem first_sync_establishes_invariant (fetched : list OrderNode) :
  NoDup (lii_lineItemId
           <$> storedLineItems (extractOrdersForStorage fetched)) →
  tasks (sync_fetched fetched emptyDb) = taskRow <$> aggregateByVariant fetched
  ∧ order_line_items (sync_fetched fetched emptyDb)
    = lineItemRow <$> storedLineItems (extractOrdersForStorage fetched)
  ∧ Forall notArchived (orders (sync_fetched fetched emptyDb))
  ∧ ledgerInvariant (sync_fetched fetched emptyDb).
Proof.
  intros Hnd.
  destruct (aggregate_storage_fit fetched) as (Hagg & Htot & Hstored).
  pose proof (stored_order_shape fetched) as Hord.
  cbn zeta in *.
  set (aggregated := aggregateByVariant fetched) in *.
  set (ofs := extractOrdersForStorage fetched) in *.
  set (d2 := storeOrders ∅ ofs emptyDb).
  set (d3 := foldl (λ d item, upsertTask item d) d2 aggregated).
  assert (sync_fetched fetched emptyDb = updateAllOrderStatuses d3) as Hsync.
  { unfold sync_fetched, sync_shopify. fold aggregated ofs.
    change (getOrderIdsToSkipDuringSync emptyDb) with (∅ : gset string).
    by rewrite decide_True by done. }
  assert (order_line_items d2 = lineItemRow <$> storedLineItems ofs) as Hl2.
  { unfold d2. by rewrite storeOrders_fresh. }
  destruct (storeOrders_live ofs emptyDb) as [Hlive2 Hids2]; [constructor|].
  fold d2 in Hlive2, Hids2.
  assert (tasks d3 = taskRow <$> aggregated) as Ht3.
  { unfold d3. rewrite upsertTasks_fresh.
    - unfold d2. by rewrite tasks_storeOrders.
    - unfold d2. by rewrite tasks_storeOrders. }
  assert (orders d3 = orders d2) as Ho3 by apply orders_upsertTasks.
  assert (order_line_items d3 = lineItemRow <$> storedLineItems ofs) as Hl3.
  { unfold d3. by rewrite lines_upsertTasks. }
  assert (∀ li, li ∈ order_line_items d3 → liveLine d3 li) as Hall.
  { intros r Hr. rewrite Hl3 in Hr.
    apply list_elem_of_fmap in Hr as (li & -> & Hli).
    unfold storedLineItems in Hli.
    apply list_elem_of_bind in Hli as (order & Hli & Horder).
    destruct (Hord order Horder) as (_ & _ & Hid).
    unfold liveLine. cbn [LineItem.order_id lineItemRow].
    rewrite (Hid li Hli).
    assert (oi_orderId order ∈ Order.order_id <$> orders d3) as Hin.
    { rewrite Ho3. apply Hids2. right. by apply list_elem_of_fmap_2. }
    apply list_elem_of_fmap in Hin as (o & Hido & Ho).
    assert (is_Some (getOrderByOrderId (oi_orderId order) d3)) as [o' Ho'].
    { apply select_one_is_Some, Exists_exists. by exists o. }
    rewrite Ho'.
    apply (select_one_Some (λ r, Order.order_id r = oi_orderId order)) in Ho'
      as [Hin' _].
    rewrite Ho3 in Hin'. rewrite Forall_forall in Hlive2. by apply Hlive2. }
  assert (∀ v, sumQuantity v (updateAllOrderStatuses d3)
               = sumZ (lii_quantity
                         <$> filter (λ li, lii_variantId li = v)
                               (storedLineItems ofs))
               ∧ sumFulfilled v (updateAllOrderStatuses d3) = 0) as Hsums.
  { intros v. rewrite sumQuantity_filter, sumFulfilled_filter.
    rewrite lines_updateAllOrderStatuses.
    rewrite (filter_all (liveLine (updateAllOrderStatuses d3))).
    2:{ apply Forall_forall. intros li Hli.
        apply liveLine_updateAllOrderStatuses. by apply Hall. }
    rewrite Hl3. split.
    - by apply sum_rows_of_variant.
    - rewrite (sum_rows_of_variant _ (λ _, 0)) by done.
      apply sumZ_fmap_zero. by apply Forall_forall. }
  rewrite Hsync.
  split; [by rewrite tasks_updateAllOrderStatuses|].
  split; [by rewrite lines_updateAllOrderStatuses|]. split.
  { rewrite orders_updateAllOrderStatuses. apply Forall_fmap.
    apply Forall_forall. intros o Ho. cbn. unfold notArchived.
    case_decide as Hs; cbn; [|apply orderStatusCase_not_archived].
    rewrite Ho3 in Ho. rewrite Forall_forall in Hlive2.
    by destruct (Hlive2 o Ho). }
  split; [|split; [|split]].
  - rewrite lines_updateAllOrderStatuses, Hl3, <- list_fmap_compose. exact Hnd.
  - intros r Hr. rewrite lines_updateAllOrderStatuses, Hl3 in Hr.
    apply list_elem_of_fmap in Hr as (li & -> & Hli). cbn.
    destruct (Hstored li Hli). lia.
  - intros r Hr. rewrite tasks_updateAllOrderStatuses, Ht3 in Hr.
    apply list_elem_of_fmap in Hr as (task & -> & Htask).
    destruct (Hsums (Task.variant_id (taskRow task))) as [-> ->]. cbn.
    by destruct (Htot task Htask) as [-> _].
  - intros v Hnone. destruct (Hsums v) as [-> ->]. split; [|done].
    rewrite filter_none; [done|]. apply Forall_forall. intros li Hli Hv.
    destruct (Hstored li Hli) as [_ Hin].
    apply getTaskByVariantId_None in Hnone. rewrite Forall_forall in Hnone.
    apply list_elem_of_fmap in Hin as (task & Hid & Htask).
    apply (Hnone (taskRow task)).
    + rewrite tasks_updateAllOrderStatuses, Ht3. by apply list_elem_of_fmap_2.
    + cbn. congruence.
Qed.

Lemma fetched_orders_coherent_witness :
  aggregateByVariant fetchedShirts
  = [mkTaskInput "v1" EmptyString "Shirt" EmptyString
       (Some "https://cdn/shirt.png") 8]
  ∧ ∀ order, order ∈ extractOrdersForStorage fetchedShirts →
             oi_totalItems order = sumZ (lii_quantity <$> oi_lineItems order).
Proof.
  split; [by vm_compute|].
  destruct (fetched_orders_coherent fetchedShirts) as (_ & _ & _ & Hord).
  intros order Horder. by destruct (Hord order Horder) as (_ & ? & _).
Defined.

Lemma first_sync_establishes_invariant_witness :
  ledgerInvariant (sync_fetched fetchedShirts emptyDb).
Proof.
  apply first_sync_establishes_invariant.
  apply (bool_decide_unpack _). by vm_compute.
Defined.

(** * Inventory *)

Lemma getInventoryByVariantId_upsert (v : string) (data : InventoryInput)
    (tbl : list Inventory.t) :
  getInventoryByVariantId v (upsertInventory data tbl)
  = if decide (inv_variantId data = v) then Some (inventoryRow data)
    else getInventoryByVariantId v tbl.
Proof.
  unfold getInventoryByVariantId, upsertInventory, insert_or_update.
  destruct (decide (Exists (λ r, Inventory.variant_id r = inv_variantId data)
                      tbl)) as [Hex|Hex].
  - unfold update_where, select_one. case_decide as Hv.
    + subst v. induction tbl as [|r tbl IH].
      { by apply Exists_nil in Hex. }
      rewrite fmap_cons, filter_cons.
      destruct (decide (Inventory.variant_id r = inv_variantId data)) as [Hr|Hr].
      * by rewrite decide_True.
      * rewrite decide_False by done. apply IH.
        apply Exists_cons in Hex as [?|?]; done.
    + f_equal. clear Hex. induction tbl as [|r tbl IH]; [done|].
      rewrite fmap_cons, !filter_cons, IH.
      destruct (decide (Inventory.variant_id r = inv_variantId data)) as [Hr|Hr].
      * rewrite !decide_False by (cbn; congruence). done.
      * done.
  - unfold select_one. rewrite filter_app, filter_cons, filter_nil.
    cbn [Inventory.variant_id inventoryRow]. case_decide as Hv.
    + subst v. rewrite filter_none; [done|].
      by apply Forall_Exists_neg.
    + by rewrite app_nil_r.
Qed.

Lemma upsertInventory_ids (data : InventoryInput) (tbl : list Inventory.t) :
  Inventory.variant_id <$> upsertInventory data tbl
  = if decide (inv_variantId data ∈ Inventory.variant_id <$> tbl)
    then Inventory.variant_id <$> tbl
    else (Inventory.variant_id <$> tbl) ++ [inv_variantId data].
Proof.
  unfold upsertInventory, insert_or_update.
  destruct (decide (Exists (λ r, Inventory.variant_id r = inv_variantId data)
                      tbl)) as [Hex|Hex].
  - rewrite decide_True.
    + unfold update_where. rewrite <- list_fmap_compose.
      apply list_fmap_ext. intros _ r _. cbn. by case_decide.
    + apply Exists_exists in Hex as (r & Hr & <-). by apply list_elem_of_fmap_2.
  - rewrite decide_False.
    + by rewrite fmap_app.
    + intros (r & Hid & Hr)%list_elem_of_fmap. apply Hex, Exists_exists.
      by exists r.
Qed.

(** X14. Reading back after [bulkUpsertInventory]: a variant among the items
    has the row of the last item that names it, any other variant the row
    it had; the variant ids stay unique. *)
Theorem bulkUpsertInventory_lookup (inventoryItems : list InventoryInput)
    (tbl : list Inventory.t) (v : string) :
  getInventoryByVariantId v (bulkUpsertInventory inventoryItems tbl)
  = match last (filter (λ item, inv_variantId item = v) inventoryItems) with
    | Some item => Some (inventoryRow item)
    | None => getInventoryByVariantId v tbl
    end
  ∧ (NoDup (Inventory.variant_id <$> tbl) →
     NoDup (Inventory.variant_id
              <$> bulkUpsertInventory inventoryItems tbl)).
Proof.
  unfold bulkUpsertInventory. split.
  - revert tbl. induction inventoryItems as [|item items IH]; intros tbl.
    + done.
    + cbn [foldl]. rewrite IH, filter_cons, getInventoryByVariantId_upsert.
      destruct (decide (inv_variantId item = v)) as [Hv|Hv]; [|done].
      destruct (filter (λ item, inv_variantId item = v) items) as [|x xs] eqn:Hf.
      * done.
      * change (last (item :: x :: xs)) with (last (x :: xs)).
        by destruct (last (x :: xs)) eqn:Hlast; [|by apply last_None in Hlast].
  - revert tbl. induction inventoryItems as [|item items IH]; intros tbl Hnd.
    + done.
    + cbn [foldl]. apply IH. rewrite upsertInventory_ids.
      case_decide; [done|]. apply NoDup_app. split; [done|].
      split; [|apply NoDup_singleton].
      intros w Hw ->%list_elem_of_singleton. done.
Qed.

Lemma bulkUpsertInventory_lookup_witness :
  NoDup (Inventory.variant_id
           <$> bulkUpsertInventory
                 [mkInventoryInput "v1" "p1" "Shirt" "Blue" None None (Some 4);
                  mkInventoryInput "v1" "p1" "Shirt" "Blue" None None None]
                 []).
Proof.
  apply bulkUpsertInventory_lookup; [exact "v1"|]. constructor.
Defined.

Lemma sumZ_count_split {A : Type} (P : A → Prop) `{!∀ x, Decision (P x)}
    (Q : A → Prop) `{!∀ x, Decision (Q x)} (l : list A) :
  (∀ x, P x ↔ ¬ Q x) →
  sumZ ((λ x, if decide (P x) then 1 else 0) <$> l)
  + sumZ ((λ x, if decide (Q x) then 1 else 0) <$> l)
  = Z.of_nat (length l).
Proof.
  intros Hpq. induction l as [|x l IH]; [done|].
  rewrite !fmap_cons, !sumZ_cons. cbn [length].
  destruct (decide (Q x)) as [Hq|Hq].
  - rewrite decide_False by (rewrite Hpq; tauto). lia.
  - rewrite decide_True by (by rewrite Hpq). lia.
Qed.

(** X15. [getInventoryStats]: on an empty table the count is 0 and the three
    sums are [NULL]; otherwise the out-of-stock and in-stock counts are
    numbers that add up to the count, and the total is the sum of the
    quantities. *)
Theorem getInventoryStats_counts (tbl : list Inventory.t) :
  (tbl = [] →
   getInventoryStats tbl = mkInventoryStats 0 None None None)
  ∧ (tbl ≠ [] →
     ∃ out_of_stock in_stock,
       getInventoryStats tbl
       = mkInventoryStats (Z.of_nat (length tbl)) (Some out_of_stock)
           (Some in_stock)
           (Some (sumZ (Inventory.inventory_quantity <$> tbl)))
       ∧ 0 ≤ out_of_stock ∧ 0 ≤ in_stock
       ∧ out_of_stock + in_stock = Z.of_nat (length tbl)
       ∧ out_of_stock
         = Z.of_nat (length (filter (λ r, Inventory.inventory_quantity r ≤ 0)
                               tbl))).
Proof.
  split; [by intros ->|]. intros Hne.
  destruct tbl as [|r tbl]; [done|]. unfold getInventoryStats, sqlSum.
  eexists _, _. split; [reflexivity|]. split; [|split; [|split]].
  - apply sumZ_nonneg, Forall_forall. intros x _. cbn. case_decide; lia.
  - apply sumZ_nonneg, Forall_forall. intros x _. cbn. case_decide; lia.
  - apply sumZ_count_split. intros x. lia.
  - generalize (r :: tbl). clear. intros l.
    induction l as [|x l IH]; [done|].
    rewrite fmap_cons, sumZ_cons, filter_cons, IH.
    case_decide; cbn [length]; lia.
Qed.

Lemma getInventoryStats_counts_witness :
  getInventoryStats [] = mkInventoryStats 0 None None None.
Proof. by apply getInventoryStats_counts. Defined.

(** * The views of the renderer *)

Section SortRowsFacts.
Context {A : Type} (before : A → A → bool).

Lemma insertBy_perm (x : A) (l : list A) : insertBy before x l ≡ₚ x :: l.
Proof.
  induction l as [|y l IH]; [done|]. cbn.
  destruct (before x y); [done|]. by rewrite IH, Permutation_swap.
Qed.

Lemma sortRows_perm (l : list A) : sortRows before l ≡ₚ l.
Proof.
  induction l as [|x l IH]; [done|]. cbn. by rewrite insertBy_perm, IH.
Qed.

Hypothesis before_total : ∀ a b, before a b = true ∨ before b a = true.
Hypothesis before_trans :
  ∀ a b c, before a b = true → before b c = true → before a c = true.

Lemma insertBy_sorted (x : A) (l : list A) :
  StronglySorted (λ a b, before a b = true) l →
  StronglySorted (λ a b, before a b = true) (insertBy before x l).
Proof.
  induction 1 as [|y l Hl IH Hy]; cbn.
  - repeat constructor.
  - destruct (before x y) eqn:Hxy.
    + constructor; [by constructor|]. constructor; [done|].
      eapply Forall_impl; [exact Hy|]. intros z Hz. by eapply before_trans.
    + constructor; [done|]. rewrite insertBy_perm. constructor; [|done].
      destruct (before_total x y); congruence.
Qed.

Lemma sortRows_sorted (l : list A) :
  StronglySorted (λ a b, before a b = true) (sortRows before l).
Proof.
  induction l as [|x l IH]; cbn; [constructor|]. by apply insertBy_sorted.
Qed.
End SortRowsFacts.

Lemma leb_antisym_total (a b : string) :
  String.leb a b = true ∨ String.leb b a = true.
Proof. apply String.leb_total. Qed.

Lemma taskBefore_total (a b : Task.t) :
  taskBefore a b = true ∨ taskBefore b a = true.
Proof.
  unfold taskBefore. repeat case_decide; try lia; try tauto.
  apply String.leb_total.
Qed.

Lemma taskBefore_trans (a b c : Task.t) :
  taskBefore a b = true → taskBefore b c = true → taskBefore a c = true.
Proof.
  unfold taskBefore. repeat case_decide; try lia; try done.
  apply leb_trans.
Qed.

(** X16. [getAllTasks] returns every task once, each with total minus made as
    its remaining quantity, in progress before pending before completed,
    within a status by remaining quantity from the largest down, then by
    product title. *)
Theorem getAllTasks_sorted (d : db) :
  (getAllTasks d).*1 ≡ₚ tasks d
  ∧ Forall (λ p, p.2 = Task.total_quantity p.1 - Task.made_quantity p.1)
      (getAllTasks d)
  ∧ StronglySorted (λ a b, taskBefore a b = true) (getAllTasks d).*1
  ∧ (∀ a b, taskBefore a b = true →
       taskRank (Task.status a) ≤ taskRank (Task.status b)
       ∧ (Task.status a = Task.status b →
          remaining_quantity b ≤ remaining_quantity a)).
Proof.
  assert ((getAllTasks d).*1 = sortRows taskBefore (tasks d)) as Hrows.
  { unfold getAllTasks. rewrite <- list_fmap_compose. apply list_fmap_id. }
  rewrite Hrows. split; [apply sortRows_perm|]. split; [|split].
  - unfold getAllTasks. apply Forall_fmap, Forall_forall. by intros r _.
  - apply sortRows_sorted; [apply taskBefore_total|apply taskBefore_trans].
  - intros a b. unfold taskBefore. repeat case_decide; try done; try lia.
    all: intros _; split; [lia|]; intros Hs; rewrite Hs in *; lia.
Qed.

Lemma fst_with_column {A B : Type} (g : A → B) (l : list A) :
  ((λ r, (r, g r)) <$> l).*1 = l.
Proof. rewrite <- list_fmap_compose. apply list_fmap_id. Qed.

Lemma getAllOrders_rows (includeArchived : bool) (d : db) :
  (getAllOrders includeArchived d).*1
  ≡ₚ if includeArchived then orders d
     else filter (λ o, Order.status o ≠ OrderStatus.archived) (orders d).
Proof.
  unfold getAllOrders. rewrite fst_with_column. apply sortRows_perm.
Qed.

Lemma getArchivedOrders_rows (d : db) :
  (getArchivedOrders d).*1
  ≡ₚ filter (λ o, Order.status o = OrderStatus.archived) (orders d).
Proof.
  unfold getArchivedOrders. rewrite fst_with_column. apply sortRows_perm.
Qed.

Lemma filter_split_perm {A : Type} (P : A → Prop) `{!∀ x, Decision (P x)}
    (l : list A) :
  filter (λ x, ¬ P x) l ++ filter P l ≡ₚ l.
Proof.
  induction l as [|x l IH]; [done|].
  rewrite !filter_cons. destruct (decide (P x)).
  - rewrite decide_False by tauto. by rewrite <- Permutation_middle, IH.
  - rewrite decide_True by done. cbn. by rewrite IH.
Qed.

(** X17. What [get-orders] and [get-archived-orders] show: every stored order
    is in exactly one of the two lists, the archived ones in the second;
    each comes with total minus fulfilled as its remaining items and with
    the line items that carry its id, each of those once and with
    quantity minus fulfilled quantity as its remaining quantity. *)
Theorem order_views_partition (d : db) :
  view_order <$> (getOrdersWithLineItems false d
                  ++ getArchivedOrdersWithLineItems d)
  ≡ₚ orders d
  ∧ Forall (λ view, Order.status (view_order view) ≠ OrderStatus.archived)
      (getOrdersWithLineItems false d)
  ∧ Forall (λ view, Order.status (view_order view) = OrderStatus.archived)
      (getArchivedOrdersWithLineItems d)
  ∧ view_order <$> getOrdersWithLineItems true d ≡ₚ orders d
  ∧ Forall
      (λ view,
         view_remaining_items view
         = Order.total_items (view_order view)
           - Order.fulfilled_items (view_order view)
         ∧ (view_lineItems view).*1
           ≡ₚ lineItemsOfOrder (Order.order_id (view_order view)) d
         ∧ Forall (λ p, p.2 = LineItem.quantity p.1
                              - LineItem.fulfilled_quantity p.1)
             (view_lineItems view))
      (getOrdersWithLineItems true d ++ getArchivedOrdersWithLineItems d).
Proof.
  assert (∀ l : list (Order.t * Z), view_order <$> (withLineItems d <$> l)
                                    = l.*1) as Hview.
  { intros l. rewrite <- list_fmap_compose. done. }
  split; [|split; [|split; [|split]]].
  - rewrite fmap_app. unfold getOrdersWithLineItems,
      getArchivedOrdersWithLineItems. rewrite !Hview.
    rewrite getAllOrders_rows, getArchivedOrders_rows.
    apply (filter_split_perm (λ o, Order.status o = OrderStatus.archived)).
  - apply Forall_forall. intros view Hin.
    assert (view_order view ∈ view_order <$> getOrdersWithLineItems false d)
      as Hrow by by apply list_elem_of_fmap_2.
    unfold getOrdersWithLineItems in Hrow.
    rewrite Hview, getAllOrders_rows in Hrow.
    by apply list_elem_of_filter in Hrow as [? _].
  - apply Forall_forall. intros view Hin.
    assert (view_order view ∈ view_order <$> getArchivedOrdersWithLineItems d)
      as Hrow by by apply list_elem_of_fmap_2.
    unfold getArchivedOrdersWithLineItems in Hrow.
    rewrite Hview, getArchivedOrders_rows in Hrow.
    by apply list_elem_of_filter in Hrow as [? _].
  - unfold getOrdersWithLineItems. rewrite Hview. apply getAllOrders_rows.
  - apply Forall_forall. intros view Hin.
    assert (∃ o, view = withLineItems d (o, remaining_items o)) as [o ->].
    { apply elem_of_app in Hin as [Hin|Hin];
        unfold getOrdersWithLineItems, getArchivedOrdersWithLineItems,
          getAllOrders, getArchivedOrders in Hin;
        apply list_elem_of_fmap in Hin as (p & -> & Hp);
        apply list_elem_of_fmap in Hp as (o & -> & _); by exists o. }
    cbn. split; [done|]. unfold getOrderLineItems. split.
    + rewrite fst_with_column. apply sortRows_perm.
    + apply Forall_fmap, Forall_forall. by intros r _.
Qed.

(** * Strings *)

Lemma stripPrefix_Some (p l rest : list N) :
  stripPrefix p l = Some rest → l = p ++ rest.
Proof.
  revert l. induction p as [|a p IH]; intros l; cbn.
  - by intros [= ->].
  - destruct l as [|b l]; [done|]. case_decide; [|done]. subst b.
    intros Hrest. by rewrite (IH _ Hrest).
Qed.

Lemma stripSuffix_Some (p l rest : list N) :
  stripSuffix p l = Some rest → l = rest ++ p.
Proof.
  unfold stripSuffix. intros Hs. apply fmap_Some in Hs as (r & Hr & ->).
  apply stripPrefix_Some in Hr.
  rewrite <- (reverse_involutive l), Hr, reverse_app.
  by rewrite reverse_involutive.
Qed.

(** The code units of a file name that needs no quoting: lower-case
    letters, digits, [-] and [_]. *)
Lemma sanitize_unit_safe (u : N) :
  let w := toLowerUnit (if isNameUnit u then u else 95%N) in
  isLower w || isDigit w || bool_decide (w = 45%N) || bool_decide (w = 95%N)
  = true.
Proof.
  cbn zeta. unfold toLowerUnit, isNameUnit, isLower, isUpper, isDigit.
  destruct (bool_decide_reflect (97 ≤ u ≤ 122)%N);
    destruct (bool_decide_reflect (65 ≤ u ≤ 90)%N);
    destruct (bool_decide_reflect (48 ≤ u ≤ 57)%N);
    destruct (bool_decide_reflect (u = 45%N)); cbn;
    repeat (case_bool_decide; cbn); try done; lia.
Qed.

Lemma sanitize_safe_fixed (u : N) :
  isLower u || isDigit u || bool_decide (u = 45%N) || bool_decide (u = 95%N)
  = true →
  toLowerUnit (if isNameUnit u then u else 95%N) = u.
Proof.
  unfold toLowerUnit, isNameUnit, isLower, isUpper, isDigit.
  destruct (bool_decide_reflect (97 ≤ u ≤ 122)%N);
    destruct (bool_decide_reflect (65 ≤ u ≤ 90)%N);
    destruct (bool_decide_reflect (48 ≤ u ≤ 57)%N);
    destruct (bool_decide_reflect (u = 45%N));
    destruct (bool_decide_reflect (u = 95%N)); cbn;
    repeat (case_bool_decide; cbn); try done; intros; lia.
Qed.

(** X18. [sanitizeStoreUrl] answers [default] for a missing or empty url.  Its
    result holds only lower-case letters, digits, [-] and [_], and, unless
    it is empty, it is its own sanitized form. *)
Theorem sanitizeStoreUrl_safe (storeUrl : option (list N)) :
  sanitizeStoreUrl None = units "default"
  ∧ sanitizeStoreUrl (Some []) = units "default"
  ∧ Forall (λ u, isLower u || isDigit u || bool_decide (u = 45%N)
                 || bool_decide (u = 95%N) = true)
      (sanitizeStoreUrl storeUrl)
  ∧ (sanitizeStoreUrl storeUrl ≠ [] →
     sanitizeStoreUrl (Some (sanitizeStoreUrl storeUrl))
     = sanitizeStoreUrl storeUrl).
Proof.
  split; [done|]. split; [done|].
  assert (Forall (λ u, isLower u || isDigit u || bool_decide (u = 45%N)
                       || bool_decide (u = 95%N) = true)
            (sanitizeStoreUrl storeUrl)) as Hsafe.
  { destruct storeUrl as [[|u s]|];
      [by apply (bool_decide_unpack _); vm_compute|..
      |by apply (bool_decide_unpack _); vm_compute].
    unfold sanitizeStoreUrl. rewrite <- list_fmap_compose.
    apply Forall_fmap, Forall_forall. intros w _. apply sanitize_unit_safe. }
  split; [done|]. intros Hne.
  set (r := sanitizeStoreUrl storeUrl) in *.
  assert (∀ u, u ∈ r → u ≠ 58%N ∧ u ≠ 46%N) as Hfree.
  { intros u Hu. rewrite Forall_forall in Hsafe. specialize (Hsafe u Hu).
    unfold isLower, isDigit in Hsafe.
    repeat (case_bool_decide; cbn in Hsafe); try done; lia. }
  destruct r as [|u r'] eqn:Hr; [done|]. unfold sanitizeStoreUrl. rewrite <- Hr.
  destruct (stripPrefix (units "https://") r) as [rest|] eqn:H1.
  { apply stripPrefix_Some in H1.
    destruct (Hfree 58%N) as [Hc _]; [|done].
    rewrite <- Hr, H1. apply elem_of_app. left. by apply (bool_decide_unpack _); vm_compute. }
  destruct (stripPrefix (units "http://") r) as [rest|] eqn:H2.
  { apply stripPrefix_Some in H2.
    destruct (Hfree 58%N) as [Hc _]; [|done].
    rewrite <- Hr, H2. apply elem_of_app. left. by apply (bool_decide_unpack _); vm_compute. }
  cbn [default].
  destruct (stripSuffix (units ".myshopify.com") r) as [rest|] eqn:H3.
  { apply stripSuffix_Some in H3.
    destruct (Hfree 46%N) as [_ Hc]; [|done].
    rewrite <- Hr, H3. apply elem_of_app. right. by apply (bool_decide_unpack _); vm_compute. }
  cbn [default]. rewrite <- list_fmap_compose.
  rewrite <- (list_fmap_id r) at 2. apply Forall_fmap_ext_1.
  rewrite Hr. eapply Forall_impl; [exact Hsafe|].
  intros w Hw. cbn. by apply sanitize_safe_fixed.
Qed.

Lemma takeDigits_digits (l : list N) :
  Forall (λ u, isDigit u = true) (takeDigits l).
Proof.
  induction l as [|u l IH]; cbn; [constructor|].
  destruct (isDigit u) eqn:Hu; by constructor.
Qed.

Lemma takeDigits_app (digits rest : list N) :
  Forall (λ u, isDigit u = true) digits →
  (∀ u, head rest = Some u → isDigit u = false) →
  takeDigits (digits ++ rest) = digits.
Proof.
  intros Hd Hrest. induction Hd as [|u digits Hu _ IH]; cbn.
  - destruct rest as [|u rest]; [done|]. cbn. by rewrite (Hrest u).
  - by rewrite Hu, IH.
Qed.

Lemma matchOrderDigits_digits (l digits : list N) :
  matchOrderDigits l = Some digits →
  digits ≠ [] ∧ Forall (λ u, isDigit u = true) digits.
Proof.
  induction l as [|u l IH]; [done|]. cbn [matchOrderDigits].
  destruct (stripPrefix (units "Order/") (u :: l)) as [after|]; [|done].
  pose proof (takeDigits_digits after) as Hd.
  destruct (takeDigits after) as [|w ws]; [done|].
  by intros [= <-].
Qed.

Lemma matchOrderDigits_no_O (l : list N) :
  79%N ∉ l → matchOrderDigits l = None.
Proof.
  induction l as [|u l IH]; [done|]. intros Hno.
  apply not_elem_of_cons in Hno as [Hu Hno]. cbn [matchOrderDigits].
  assert (stripPrefix (units "Order/") (u :: l) = None) as ->.
  { cbn. by rewrite decide_False by done. }
  by apply IH.
Qed.

Lemma digits_no_O (l : list N) :
  Forall (λ u, isDigit u = true) l → 79%N ∉ l.
Proof.
  intros Hd Hin. rewrite Forall_forall in Hd. specialize (Hd _ Hin).
  by vm_compute in Hd.
Qed.

(** X19. [extractOrderId] returns the digits that follow the first [Order/] in
    an id whose text before it has no [O], as in
    [gid://shopify/Order/660688109584]; it returns its own result
    unchanged, and the empty string for a missing or empty id. *)
Theorem extractOrderId_spec (gid : option (list N)) :
  extractOrderId None = [] ∧ extractOrderId (Some []) = []
  ∧ (∀ before digits rest,
       79%N ∉ before → digits ≠ [] →
       Forall (λ u, isDigit u = true) digits →
       (∀ u, head rest = Some u → isDigit u = false) →
       extractOrderId (Some (before ++ units "Order/" ++ digits ++ rest))
       = digits)
  ∧ extractOrderId (Some (extractOrderId gid)) = extractOrderId gid.
Proof.
  split; [done|]. split; [done|]. split.
  - intros before digits rest Hno Hne Hd Hrest.
    assert (matchOrderDigits (before ++ units "Order/" ++ digits ++ rest)
            = Some digits) as Hm.
    { induction before as [|u before IH].
      - cbn [app]. change (units "Order/" ++ digits ++ rest)
          with (79%N :: (114 :: 100 :: 101 :: 114 :: 47 :: digits ++ rest)%N).
        cbn [matchOrderDigits].
        assert (stripPrefix (units "Order/")
                  (79 :: 114 :: 100 :: 101 :: 114 :: 47 :: digits ++ rest)%N
                = Some (digits ++ rest)) as -> by done.
        rewrite takeDigits_app by done.
        by destruct digits.
      - apply not_elem_of_cons in Hno as [Hu Hno].
        rewrite <- app_comm_cons. cbn [matchOrderDigits].
        assert (stripPrefix (units "Order/")
                  (u :: before ++ units "Order/" ++ digits ++ rest) = None)
          as ->.
        { cbn. by rewrite decide_False by done. }
        by apply IH. }
    unfold extractOrderId. rewrite Hm.
    by destruct (before ++ units "Order/" ++ digits ++ rest).
  - destruct gid as [[|u l]|]; [done| |done].
    unfold extractOrderId at 2 3.
    destruct (matchOrderDigits (u :: l)) as [digits|] eqn:Hm; cbn [default].
    + destruct (matchOrderDigits_digits _ _ Hm) as [Hne Hd].
      unfold extractOrderId, id.
      rewrite (matchOrderDigits_no_O digits) by by apply digits_no_O.
      by destruct digits.
    + unfold extractOrderId, id. by rewrite Hm.
Qed.

Lemma extractOrderId_spec_witness :
  extractOrderId (Some (units "gid://shopify/Order/660688109584"))
  = units "660688109584".
Proof.
  destruct (extractOrderId_spec None) as (_ & _ & Hgid & _).
  apply (Hgid (units "gid://shopify/") (units "660688109584") []).
  - apply (bool_decide_unpack _). by vm_compute.
  - done.
  - apply (bool_decide_unpack _). by vm_compute.
  - done.
Defined.

Lemma sanitizeStoreUrl_safe_witness :
  sanitizeStoreUrl (Some (units "https://My-Shop.myshopify.com"))
  = units "my-shop"
  ∧ sanitizeStoreUrl (Some (units "my-shop")) = units "my-shop".
Proof.
  assert (sanitizeStoreUrl (Some (units "https://My-Shop.myshopify.com"))
          = units "my-shop") as Hs by (by vm_compute).
  split; [exact Hs|]. rewrite <- Hs at 1.
  apply sanitizeStoreUrl_safe. by rewrite Hs.
Defined.

(** * The test mirror next to the production store *)

(** ** Recalculation *)

Lemma mirror_recalculate_loop (d0 : db) (vs : list string) (d : db) :
  tasks (foldl
           (λ d vt,
              let '(variant_id, (total_quantity, made_quantity)) := vt in
              let newStatus :=
                TestDatabase.inlineTaskStatus made_quantity total_quantity in
              set_tasks
                (update_where (λ r, Task.variant_id r = variant_id)
                   (λ r, Task.set_status newStatus
                           (Task.set_made_quantity made_quantity
                              (Task.set_total_quantity total_quantity r)))) d)
           d ((λ v, (v, (sumQuantity v d0, sumFulfilled v d0))) <$> vs))
  = foldl (λ tbl v,
             update_where (λ r, Task.variant_id r = v)
               (mirrorRecalculatedTask d0) tbl)
          (tasks d) vs.
Proof.
  revert d. induction vs as [|v vs IH]; intros d; [done|].
  cbn [foldl fmap list_fmap]. rewrite IH. f_equal.
  unfold set_tasks, update_where. cbn [tasks].
  apply list_fmap_ext. intros _ r _. cbn.
  case_decide as Hr; [|done]. unfold mirrorRecalculatedTask. by rewrite Hr.
Qed.

Lemma mirror_recalculate_frame (d : db) :
  orders (Mirror.recalculateTaskTotalsFromOrders d) = orders d
  ∧ order_line_items (Mirror.recalculateTaskTotalsFromOrders d)
    = order_line_items d.
Proof.
  unfold Mirror.recalculateTaskTotalsFromOrders.
  split; [apply (foldl_frame orders)|apply (foldl_frame order_line_items)];
    by intros s [v [t m]].
Qed.

(** X20. The mirror's [recalculateTaskTotalsFromOrders] rewrites, from the
    sums over the line items of orders that are not archived, the tasks
    of the variants that have such a line item; it leaves every other
    task as it was and deletes none.  When every task has such line
    items, with a positive quantity in all and none fulfilled below 0, it
    gives the database the production function gives. *)
Theorem mirror_recalculate (d : db) :
  tasks (Mirror.recalculateTaskTotalsFromOrders d)
  = (λ r, if decide (Task.variant_id r
                     ∈ LineItem.variant_id <$> nonArchivedLineItems d)
          then mirrorRecalculatedTask d r else r) <$> tasks d
  ∧ orders (Mirror.recalculateTaskTotalsFromOrders d) = orders d
  ∧ order_line_items (Mirror.recalculateTaskTotalsFromOrders d)
    = order_line_items d
  ∧ (boundedLines d →
     (∀ r, r ∈ tasks d →
           Task.variant_id r ∈ LineItem.variant_id <$> nonArchivedLineItems d
           ∧ 0 < sumQuantity (Task.variant_id r) d) →
     Mirror.recalculateTaskTotalsFromOrders d
     = recalculateTaskTotalsFromOrders d).
Proof.
  destruct (mirror_recalculate_frame d) as [Ho Hl].
  assert (tasks (Mirror.recalculateTaskTotalsFromOrders d)
          = (λ r, if decide (Task.variant_id r
                             ∈ LineItem.variant_id <$> nonArchivedLineItems d)
                  then mirrorRecalculatedTask d r else r) <$> tasks d) as Ht.
  { unfold Mirror.recalculateTaskTotalsFromOrders, lineItemTotals.
    rewrite mirror_recalculate_loop.
    rewrite (foldl_update_by_key Task.variant_id) by done.
    apply list_fmap_ext. intros _ r _. cbn.
    destruct (decide (Task.variant_id r
                      ∈ LineItem.variant_id <$> nonArchivedLineItems d)).
    - by rewrite decide_True by by apply elem_of_remove_dups.
    - by rewrite decide_False by by rewrite elem_of_remove_dups. }
  split; [done|]. split; [done|]. split; [done|].
  intros Hb Hall.
  pose proof (recalculate_tasks d) as Htp.
  pose proof (orders_recalculate d) as Hop.
  pose proof (lines_recalculate d) as Hlp.
  assert (tasks (Mirror.recalculateTaskTotalsFromOrders d)
          = tasks (recalculateTaskTotalsFromOrders d)) as Heq.
  { rewrite Ht, Htp.
    assert (recalculatedTask d <$> tasks d
            = (λ r, if decide (Task.variant_id r
                               ∈ LineItem.variant_id <$> nonArchivedLineItems d)
                    then mirrorRecalculatedTask d r else r) <$> tasks d) as ->.
    { apply Forall_fmap_ext_1, Forall_forall. intros r Hr.
      destruct (Hall r Hr) as [Hin Hpos]. rewrite decide_True by done.
      unfold recalculatedTask, mirrorRecalculatedTask, restatusTask. cbn.
      rewrite mirror_status_agrees; [done| |done].
      by apply sums_bounded. }
    symmetry. apply filter_all, Forall_fmap, Forall_forall. intros r Hr.
    destruct (Hall r Hr) as [Hin Hpos]. cbn. rewrite decide_True by done.
    cbn. lia. }
  destruct (Mirror.recalculateTaskTotalsFromOrders d) as [ts os ls].
  destruct (recalculateTaskTotalsFromOrders d) as [ts' os' ls'].
  cbn in *. congruence.
Qed.

Lemma mirror_recalculate_witness :
  Mirror.recalculateTaskTotalsFromOrders progressDb
  = recalculateTaskTotalsFromOrders progressDb.
Proof.
  destruct (mirror_recalculate progressDb) as (_ & _ & _ & Hsame).
  apply Hsame.
  - intros li Hli. cbn in Hli.
    apply elem_of_cons in Hli as [->|Hli]; [cbn; lia|].
    apply list_elem_of_singleton in Hli as ->. cbn; lia.
  - intros r Hr. apply list_elem_of_singleton in Hr as ->.
    split; [apply (bool_decide_unpack _)|]; by vm_compute.
Defined.

(** ** Allocation *)

Section OrderByFilter.
Context {A : Type} (key : A → string) (P : A → Prop) `{!∀ x, Decision (P x)}.

Lemma insertRow_front (x : A) (l : list A) :
  Forall (λ z, String.leb (key x) (key z) = true) l →
  insertRow key x l = x :: l.
Proof. destruct 1 as [|y l Hy _]; [done|]. cbn. by rewrite Hy. Qed.

Lemma filter_insertRow (x : A) (l : list A) :
  StronglySorted (λ a b, String.leb (key a) (key b) = true) l →
  filter P (insertRow key x l)
  = if decide (P x) then insertRow key x (filter P l) else filter P l.
Proof.
  induction 1 as [|y l Hl IH Hy]; cbn [insertRow].
  - rewrite filter_cons. by case_decide.
  - destruct (String.leb (key x) (key y)) eqn:Hxy.
    + rewrite filter_cons. destruct (decide (P x)) as [Hx|Hx]; [|done].
      rewrite insertRow_front; [done|].
      apply Forall_forall. intros z Hz.
      apply list_elem_of_filter in Hz as [_ Hz].
      apply elem_of_cons in Hz as [->|Hz]; [done|].
      rewrite Forall_forall in Hy. eapply leb_trans; [exact Hxy|by apply Hy].
    + rewrite filter_cons, IH. rewrite (filter_cons _ y).
      destruct (decide (P y)) as [Hpy|Hpy]; [|done].
      destruct (decide (P x)) as [Hx|Hx]; [|done].
      cbn [insertRow]. by rewrite Hxy.
Qed.

Lemma filter_orderBy (l : list A) :
  filter P (orderBy key l) = orderBy key (filter P l).
Proof.
  induction l as [|x l IH]; [done|].
  change (orderBy key (x :: l)) with (insertRow key x (orderBy key l)).
  rewrite filter_insertRow by apply orderBy_sorted.
  rewrite filter_cons, IH. by case_decide.
Qed.
End OrderByFilter.

(** The rows with room among the candidates of the mirror are the
    candidates of the production query, in the same order. *)
Lemma mirror_candidates_with_room (v : string) (d : db) :
  filter (λ p, 0 < room p.1) (Mirror.allocationCandidates v d)
  = allocationCandidates v d.
Proof.
  unfold Mirror.allocationCandidates, allocationCandidates.
  rewrite filter_orderBy, list_filter_filter. f_equal.
  apply list_filter_iff. intros p. unfold room. split.
  - intros (? & ? & ?). repeat split; [done|lia|done].
  - intros (? & ? & ?). repeat split; [lia|done|done].
Qed.

(** Line items without room do not count in the loop of the mirror. *)
Lemma mirror_loop_skips (items : list (LineItem.t * Order.t)) (remaining : Z)
    (reported : list Mirror.FulfilledOrder) (d : db) :
  Mirror.allocateLoop items remaining reported d
  = Mirror.allocateLoop (filter (λ p, 0 < room p.1) items) remaining
      reported d.
Proof.
  revert remaining reported d.
  induction items as [|[item o] items IH]; intros remaining reported d;
    [done|].
  rewrite filter_cons. cbn [fst]. unfold room at 1.
  destruct (decide (0 < LineItem.quantity item
                        - LineItem.fulfilled_quantity item)) as [Hroom|Hroom].
  - cbn [Mirror.allocateLoop].
    destruct (decide (remaining ≤ 0)); [done|].
    rewrite !decide_False by lia.
    destruct (getOrderByOrderId _ _); [|done]. apply IH.
  - cbn [Mirror.allocateLoop].
    destruct (decide (remaining ≤ 0)) as [Hrem|Hrem].
    + destruct (filter _ items) as [|[item' o'] rest]; [done|].
      cbn [Mirror.allocateLoop]. by rewrite decide_True.
    + rewrite !decide_True by lia. apply IH.
Qed.

Lemma specFifoWalk_positive (items : list LineItem.t) (quantity : Z) :
  Forall (λ item, 0 < room item) items →
  Forall (λ e, 0 < e.2) (specFifoWalk items quantity).
Proof.
  intros Hroom. revert quantity.
  induction Hroom as [|item items Hitem _ IH]; intros quantity; cbn.
  - constructor.
  - case_decide; constructor; [cbn; lia|apply IH].
Qed.

Lemma allocatedToOrder_nonneg (id : string) (walk : list (LineItem.t * Z)) :
  Forall (λ e, 0 < e.2) walk → 0 ≤ allocatedToOrder id walk.
Proof.
  induction 1 as [|e walk He _ IH]; [done|].
  rewrite allocatedToOrder_cons. case_decide; lia.
Qed.

Lemma bumpOrder_twice (a b : Z) (o : Order.t) :
  bumpOrder b (bumpOrder a o) = bumpOrder (a + b) o.
Proof.
  unfold bumpOrder, Order.set_status, Order.set_fulfilled_items. cbn.
  by rewrite Z.add_assoc.
Qed.

(** The [UPDATE]s of the mirror's loop on the orders, one per entry of
    the walk, add up to [ordersAfterWalk]. *)
Lemma foldl_bumpOrder (walk : list (LineItem.t * Z)) (tbl : list Order.t) :
  Forall (λ e, 0 < e.2) walk →
  foldl (λ tbl e,
           update_where (λ r, Order.order_id r = LineItem.order_id e.1)
             (bumpOrder e.2) tbl) tbl walk
  = ordersAfterWalk walk tbl.
Proof.
  intros Hpos. revert tbl.
  induction Hpos as [|e walk He Hpos IH]; intros tbl.
  - cbn. unfold ordersAfterWalk. rewrite <- (list_fmap_id tbl) at 1.
    by apply list_fmap_ext.
  - cbn [foldl]. rewrite IH. unfold ordersAfterWalk, update_where.
    rewrite <- list_fmap_compose. apply list_fmap_ext. intros _ o _. cbn.
    pose proof (allocatedToOrder_nonneg (Order.order_id o) walk Hpos).
    rewrite allocatedToOrder_cons.
    destruct (decide (Order.order_id o = LineItem.order_id e.1)) as [Hid|Hid].
    + rewrite (decide_True (P := LineItem.order_id e.1 = Order.order_id o))
        by done.
      change (Order.order_id (bumpOrder e.2 o)) with (Order.order_id o).
      rewrite (decide_False (P := e.2 + _ = 0)) by lia.
      case_decide as Hz.
      * by rewrite Hz, Z.add_0_r.
      * apply bumpOrder_twice.
    + rewrite (decide_False (P := LineItem.order_id e.1 = Order.order_id o))
        by done.
      by rewrite Z.add_0_l.
Qed.

Lemma order_ids_bumpOrder (orderId : string) (taken : Z) (tbl : list Order.t) :
  Order.order_id
    <$> update_where (λ r, Order.order_id r = orderId) (bumpOrder taken) tbl
  = Order.order_id <$> tbl.
Proof.
  unfold update_where. rewrite <- list_fmap_compose.
  apply list_fmap_ext. intros _ o _. cbn. by case_decide.
Qed.

(** The loop of the mirror over candidates that all have room. *)
Lemma mirror_loop_walk (items : list (LineItem.t * Order.t)) (remaining : Z)
    (reported : list Mirror.FulfilledOrder) (d : db) :
  NoDup (LineItem.line_item_id <$> items.*1) →
  NoDup (Order.order_id <$> orders d) →
  Forall (λ p, 0 < room p.1) items →
  (∀ p r, p ∈ items → r ∈ order_line_items d →
          LineItem.line_item_id r = LineItem.line_item_id p.1 →
          LineItem.fulfilled_quantity r = LineItem.fulfilled_quantity p.1) →
  (∀ p, p ∈ items →
        is_Some (getOrderByOrderId (LineItem.order_id p.1) d)) →
  ∃ reported',
    Mirror.allocateLoop items remaining reported d
    = (Ok reported',
       mkDb (tasks d)
         (foldl (λ tbl e,
                   update_where
                     (λ r, Order.order_id r = LineItem.order_id e.1)
                     (bumpOrder e.2) tbl)
            (orders d) (specFifoWalk items.*1 remaining))
         (applyWalk (specFifoWalk items.*1 remaining) (order_line_items d))).
Proof.
  revert remaining reported d.
  induction items as [|[item o] items IH];
    intros remaining reported d Hnd Hndo Hroom Hsnap Hjoin.
  { exists reported. cbn. rewrite applyWalk_nil. by destruct d. }
  cbn [Mirror.allocateLoop fmap list_fmap fst specFifoWalk].
  destruct (decide (remaining ≤ 0)) as [Hrem|Hrem].
  { exists reported. cbn. rewrite applyWalk_nil. by destruct d. }
  apply Forall_cons in Hroom as [Hitem Hroom]. cbn [fst] in Hitem.
  unfold room in Hitem |- *. rewrite decide_False by lia.
  set (take := Z.min (LineItem.quantity item - LineItem.fulfilled_quantity item)
                 remaining).
  rewrite fmap_cons in Hnd. cbn [fst] in Hnd.
  apply NoDup_cons in Hnd as [Hfresh Hnd].
  destruct (Hjoin (item, o) ltac:(by left)) as [order Horder].
  cbn [fst] in Horder.
  assert (update_where
            (λ r, LineItem.line_item_id r = LineItem.line_item_id item)
            (LineItem.set_fulfilled_quantity
               (LineItem.fulfilled_quantity item + take)) (order_line_items d)
          = update_where
              (λ r, LineItem.line_item_id r = LineItem.line_item_id item)
              (λ r, LineItem.set_fulfilled_quantity
                      (LineItem.fulfilled_quantity r + take) r)
              (order_line_items d)) as Hlines.
  { unfold update_where. apply Forall_fmap_ext_1, Forall_forall.
    intros r Hr. case_decide as Hid; [|done].
    by rewrite (Hsnap (item, o) r ltac:(by left) Hr Hid). }
  assert (getOrderByOrderId (LineItem.order_id item)
            (set_order_line_items
               (update_where
                  (λ r, LineItem.line_item_id r = LineItem.line_item_id item)
                  (LineItem.set_fulfilled_quantity
                     (LineItem.fulfilled_quantity item + take))) d)
          = Some order) as ->; [done|].
  pose proof (getOrderByOrderId_id _ _ _ Horder) as Hoid.
  apply (select_one_Some (λ r, Order.order_id r = LineItem.order_id item))
    in Horder as [Hin _].
  assert (update_where (λ r, Order.order_id r = LineItem.order_id item)
            (λ r, Order.set_status
                    (Mirror.inlineOrderStatus
                       (Order.fulfilled_items order + take)
                       (Order.total_items order))
                    (Order.set_fulfilled_items
                       (Order.fulfilled_items order + take) r)) (orders d)
          = update_where (λ r, Order.order_id r = LineItem.order_id item)
              (bumpOrder take) (orders d)) as Horders.
  { unfold update_where. apply Forall_fmap_ext_1, Forall_forall.
    intros r Hr. case_decide as Hid; [|done].
    assert (r = order) as ->; [|done].
    apply (NoDup_fmap_eq Order.order_id (orders d)); [done..|congruence]. }
  match goal with
  | |- context [Mirror.allocateLoop items ?rem ?rep ?d2] =>
      replace d2 with
        (mkDb (tasks d)
           (update_where (λ r, Order.order_id r = LineItem.order_id item)
              (bumpOrder take) (orders d))
           (update_where
              (λ r, LineItem.line_item_id r = LineItem.line_item_id item)
              (λ r, LineItem.set_fulfilled_quantity
                      (LineItem.fulfilled_quantity r + take) r)
              (order_line_items d)))
        by (unfold set_orders, set_order_line_items;
            cbn [tasks orders order_line_items];
            by rewrite Horders, Hlines);
      destruct (IH rem rep
                  (mkDb (tasks d)
                     (update_where
                        (λ r, Order.order_id r = LineItem.order_id item)
                        (bumpOrder take) (orders d))
                     (update_where
                        (λ r, LineItem.line_item_id r
                              = LineItem.line_item_id item)
                        (λ r, LineItem.set_fulfilled_quantity
                                (LineItem.fulfilled_quantity r + take) r)
                        (order_line_items d))))
        as [reported' Hloop]
  end.
  - done.
  - cbn [orders]. by rewrite order_ids_bumpOrder.
  - done.
  - intros p r Hp Hr Hid. cbn [order_line_items] in Hr.
    unfold update_where in Hr.
    apply list_elem_of_fmap in Hr as (r0 & -> & Hr0).
    destruct (decide (LineItem.line_item_id r0 = LineItem.line_item_id item))
      as [Hid0|Hid0].
    + exfalso. apply Hfresh.
      change (LineItem.line_item_id r0 = LineItem.line_item_id p.1) in Hid.
      rewrite <- Hid0, Hid.
      apply (list_elem_of_fmap_2 LineItem.line_item_id).
      by apply (list_elem_of_fmap_2 fst).
    + apply (Hsnap p r0); [by right|done|done].
  - intros p Hp. destruct (Hjoin p ltac:(by right)) as [o' Ho'].
    unfold getOrderByOrderId. cbn [orders].
    rewrite select_one_update_where by done.
    fold (getOrderByOrderId (LineItem.order_id p.1) d). rewrite Ho'.
    by eexists.
  - exists reported'. rewrite Hloop. cbn [tasks orders order_line_items].
    fold take. by rewrite applyWalk_cons.
Qed.

Lemma allocationCandidates_NoDup (v : string) (d : db) :
  NoDup (LineItem.line_item_id <$> order_line_items d) →
  NoDup (LineItem.line_item_id <$> (allocationCandidates v d).*1).
Proof.
  intros Hnd. rewrite allocationCandidates_lines.
  eapply sublist_NoDup; [exact Hnd|].
  apply fmap_sublist, sublist_filter.
Qed.

(** X21. The mirror's allocation hands out the made quantity like the
    production one and adds what an order receives to its counter.  With
    unique line item and order ids, the helper's
    [allocateMadeQuantityToOrders] returns, leaves the tasks alone and
    writes the line items the production function writes; the
    [fulfilled_items] of every order rises by exactly what the oldest-first
    walk gave to its line items, an order that received nothing keeps its
    row, and one that received something gets the status of its new
    counter. *)
Theorem mirror_allocation_adds_to_counters (v : string) (quantity : Z) (d : db) :
  NoDup (LineItem.line_item_id <$> order_line_items d) →
  NoDup (Order.order_id <$> orders d) →
  let walk := specFifoWalk (allocationCandidates v d).*1 quantity in
  ∃ reported d',
    Mirror.allocateMadeQuantityToOrders v quantity d = (Ok reported, d')
    ∧ tasks d' = tasks d
    ∧ order_line_items d'
      = order_line_items (allocateMadeQuantityToOrders v quantity d).2
    ∧ Forall2
        (λ o o',
           let given := allocatedToOrder (Order.order_id o) walk in
           0 ≤ given
           ∧ Order.order_id o' = Order.order_id o
           ∧ Order.total_items o' = Order.total_items o
           ∧ Order.fulfilled_items o' = Order.fulfilled_items o + given
           ∧ (given = 0 → o' = o)
           ∧ (0 < given →
              Order.status o'
              = Mirror.inlineOrderStatus (Order.fulfilled_items o')
                  (Order.total_items o')))
        (orders d) (orders d').
Proof.
  intros Hnd Hndo walk.
  assert (Forall (λ e, 0 < e.2) walk) as Hpos.
  { apply specFifoWalk_positive, Forall_fmap, allocationCandidates_room. }
  destruct (mirror_loop_walk (allocationCandidates v d) quantity [] d)
    as [reported Hloop].
  - by apply allocationCandidates_NoDup.
  - done.
  - apply allocationCandidates_room.
  - intros p r Hp Hr Hid.
    apply allocationCandidates_spec in Hp as (Hp & _).
    apply joinOrders_line in Hp as (Hp & _).
    by rewrite (NoDup_fmap_eq LineItem.line_item_id (order_line_items d) r p.1).
  - intros p Hp.
    apply allocationCandidates_spec in Hp as (Hp & _).
    apply joinOrders_line in Hp as (_ & _ & _ & ->). by eexists.
  - fold walk in Hloop. rewrite foldl_bumpOrder in Hloop by done.
    eexists reported, _. split; [|split; [|split]].
    + unfold Mirror.allocateMadeQuantityToOrders.
      rewrite mirror_loop_skips, mirror_candidates_with_room. exact Hloop.
    + done.
    + cbn [order_line_items].
      by destruct (allocate_tables v quantity d) as (_ & -> & _).
    + cbn [orders]. unfold ordersAfterWalk.
      apply Forall2_fmap_r, Forall_Forall2_diag, Forall_forall.
      intros o _. unfold compose.
      pose proof (allocatedToOrder_nonneg (Order.order_id o) walk Hpos).
      destruct (decide (allocatedToOrder (Order.order_id o) walk = 0))
        as [Hz|Hz].
      * rewrite Hz. repeat split; lia.
      * repeat split; [done|lia].
Qed.

Lemma mirror_allocation_adds_to_counters_witness :
  ∃ d',
    (Mirror.allocateMadeQuantityToOrders "v1" 7 twoOrdersDb).2 = d'
    ∧ (λ o, (Order.order_id o, Order.fulfilled_items o, Order.status o))
        <$> orders d'
      = [("o2", 2, OrderStatus.in_progress); ("o1", 5, OrderStatus.fulfilled)].
Proof.
  destruct (mirror_allocation_adds_to_counters "v1" 7 twoOrdersDb)
    as (reported & d' & Hrun & _).
  - apply (bool_decide_unpack _). by vm_compute.
  - apply (bool_decide_unpack _). by vm_compute.
  - exists d'. split; [by rewrite Hrun|].
    assert (d' = (Mirror.allocateMadeQuantityToOrders "v1" 7 twoOrdersDb).2)
      as -> by (by rewrite Hrun).
    by vm_compute.
Defined.

(** ** The archive handlers *)

Lemma archive_order_run (orderId : string) (d : db) :
  archive_order orderId d
  = if decide (orderId = EmptyString) then (Thrown OrderIdRequired, d)
    else match getOrderByOrderId orderId d with
         | None => (Thrown OrderNotFound, d)
         | Some o =>
             (Ok tt,
              if decide (Order.status o = OrderStatus.archived) then d
              else (archiveOrder orderId d).2)
         end.
Proof.
  unfold archive_order. case_decide; [done|].
  unfold mbind, M_bind, archiveOrder.
  destruct (getOrderByOrderId orderId d) as [o|]; [|done].
  by case_decide.
Qed.

Lemma unarchive_order_run (orderId : string) (d : db) :
  unarchive_order orderId d
  = if decide (orderId = EmptyString) then (Thrown OrderIdRequired, d)
    else match getOrderByOrderId orderId d with
         | None => (Thrown OrderNotFound, d)
         | Some o =>
             (Ok tt,
              if decide (Order.status o = OrderStatus.archived)
              then (unarchiveOrder orderId d).2 else d)
         end.
Proof.
  unfold unarchive_order. case_decide; [done|].
  unfold mbind, M_bind.
  destruct (getOrderByOrderId orderId d) as [o|] eqn:Ho.
  - destruct (decide (Order.status o = OrderStatus.archived)) as [Hs|Hs].
    + by rewrite (unarchiveOrder_db orderId d o Ho Hs).
    + unfold unarchiveOrder. by rewrite Ho, decide_True.
  - unfold unarchiveOrder. by rewrite Ho.
Qed.

(** X22. The two archive handlers answer a repeated request like the first
    one.  Each fails exactly when the id is empty or no order has it, and a
    failure writes nothing; archiving an archived order and unarchiving
    one that is not archived write nothing either; after a successful
    archive the order reads as archived, after a successful unarchive it
    does not; and sending the same request again returns the same reply
    and leaves the database as the first request left it. *)
Theorem archive_handlers_idempotent (orderId : string) (d : db) :
  let a := archive_order orderId d in
  let u := unarchive_order orderId d in
  (a.1 = Ok tt ↔ orderId ≠ EmptyString ∧ is_Some (getOrderByOrderId orderId d))
  ∧ (u.1 = Ok tt ↔ orderId ≠ EmptyString ∧ is_Some (getOrderByOrderId orderId d))
  ∧ (a.1 ≠ Ok tt → a.2 = d)
  ∧ (u.1 ≠ Ok tt → u.2 = d)
  ∧ (∀ o, getOrderByOrderId orderId d = Some o →
          (Order.status o = OrderStatus.archived → a.2 = d)
          ∧ (Order.status o ≠ OrderStatus.archived → u.2 = d))
  ∧ (a.1 = Ok tt →
     ∃ o, getOrderByOrderId orderId a.2 = Some o
          ∧ Order.status o = OrderStatus.archived)
  ∧ (u.1 = Ok tt →
     ∃ o, getOrderByOrderId orderId u.2 = Some o
          ∧ Order.status o ≠ OrderStatus.archived)
  ∧ archive_order orderId a.2 = a
  ∧ unarchive_order orderId u.2 = u.
Proof.
  cbn zeta. rewrite !(archive_order_run orderId), !(unarchive_order_run orderId).
  destruct (decide (orderId = EmptyString)) as [He|He].
  { cbn. repeat split; try done; try (by intros [? _]). }
  destruct (getOrderByOrderId orderId d) as [o|] eqn:Ho.
  2:{ cbn. rewrite Ho.
      repeat split; try done; by intros [_ [? ?]]. }
  pose proof (getOrderByOrderId_id _ _ _ Ho) as Hid.
  cbn [fst snd].
  assert (∀ s ts,
    getOrderByOrderId orderId
      (mkDb ts
         (update_where (λ r, Order.order_id r = orderId) (Order.set_status s)
            (orders d)) (order_line_items d))
    = Some (Order.set_status s o)) as Hget.
  { intros s ts. rewrite getOrderByOrderId_status, Ho. cbn.
    by rewrite decide_True. }
  destruct (decide (Order.status o = OrderStatus.archived)) as [Hs|Hs].
  - rewrite (unarchiveOrder_db orderId d o Ho Hs). cbn [snd].
    rewrite !Hget, Ho.
    rewrite (decide_True (P := Order.status o = OrderStatus.archived)) by done.
    rewrite (decide_False
               (P := Order.status (Order.set_status _ o) = OrderStatus.archived))
      by apply restoredStatus_not_archived.
    cbn [fst snd].
    repeat split; try done; try (by intros; eauto).
    + intros Hne. destruct Hne. congruence.
    + intros _. eexists. split; [done|]. apply restoredStatus_not_archived.
  - rewrite (archiveOrder_db orderId d o Ho Hs). cbn [snd].
    rewrite !Hget, Ho.
    rewrite (decide_True
               (P := Order.status (Order.set_status OrderStatus.archived o)
                     = OrderStatus.archived)) by done.
    rewrite (decide_False (P := Order.status o = OrderStatus.archived)) by done.
    cbn [fst snd].
    repeat split; try done; try (by intros; eauto).
    intros Harch. destruct Hs. congruence.
Qed.

Lemma archive_handlers_idempotent_witness :
  (archive_order "o1" twoOrdersDb).1 = Ok tt
  ∧ archive_order "o1" (archive_order "o1" twoOrdersDb).2
    = archive_order "o1" twoOrdersDb
  ∧ (unarchive_order "o1" twoOrdersDb).2 = twoOrdersDb
  ∧ (archive_order "o9" twoOrdersDb).2 = twoOrdersDb.
Proof.
  destruct (archive_handlers_idempotent "o1" twoOrdersDb)
    as (_ & _ & _ & _ & Hnoop & _ & _ & Htwice & _).
  destruct (archive_handlers_idempotent "o9" twoOrdersDb)
    as (_ & _ & Hfail & _).
  split; [by vm_compute|]. split; [exact Htwice|]. split.
  - refine (proj2 (Hnoop _ _) _); [by vm_compute|by vm_compute].
  - apply Hfail. by vm_compute.
Defined.

(** * The summaries of the renderer *)

Lemma count_fmap {A B : Type} (f : A → B) (P : B → Prop)
    `{!∀ y, Decision (P y)} (l : list A) :
  length (filter (λ x, P (f x)) l) = length (filter P (f <$> l)).
Proof.
  induction l as [|x l IH]; [done|].
  rewrite fmap_cons, !filter_cons. case_decide; cbn; by rewrite IH.
Qed.

Lemma count_split {A : Type} (P : A → Prop) `{!∀ x, Decision (P x)}
    (l : list A) :
  (length (filter P l) + length (filter (λ x, ¬ P x) l) = length l)%nat.
Proof.
  rewrite <- (Permutation_length (filter_split_perm P l)), length_app. lia.
Qed.

Lemma count_perm {A : Type} (P : A → Prop) `{!∀ x, Decision (P x)}
    (l k : list A) :
  l ≡ₚ k → length (filter P l) = length (filter P k).
Proof. intros Hp. by rewrite Hp. Qed.

Lemma view_rows (d : db) (l : list (Order.t * Z)) :
  view_order <$> (withLineItems d <$> l) = l.*1.
Proof. by rewrite <- list_fmap_compose. Qed.

Lemma order_status_counts (l : list Order.t) :
  (length (filter (λ o, (Order.status o = OrderStatus.pending
                         ∨ Order.status o = OrderStatus.in_progress)
                        ∧ Order.status o ≠ OrderStatus.archived) l)
   + length (filter (λ o, Order.status o = OrderStatus.fulfilled) l)
   = length (filter (λ o, Order.status o ≠ OrderStatus.archived) l))%nat.
Proof.
  induction l as [|o l IH]; [done|].
  rewrite !filter_cons.
  destruct (Order.status o) eqn:Hs; repeat case_decide; cbn;
    try lia; try done; try tauto; exfalso; intuition congruence.
Qed.

(** X23. The counts the renderer shows after loading.  The task summary
    counts every stored task, each as active or as completed.  The order
    summary counts every stored order once: the archived ones under
    [archived], the others under [total], each of those as active or as
    fulfilled. *)
Theorem summaries_count_every_row (d : db) :
  ts_total (loadedSummary d) = length (tasks d)
  ∧ (ts_active (loadedSummary d) + ts_completed (loadedSummary d)
     = ts_total (loadedSummary d))%nat
  ∧ ts_completed (loadedSummary d)
    = length (filter (λ r, Task.status r = TaskStatus.completed) (tasks d))
  ∧ (os_total (loadedOrderSummary d) + os_archived (loadedOrderSummary d)
     = length (orders d))%nat
  ∧ (os_active (loadedOrderSummary d) + os_fulfilled (loadedOrderSummary d)
     = os_total (loadedOrderSummary d))%nat
  ∧ os_fulfilled (loadedOrderSummary d)
    = length (filter (λ o, Order.status o = OrderStatus.fulfilled) (orders d))
  ∧ os_archived (loadedOrderSummary d)
    = length (filter (λ o, Order.status o = OrderStatus.archived) (orders d)).
Proof.
  assert ((getAllTasks d).*1 ≡ₚ tasks d) as Htasks.
  { unfold getAllTasks. rewrite fst_with_column. apply sortRows_perm. }
  assert (view_order <$> getOrdersWithLineItems false d
          ≡ₚ filter (λ o, Order.status o ≠ OrderStatus.archived) (orders d))
    as Hlive.
  { unfold getOrdersWithLineItems. rewrite view_rows.
    apply (getAllOrders_rows false). }
  assert (view_order <$> getArchivedOrdersWithLineItems d
          ≡ₚ filter (λ o, Order.status o = OrderStatus.archived) (orders d))
    as Harch.
  { unfold getArchivedOrdersWithLineItems. rewrite view_rows.
    apply getArchivedOrders_rows. }
  unfold loadedSummary, loadedOrderSummary, summary, orderSummary.
  cbn [ts_total ts_active ts_completed os_total os_active os_fulfilled
       os_archived].
  assert (length (getOrdersWithLineItems false d)
          = length (filter (λ o, Order.status o ≠ OrderStatus.archived)
                      (orders d))) as Htotal.
  { by rewrite <- (Permutation_length Hlive), length_fmap. }
  assert (length (getArchivedOrdersWithLineItems d)
          = length (filter (λ o, Order.status o = OrderStatus.archived)
                      (orders d))) as Harchived.
  { by rewrite <- (Permutation_length Harch), length_fmap. }
  assert (length (filter (λ o, Order.status (view_order o)
                               = OrderStatus.fulfilled)
                    (getOrdersWithLineItems false d))
          = length (filter (λ o, Order.status o = OrderStatus.fulfilled)
                      (orders d))) as Hfulfilled.
  { etrans;
      [exact (count_fmap view_order
                (λ o, Order.status o = OrderStatus.fulfilled) _)|].
    rewrite (count_perm _ _ _ Hlive), list_filter_filter.
    f_equal. apply list_filter_iff. intros o. split; [tauto|].
    intros Hs. split; [done|]. by rewrite Hs. }
  split; [|split; [|split; [|split; [|split; [|split]]]]].
  - by rewrite <- (Permutation_length Htasks), length_fmap.
  - rewrite <- (count_split (λ t, Task.status t.1 = TaskStatus.completed)
                  (getAllTasks d)).
    rewrite Nat.add_comm. f_equal. f_equal. apply list_filter_iff.
    intros t. destruct (Task.status t.1); split; intros; try done;
      try tauto; by destruct_or!.
  - etrans;
      [exact (count_fmap fst (λ r, Task.status r = TaskStatus.completed) _)|].
    by apply count_perm.
  - rewrite Htotal, Harchived, Nat.add_comm.
    apply (count_split (λ o, Order.status o = OrderStatus.archived)).
  - rewrite Hfulfilled, Htotal.
    rewrite <- order_status_counts. f_equal.
    etrans;
      [exact (count_fmap view_order
                (λ o, Order.status o = OrderStatus.pending
                      ∨ Order.status o = OrderStatus.in_progress) _)|].
    by rewrite (count_perm _ _ _ Hlive), list_filter_filter.
  - exact Hfulfilled.
  - exact Harchived.
Qed.

Lemma summaries_count_every_row_witness :
  loadedSummary progressDb = mkTaskSummary 1 1 0
  ∧ (os_total (loadedOrderSummary progressDb)
     + os_archived (loadedOrderSummary progressDb)
     = length (orders progressDb))%nat.
Proof.
  split; [by vm_compute|].
  by destruct (summaries_count_every_row progressDb) as (_ & _ & _ & -> & _).
Defined.

(** * The mirror's archive *)

Lemma archiveRow_total (item : LineItem.t) (r : Task.t) :
  Task.total_quantity (archiveRow item r)
  = Z.max 0 (Task.total_quantity r - LineItem.quantity item).
Proof. done. Qed.

Lemma archiveRow_made (item : LineItem.t) (r : Task.t) :
  0 ≤ Task.made_quantity r → 0 ≤ Task.made_quantity (archiveRow item r).
Proof.
  intros Hm. unfold archiveRow, restatusTask.
  destruct (decide (0 < LineItem.fulfilled_quantity item)); cbn; lia.
Qed.

Lemma archiveRow_variant (item : LineItem.t) (r : Task.t) :
  Task.variant_id (archiveRow item r) = Task.variant_id r.
Proof.
  unfold archiveRow, restatusTask.
  by destruct (decide (0 < LineItem.fulfilled_quantity item)).
Qed.

Lemma rowLoop_archive_zero (items : list LineItem.t) (r : Task.t) :
  Forall (λ li, 0 ≤ LineItem.fulfilled_quantity li ∧ 0 ≤ LineItem.quantity li)
    items →
  Task.total_quantity r = 0 →
  Task.total_quantity (rowLoop archiveRow items r) = 0.
Proof.
  intros Hitems. revert r.
  induction Hitems as [|item items [_ Hq] _ IH]; intros r Hr; [done|].
  cbn. apply IH. case_decide; [|done].
  rewrite archiveRow_total. lia.
Qed.

Lemma filter_fmap_deleted {A : Type} (P Q : A → Prop)
    `{!∀ x, Decision (P x)} `{!∀ x, Decision (Q x)} (g h : A → A)
    (l : list A) :
  (∀ r, r ∈ l → Q r → ¬ P (g r)) →
  (∀ r, r ∈ l → ¬ Q r → g r = h r) →
  filter P (h <$> filter (λ r, ¬ Q r) l) = filter P (g <$> l).
Proof.
  induction l as [|x l IH]; intros Hdel Hkeep; [done|].
  rewrite fmap_cons, !filter_cons.
  assert (filter P (h <$> filter (λ r, ¬ Q r) l) = filter P (g <$> l)) as IH'.
  { apply IH; intros r Hr; [apply Hdel|apply Hkeep]; by right. }
  destruct (decide (Q x)) as [Hx|Hx].
  - rewrite decide_False by tauto.
    rewrite (decide_False (P := P (g x))) by (apply Hdel; [by left|done]).
    exact IH'.
  - rewrite decide_True by done. rewrite fmap_cons, filter_cons.
    rewrite <- (Hkeep x) by (done || by left).
    by rewrite IH'.
Qed.

(** The row the mirror writes for the task of a line item is the row the
    three production statements leave. *)
Lemma mirror_archive_row (item : LineItem.t) (r : Task.t) :
  0 ≤ Task.made_quantity r →
  0 ≤ LineItem.fulfilled_quantity item →
  Z.max 0 (Task.total_quantity r - LineItem.quantity item) ≠ 0 →
  Task.set_status
    (TestDatabase.inlineTaskStatus
       (Z.max 0 (Task.made_quantity r - LineItem.fulfilled_quantity item))
       (Z.max 0 (Task.total_quantity r - LineItem.quantity item)))
    (Task.set_total_quantity
       (Z.max 0 (Task.total_quantity r - LineItem.quantity item))
       (Task.set_made_quantity
          (Z.max 0 (Task.made_quantity r - LineItem.fulfilled_quantity item))
          r))
  = archiveRow item r.
Proof.
  intros Hm Hf Ht. unfold archiveRow, restatusTask.
  destruct (decide (0 < LineItem.fulfilled_quantity item)) as [Hpos|Hpos].
  - unfold Task.set_status, Task.set_total_quantity, Task.set_made_quantity.
    cbn. f_equal.
    unfold TestDatabase.inlineTaskStatus, taskStatusCase.
    repeat case_decide; try done; lia.
  - assert (LineItem.fulfilled_quantity item = 0) as -> by lia.
    rewrite Z.sub_0_r, Z.max_r by done.
    unfold Task.set_status, Task.set_total_quantity, Task.set_made_quantity.
    cbn. f_equal.
    unfold TestDatabase.inlineTaskStatus, taskStatusCase.
    repeat case_decide; try done; lia.
Qed.

Lemma mirror_archive_loop (items : list LineItem.t) (d : db) :
  NoDup (Task.variant_id <$> tasks d) →
  Forall (λ r, Task.total_quantity r ≠ 0 ∧ 0 ≤ Task.made_quantity r) (tasks d) →
  Forall (λ li, 0 ≤ LineItem.fulfilled_quantity li ∧ 0 ≤ LineItem.quantity li)
    items →
  foldl Mirror.archiveItem d items
  = mkDb (filter (λ r, Task.total_quantity r ≠ 0)
            (rowLoop archiveRow items <$> tasks d))
      (orders d) (order_line_items d).
Proof.
  intros Hnd Htasks Hitems. revert d Hnd Htasks.
  induction Hitems as [|item items [Hf Hq] Hitems IH]; intros d Hnd Htasks.
  { cbn. rewrite list_fmap_id, filter_all; [by destruct d|].
    eapply Forall_impl; [exact Htasks|]. by intros r [? _]. }
  cbn [foldl].
  set (step := λ r, if decide (Task.variant_id r = LineItem.variant_id item)
                    then archiveRow item r else r).
  assert (rowLoop archiveRow (item :: items) <$> tasks d
          = rowLoop archiveRow items <$> (step <$> tasks d)) as ->.
  { by rewrite <- list_fmap_compose. }
  unfold Mirror.archiveItem at 2.
  destruct (getTaskByVariantId (LineItem.variant_id item) d) as [task|]
    eqn:Htask.
  2:{ rewrite IH by done. f_equal. f_equal. f_equal.
      apply getTaskByVariantId_None in Htask.
      rewrite <- (list_fmap_id (tasks d)) at 1.
      apply Forall_fmap_ext_1. eapply Forall_impl; [exact Htask|].
      intros r Hr. unfold step. by rewrite decide_False. }
  apply getTaskByVariantId_Some in Htask as [Hin Hv].
  assert (∀ r, r ∈ tasks d → Task.variant_id r = LineItem.variant_id item →
               r = task) as Honly.
  { intros r Hr Hrv.
    apply (NoDup_fmap_eq Task.variant_id (tasks d)); [done..|congruence]. }
  pose proof (proj1 (Forall_forall _ _) Htasks) as Hrows.
  destruct (Hrows task Hin) as [Htot Hmade].
  case_decide as Hzero.
  - rewrite IH.
    + cbn [tasks orders order_line_items set_tasks]. f_equal.
      unfold delete_where. rewrite <- (list_fmap_compose step).
      apply (filter_fmap_deleted (λ r, Task.total_quantity r ≠ 0)
               (λ r, Task.variant_id r = LineItem.variant_id item)
               (rowLoop archiveRow items ∘ step) (rowLoop archiveRow items)).
      * intros r Hr Hrv Hnz. apply Hnz.
        rewrite (Honly r Hr Hrv). unfold compose, step.
        rewrite decide_True by done.
        apply rowLoop_archive_zero; [done|].
        by rewrite archiveRow_total.
      * intros r Hr Hrv. unfold compose, step. by rewrite decide_False.
    + cbn [tasks set_tasks]. refine (sublist_NoDup _ _ Hnd _).
      apply fmap_sublist, sublist_filter.
    + cbn [tasks set_tasks]. unfold delete_where. apply Forall_forall.
      intros r Hr. apply list_elem_of_filter in Hr as [_ Hr]. by apply Hrows.
  - assert (update_where
              (λ r, Task.variant_id r = LineItem.variant_id item)
              (λ r, Task.set_status
                      (TestDatabase.inlineTaskStatus
                         (Z.max 0 (Task.made_quantity task
                                   - LineItem.fulfilled_quantity item))
                         (Z.max 0 (Task.total_quantity task
                                   - LineItem.quantity item)))
                      (Task.set_total_quantity
                         (Z.max 0 (Task.total_quantity task
                                   - LineItem.quantity item))
                         (Task.set_made_quantity
                            (Z.max 0 (Task.made_quantity task
                                      - LineItem.fulfilled_quantity item))
                            r))) (tasks d)
            = step <$> tasks d) as Hstep.
    { unfold update_where. apply Forall_fmap_ext_1, Forall_forall.
      intros r Hr. unfold step. case_decide as Hrv; [|done].
      rewrite (Honly r Hr Hrv). by apply mirror_archive_row. }
    cbn zeta. unfold set_tasks at 1. cbn [tasks orders order_line_items].
    rewrite Hstep. rewrite IH.
    + done.
    + cbn [tasks]. rewrite <- list_fmap_compose.
      erewrite list_fmap_ext; [exact Hnd|].
      intros _ r _. unfold step. cbn. case_decide; [|done].
      apply archiveRow_variant.
    + cbn [tasks]. apply Forall_fmap, Forall_forall. intros r Hr.
      destruct (Hrows r Hr) as [Hrt Hrm]. unfold step. cbn.
      case_decide as Hrv; [|done].
      rewrite (Honly r Hr Hrv).
      split; [by rewrite archiveRow_total|by apply archiveRow_made].
Qed.

(** X24. The mirror's [archiveOrder] against the production one.  With one
    task per variant, no task with total 0 or a negative made quantity,
    and no negative quantity in the line items of the order, the helper
    leaves the database the production function leaves; both refuse an
    order that is not stored and both leave an archived order alone. *)
Theorem mirror_archive_agrees (orderId : string) (d : db) :
  NoDup (Task.variant_id <$> tasks d) →
  Forall (λ r, Task.total_quantity r ≠ 0 ∧ 0 ≤ Task.made_quantity r) (tasks d) →
  Forall (λ li, 0 ≤ LineItem.fulfilled_quantity li ∧ 0 ≤ LineItem.quantity li)
    (lineItemsOfOrder orderId d) →
  (Mirror.archiveOrder orderId d).2 = (archiveOrder orderId d).2
  ∧ ((Mirror.archiveOrder orderId d).1 = Mirror.NotFound orderId
     ↔ (archiveOrder orderId d).1 = Thrown OrderNotFound)
  ∧ ((Mirror.archiveOrder orderId d).1 = Mirror.AlreadyArchived
     ↔ (archiveOrder orderId d).1 = Ok (mkArchiveResult true true false))
  ∧ ((Mirror.archiveOrder orderId d).1 = Mirror.Archived
     ↔ (archiveOrder orderId d).1 = Ok (mkArchiveResult true false false)).
Proof.
  intros Hnd Htasks Hitems.
  unfold Mirror.archiveOrder.
  destruct (getOrderByOrderId orderId d) as [o|] eqn:Ho.
  2:{ unfold archiveOrder. rewrite Ho. cbn. repeat split; done. }
  destruct (decide (Order.status o = OrderStatus.archived)) as [Hs|Hs].
  { unfold archiveOrder. rewrite Ho, decide_True by done. cbn.
    repeat split; done. }
  rewrite (archiveOrder_db orderId d o Ho Hs).
  rewrite mirror_archive_loop by done. cbn.
  repeat split; done.
Qed.

Lemma mirror_archive_agrees_witness :
  (Mirror.archiveOrder "o1" progressDb).2 = (archiveOrder "o1" progressDb).2.
Proof.
  apply mirror_archive_agrees.
  - apply (bool_decide_unpack _). by vm_compute.
  - repeat constructor; cbn; lia.
  - apply (bool_decide_unpack _). by vm_compute.
Defined.

(** * The mirror's unarchive *)

Lemma inline_status_case (made total : Z) :
  0 ≤ made → 0 < total →
  TestDatabase.inlineTaskStatus made total = taskStatusCase made total.
Proof.
  intros Hm Ht. unfold TestDatabase.inlineTaskStatus, taskStatusCase.
  repeat case_decide; try done; lia.
Qed.

(** One turn of the mirror's loop is one turn of the production loop. *)
Lemma mirror_unarchiveItem (d : db) (item : LineItem.t) :
  NoDup (Task.variant_id <$> tasks d) →
  Forall (λ r, 0 ≤ Task.total_quantity r ∧ 0 ≤ Task.made_quantity r) (tasks d) →
  0 ≤ LineItem.fulfilled_quantity item → 0 < LineItem.quantity item →
  LineItem.image_url item ≠ Some EmptyString →
  Mirror.unarchiveItem d item = unarchiveItem d item
  ∧ NoDup (Task.variant_id <$> tasks (unarchiveItem d item))
  ∧ Forall (λ r, 0 ≤ Task.total_quantity r ∧ 0 ≤ Task.made_quantity r)
      (tasks (unarchiveItem d item)).
Proof.
  intros Hnd Htasks Hf Hq Himg.
  pose proof (proj1 (Forall_forall _ _) Htasks) as Hrows.
  destruct (unarchiveItem_frame d item) as [Horders Hlines].
  pose proof (unarchiveItem_tasks d item) as Hprod.
  assert (unarchiveItem d item
          = mkDb (tasks (unarchiveItem d item)) (orders d)
              (order_line_items d)) as Hdb.
  { rewrite <- Horders, <- Hlines. by destruct (unarchiveItem d item). }
  unfold Mirror.unarchiveItem.
  destruct (getTaskByVariantId (LineItem.variant_id item) d) as [task|]
    eqn:Htask.
  - assert (LineItem.variant_id item ∈ Task.variant_id <$> tasks d) as Hpresent.
    { apply variant_present. by rewrite Htask. }
    rewrite decide_True in Hprod by done.
    apply getTaskByVariantId_Some in Htask as [Hin Hv].
    assert (∀ r, r ∈ tasks d →
                 Task.variant_id r = LineItem.variant_id item → r = task)
      as Honly.
    { intros r Hr Hrv.
      apply (NoDup_fmap_eq Task.variant_id (tasks d)); [done..|congruence]. }
    destruct (Hrows task Hin) as [Htot Hmade].
    split; [|split].
    + rewrite Hdb, Hprod. cbn zeta. unfold set_tasks. f_equal.
      unfold update_where. apply Forall_fmap_ext_1, Forall_forall.
      intros r Hr. case_decide as Hrv; [|done].
      rewrite (Honly r Hr Hrv).
      rewrite inline_status_case by lia.
      unfold unarchiveRow, restatusTask, Task.set_status,
        Task.set_total_quantity, Task.set_made_quantity. by cbn.
    + rewrite Hprod. unfold update_where. rewrite <- list_fmap_compose.
      erewrite list_fmap_ext; [exact Hnd|].
      intros _ r _. cbn. by case_decide.
    + rewrite Hprod. unfold update_where.
      apply Forall_fmap, Forall_forall. intros r Hr.
      destruct (Hrows r Hr) as [Hrt Hrm]. cbn.
      case_decide; [|done]. cbn. lia.
  - assert (LineItem.variant_id item ∉ Task.variant_id <$> tasks d) as Habsent.
    { rewrite <- variant_present, Htask. by intros [? ?]. }
    rewrite decide_False in Hprod by done.
    split; [|split].
    + rewrite Hdb, Hprod. unfold Mirror.upsertTask, set_tasks. cbn.
      f_equal. rewrite insert_or_update_fresh.
      2:{ rewrite Exists_exists. intros (r & Hr & Hrv). apply Habsent.
          rewrite <- Hrv. by apply list_elem_of_fmap_2. }
      f_equal. f_equal. unfold restatusTask, newTask, Task.set_status. cbn.
      rewrite inline_status_case by lia. f_equal.
      by destruct (LineItem.image_url item) as [[|? ?]|].
    + rewrite Hprod, fmap_app. apply NoDup_app. split; [done|].
      split; [|apply NoDup_singleton].
      intros v Hv Hnew. cbn in Hnew.
      apply list_elem_of_singleton in Hnew as ->. done.
    + rewrite Hprod. apply Forall_app. split; [done|].
      constructor; [|constructor]. cbn. lia.
Qed.

Lemma mirror_unarchive_loop (items : list LineItem.t) (d : db) :
  NoDup (Task.variant_id <$> tasks d) →
  Forall (λ r, 0 ≤ Task.total_quantity r ∧ 0 ≤ Task.made_quantity r) (tasks d) →
  Forall (λ li, 0 ≤ LineItem.fulfilled_quantity li ∧ 0 < LineItem.quantity li
                ∧ LineItem.image_url li ≠ Some EmptyString) items →
  foldl Mirror.unarchiveItem d items = foldl unarchiveItem d items.
Proof.
  intros Hnd Htasks Hitems. revert d Hnd Htasks.
  induction Hitems as [|item items (Hf & Hq & Himg) _ IH]; intros d Hnd Htasks;
    [done|].
  cbn [foldl].
  destruct (mirror_unarchiveItem d item Hnd Htasks Hf Hq Himg)
    as (-> & Hnd' & Htasks').
  by apply IH.
Qed.

(** X25. The mirror's [unarchiveOrder] against the production one.  With one
    task per variant, no negative quantity in a task, and line items of
    the order that have a positive quantity, nothing fulfilled below 0 and
    no empty image url, the helper leaves the database the production
    function leaves; both refuse an order that is not stored, both leave
    an order alone that is not archived, and the status the helper
    returns is the one the order gets. *)
Theorem mirror_unarchive_agrees (orderId : string) (d : db) :
  NoDup (Task.variant_id <$> tasks d) →
  Forall (λ r, 0 ≤ Task.total_quantity r ∧ 0 ≤ Task.made_quantity r) (tasks d) →
  Forall (λ li, 0 ≤ LineItem.fulfilled_quantity li ∧ 0 < LineItem.quantity li
                ∧ LineItem.image_url li ≠ Some EmptyString)
    (lineItemsOfOrder orderId d) →
  (Mirror.unarchiveOrder orderId d).2 = (unarchiveOrder orderId d).2
  ∧ ((Mirror.unarchiveOrder orderId d).1 = Mirror.UnarchiveNotFound orderId
     ↔ (unarchiveOrder orderId d).1 = Thrown OrderNotFound)
  ∧ ((Mirror.unarchiveOrder orderId d).1 = Mirror.NotArchived
     ↔ (unarchiveOrder orderId d).1 = Ok (mkArchiveResult true false true))
  ∧ (∀ newStatus,
       (Mirror.unarchiveOrder orderId d).1 = Mirror.Unarchived newStatus →
       (unarchiveOrder orderId d).1 = Ok (mkArchiveResult true false false)
       ∧ Order.status <$> getOrderByOrderId orderId (unarchiveOrder orderId d).2
         = Some newStatus).
Proof.
  intros Hnd Htasks Hitems.
  unfold Mirror.unarchiveOrder.
  destruct (getOrderByOrderId orderId d) as [o|] eqn:Ho.
  2:{ unfold unarchiveOrder. rewrite Ho. cbn. repeat split; done. }
  destruct (decide (Order.status o ≠ OrderStatus.archived)) as [Hs|Hs].
  { unfold unarchiveOrder. rewrite Ho, decide_True by done. cbn.
    repeat split; done. }
  assert (Order.status o = OrderStatus.archived) as Harch.
  { by destruct (decide (Order.status o = OrderStatus.archived)). }
  rewrite (unarchiveOrder_db orderId d o Ho Harch).
  rewrite mirror_unarchive_loop by done.
  destruct (unarchive_loop (lineItemsOfOrder orderId d) d) as (Ht & Hor & Hl).
  unfold setOrderStatus, set_orders. cbn [fst snd tasks orders order_line_items].
  rewrite Ht, Hor, Hl.
  split; [done|]. split; [done|]. split; [done|].
  intros newStatus [= <-]. split; [done|].
  rewrite getOrderByOrderId_status, Ho. cbn.
  by rewrite decide_True by by eapply getOrderByOrderId_id.
Qed.

Lemma mirror_unarchive_agrees_witness :
  (Mirror.unarchiveOrder "o3" driftedDb).2 = (unarchiveOrder "o3" driftedDb).2.
Proof.
  apply mirror_unarchive_agrees.
  - apply (bool_decide_unpack _). by vm_compute.
  - apply (bool_decide_unpack _). by vm_compute.
  - apply (bool_decide_unpack _). by vm_compute.
Defined.
